(* ===== verification/_CoqProject ===== *)
-Q . S2P
Prelude.v
Unicode.v
Utf8.v
Collation.v
SqlRead.v
SqlWrite.v
Types.v
TypeInfoCodec.v
NumericCodec.v
Temporal.v
Money.v
Floats.v
Context.v
ColumnDecode.v
ColumnEncode.v
MoneyRoundtrip.v
TimeEq.v
ColumnRoundtrip.v
PreLogin.v
VariantRoundtrip.v
ParamRoundtrip.v
Metadata.v
Rows.v
Identifiers.v
Config.v
Builder.v
Trust.v
Browser.v
Requests.v
Tokens.v
Messages.v
Login.v
Handshake.v
TokenStream.v
Results.v
Access.v
Chrono.v
TimeCrate.v
Decimals.v
Packet.v
Connection.v
Sources.v
Reader.v
Tls.v
Transport.v
Client.v
BulkLoad.v
Session.v
Establish.v
Convert.v
Derive.v
Views.v
Api.v
