(* ===== verification/Prelude.v ===== *)
(** * Tiberius: a verification development of the TDS client

    Tiberius is a client of Microsoft SQL Server: it speaks the TDS protocol
    over any asynchronous byte stream.  A [Client] turns calls into request
    messages, a [Connection] cuts them into packets and writes them, reads the
    packets of the response, and a token stream decodes the response into
    rows, counts, errors and changes of the session.  This development models
    that path, in both directions, as executable functions, and proves what
    makes it correct.

    ** Conventions

    - Bytes, characters and integers are [Z]; a width is a wrap-around written
      out, a cast, or a range predicate ([in_unsigned], [in_signed]).  [f32]
      and [f64] travel as their bit patterns; arithmetic on [f64] is that of
      [SpecFloat].
    - [Res] is [crate::Result] with two more outcomes: [Panic] is a Rust panic
      (an index out of range, a failed assertion, an overflow where [oc], the
      overflow-check flag of the build, is set) and [OutOfFuel] is the end of
      the fuel of a loop.  Theorems on totality exclude both.
    - [M S] is the state and error monad of the decoders (state: the unread
      bytes) and the encoders (state: the bytes written).  [decodes c out x]
      says that [c] reads [x] from [out] and leaves what follows; [appends w
      out] that [w] writes exactly [out]; [safe c P] that on any bytes [c]
      ends in an error or a value in [P], without a panic, and consumes a
      prefix.  The round trips and the totality theorems are stated with them.
    - The fuel of a loop is the number of unread bytes (every round of a
      decoder consumes at least one), of unread packets, or of characters left
      in a text, plus one; the lemmas of each file show that it is enough.

    ** Parameters

    Code that is not under src/ is a parameter with the documented behaviour
    the code relies on as its laws, and an instance that satisfies them:
    [EncodingRs] (the code pages of encoding_rs, Collation.v; instance
    [ascii_encoding_rs]), [powi10] ([f64::powi], Money.v), [alnum] and
    [to_lowercase] (Unicode tables, Identifiers.v and Client.v), the TLS
    handshake of the backends (PreLogin.v), the security packages (Handshake.v),
    name resolution and sockets (Browser.v), the chrono and time crates
    (classes [Chrono] and [TimeCrate]), rust_decimal and bigdecimal (classes of
    Decimals.v), the JDBC tokenizer (Config.v), files, PEM, certificates and
    the TLS libraries (class [Outside], Trust.v), what the polls of a TLS
    library ask of the stream below it and answer (class [TlsLibrary],
    Transport.v; instance [xor_library]), the names of encodings (Messages.v),
    and the transport below the TLS wrapper, a list of what its polls answer
    (Tls.v).

    ** Files and sources

    - Prelude.v: results, the monad, the predicates above, integers, lists.
      Error kinds of src/error.rs.
    - Unicode.v, Utf8.v: UTF-16 and UTF-8, decimal numerals.
    - Collation.v: src/tds/collation.rs.  SqlRead.v, SqlWrite.v:
      src/sql_read_bytes.rs and the buffer writes of the bytes crate.  The
      trait [SqlReadBytes] is a class: every decoder is written over any source
      of bytes, of which a list is one (the theorems on decoders are about it)
      and a [Connection] another (Reader.v).
    - Types.v, TypeInfoCodec.v: src/tds/codec/type_info.rs and the data types
      of column_data.rs, numeric.rs, time.rs, xml.rs.
    - NumericCodec.v, Temporal.v, Money.v: src/tds/numeric.rs, src/tds/time.rs,
      src/tds/codec/column_data/money.rs.  TimeEq.v: the comparison of times.
      Floats.v: what the [f64] operations of these files compute, exactly.
    - Context.v: src/tds/context.rs.
    - ColumnDecode.v, ColumnEncode.v: src/tds/codec/column_data.rs and
      column_data/*.rs.  ColumnRoundtrip.v, VariantRoundtrip.v,
      ParamRoundtrip.v, MoneyRoundtrip.v: decoding what is encoded, for rows,
      sql_variant, RPC parameters and money.
    - Metadata.v, Rows.v, Tokens.v: src/tds/codec/token/*.rs.
    - TokenStream.v: src/tds/stream/token.rs.  Results.v: stream/query.rs,
      stream/command.rs, src/result.rs, src/row.rs, src/from_sql.rs.
      Access.v: their accessors, RowBuilder, streams of rows.
    - PreLogin.v, Login.v: src/tds/codec/pre_login.rs, login.rs and the
      negotiation of src/client/connection.rs.
    - Requests.v: batch_request.rs, transaction_manager.rs, rpc_request.rs,
      type_info_tvp.rs, with the server's parsers as reference definitions.
    - Packet.v, Connection.v: src/tds/codec/packet.rs, header.rs, decode.rs,
      encode.rs, src/client/connection.rs.  Sources.v: a decoder gives the
      same on two sources whose reads give the same.  Reader.v: the token
      stream over a connection, where every read of a decoder is a [poll_read].
      BulkLoad.v: bulk_load.rs.
    - Identifiers.v, Client.v: src/client.rs, src/query.rs, src/command.rs,
      src/bulk_options.rs: what the requests are.  Session.v: the handlers
      whole, request and answer, as a dialogue ([World]); Api.v: any sequence
      of calls, whole bulk inserts among them; Establish.v: [Client::connect].
    - Convert.v: src/to_sql.rs, src/from_sql.rs, src/macros.rs, into_row.rs,
      the builders [Query] and [Command].  Derive.v: tiberius-macros/.
    - Messages.v: Display of collations and of the ENVCHANGE, DONE and ERROR
      tokens, the errors of a rejected connection string
      (src/client/config.rs), the From conversions of src/error.rs.  Views.v:
      the small constructors and accessors of the public types.
    - Chrono.v, TimeCrate.v: src/tds/time/chrono.rs, time.rs.  Decimals.v: the
      conversions of src/tds/numeric.rs.
    - Config.v, Builder.v: src/client/config.rs, config/*.rs, auth.rs.
      Trust.v: src/client/tls_stream/*.rs.  Browser.v:
      src/sql_browser.rs and sql_browser/*.rs.  Tls.v: src/client/tls.rs.
      Transport.v: the stack of streams of src/client/tls.rs, tls_stream.rs and
      connection.rs.
      Handshake.v: [establish], [prelogin] and [login] of
      src/client/connection.rs.

    ** State

    [Context] (Context.v) is the session; [Stream] (TokenStream.v) is a
    response being read: the unread bytes, the session, the first error;
    [Connection] (Connection.v) is the transport: the bytes written, the
    unread packets, the read buffer, the flags [poisoned], [desync],
    [flushed].  An operation that awaits a write takes a script that says
    whether the write completes, fails, or the future is dropped after some
    bytes; the transport invariant quantifies over all scripts.  [World]
    (Session.v) is a client in dialogue: its connection, the script of its
    writes and the answers the server will give, one for every whole message.

    ** What the theorems show

    - The wire is never torn (Connection.wire_never_torn): over all sequences
      of operations and interruptions.  A bulk load is one message, or poisons
      the connection (BulkLoad).  So it is for every sequence of public calls
      (Api.api_never_torn), with one exception: a bulk request that was given
      rows and is dropped without [finalize] leaves its message open on a
      connection that stays usable (BulkLoad.bulk_dropped_between_sends).
    - A client is a session machine: connect, then any dialogue of queries,
      batches and transaction requests, with answers cut into any packets and
      read as far as the caller likes, sends the messages, gives the results
      and keeps the session of a machine that sees only whole messages
      (Establish.connect_refines, Session.session_refines); every request is
      made in the transaction the server last named
      (Session.session_transactions); a cancelled query leaves the connection
      clean (Api.cancel_recovers).
    - Anything a server sends is handled: the decoders of column values, types
      and tokens, and the token stream, end in a value in range or an error
      (ColumnDecode.column_decode_total, TokenStream.next_token_total); no token
      reaches behind its declared length; packets decode independently of how the
      transport cuts them (Packet.codec_incremental); reading through packets
      refines reading the concatenated payloads, token by token
      (Reader.reader_refines).
    - Round trips: column values, parameters, sql_variant, types, metadata,
      rows, decimals and their texts, temporal values, money (MoneyRoundtrip,
      with the [f64] in between), the types of the date
      and decimal crates, packets, PRELOGIN, and every request against a
      parser written from the protocol (an untyped null parameter is read as a
      null integer); a Rust value bound as a parameter or
      put into a bulk row, by itself or in a tuple of up to ten, is the value
      a reader of the same type gets (Convert); the date crates agree (TimeCrate); a derived table row binds
      every field in order, and a struct the derive does not fit is a compile
      error (Derive).  An NBCROW is its ROW, but for null smalldatetimes (Rows).  Times of different scales are equal
      exactly when they are the same moment (TimeEq).
    - Session state and results: the context is the replay of the tokens
      handed out, with the first server error kept (TokenStream.context_replay);
      [flush_done], the attention drain and the timeout, a timer over the
      instants of the polls, are characterised; rows
      are grouped by result set and are as wide as their columns (Results).
    - Security: encryption is never downgraded below what is configured
      (PreLogin), interpolated names are exactly those of a grammar
      (Identifiers), columns and collations of a bulk insert are quoted or
      validated (Metadata, Client).
    - End to end: a query, a batch or a transaction request of [Client] on a
      connection with an unread response reaches the server as one message
      that reads back as what was asked (Client).
    - Configuration and handshake: the connection-string tokenizer reads back
      what its rules let one write, no string gets around the encryption and
      trust guards, and the login carries the configuration inside TLS (Config,
      Handshake); the wrapper of the TLS handshake, polled in any way, hands
      over exactly the payloads and makes progress (Tls), so that a TLS library
      sees a plain stream during the handshake and the bare socket after it
      (Transport.handshake_transparent, transport_stages); a forged browser
      reply is handled (Browser); each of the three TLS backends is told to check
      the certificate and the configured name unless the string says otherwise,
      against the system roots and exactly the CA file it names (Trust); the order of a builder's calls does not
      matter (Builder); the error of a rejected connection string holds nothing of
      the string (Messages.ado_error_constant).

    ** Not modelled

    The asynchronous runtime (an operation is what its polls do in order, with
    the interruptions above); TLS record processing and the checking of
    certificates (Trust.v says what the libraries are given); the inside of the
    security packages; serde; Debug texts other than that of decimals; the
    Display of [Error], which its derive writes; the interpolated arguments of
    error messages; zeroizing of secrets; tracing; the macro that expands the
    integration tests. *)

From Stdlib Require Export ZArith Lia List String Bool.
From stdpp Require Export base list gmap.
Export ListNotations.

#[export] Set Default Proof Using "Type".
#[global] Open Scope Z_scope.

(** ** Results

    [crate::Result<T>] is [Res T].  The error values keep the constructor of
    [crate::Error] and the constant part of its message; interpolated
    arguments of a message are dropped.  [Panic] is a Rust panic (a failed
    [assert!], an index out of range, a checked arithmetic overflow);
    [OutOfFuel] is no value of the program: it is what a loop of the model
    returns when its fuel runs out, and theorems show it is not returned. *)

(** A Rust [String]/[str] is the list of its Unicode scalar values. *)
Notation str := (list Z) (only parsing).
Notation bytes := (list Z) (only parsing).

Inductive IoErrorKind := UnexpectedEof | InvalidData | InvalidInput | NotFound | TimedOut | BrokenPipe | OtherIo.

(** An ERROR token of the server, the payload of [Error::Server]. *)
Record TokenError := mkTokenError {
  te_code : Z;
  te_state : Z;
  te_class : Z;
  te_message : str;
  te_server : str;
  te_procedure : str;
  te_line : Z;
}.

Inductive Error :=
| Io (kind : IoErrorKind)
| Protocol (msg : string)
| Encoding (msg : string)
| Conversion (msg : string)
| Utf8
| Utf16
| ParseInt
| Server (e : TokenError)
| Tls (msg : string)
| Routing (host : str) (port : Z)
| BulkInput (msg : string).

(** [Error::code]: the server's error number, for an error of the server. *)
Definition error_code (e : Error) : option Z :=
  match e with Server te => Some (te_code te) | _ => None end.

(** [Error::is_deadlock]: SQL Server reports a deadlock victim as 1205. *)
Definition is_deadlock (e : Error) : bool :=
  match error_code e with Some c => c =? 1205 | None => false end.

Inductive Res (A : Type) :=
| Ok (a : A)
| Err (e : Error)
| Panic
| OutOfFuel.
Arguments Ok {A} a.
Arguments Err {A} e.
Arguments Panic {A}.
Arguments OutOfFuel {A}.

Definition res_map {A B} (f : A -> B) (r : Res A) : Res B :=
  match r with Ok a => Ok (f a) | Err e => Err e | Panic => Panic | OutOfFuel => OutOfFuel end.

Definition res_bind {A B} (r : Res A) (k : A -> Res B) : Res B :=
  match r with Ok a => k a | Err e => Err e | Panic => Panic | OutOfFuel => OutOfFuel end.

Lemma res_map_ok {A B} (f : A -> B) r b : res_map f r = Ok b -> exists a, r = Ok a /\ f a = b.
Proof. destruct r; intros H; [injection H as <-; eauto|discriminate..]. Qed.
Lemma res_bind_ok {A B} (r : Res A) (k : A -> Res B) b : res_bind r k = Ok b -> exists a, r = Ok a /\ k a = Ok b.
Proof. destruct r; intros H; [eauto|discriminate..]. Qed.

Definition ok_or {A} (o : option A) (e : Error) : Res A :=
  match o with Some a => Ok a | None => Err e end.

(** A result is safe for [Q] when it is an error of the program or a value
    that satisfies [Q]: neither a panic nor a loop that did not end. *)
Definition res_safe {A} (Q : A -> Prop) (r : Res A) : Prop :=
  match r with Ok a => Q a | Err _ => True | Panic | OutOfFuel => False end.

(** ** The state and error monad

    A stateful fallible operation of the source is a function of the state it
    mutates.  The state after an error is kept: what a failed operation leaves
    behind is observable (a partly written buffer, a consumed prefix). *)

Definition M (S A : Type) : Type := S -> Res A * S.

Section Monad.
Context {S : Type}.

Definition ret {A} (a : A) : M S A := fun s => (Ok a, s).

Definition bind {A B} (c : M S A) (k : A -> M S B) : M S B := fun s =>
  match c s with
  | (Ok a, s') => k a s'
  | (Err e, s') => (Err e, s')
  | (Panic, s') => (Panic, s')
  | (OutOfFuel, s') => (OutOfFuel, s')
  end.

Definition fail {A} (e : Error) : M S A := fun s => (Err e, s).
Definition panic {A} : M S A := fun s => (Panic, s).
Definition out_of_fuel {A} : M S A := fun s => (OutOfFuel, s).
Definition lift {A} (r : Res A) : M S A := fun s => (r, s).
Definition get : M S S := fun s => (Ok s, s).
Definition put (s : S) : M S unit := fun _ => (Ok tt, s).
Definition modify (f : S -> S) : M S unit := fun s => (Ok tt, f s).

(** [for _ in 0..n { v.push(c?) }] *)
Fixpoint repeat_m {A} (n : nat) (c : M S A) : M S (list A) :=
  match n with
  | O => ret []
  | Datatypes.S n => bind c (fun a => bind (repeat_m n c) (fun l => ret (a :: l)))
  end.

(** [for x in xs { v.push(f(x)?) }] *)
Fixpoint map_m {A B} (f : A -> M S B) (xs : list A) : M S (list B) :=
  match xs with
  | [] => ret []
  | x :: xs => bind (f x) (fun b => bind (map_m f xs) (fun l => ret (b :: l)))
  end.

(** [for x in xs { f(x)? }] *)
Fixpoint iter_m {A} (f : A -> M S unit) (xs : list A) : M S unit :=
  match xs with
  | [] => ret tt
  | x :: xs => bind (f x) (fun _ => iter_m f xs)
  end.
End Monad.

Declare Scope tds_scope.
Delimit Scope tds_scope with tds.
Bind Scope tds_scope with M.
#[global] Open Scope tds_scope.

Notation "x <- c ;; k" := (bind c (fun x => k))
  (at level 100, c at next level, right associativity) : tds_scope.
Notation "c ;; k" := (bind c (fun _ => k))
  (at level 100, right associativity) : tds_scope.

(** ** Machine integers

    A [w]-bit unsigned integer is a [Z] in [0 .. 2^w); the casts write the
    wrap-around out. *)

Definition wrap (w v : Z) : Z := v mod 2 ^ w.

(** [v as iN]: the two's complement reading of the low [w] bits. *)
Definition to_signed (w v : Z) : Z :=
  let u := wrap w v in if u <? 2 ^ (w - 1) then u else u - 2 ^ w.

Definition in_unsigned (w v : Z) : Prop := 0 <= v < 2 ^ w.
Definition in_signed (w v : Z) : Prop := - 2 ^ (w - 1) <= v < 2 ^ (w - 1).

Definition is_signed (w v : Z) : bool := (- 2 ^ (w - 1) <=? v) && (v <? 2 ^ (w - 1)).

(** [a.checked_add(b)] and the like on [iN]. *)
Definition checked (w v : Z) : option Z := if is_signed w v then Some v else None.

(** Plain [+], [-], [*] on [uN]: a panic with overflow checks ([oc = true],
    the default of a debug build), wrap-around without (release). *)
Definition arith_u (oc : bool) (w v : Z) : Res Z :=
  if (0 <=? v) && (v <? 2 ^ w) then Ok v else if oc then Panic else Ok (wrap w v).

(** The same on [iN]. *)
Definition arith_i (oc : bool) (w v : Z) : Res Z :=
  if is_signed w v then Ok v else if oc then Panic else Ok (to_signed w v).

(** ** Bytes *)

Definition is_byte (b : Z) : Prop := 0 <= b < 256.
Notation wf_bytes := (Forall is_byte).

(** The [n] low bytes of [v], least significant first ([to_le_bytes],
    [put_uN_le]); negative [v] gives its two's complement. *)
Fixpoint le_bytes (n : nat) (v : Z) : bytes :=
  match n with
  | O => []
  | S n => v mod 256 :: le_bytes n (v / 256)
  end.

(** [from_le_bytes] *)
Fixpoint le_val (l : bytes) : Z :=
  match l with
  | [] => 0
  | b :: l => b + 256 * le_val l
  end.

Definition be_bytes (n : nat) (v : Z) : bytes := rev (le_bytes n v).
Definition be_val (l : bytes) : Z := le_val (rev l).

(** The length of a vector as the [usize] the code sees. *)
Notation len l := (Z.of_nat (length l)).

(** [v.chunks(2)] on an even number of bytes, each pair read as a
    little-endian [u16]; a trailing odd byte is dropped, and every caller has
    rejected an odd length before. *)
Fixpoint le_units (l : bytes) : list Z :=
  match l with
  | a :: b :: l => (a + 256 * b) :: le_units l
  | _ => []
  end.

(** UTF-16 code units written as little-endian bytes. *)
Fixpoint units_bytes (us : list Z) : bytes :=
  match us with
  | [] => []
  | u :: us => le_bytes 2 u ++ units_bytes us
  end.

(** ** Lemmas: the monad *)

Section MonadLemmas.
Context {S : Type}.

Lemma bind_ok {A B} (c : M S A) (k : A -> M S B) s a s' :
  c s = (Ok a, s') -> bind c k s = k a s'.
Proof. intros H; unfold bind; rewrite H; reflexivity. Qed.

Lemma bind_err {A B} (c : M S A) (k : A -> M S B) s e s' :
  c s = (Err e, s') -> bind c k s = (Err e, s').
Proof. intros H; unfold bind; rewrite H; reflexivity. Qed.

Lemma bind_run {A B} (c : M S A) (k : A -> M S B) s :
  bind c k s = match c s with
               | (Ok a, s') => k a s'
               | (Err e, s') => (Err e, s')
               | (Panic, s') => (Panic, s')
               | (OutOfFuel, s') => (OutOfFuel, s')
               end.
Proof. reflexivity. Qed.

Lemma bind_ret_l {A B} (a : A) (k : A -> M S B) s : bind (ret a) k s = k a s.
Proof. reflexivity. Qed.

Lemma bind_assoc {A B C} (c : M S A) (k : A -> M S B) (h : B -> M S C) s :
  bind (bind c k) h s = bind c (fun a => bind (k a) h) s.
Proof. unfold bind; destruct (c s) as [[| | |] s']; reflexivity. Qed.

(** What a run that returned a value says of its first step. *)
Lemma bind_ok_inv {A B} (c : M S A) (k : A -> M S B) s b s2 :
  bind c k s = (Ok b, s2) -> exists a s1, c s = (Ok a, s1) /\ k a s1 = (Ok b, s2).
Proof.
  unfold bind; destruct (c s) as [[a| | |] s1]; intros H; try discriminate.
  exists a, s1; auto.
Qed.
End MonadLemmas.

(** ** Decoders and encoders over a byte buffer

    A decoder of the source reads from the front of a buffer, an encoder
    appends to the end of one; both are [M bytes]. *)

(** [c] reads exactly the bytes [out], whatever follows them, and returns
    [x]. *)
Definition decodes {A} (c : M bytes A) (out : bytes) (x : A) : Prop :=
  forall rest, c (out ++ rest) = (Ok x, rest).

(** [w] appends exactly [out] to the buffer, whatever precedes it. *)
Definition appends (w : M bytes unit) (out : bytes) : Prop :=
  forall dst, w dst = (Ok tt, dst ++ out).

(** [c] on any bytes ends without a panic, consumes a prefix of them, and a
    value it returns satisfies [Q]. *)
Definition safe {A} (c : M bytes A) (Q : A -> Prop) : Prop :=
  forall buf, wf_bytes buf -> exists r buf',
    c buf = (r, buf') /\ res_safe Q r /\ suffix buf' buf.

Section BufferLemmas.

Lemma decodes_eq {A} (c : M bytes A) out out' x :
  decodes c out x -> out' = out -> decodes c out' x.
Proof. intros H ->; exact H. Qed.

Lemma decodes_ret {A} (x : A) : decodes (ret x) [] x.
Proof. intros rest; reflexivity. Qed.

Lemma decodes_bind {A B} (c : M bytes A) (k : A -> M bytes B) o1 o2 a b :
  decodes c o1 a -> decodes (k a) o2 b -> decodes (bind c k) (o1 ++ o2) b.
Proof.
  intros H1 H2 rest. rewrite <- app_assoc.
  rewrite (bind_ok _ _ _ _ _ (H1 _)). apply H2.
Qed.

(** A step that reads nothing, and a last step that only checks. *)
Lemma decodes_bind_nil {A B} (c : M bytes A) (k : A -> M bytes B) o a b :
  decodes c [] a -> decodes (k a) o b -> decodes (bind c k) o b.
Proof. intros H1 H2. apply (decodes_bind _ _ [] o a b H1 H2). Qed.

Lemma decodes_bind_last {A B} (c : M bytes A) (k : A -> M bytes B) o a b :
  decodes c o a -> decodes (k a) [] b -> decodes (bind c k) o b.
Proof. intros H1 H2. rewrite <- (app_nil_r o). apply (decodes_bind _ _ o [] a b H1 H2). Qed.

(** A decoder that ends a sequence needs no empty tail. *)
Lemma decodes_bind_ret {A B} (c : M bytes A) (f : A -> B) o a :
  decodes c o a -> decodes (bind c (fun x => ret (f x))) o (f a).
Proof. intros H rest. rewrite (bind_ok _ _ _ _ _ (H _)). reflexivity. Qed.

Lemma decodes_bind_ret_eq {A B} (c : M bytes A) (f : A -> B) o a b :
  decodes c o a -> b = f a -> decodes (bind c (fun x => ret (f x))) o b.
Proof. intros H ->. apply decodes_bind_ret, H. Qed.

Lemma decodes_lift {A} (x : A) (r : Res A) : r = Ok x -> decodes (lift r) [] x.
Proof. intros -> rest; reflexivity. Qed.

Lemma decodes_map_m {A B} (f : A -> M bytes B) (g : A -> bytes) (h : A -> B) xs :
  Forall (fun x => decodes (f x) (g x) (h x)) xs ->
  decodes (map_m f xs) (concat (map g xs)) (map h xs).
Proof.
  induction 1 as [|x xs Hx _ IH]; cbn [map_m map concat].
  - apply decodes_ret.
  - eapply decodes_bind; [exact Hx|]. apply (decodes_bind_ret _ (fun l => h x :: l)), IH.
Qed.

Lemma decodes_repeat_m {A} (c : M bytes A) (g : A -> bytes) xs :
  Forall (fun x => decodes c (g x) x) xs ->
  decodes (repeat_m (length xs) c) (concat (map g xs)) xs.
Proof.
  induction 1 as [|x xs Hx _ IH]; cbn [repeat_m length map concat].
  - apply decodes_ret.
  - eapply decodes_bind; [exact Hx|]. apply (decodes_bind_ret _ (fun l => x :: l)), IH.
Qed.

Lemma appends_eq w out out' : appends w out -> out' = out -> appends w out'.
Proof. intros H ->; exact H. Qed.

Lemma appends_ret : appends (ret tt) [].
Proof. intros dst; rewrite app_nil_r; reflexivity. Qed.

Lemma appends_bind w1 w2 o1 o2 :
  appends w1 o1 -> appends w2 o2 -> appends (bind w1 (fun _ => w2)) (o1 ++ o2).
Proof.
  intros H1 H2 dst. rewrite (bind_ok _ _ _ _ _ (H1 _)), H2, app_assoc. reflexivity.
Qed.

Lemma appends_bind_nil w1 w2 o :
  appends w1 [] -> appends w2 o -> appends (bind w1 (fun _ => w2)) o.
Proof. intros H1 H2. apply (appends_bind w1 w2 [] o H1 H2). Qed.

(** A step that computes a value without writing. *)
Lemma appends_lift {A} (r : Res A) a (k : A -> M bytes unit) o :
  r = Ok a -> appends (k a) o -> appends (bind (lift r) k) o.
Proof. intros -> H. exact H. Qed.

Lemma appends_iter_m {A} (f : A -> M bytes unit) (g : A -> bytes) xs :
  Forall (fun x => appends (f x) (g x)) xs ->
  appends (iter_m f xs) (concat (map g xs)).
Proof.
  induction 1 as [|x xs Hx _ IH]; cbn [iter_m map concat].
  - apply appends_ret.
  - apply appends_bind; assumption.
Qed.

Lemma safe_ret {A} (x : A) (Q : A -> Prop) : Q x -> safe (ret x) Q.
Proof. intros H buf Hb; exists (Ok x), buf; repeat split; auto. Qed.

Lemma safe_fail {A} e (Q : A -> Prop) : safe (fail e) Q.
Proof. intros buf Hb; exists (Err e), buf; repeat split; auto. Qed.

Lemma safe_lift {A} (r : Res A) (Q : A -> Prop) : res_safe Q r -> safe (lift r) Q.
Proof. intros H buf Hb; exists r, buf; repeat split; auto. Qed.

Lemma suffix_wf (b b' : bytes) : suffix b' b -> wf_bytes b -> wf_bytes b'.
Proof. intros [k ->] H; apply Forall_app in H; tauto. Qed.

Lemma safe_bind {A B} (c : M bytes A) (k : A -> M bytes B) Q R :
  safe c Q -> (forall a, Q a -> safe (k a) R) -> safe (bind c k) R.
Proof.
  intros Hc Hk buf Hb. destruct (Hc buf Hb) as (r & b1 & E & Hr & Hs).
  unfold bind; rewrite E. destruct r as [a|e| |]; cbn in Hr; try tauto.
  - destruct (Hk a Hr b1 (suffix_wf _ _ Hs Hb)) as (r2 & b2 & E2 & Hr2 & Hs2).
    exists r2, b2; rewrite E2; repeat split; auto. etrans; eauto.
  - exists (Err e), b1; auto.
Qed.

Lemma safe_weaken {A} (c : M bytes A) (Q R : A -> Prop) :
  safe c Q -> (forall a, Q a -> R a) -> safe c R.
Proof.
  intros Hc HQ buf Hb. destruct (Hc buf Hb) as (r & b1 & E & Hr & Hs).
  exists r, b1; repeat split; auto. destruct r; cbn in *; auto.
Qed.

Lemma safe_map_m {A B} (f : A -> M bytes B) (P : A -> Prop) (Q : B -> Prop) xs :
  (forall x, P x -> safe (f x) Q) -> Forall P xs ->
  safe (map_m f xs) (fun l => Forall Q l /\ length l = length xs).
Proof.
  intros Hf; induction 1 as [|x xs Hx _ IH]; cbn [map_m].
  - apply safe_ret; split; constructor.
  - eapply safe_bind; [apply Hf, Hx|intros b Hb].
    eapply safe_bind; [exact IH|intros l [Hl Hn]].
    apply safe_ret; split; [constructor; auto|cbn; congruence].
Qed.

Lemma safe_repeat_m {A} (c : M bytes A) (Q : A -> Prop) n :
  safe c Q -> safe (repeat_m n c) (fun l => Forall Q l /\ length l = n).
Proof.
  intros Hc; induction n as [|n IH]; cbn [repeat_m].
  - apply safe_ret; split; constructor.
  - eapply safe_bind; [exact Hc|intros b Hb].
    eapply safe_bind; [exact IH|intros l [Hl Hn]].
    apply safe_ret; split; [constructor; auto|cbn; congruence].
Qed.
End BufferLemmas.

(** The safety lemmas of the decoders, and their round trips. *)
Create HintDb tds_safe discriminated.
Create HintDb tds_decodes discriminated.

(** ** Lemmas: machine integers and their bytes *)

Lemma arith_u_in oc w v : in_unsigned w v -> arith_u oc w v = Ok v.
Proof.
  intros [H1 H2]. unfold arith_u. rewrite (proj2 (Z.leb_le _ _)), (proj2 (Z.ltb_lt _ _)) by assumption. reflexivity.
Qed.

Lemma wrap_small w v : in_unsigned w v -> wrap w v = v.
Proof. unfold in_unsigned, wrap; intros; apply Z.mod_small; lia. Qed.

Lemma wrap_range w v : 0 <= w -> in_unsigned w (wrap w v).
Proof. intros; unfold in_unsigned, wrap; apply Z.mod_pos_bound, Z.pow_pos_nonneg; lia. Qed.

Lemma pow2_double w : 0 < w -> 2 ^ w = 2 * 2 ^ (w - 1).
Proof. intros; rewrite <- Z.pow_succ_r by lia; f_equal; lia. Qed.

(** A signed integer is recovered from its two's complement. *)
Lemma to_signed_wrap w v : 0 < w -> in_signed w v -> to_signed w (wrap w v) = v.
Proof.
  intros Hw [H1 H2]. unfold to_signed, wrap.
  rewrite Z.mod_mod by (apply Z.pow_nonzero; lia).
  pose proof (pow2_double w Hw) as Hd.
  destruct (decide (0 <= v)) as [Hv|Hv].
  - rewrite (Z.mod_small v) by lia. destruct (Z.ltb_spec v (2 ^ (w - 1))); lia.
  - replace (v mod 2 ^ w) with (v + 2 ^ w)
      by (rewrite <- (Z.mod_small (v + 2 ^ w) (2 ^ w)) by lia;
          rewrite <- (Z.mul_1_l (2 ^ w)) at 1; apply Z.mod_add; apply Z.pow_nonzero; lia).
    destruct (Z.ltb_spec (v + 2 ^ w) (2 ^ (w - 1))); lia.
Qed.

Lemma to_signed_range w v : 0 < w -> in_signed w (to_signed w v).
Proof.
  intros Hw. unfold in_signed, to_signed. pose proof (pow2_double w Hw).
  pose proof (wrap_range w v ltac:(lia)) as Hr; unfold in_unsigned in Hr.
  destruct (Z.ltb_spec (wrap w v) (2 ^ (w - 1))); lia.
Qed.

Lemma to_signed_in w v : 0 < w -> in_signed w v -> to_signed w v = v.
Proof. intros Hw H. rewrite <- (to_signed_wrap w v Hw H) at 2. unfold to_signed, wrap. rewrite Zmod_mod. reflexivity. Qed.

Lemma to_signed_small w v : 0 < w -> 0 <= v < 2 ^ (w - 1) -> to_signed w v = v.
Proof.
  intros Hw Hv. pose proof (pow2_double w Hw). unfold to_signed.
  rewrite wrap_small by (unfold in_unsigned; lia).
  destruct (Z.ltb_spec v (2 ^ (w - 1))); lia.
Qed.

Lemma is_signed_spec w v : is_signed w v = true <-> in_signed w v.
Proof. unfold is_signed, in_signed; rewrite andb_true_iff, Z.leb_le, Z.ltb_lt; tauto. Qed.

Lemma length_le_bytes n v : length (le_bytes n v) = n.
Proof. revert v; induction n; cbn; auto. Qed.

Lemma length_be_bytes n v : length (be_bytes n v) = n.
Proof. unfold be_bytes; rewrite length_rev; apply length_le_bytes. Qed.

Lemma le_bytes_wf n v : wf_bytes (le_bytes n v).
Proof.
  revert v; induction n; cbn; constructor; auto.
  unfold is_byte; apply Z.mod_pos_bound; lia.
Qed.

Lemma be_bytes_wf n v : wf_bytes (be_bytes n v).
Proof. apply Forall_rev, le_bytes_wf. Qed.

Lemma pow2_bytes n : 2 ^ (8 * Z.of_nat (S n)) = 256 * 2 ^ (8 * Z.of_nat n).
Proof.
  replace (8 * Z.of_nat (S n)) with (8 + 8 * Z.of_nat n) by lia.
  rewrite Z.pow_add_r by lia; reflexivity.
Qed.

(** Writing an integer and reading it back keeps its low bytes. *)
Lemma le_val_bytes n v : le_val (le_bytes n v) = wrap (8 * Z.of_nat n) v.
Proof.
  revert v; induction n as [|n IH]; intros v; cbn [le_bytes le_val].
  - unfold wrap; cbn; rewrite Z.mod_1_r; reflexivity.
  - rewrite IH; unfold wrap; rewrite pow2_bytes.
    rewrite Z.rem_mul_r by (try apply Z.pow_nonzero; try apply Z.pow_pos_nonneg; lia). lia.
Qed.

Lemma be_val_bytes n v : be_val (be_bytes n v) = wrap (8 * Z.of_nat n) v.
Proof. unfold be_val, be_bytes; rewrite rev_involutive; apply le_val_bytes. Qed.

Lemma le_val_range l : wf_bytes l -> in_unsigned (8 * len l) (le_val l).
Proof.
  unfold in_unsigned. induction 1 as [|b l Hb _ IH]; cbn [le_val length].
  - cbn; lia.
  - rewrite pow2_bytes; unfold is_byte in Hb; lia.
Qed.

Lemma be_val_range l : wf_bytes l -> in_unsigned (8 * len l) (be_val l).
Proof.
  intros H; unfold be_val. rewrite <- length_rev.
  apply le_val_range, Forall_rev, H.
Qed.

(** Reading an integer and writing it back gives the bytes that were read. *)
Lemma le_bytes_val l : wf_bytes l -> le_bytes (length l) (le_val l) = l.
Proof.
  induction 1 as [|b l Hb _ IH]; cbn [le_val length le_bytes]; [reflexivity|].
  unfold is_byte in Hb. f_equal.
  - rewrite Z.mul_comm, Z.mod_add by lia; apply Z.mod_small; lia.
  - rewrite Z.mul_comm, Z.div_add by lia.
    rewrite Z.div_small by lia; exact IH.
Qed.

Lemma le_bytes_wrap n v : le_bytes n (wrap (8 * Z.of_nat n) v) = le_bytes n v.
Proof.
  rewrite <- le_val_bytes. rewrite <- (length_le_bytes n v) at 1.
  apply le_bytes_val, le_bytes_wf.
Qed.

Lemma le_bytes_split n m v :
  le_bytes (n + m) v = le_bytes n v ++ le_bytes m (v / 2 ^ (8 * Z.of_nat n)).
Proof.
  revert v; induction n as [|n IH]; intros v.
  - cbn. rewrite Z.div_1_r. reflexivity.
  - change (v mod 256 :: le_bytes (n + m) (v / 256) =
            v mod 256 :: (le_bytes n (v / 256) ++ le_bytes m (v / 2 ^ (8 * Z.of_nat (S n))))).
    rewrite IH, pow2_bytes, Z.div_div by (try apply Z.pow_pos_nonneg; lia). reflexivity.
Qed.

Lemma le_val_app a b : le_val (a ++ b) = le_val a + 2 ^ (8 * len a) * le_val b.
Proof.
  induction a as [|x a IH]; cbn [app le_val length]; [|rewrite IH, pow2_bytes]; lia.
Qed.

(** ** Lemmas: lists *)

Lemma len_nonneg {A} (l : list A) : 0 <= len l.
Proof. lia. Qed.

Lemma le_units_bytes us : Forall (in_unsigned 16) us -> le_units (units_bytes us) = us.
Proof.
  unfold in_unsigned; induction 1 as [|u us Hu _ IH]; cbn [units_bytes le_bytes app le_units]; auto.
  rewrite IH; f_equal. rewrite (Z.mod_small (u / 256)).
  - pose proof (Z.div_mod u 256); lia.
  - split; [apply Z.div_pos; lia|apply Z.div_lt_upper_bound; lia].
Qed.

Lemma length_units_bytes us : length (units_bytes us) = (2 * length us)%nat.
Proof. induction us; cbn [units_bytes]; rewrite ?length_app, ?length_le_bytes; cbn; lia. Qed.

Lemma units_bytes_wf us : wf_bytes (units_bytes us).
Proof. induction us; cbn [units_bytes]; [constructor|apply Forall_app; split; auto using le_bytes_wf]. Qed.

Lemma units_bytes_app a b : units_bytes (a ++ b) = units_bytes a ++ units_bytes b.
Proof. induction a; cbn [units_bytes app]; [|rewrite IHa, app_assoc]; reflexivity. Qed.

Lemma length_le_units l : length (le_units l) = Nat.div2 (length l).
Proof.
  revert l; fix IH 1; intros [|a [|b l]]; cbn; auto.
Qed.

Lemma le_units_range l : wf_bytes l -> Forall (in_unsigned 16) (le_units l).
Proof.
  revert l; fix IH 1; intros [|a [|b l]] H; cbn; try constructor.
  - inversion_clear H as [|? ? Ha H']; inversion_clear H' as [|? ? Hb Hl].
    unfold in_unsigned, is_byte in *; lia.
  - apply IH; inversion_clear H as [|? ? Ha H']; inversion_clear H'; auto.
Qed.

(** Decides the closed integer comparisons of a goal. *)
Ltac eval_test e :=
  let v := eval vm_compute in e in
  match v with true => change e with true | false => change e with false end.
Ltac eval_tests :=
  repeat match goal with
  | |- context [?a =? ?b] => eval_test (a =? b)
  | |- context [?a <? ?b] => eval_test (a <? b)
  | |- context [?a <=? ?b] => eval_test (a <=? b)
  end; cbv iota; cbn [negb andb orb].

(** The bytes of an integer stay folded under simplification. *)
#[global] Arguments le_bytes : simpl never.
#[global] Arguments be_bytes : simpl never.

(** ** Positions *)

(** [Iterator::position] *)
Fixpoint position_of {A} (f : A -> bool) (l : list A) : option nat :=
  match l with
  | [] => None
  | a :: l => if f a then Some 0%nat else option_map S (position_of f l)
  end.

Lemma position_of_Some {A} (f : A -> bool) l : forall i, position_of f l = Some i ->
  (exists a, l !! i = Some a /\ f a = true) /\ forall j a, (j < i)%nat -> l !! j = Some a -> f a = false.
Proof.
  induction l as [|x l IH]; intros i H; [discriminate|]. cbn in H. destruct (f x) eqn:F.
  - injection H as <-. split; [exists x; auto|]. intros j a Hj. lia.
  - destruct (position_of f l) as [k|]; [|discriminate]. injection H as <-. destruct (IH k eq_refl) as [(a & L & Fa) M]. split; [eauto|].
    intros [|j] b Hj Hb; [injection Hb as <-; exact F|]. apply (M j); [lia|exact Hb].
Qed.

Lemma position_of_None {A} (f : A -> bool) l : position_of f l = None -> forall a, In a l -> f a = false.
Proof.
  induction l as [|x l IH]; intros H a Ha; [destruct Ha|]. cbn in H. destruct (f x) eqn:F; [discriminate|].
  destruct (position_of f l); [discriminate|]. destruct Ha as [<-|Ha]; auto.
Qed.
