(* ===== verification/Unicode.v ===== *)
(** * Unicode: the UTF-16 conversions of the Rust standard library

    The driver moves every [nvarchar], identifier, server message and LOGIN7
    string through [str::encode_utf16], [String::from_utf16] and
    [char::decode_utf16].  They are written out here from their documented
    behaviour, since the round trips of the codecs rest on them. *)

From S2P Require Import Prelude.

(** The code units that are halves of a surrogate pair. *)
Definition is_surrogate (u : Z) : bool := (0xD800 <=? u) && (u <=? 0xDFFF).
Definition is_low_surrogate (u : Z) : bool := (0xDC00 <=? u) && (u <=? 0xDFFF).

(** A Rust [char]: a Unicode scalar value. *)
Definition is_scalar (c : Z) : bool := (0 <=? c) && (c <=? 0x10FFFF) && negb (is_surrogate c).
Notation wf_str := (Forall (fun c => is_scalar c = true)).

(** [char::encode_utf16] *)
Definition char_utf16 (c : Z) : list Z :=
  if c <? 0x10000 then [c]
  else [0xD800 + (c - 0x10000) / 0x400; 0xDC00 + (c - 0x10000) mod 0x400].

(** [str::encode_utf16] *)
Definition encode_utf16 (s : str) : list Z := concat (map char_utf16 s).

(** [char::decode_utf16]: one item per character; [None] is a unit that is
    not part of a pair.  The unit after a lone high half is looked at again. *)
Fixpoint decode_utf16 (us : list Z) : list (option Z) :=
  match us with
  | [] => []
  | u :: rest =>
      if negb (is_surrogate u) then Some u :: decode_utf16 rest
      else if is_low_surrogate u then None :: decode_utf16 rest
      else match rest with
           | [] => [None]
           | u2 :: rest' =>
               if is_low_surrogate u2
               then Some (0x10000 + (u - 0xD800) * 0x400 + (u2 - 0xDC00)) :: decode_utf16 rest'
               else None :: decode_utf16 rest
           end
  end.

(** [collect::<Result<String, _>>()] *)
Fixpoint collect_chars (l : list (option Z)) : option str :=
  match l with
  | [] => Some []
  | None :: _ => None
  | Some c :: l => match collect_chars l with Some s => Some (c :: s) | None => None end
  end.

(** [String::from_utf16] *)
Definition from_utf16 (us : list Z) : option str := collect_chars (decode_utf16 us).

(** [String::from_utf16_lossy]: U+FFFD for every unpaired unit. *)
Definition from_utf16_lossy (us : list Z) : str :=
  map (fun o => match o with Some c => c | None => 0xFFFD end) (decode_utf16 us).

(** The length in bytes of the UTF-8 form of a string, [str::len]. *)
Definition char_len_utf8 (c : Z) : Z :=
  if c <? 0x80 then 1 else if c <? 0x800 then 2 else if c <? 0x10000 then 3 else 4.
Definition str_len (s : str) : Z := fold_right (fun c n => char_len_utf8 c + n) 0 s.

(** ** Lemmas *)

Ltac bool_Z :=
  repeat match goal with
  | H : _ && _ = true |- _ => apply andb_true_iff in H; destruct H
  | H : negb _ = true |- _ => apply negb_true_iff in H
  | H : _ && _ = false |- _ => apply andb_false_iff in H
  | H : (_ <=? _) = true |- _ => apply Z.leb_le in H
  | H : (_ <=? _) = false |- _ => apply Z.leb_gt in H
  | H : (_ <? _) = true |- _ => apply Z.ltb_lt in H
  | H : (_ <? _) = false |- _ => apply Z.ltb_ge in H
  | H : (_ =? _) = true |- _ => apply Z.eqb_eq in H
  | H : (_ =? _) = false |- _ => apply Z.eqb_neq in H
  | H : _ \/ _ |- _ => destruct H
  end.

Lemma is_scalar_spec c : is_scalar c = true <-> 0 <= c <= 0x10FFFF /\ ~ (0xD800 <= c <= 0xDFFF).
Proof.
  unfold is_scalar, is_surrogate. split.
  - intros H; bool_Z; lia.
  - intros H. destruct (Z.leb_spec 0 c), (Z.leb_spec c 0x10FFFF), (Z.leb_spec 0xD800 c),
      (Z.leb_spec c 0xDFFF); cbn; lia.
Qed.

Lemma decode_char_utf16 c us :
  is_scalar c = true -> decode_utf16 (char_utf16 c ++ us) = Some c :: decode_utf16 us.
Proof.
  intros Hc. apply is_scalar_spec in Hc. unfold char_utf16.
  destruct (Z.ltb_spec c 0x10000); cbn [app decode_utf16].
  - replace (is_surrogate c) with false; [reflexivity|].
    unfold is_surrogate; destruct (Z.leb_spec 0xD800 c), (Z.leb_spec c 0xDFFF); cbn; lia.
  - set (d := c - 0x10000). assert (Hd : 0 <= d < 0x100000) by lia.
    pose proof (Z.mod_pos_bound d 0x400 ltac:(lia)) as Hm.
    pose proof (Z.div_mod d 0x400 ltac:(lia)) as Hdm.
    assert (0 <= d / 0x400 < 0x400) by (split; [apply Z.div_pos|apply Z.div_lt_upper_bound]; lia).
    unfold is_surrogate, is_low_surrogate.
    rewrite !(proj2 (Z.leb_le _ _)) by lia.
    rewrite (proj2 (Z.leb_gt 0xDC00 (0xD800 + _))) by lia. cbn [negb andb].
    f_equal. f_equal. lia.
Qed.

(** Decoding what [encode_utf16] produced gives the string back. *)
Lemma decode_encode_utf16 s us :
  wf_str s -> decode_utf16 (encode_utf16 s ++ us) = map Some s ++ decode_utf16 us.
Proof.
  unfold encode_utf16. induction 1 as [|c s Hc _ IH]; cbn [map concat app]; auto.
  rewrite <- app_assoc, decode_char_utf16, IH by assumption. reflexivity.
Qed.

Lemma collect_chars_some s : collect_chars (map Some s) = Some s.
Proof. induction s as [|c s IH]; cbn; [|rewrite IH]; reflexivity. Qed.

Lemma collect_chars_inv l s : collect_chars l = Some s -> l = map Some s.
Proof.
  revert s; induction l as [|[c|] l IH]; cbn; intros s H; try discriminate.
  - injection H as <-; reflexivity.
  - destruct (collect_chars l) as [s'|]; [injection H as <-|discriminate].
    cbn; f_equal; apply IH; reflexivity.
Qed.

(** The UTF-16 round trip of a well-formed string. *)
Lemma from_encode_utf16 s : wf_str s -> from_utf16 (encode_utf16 s) = Some s.
Proof.
  intros H. unfold from_utf16.
  rewrite <- (app_nil_r (encode_utf16 s)), decode_encode_utf16 by assumption.
  cbn. rewrite app_nil_r. apply collect_chars_some.
Qed.

(** The lossy decoder agrees with the strict one wherever that succeeds. *)
Lemma from_utf16_lossy_strict us s : from_utf16 us = Some s -> from_utf16_lossy us = s.
Proof.
  unfold from_utf16, from_utf16_lossy; intros H.
  rewrite (collect_chars_inv _ _ H), map_map. apply map_id.
Qed.

Lemma char_utf16_units c : is_scalar c = true -> Forall (in_unsigned 16) (char_utf16 c).
Proof.
  intros Hc; apply is_scalar_spec in Hc. unfold char_utf16, in_unsigned.
  destruct (Z.ltb_spec c 0x10000); repeat constructor; try lia;
  pose proof (Z.mod_pos_bound (c - 0x10000) 0x400 ltac:(lia));
  assert (0 <= (c - 0x10000) / 0x400 < 0x400) by (split; [apply Z.div_pos|apply Z.div_lt_upper_bound]; lia);
  lia.
Qed.

Lemma encode_utf16_units s : wf_str s -> Forall (in_unsigned 16) (encode_utf16 s).
Proof.
  unfold encode_utf16; induction 1; cbn; [constructor|].
  apply Forall_app; split; auto using char_utf16_units.
Qed.

Lemma encode_utf16_app a b : encode_utf16 (a ++ b) = encode_utf16 a ++ encode_utf16 b.
Proof. unfold encode_utf16. rewrite map_app, concat_app. reflexivity. Qed.

(** Every decoded character is a Unicode scalar value. *)
Lemma decode_utf16_scalar us :
  Forall (in_unsigned 16) us ->
  Forall (fun o => match o with Some c => is_scalar c = true | None => True end) (decode_utf16 us).
Proof.
  revert us; fix IH 1; intros [|u rest] H; cbn [decode_utf16]; [constructor|].
  pose proof (Forall_inv H) as Hu; pose proof (Forall_inv_tail H) as Hr.
  unfold in_unsigned in Hu. pose proof (IH rest Hr) as IHr.
  destruct (negb (is_surrogate u)) eqn:E1.
  { constructor; [|exact IHr]. unfold is_scalar; rewrite E1.
    rewrite !(proj2 (Z.leb_le _ _)) by lia; reflexivity. }
  destruct (is_low_surrogate u) eqn:E2; [constructor; [exact I|exact IHr]|].
  destruct rest as [|u2 rest']; [repeat constructor|].
  pose proof (Forall_inv_tail Hr) as Hr'.
  destruct (is_low_surrogate u2) eqn:E3; constructor;
    [|apply IH, Hr'|exact I|exact IHr].
  apply negb_false_iff in E1. unfold is_surrogate, is_low_surrogate in *.
  apply is_scalar_spec. bool_Z; lia.
Qed.

Lemma from_utf16_wf us s : Forall (in_unsigned 16) us -> from_utf16 us = Some s -> wf_str s.
Proof.
  intros H E. pose proof (decode_utf16_scalar us H) as D.
  rewrite (collect_chars_inv _ _ E) in D. clear E H. induction s; inversion_clear D; auto.
Qed.

Lemma from_utf16_lossy_wf us : Forall (in_unsigned 16) us -> wf_str (from_utf16_lossy us).
Proof.
  intros H; unfold from_utf16_lossy. pose proof (decode_utf16_scalar us H) as D.
  induction D as [|[c|] l Hc _ IH]; cbn; auto.
Qed.

#[global] Arguments encode_utf16 : simpl never.
#[global] Arguments from_utf16 : simpl never.
#[global] Arguments from_utf16_lossy : simpl never.

(** ** Decimal numbers: [{}] of an unsigned integer and [str::parse] *)

(** ASCII text of the source, as scalar values. *)
Fixpoint ascii_str (s : string) : str :=
  match s with
  | EmptyString => []
  | String c s => Z.of_nat (Ascii.nat_of_ascii c) :: ascii_str s
  end.

Lemma ascii_str_wf s : wf_str (ascii_str s).
Proof.
  induction s as [|c s IH]; constructor; [|exact IH]. destruct c as [[] [] [] [] [] [] [] []]; reflexivity.
Qed.

Definition DOT : Z := 46.
Definition COMMA : Z := 44.
Definition SPACE : Z := 32.

Fixpoint show_fuel (fuel : nat) (n : Z) (acc : str) : str :=
  match fuel with
  | O => acc
  | S fuel => if n <? 10 then (48 + n) :: acc else show_fuel fuel (n / 10) ((48 + n mod 10) :: acc)
  end.

(** Forty digits are enough for a u128. *)
Definition show_Z (n : Z) : str := show_fuel 40 n [].

Definition is_digit (c : Z) : bool := (48 <=? c) && (c <=? 57).

(** [u32::from_str] and the like: digits, an optional leading [+], no
    overflow. *)
Fixpoint parse_digits (w : Z) (s : str) (acc : Z) : option Z :=
  match s with
  | [] => Some acc
  | c :: s =>
      if is_digit c then
        let v := acc * 10 + (c - 48) in
        if v <? 2 ^ w then parse_digits w s v else None
      else None
  end.

Definition parse_unsigned (w : Z) (s : str) : Res Z :=
  let body := match s with c :: rest => if c =? 43 then rest else s | [] => s end in
  match body with
  | [] => Err ParseInt
  | _ => ok_or (parse_digits w body 0) ParseInt
  end.

Lemma parse_digits_app w s t : forall acc,
  parse_digits w (s ++ t) acc =
  match parse_digits w s acc with Some v => parse_digits w t v | None => None end.
Proof.
  induction s as [|c s IH]; intros acc; cbn; [reflexivity|].
  destruct (is_digit c); [|reflexivity]. destruct (_ <? _); [apply IH|reflexivity].
Qed.

Lemma is_digit_spec d : 0 <= d < 10 -> is_digit (48 + d) = true.
Proof. intros H. unfold is_digit. rewrite !(proj2 (Z.leb_le _ _)) by lia. reflexivity. Qed.

(** Printing pushes the digits of [n] in front of the accumulator. *)
Lemma show_fuel_spec w fuel : forall n acc, 0 <= n < 10 ^ Z.of_nat fuel -> 0 < n \/ (0 < fuel)%nat ->
  n < 2 ^ w ->
  exists ds, show_fuel fuel n acc = ds ++ acc /\ ds <> [] /\
    parse_digits w ds 0 = Some n /\ (forall c, In c ds -> is_digit c = true).
Proof.
  induction fuel as [|fuel IH]; intros n acc Hn Hf Hw; [cbn in Hn; lia|].
  rewrite Nat2Z.inj_succ, Z.pow_succ_r in Hn by lia. cbn [show_fuel].
  destruct (Z.ltb_spec n 10) as [L|L].
  - exists [48 + n]. split; [reflexivity|]. split; [discriminate|]. cbn [parse_digits].
    rewrite is_digit_spec by lia. replace (0 * 10 + (48 + n - 48)) with n by lia.
    rewrite (proj2 (Z.ltb_lt _ _)) by lia. split; [reflexivity|].
    intros c [<-|[]]. apply is_digit_spec; lia.
  - pose proof (Z.div_mod n 10 ltac:(lia)) as D. pose proof (Z.mod_pos_bound n 10 ltac:(lia)) as B.
    assert (0 < n / 10) by (apply Z.div_str_pos; lia).
    destruct (IH (n / 10) ((48 + n mod 10) :: acc)) as (ds & E & Ne & P & Dg); [lia|lia|lia|].
    exists (ds ++ [48 + n mod 10]). rewrite E, <- app_assoc. split; [reflexivity|].
    split; [destruct ds; discriminate|]. rewrite parse_digits_app, P. cbn [parse_digits].
    rewrite is_digit_spec by lia.
    replace (n / 10 * 10 + (48 + n mod 10 - 48)) with n by lia.
    rewrite (proj2 (Z.ltb_lt _ _)) by lia. split; [reflexivity|].
    intros c Hc. apply in_app_or in Hc as [Hc|[<-|[]]]; [auto|apply is_digit_spec; lia].
Qed.

(** What the driver prints, it parses back. *)
Lemma parse_show w n : 0 <= n < 2 ^ w -> w <= 128 -> parse_unsigned w (show_Z n) = Ok n.
Proof.
  intros Hn Hw. unfold show_Z.
  assert (n < 10 ^ Z.of_nat 40).
  { eapply Z.lt_le_trans; [apply Hn|]. etrans; [apply Z.pow_le_mono_r with (c := 128); lia|].
    vm_compute; discriminate. }
  destruct (show_fuel_spec w 40 n []) as (ds & -> & Ne & P & Dg); [lia|lia|lia|].
  rewrite app_nil_r. unfold parse_unsigned. destruct ds as [|c ds]; [congruence|].
  assert (c <> 43) by (intros ->; specialize (Dg 43 (or_introl eq_refl)); discriminate).
  rewrite (proj2 (Z.eqb_neq _ _)) by assumption. rewrite P. reflexivity.
Qed.

(** ** ASCII text *)

Definition ascii (s : str) : Prop := Forall (fun c => 0 <= c < 128) s.

#[global] Instance ascii_dec s : Decision (ascii s).
Proof. unfold ascii. apply _. Defined.
Ltac ascii_lit := apply (bool_decide_unpack _); vm_compute; exact I.

Lemma ascii_wf s : ascii s -> wf_str s.
Proof.
  intros H. eapply Forall_impl; [exact H|]. intros c Hc. cbv beta in Hc. unfold is_scalar, is_surrogate.
  repeat match goal with |- context [?a <=? ?b] => destruct (Z.leb_spec a b) | |- context [?a <? ?b] => destruct (Z.ltb_spec a b) end;
    reflexivity || lia.
Qed.

Lemma ascii_units s : ascii s -> len (encode_utf16 s) = len s.
Proof.
  induction 1 as [|c s Hc _ IH]; [reflexivity|]. change (c :: s) with ([c] ++ s). rewrite encode_utf16_app, !length_app, !Nat2Z.inj_add, IH.
  unfold encode_utf16, char_utf16. cbn. rewrite (proj2 (Z.ltb_lt _ _)) by lia. reflexivity.
Qed.

Lemma ascii_app a b : ascii a -> ascii b -> ascii (a ++ b).
Proof. apply Forall_app_2. Qed.

Lemma show_ascii fuel : forall n acc, 0 <= n -> ascii acc -> ascii (show_fuel fuel n acc) /\ (length (show_fuel fuel n acc) <= fuel + length acc)%nat.
Proof.
  induction fuel as [|fuel IH]; intros n acc Hn Ha; [split; [exact Ha|cbn; lia]|]. cbn [show_fuel]. destruct (Z.ltb_spec n 10).
  - split; [constructor; [lia|exact Ha]|cbn; lia].
  - pose proof (Z.mod_pos_bound n 10 ltac:(lia)). destruct (IH (n / 10) ((48 + n mod 10) :: acc)) as [I1 I2].
    + apply Z.div_pos; lia.
    + constructor; [lia|exact Ha].
    + split; [exact I1|cbn [length] in I2; lia].
Qed.
Lemma show_Z_ascii n : 0 <= n -> ascii (show_Z n) /\ (length (show_Z n) <= 40)%nat.
Proof. intros H. destruct (show_ascii 40 n [] H ltac:(constructor)) as [A L]. split; [exact A|cbn [length] in L; unfold show_Z; lia]. Qed.

(** [str::strip_prefix] *)
Fixpoint strip_prefix (p s : str) : option str :=
  match p, s with
  | [], s => Some s
  | a :: p, b :: s => if a =? b then strip_prefix p s else None
  | _, [] => None
  end.
