(* ===== verification/Utf8.v ===== *)
(** * Utf8: the UTF-8 form of a string, [str::as_bytes] and
    [String::from_utf8_lossy]

    A [str] is the list of its scalar values; its bytes are computed where the
    driver hands them out.  The decoder replaces every maximal ill-formed part
    by one U+FFFD, as the standard library documents. *)

From S2P Require Import Prelude Unicode.

Definition cont (v : Z) : Z := 0x80 + v mod 64.

Definition char_utf8 (c : Z) : bytes :=
  if c <? 0x80 then [c]
  else if c <? 0x800 then [0xC0 + c / 64; cont c]
  else if c <? 0x10000 then [0xE0 + c / 4096; cont (c / 64); cont c]
  else [0xF0 + c / 262144; cont (c / 4096); cont (c / 64); cont c].

(** [str::as_bytes] *)
Definition encode_utf8 (s : str) : bytes := concat (map char_utf8 s).

Definition between (lo hi b : Z) : bool := (lo <=? b) && (b <=? hi).
Definition is_cont (b : Z) : bool := between 0x80 0xBF b.

(** The second byte a three- or four-byte lead allows: no overlong form, no
    surrogate, nothing above U+10FFFF. *)
Definition second3 (b0 b1 : Z) : bool :=
  if b0 =? 0xE0 then between 0xA0 0xBF b1
  else if b0 =? 0xED then between 0x80 0x9F b1
  else is_cont b1.
Definition second4 (b0 b1 : Z) : bool :=
  if b0 =? 0xF0 then between 0x90 0xBF b1
  else if b0 =? 0xF4 then between 0x80 0x8F b1
  else is_cont b1.

(** [String::from_utf8_lossy] *)
Fixpoint from_utf8_lossy (b : bytes) : str :=
  match b with
  | [] => []
  | b0 :: r0 =>
      if b0 <? 0x80 then b0 :: from_utf8_lossy r0
      else if between 0xC2 0xDF b0 then
        match r0 with
        | b1 :: r1 =>
            if is_cont b1 then (b0 - 0xC0) * 64 + (b1 - 0x80) :: from_utf8_lossy r1
            else 0xFFFD :: from_utf8_lossy r0
        | [] => [0xFFFD]
        end
      else if between 0xE0 0xEF b0 then
        match r0 with
        | b1 :: r1 =>
            if second3 b0 b1 then
              match r1 with
              | b2 :: r2 =>
                  if is_cont b2 then (b0 - 0xE0) * 4096 + (b1 - 0x80) * 64 + (b2 - 0x80) :: from_utf8_lossy r2
                  else 0xFFFD :: from_utf8_lossy r1
              | [] => [0xFFFD]
              end
            else 0xFFFD :: from_utf8_lossy r0
        | [] => [0xFFFD]
        end
      else if between 0xF0 0xF4 b0 then
        match r0 with
        | b1 :: r1 =>
            if second4 b0 b1 then
              match r1 with
              | b2 :: r2 =>
                  if is_cont b2 then
                    match r2 with
                    | b3 :: r3 =>
                        if is_cont b3 then
                          (b0 - 0xF0) * 262144 + (b1 - 0x80) * 4096 + (b2 - 0x80) * 64 + (b3 - 0x80) :: from_utf8_lossy r3
                        else 0xFFFD :: from_utf8_lossy r2
                    | [] => [0xFFFD]
                    end
                  else 0xFFFD :: from_utf8_lossy r1
              | [] => [0xFFFD]
              end
            else 0xFFFD :: from_utf8_lossy r0
        | [] => [0xFFFD]
        end
      else 0xFFFD :: from_utf8_lossy r0
  end.

(** ** Lemmas *)

Lemma between_true lo hi b : lo <= b <= hi -> between lo hi b = true.
Proof. intros H. unfold between. rewrite !(proj2 (Z.leb_le _ _)) by lia. reflexivity. Qed.

Lemma between_false lo hi b : b < lo \/ hi < b -> between lo hi b = false.
Proof.
  intros H. unfold between. apply andb_false_iff. destruct H; [left|right]; apply Z.leb_gt; lia.
Qed.

Lemma cont_range v : 0x80 <= cont v <= 0xBF.
Proof. unfold cont. pose proof (Z.mod_pos_bound v 64). lia. Qed.

Lemma is_cont_cont v : is_cont (cont v) = true.
Proof. apply between_true, cont_range. Qed.

Lemma ltb_false a b : b <= a -> (a <? b) = false.
Proof. apply Z.ltb_ge. Qed.

(** Reads one well-formed character back. *)
Lemma from_utf8_char c rest : is_scalar c = true ->
  from_utf8_lossy (char_utf8 c ++ rest) = c :: from_utf8_lossy rest.
Proof.
  intros H. apply is_scalar_spec in H as [H Hs]. unfold char_utf8.
  pose proof (Z.div_mod c 64 ltac:(lia)) as D0. pose proof (Z.mod_pos_bound c 64 ltac:(lia)) as B0.
  assert (D1 : c / 64 / 64 = c / 4096) by (rewrite Z.div_div by lia; reflexivity).
  assert (D2 : c / 4096 / 64 = c / 262144) by (rewrite Z.div_div by lia; reflexivity).
  pose proof (Z.div_mod (c / 64) 64 ltac:(lia)) as D3. pose proof (Z.mod_pos_bound (c / 64) 64 ltac:(lia)) as B3.
  pose proof (Z.div_mod (c / 4096) 64 ltac:(lia)) as D4. pose proof (Z.mod_pos_bound (c / 4096) 64 ltac:(lia)) as B4.
  destruct (Z.ltb_spec c 0x80); [|destruct (Z.ltb_spec c 0x800); [|destruct (Z.ltb_spec c 0x10000)]]; cbn [app from_utf8_lossy].
  - rewrite (proj2 (Z.ltb_lt _ _)) by lia. reflexivity.
  - rewrite ltb_false, between_true by lia. rewrite is_cont_cont. unfold cont. f_equal. lia.
  - rewrite ltb_false, between_false, between_true by lia. rewrite is_cont_cont.
    replace (second3 _ _) with true; [unfold cont; f_equal; lia|].
    unfold second3. destruct (Z.eqb_spec (0xE0 + c / 4096) 0xE0), (Z.eqb_spec (0xE0 + c / 4096) 0xED);
      symmetry; apply between_true; unfold cont; lia.
  - rewrite ltb_false, between_false, between_false, between_true by lia. rewrite !is_cont_cont.
    replace (second4 _ _) with true; [unfold cont; f_equal; lia|].
    unfold second4. destruct (Z.eqb_spec (0xF0 + c / 262144) 0xF0), (Z.eqb_spec (0xF0 + c / 262144) 0xF4);
      symmetry; apply between_true; unfold cont; lia.
Qed.

(** Decoding the bytes of a string gives the string. *)
Lemma from_encode_utf8 s rest : wf_str s -> from_utf8_lossy (encode_utf8 s ++ rest) = s ++ from_utf8_lossy rest.
Proof.
  intros H. induction H as [|c s Hc _ IH]; [reflexivity|].
  unfold encode_utf8 in *. cbn [map concat]. rewrite <- app_assoc, from_utf8_char by exact Hc. rewrite IH. reflexivity.
Qed.

Lemma length_encode_utf8 s : len (encode_utf8 s) = str_len s.
Proof.
  induction s as [|c s IH]; [reflexivity|]. unfold encode_utf8 in *. cbn [map concat str_len fold_right].
  rewrite length_app, Nat2Z.inj_add, IH. f_equal. unfold char_utf8, char_len_utf8.
  destruct (_ <? _); [reflexivity|]. destruct (_ <? _); [reflexivity|]. destruct (_ <? _); reflexivity.
Qed.

Lemma char_utf8_bytes c : is_scalar c = true -> Forall is_byte (char_utf8 c) /\ (c <> 0 -> Forall (fun b => b <> 0) (char_utf8 c)).
Proof.
  intros H. apply is_scalar_spec in H as [H _]. unfold char_utf8, is_byte.
  pose proof (cont_range c). pose proof (cont_range (c / 64)). pose proof (cont_range (c / 4096)).
  pose proof (Z.div_mod c 64 ltac:(lia)). pose proof (Z.mod_pos_bound c 64 ltac:(lia)).
  pose proof (Z.div_mod c 4096 ltac:(lia)). pose proof (Z.mod_pos_bound c 4096 ltac:(lia)).
  pose proof (Z.div_mod c 262144 ltac:(lia)). pose proof (Z.mod_pos_bound c 262144 ltac:(lia)).
  destruct (Z.ltb_spec c 0x80); [|destruct (Z.ltb_spec c 0x800); [|destruct (Z.ltb_spec c 0x10000)]];
    (split; [|intros Hn]); repeat constructor; try lia.
Qed.

Lemma encode_utf8_wf s : wf_str s -> wf_bytes (encode_utf8 s).
Proof.
  intros H. induction H as [|c s Hc _ IH]; [constructor|]. apply Forall_app. split; [apply char_utf8_bytes, Hc|exact IH].
Qed.

(** Only NUL has a zero byte. *)
Lemma encode_utf8_no_nul s : wf_str s -> Forall (fun c => c <> 0) s -> Forall (fun b => b <> 0) (encode_utf8 s).
Proof.
  intros H. induction H as [|c s Hc _ IH]; intros Hn; [constructor|]. inversion_clear Hn.
  apply Forall_app. split; [apply char_utf8_bytes; assumption|auto].
Qed.

Lemma char_utf8_nonempty c : char_utf8 c <> [].
Proof. unfold char_utf8. destruct (_ <? _); [|destruct (_ <? _); [|destruct (_ <? _)]]; discriminate. Qed.

Lemma encode_utf8_nil s : encode_utf8 s = [] -> s = [].
Proof.
  destruct s as [|c s]; [reflexivity|]. intros H. apply app_eq_nil in H as [H _]. elim (char_utf8_nonempty _ H).
Qed.
