(* ===== verification/Collation.v ===== *)
(** * Collation: code pages of [varchar] data, [tds/collation.rs]

    A collation selects the codec of a [char]/[varchar]/[text] column: one of
    the encodings of [encoding_rs], named here by the constants the source
    uses, or one of the two DOS code pages the source implements itself. *)

From S2P Require Import Prelude Unicode.

(** The [encoding_rs] constants the collation tables name. *)
Inductive RsEncoding :=
| WINDOWS_1256
| WINDOWS_1251
| WINDOWS_1252
| BIG5
| WINDOWS_1250
| WINDOWS_1253
| WINDOWS_1255
| SHIFT_JIS
| EUC_KR
| WINDOWS_874
| WINDOWS_1254
| WINDOWS_1257
| WINDOWS_1258
| UTF_16LE
| GB18030.

#[global] Instance RsEncoding_eq_dec : EqDecision RsEncoding.
Proof. solve_decision. Defined.

(** What the source calls of [encoding_rs]: a strict and a replacing decoder
    without BOM handling, and an encoder that stops at the first character
    the encoding lacks.  The laws are the crate's documentation: decoders
    produce Rust strings, and replacing changes nothing in well-formed
    input. *)
Class EncodingRs := {
  ers_decode : RsEncoding -> bytes -> option str;
  ers_decode_lossy : RsEncoding -> bytes -> str;
  ers_encode : RsEncoding -> str -> option bytes;
  ers_decode_wf : forall e b s, ers_decode e b = Some s -> wf_str s;
  ers_decode_lossy_wf : forall e b, wf_str (ers_decode_lossy e b);
  ers_decode_lossy_strict : forall e b s, ers_decode e b = Some s -> ers_decode_lossy e b = s;
  ers_encode_wf : forall e s b, ers_encode e s = Some b -> wf_bytes b;
}.

Record Collation := mkCollation {
  info : Z;      (* u32: LCID, ColFlags, Version *)
  sort_id : Z;   (* u8 *)
}.

#[global] Instance Collation_eq_dec : EqDecision Collation.
Proof. solve_decision. Defined.

Definition wf_collation (c : Collation) : Prop :=
  in_unsigned 32 (info c) /\ in_unsigned 8 (sort_id c).

(** [Collation::lcid] *)
Definition lcid (c : Collation) : Z := Z.land (info c) 0xffff.

(** The last arms of [lcid_to_encoding], from the sublanguages of 0x1007 on. *)
Definition lcid_to_encoding_high (locale : Z) : option RsEncoding :=
  match locale with
  | 0x1007 => Some WINDOWS_1252
  | 0x1009 => Some WINDOWS_1252
  | 0x100a => Some WINDOWS_1252
  | 0x100c => Some WINDOWS_1252
  | 0x101a => Some WINDOWS_1250
  | 0x103b => Some WINDOWS_1252
  | 0x1401 => Some WINDOWS_1256
  | 0x1407 => Some WINDOWS_1252
  | 0x1409 => Some WINDOWS_1252
  | 0x140a => Some WINDOWS_1252
  | 0x140c => Some WINDOWS_1252
  | 0x141a => Some WINDOWS_1250
  | 0x143b => Some WINDOWS_1252
  | 0x1801 => Some WINDOWS_1256
  | 0x1809 => Some WINDOWS_1252
  | 0x180a => Some WINDOWS_1252
  | 0x180c => Some WINDOWS_1252
  | 0x181a => Some WINDOWS_1250
  | 0x183b => Some WINDOWS_1252
  | 0x1c01 => Some WINDOWS_1256
  | 0x1c09 => Some WINDOWS_1252
  | 0x1c0a => Some WINDOWS_1252
  | 0x1c1a => Some WINDOWS_1251
  | 0x1c3b => Some WINDOWS_1252
  | 0x2001 => Some WINDOWS_1256
  | 0x2009 => Some WINDOWS_1252
  | 0x200a => Some WINDOWS_1252
  | 0x201a => Some WINDOWS_1251
  | 0x203b => Some WINDOWS_1252
  | 0x2401 => Some WINDOWS_1256
  | 0x2409 => Some WINDOWS_1252
  | 0x240a => Some WINDOWS_1252
  | 0x243b => Some WINDOWS_1252
  | 0x2801 => Some WINDOWS_1256
  | 0x2809 => Some WINDOWS_1252
  | 0x280a => Some WINDOWS_1252
  | 0x2c01 => Some WINDOWS_1256
  | 0x2c09 => Some WINDOWS_1252
  | 0x2c0a => Some WINDOWS_1252
  | 0x3001 => Some WINDOWS_1256
  | 0x3009 => Some WINDOWS_1252
  | 0x300a => Some WINDOWS_1252
  | 0x3401 => Some WINDOWS_1256
  | 0x3409 => Some WINDOWS_1252
  | 0x340a => Some WINDOWS_1252
  | 0x3801 => Some WINDOWS_1256
  | 0x380a => Some WINDOWS_1252
  | 0x3c01 => Some WINDOWS_1256
  | 0x3c0a => Some WINDOWS_1252
  | 0x4001 => Some WINDOWS_1256
  | 0x4009 => Some WINDOWS_1252
  | 0x400a => Some WINDOWS_1252
  | 0x4409 => Some WINDOWS_1252
  | 0x440a => Some WINDOWS_1252
  | 0x4809 => Some WINDOWS_1252
  | 0x480a => Some WINDOWS_1252
  | 0x4c0a => Some WINDOWS_1252
  | 0x500a => Some WINDOWS_1252
  | 0x540a => Some WINDOWS_1252
  | _ => None
  end.

Definition lcid_to_encoding (locale : Z) : option RsEncoding :=
  match locale with
  | 0x0401 => Some WINDOWS_1256
  | 0x0402 => Some WINDOWS_1251
  | 0x0403 => Some WINDOWS_1252
  | 0x0404 | 0x0c04 | 0x1404 => Some BIG5
  | 0x0405 => Some WINDOWS_1250
  | 0x0406 => Some WINDOWS_1252
  | 0x0407 => Some WINDOWS_1252
  | 0x0408 => Some WINDOWS_1253
  | 0x0409 => Some WINDOWS_1252
  | 0x040a => Some WINDOWS_1252
  | 0x040b => Some WINDOWS_1252
  | 0x040c => Some WINDOWS_1252
  | 0x040d => Some WINDOWS_1255
  | 0x040e => Some WINDOWS_1250
  | 0x040f => Some WINDOWS_1252
  | 0x0410 => Some WINDOWS_1252
  | 0x0411 => Some SHIFT_JIS
  | 0x0412 => Some EUC_KR
  | 0x0413 => Some WINDOWS_1252
  | 0x0414 => Some WINDOWS_1252
  | 0x0415 => Some WINDOWS_1250
  | 0x0416 => Some WINDOWS_1252
  | 0x0417 => Some WINDOWS_1252
  | 0x0418 => Some WINDOWS_1250
  | 0x0419 => Some WINDOWS_1251
  | 0x041a => Some WINDOWS_1250
  | 0x041b => Some WINDOWS_1250
  | 0x041c => Some WINDOWS_1250
  | 0x041d => Some WINDOWS_1252
  | 0x041e => Some WINDOWS_874
  | 0x041f => Some WINDOWS_1254
  | 0x0420 => Some WINDOWS_1256
  | 0x0421 => Some WINDOWS_1252
  | 0x0422 => Some WINDOWS_1251
  | 0x0423 => Some WINDOWS_1251
  | 0x0424 => Some WINDOWS_1250
  | 0x0425 => Some WINDOWS_1257
  | 0x0426 => Some WINDOWS_1257
  | 0x0427 => Some WINDOWS_1257
  | 0x0428 => Some WINDOWS_1251
  | 0x0429 => Some WINDOWS_1256
  | 0x042a => Some WINDOWS_1258
  | 0x042b => Some WINDOWS_1252
  | 0x042c => Some WINDOWS_1254
  | 0x042d => Some WINDOWS_1252
  | 0x042e => Some WINDOWS_1252
  | 0x042f => Some WINDOWS_1251
  | 0x0432 => Some WINDOWS_1252
  | 0x0434 => Some WINDOWS_1252
  | 0x0435 => Some WINDOWS_1252
  | 0x0436 => Some WINDOWS_1252
  | 0x0437 => Some WINDOWS_1252
  | 0x0438 => Some WINDOWS_1252
  | 0x0439 => Some UTF_16LE
  | 0x043a => Some UTF_16LE
  | 0x043b => Some WINDOWS_1252
  | 0x043e => Some WINDOWS_1252
  | 0x043f => Some WINDOWS_1251
  | 0x0440 => Some WINDOWS_1251
  | 0x0441 => Some WINDOWS_1252
  | 0x0442 => Some WINDOWS_1250
  | 0x0443 => Some WINDOWS_1254
  | 0x0444 => Some WINDOWS_1251
  | 0x0445 => Some UTF_16LE
  | 0x0446 => Some UTF_16LE
  | 0x0447 => Some UTF_16LE
  | 0x0448 => Some UTF_16LE
  | 0x0449 => Some UTF_16LE
  | 0x044a => Some UTF_16LE
  | 0x044b => Some UTF_16LE
  | 0x044c => Some UTF_16LE
  | 0x044d => Some UTF_16LE
  | 0x044e => Some UTF_16LE
  | 0x044f => Some UTF_16LE
  | 0x0450 => Some WINDOWS_1251
  | 0x0451 => Some UTF_16LE
  | 0x0452 => Some WINDOWS_1252
  | 0x0453 => Some UTF_16LE
  | 0x0454 => Some UTF_16LE
  | 0x0456 => Some WINDOWS_1252
  | 0x0457 => Some UTF_16LE
  | 0x045a => Some UTF_16LE
  | 0x045b => Some UTF_16LE
  | 0x045d => Some WINDOWS_1252
  | 0x045e => Some WINDOWS_1252
  | 0x0461 => Some UTF_16LE
  | 0x0462 => Some WINDOWS_1252
  | 0x0463 => Some UTF_16LE
  | 0x0464 => Some WINDOWS_1252
  | 0x0465 => Some UTF_16LE
  | 0x0468 => Some WINDOWS_1252
  | 0x046a => Some WINDOWS_1252
  | 0x046b => Some WINDOWS_1252
  | 0x046c => Some WINDOWS_1252
  | 0x046d => Some WINDOWS_1251
  | 0x046e => Some WINDOWS_1252
  | 0x046f => Some WINDOWS_1252
  | 0x0470 => Some WINDOWS_1252
  | 0x0478 => Some WINDOWS_1252
  | 0x047a => Some WINDOWS_1252
  | 0x047c => Some WINDOWS_1252
  | 0x047e => Some WINDOWS_1252
  | 0x0480 => Some WINDOWS_1256
  | 0x0481 => Some UTF_16LE
  | 0x0482 => Some WINDOWS_1252
  | 0x0483 => Some WINDOWS_1252
  | 0x0484 => Some WINDOWS_1252
  | 0x0485 => Some WINDOWS_1251
  | 0x0486 => Some WINDOWS_1252
  | 0x0487 => Some WINDOWS_1252
  | 0x0488 => Some WINDOWS_1252
  | 0x048c => Some WINDOWS_1256
  | 0x0801 => Some WINDOWS_1256
  | 0x0804 | 0x1004 => Some GB18030
  | 0x0807 => Some WINDOWS_1252
  | 0x0809 => Some WINDOWS_1252
  | 0x080a => Some WINDOWS_1252
  | 0x080c => Some WINDOWS_1252
  | 0x0810 => Some WINDOWS_1252
  | 0x0813 => Some WINDOWS_1252
  | 0x0814 => Some WINDOWS_1252
  | 0x0816 => Some WINDOWS_1252
  | 0x081a => Some WINDOWS_1250
  | 0x081d => Some WINDOWS_1252
  | 0x0827 => Some WINDOWS_1257
  | 0x082c => Some WINDOWS_1251
  | 0x082e => Some WINDOWS_1252
  | 0x083b => Some WINDOWS_1252
  | 0x083c => Some WINDOWS_1252
  | 0x083e => Some WINDOWS_1252
  | 0x0843 => Some WINDOWS_1251
  | 0x0845 => Some UTF_16LE
  | 0x0850 => Some WINDOWS_1251
  | 0x085d => Some WINDOWS_1252
  | 0x085f => Some WINDOWS_1252
  | 0x086b => Some WINDOWS_1252
  | 0x0c01 => Some WINDOWS_1256
  | 0x0c07 => Some WINDOWS_1252
  | 0x0c09 => Some WINDOWS_1252
  | 0x0c0a => Some WINDOWS_1252
  | 0x0c0c => Some WINDOWS_1252
  | 0x0c1a => Some WINDOWS_1251
  | 0x0c3b => Some WINDOWS_1252
  | 0x0c6b => Some WINDOWS_1252
  | 0x1001 => Some WINDOWS_1256
  | _ => lcid_to_encoding_high locale
  end.

Definition sortid_to_encoding (sort_id : Z) : option RsEncoding :=
  match sort_id with
  | 50 => Some WINDOWS_1252
  | 51 => Some WINDOWS_1252
  | 52 => Some WINDOWS_1252
  | 53 => Some WINDOWS_1252
  | 54 => Some WINDOWS_1252
  | 71 => Some WINDOWS_1252
  | 72 => Some WINDOWS_1252
  | 73 => Some WINDOWS_1252
  | 74 => Some WINDOWS_1252
  | 75 => Some WINDOWS_1252
  | 80 => Some WINDOWS_1250
  | 81 => Some WINDOWS_1250
  | 82 => Some WINDOWS_1250
  | 83 => Some WINDOWS_1250
  | 84 => Some WINDOWS_1250
  | 85 => Some WINDOWS_1250
  | 86 => Some WINDOWS_1250
  | 87 => Some WINDOWS_1250
  | 88 => Some WINDOWS_1250
  | 89 => Some WINDOWS_1250
  | 90 => Some WINDOWS_1250
  | 91 => Some WINDOWS_1250
  | 92 => Some WINDOWS_1250
  | 93 => Some WINDOWS_1250
  | 94 => Some WINDOWS_1250
  | 95 => Some WINDOWS_1250
  | 96 => Some WINDOWS_1250
  | 97 => Some WINDOWS_1250
  | 98 => Some WINDOWS_1250
  | 104 => Some WINDOWS_1251
  | 105 => Some WINDOWS_1251
  | 106 => Some WINDOWS_1251
  | 107 => Some WINDOWS_1251
  | 108 => Some WINDOWS_1251
  | 112 => Some WINDOWS_1253
  | 113 => Some WINDOWS_1253
  | 114 => Some WINDOWS_1253
  | 120 => Some WINDOWS_1253
  | 121 => Some WINDOWS_1253
  | 122 => Some WINDOWS_1253
  | 124 => Some WINDOWS_1253
  | 128 => Some WINDOWS_1254
  | 129 => Some WINDOWS_1254
  | 130 => Some WINDOWS_1254
  | 136 => Some WINDOWS_1255
  | 137 => Some WINDOWS_1255
  | 138 => Some WINDOWS_1255
  | 144 => Some WINDOWS_1256
  | 145 => Some WINDOWS_1256
  | 146 => Some WINDOWS_1256
  | 152 => Some WINDOWS_1257
  | 153 => Some WINDOWS_1257
  | 154 => Some WINDOWS_1257
  | 155 => Some WINDOWS_1257
  | 156 => Some WINDOWS_1257
  | 157 => Some WINDOWS_1257
  | 158 => Some WINDOWS_1257
  | 159 => Some WINDOWS_1257
  | 160 => Some WINDOWS_1257
  | 183 => Some WINDOWS_1252
  | 184 => Some WINDOWS_1252
  | 185 => Some WINDOWS_1252
  | 186 => Some WINDOWS_1252
  | 192 | 193 | 200 => Some SHIFT_JIS
  | 194 => Some EUC_KR
  | 195 => Some EUC_KR
  | 196 | 197 | 202 => Some BIG5
  | 198 | 199 | 203 => Some GB18030
  | 201 => Some BIG5
  | 204 => Some WINDOWS_874
  | 205 => Some WINDOWS_874
  | 206 => Some WINDOWS_874
  | 210 => Some WINDOWS_1252
  | 211 => Some WINDOWS_1252
  | 212 => Some WINDOWS_1252
  | 213 => Some WINDOWS_1252
  | 214 => Some WINDOWS_1252
  | 215 => Some WINDOWS_1252
  | 216 => Some WINDOWS_1252
  | 217 => Some WINDOWS_1252
  | _ => None
  end.

(** [Collation::encoding] *)
Definition encoding (c : Collation) : Res RsEncoding :=
  let res := if sort_id c =? 0 then lcid_to_encoding (lcid c) else sortid_to_encoding (sort_id c) in
  ok_or res (Encoding "encoding: unspported encoding").

Inductive CollationCodec :=
| BuiltIn (encoding : RsEncoding)
| Cp437
| Cp850.

(** [Collation::codec] *)
Definition codec (c : Collation) : Res CollationCodec :=
  let id := sort_id c in
  if (30 <=? id) && (id <=? 35) then Ok Cp437
  else if ((40 <=? id) && (id <=? 45)) || (id =? 49) || ((55 <=? id) && (id <=? 61)) then Ok Cp850
  else res_map BuiltIn (encoding c).

Definition CP437_HIGH : list Z := [
  0xc7; 0xfc; 0xe9; 0xe2; 0xe4; 0xe0; 0xe5; 0xe7; 0xea; 0xeb; 0xe8; 0xef; 0xee; 0xec;
  0xc4; 0xc5; 0xc9; 0xe6; 0xc6; 0xf4; 0xf6; 0xf2; 0xfb; 0xf9; 0xff; 0xd6; 0xdc; 0xa2;
  0xa3; 0xa5; 0x20a7; 0x192; 0xe1; 0xed; 0xf3; 0xfa; 0xf1; 0xd1; 0xaa; 0xba; 0xbf;
  0x2310; 0xac; 0xbd; 0xbc; 0xa1; 0xab; 0xbb; 0x2591; 0x2592; 0x2593; 0x2502; 0x2524;
  0x2561; 0x2562; 0x2556; 0x2555; 0x2563; 0x2551; 0x2557; 0x255d; 0x255c; 0x255b; 0x2510;
  0x2514; 0x2534; 0x252c; 0x251c; 0x2500; 0x253c; 0x255e; 0x255f; 0x255a; 0x2554; 0x2569;
  0x2566; 0x2560; 0x2550; 0x256c; 0x2567; 0x2568; 0x2564; 0x2565; 0x2559; 0x2558; 0x2552;
  0x2553; 0x256b; 0x256a; 0x2518; 0x250c; 0x2588; 0x2584; 0x258c; 0x2590; 0x2580; 0x3b1;
  0xdf; 0x393; 0x3c0; 0x3a3; 0x3c3; 0xb5; 0x3c4; 0x3a6; 0x398; 0x3a9; 0x3b4; 0x221e;
  0x3c6; 0x3b5; 0x2229; 0x2261; 0xb1; 0x2265; 0x2264; 0x2320; 0x2321; 0xf7; 0x2248; 0xb0;
  0x2219; 0xb7; 0x221a; 0x207f; 0xb2; 0x25a0; 0xa0
].

Definition CP850_HIGH : list Z := [
  0xc7; 0xfc; 0xe9; 0xe2; 0xe4; 0xe0; 0xe5; 0xe7; 0xea; 0xeb; 0xe8; 0xef; 0xee; 0xec;
  0xc4; 0xc5; 0xc9; 0xe6; 0xc6; 0xf4; 0xf6; 0xf2; 0xfb; 0xf9; 0xff; 0xd6; 0xdc; 0xf8;
  0xa3; 0xd8; 0xd7; 0x192; 0xe1; 0xed; 0xf3; 0xfa; 0xf1; 0xd1; 0xaa; 0xba; 0xbf; 0xae;
  0xac; 0xbd; 0xbc; 0xa1; 0xab; 0xbb; 0x2591; 0x2592; 0x2593; 0x2502; 0x2524; 0xc1; 0xc2;
  0xc0; 0xa9; 0x2563; 0x2551; 0x2557; 0x255d; 0xa2; 0xa5; 0x2510; 0x2514; 0x2534; 0x252c;
  0x251c; 0x2500; 0x253c; 0xe3; 0xc3; 0x255a; 0x2554; 0x2569; 0x2566; 0x2560; 0x2550;
  0x256c; 0xa4; 0xf0; 0xd0; 0xca; 0xcb; 0xc8; 0x131; 0xcd; 0xce; 0xcf; 0x2518; 0x250c;
  0x2588; 0x2584; 0xa6; 0xcc; 0x2580; 0xd3; 0xdf; 0xd4; 0xd2; 0xf5; 0xd5; 0xb5; 0xfe;
  0xde; 0xda; 0xdb; 0xd9; 0xfd; 0xdd; 0xaf; 0xb4; 0xad; 0xb1; 0x2017; 0xbe; 0xb6; 0xa7;
  0xf7; 0xb8; 0xb0; 0xa8; 0xb7; 0xb9; 0xb3; 0xb2; 0x25a0; 0xa0
].

(** [decode_single_byte]: ASCII as it is, a table for the high half. *)
Definition decode_single_byte (bs : bytes) (high : list Z) : str :=
  map (fun b => if b <=? 0x7f then b else nth (Z.to_nat (b - 0x80)) high 0) bs.

(** [Iterator::position] *)
Fixpoint position (l : list Z) (c : Z) : option Z :=
  match l with
  | [] => None
  | x :: l => if x =? c then Some 0 else match position l c with Some i => Some (i + 1) | None => None end
  end.

(** [encode_single_byte]: the whole text or nothing. *)
Fixpoint encode_single_byte (text : str) (high : list Z) : option bytes :=
  match text with
  | [] => Some []
  | c :: text =>
      match (if c <=? 0x7f then Some c
             else match position high c with Some i => Some (i + 0x80) | None => None end) with
      | None => None
      | Some b => match encode_single_byte text high with Some bs => Some (b :: bs) | None => None end
      end
  end.

Section Codec.
Context {ER : EncodingRs}.

(** [CollationCodec::decode] *)
Definition codec_decode (c : CollationCodec) (bs : bytes) : option str :=
  match c with
  | BuiltIn e => ers_decode e bs
  | Cp437 => Some (decode_single_byte bs CP437_HIGH)
  | Cp850 => Some (decode_single_byte bs CP850_HIGH)
  end.

(** [CollationCodec::decode_lossy] *)
Definition codec_decode_lossy (c : CollationCodec) (bs : bytes) : str :=
  match c with
  | BuiltIn e => ers_decode_lossy e bs
  | Cp437 => decode_single_byte bs CP437_HIGH
  | Cp850 => decode_single_byte bs CP850_HIGH
  end.

(** [CollationCodec::encode] *)
Definition codec_encode (c : CollationCodec) (text : str) : option bytes :=
  match c with
  | BuiltIn e => ers_encode e text
  | Cp437 => encode_single_byte text CP437_HIGH
  | Cp850 => encode_single_byte text CP850_HIGH
  end.
End Codec.

(** ** Lemmas *)

(** Every byte of the code page is the code of a character that encodes back
    to it. *)
Definition table_inverts (high : list Z) : bool :=
  forallb (fun n => let b := Z.of_nat n in
    match encode_single_byte (decode_single_byte [b] high) high with
    | Some [b'] => b' =? b
    | _ => false
    end && forallb is_scalar (decode_single_byte [b] high)) (seq 0 256).

Lemma CP437_inverts : table_inverts CP437_HIGH = true.
Proof. vm_compute; reflexivity. Qed.
Lemma CP850_inverts : table_inverts CP850_HIGH = true.
Proof. vm_compute; reflexivity. Qed.

Lemma position_spec l c i : position l c = Some i ->
  0 <= i < len l /\ nth (Z.to_nat i) l 0 = c.
Proof.
  revert i; induction l as [|x l IH]; cbn [position]; intros i H; [discriminate|].
  destruct (Z.eqb_spec x c) as [->|].
  - injection H as <-; split; [cbn [length]; lia|reflexivity].
  - destruct (position l c) as [j|]; [injection H as <-|discriminate].
    destruct (IH j eq_refl) as [Hj E]. cbn [length]. split; [lia|].
    replace (Z.to_nat (j + 1)) with (S (Z.to_nat j)) by lia. exact E.
Qed.

Section SingleByte.
Context (high : list Z) (Hinv : table_inverts high = true) (Hlen : length high = 128%nat).

Lemma table_inverts_byte b : is_byte b ->
  encode_single_byte (decode_single_byte [b] high) high = Some [b] /\
  wf_str (decode_single_byte [b] high).
Proof using Hinv.
  clear Hlen. intros Hb. unfold table_inverts in Hinv. rewrite forallb_forall in Hinv.
  unfold is_byte in Hb.
  specialize (Hinv (Z.to_nat b)). rewrite in_seq, Z2Nat.id in Hinv by lia.
  specialize (Hinv ltac:(lia)). apply andb_true_iff in Hinv as [H1 H2].
  rewrite forallb_forall in H2.
  destruct (encode_single_byte _ _) as [[|b' [|]]|]; try discriminate.
  apply Z.eqb_eq in H1; subst b'. split; [reflexivity|].
  apply List.Forall_forall, H2.
Qed.

Lemma encode_single_byte_cons c text :
  encode_single_byte (c :: text) high =
  match encode_single_byte [c] high, encode_single_byte text high with
  | Some b, Some bs => Some (b ++ bs)
  | _, _ => None
  end.
Proof.
  cbn [encode_single_byte]. destruct (if c <=? 0x7f then _ else _); [|reflexivity].
  destruct (encode_single_byte text high); reflexivity.
Qed.

(** Decoding and encoding again gives the bytes back. *)
Lemma encode_decode_single_byte bs : wf_bytes bs ->
  encode_single_byte (decode_single_byte bs high) high = Some bs.
Proof using Hinv.
  induction 1 as [|b bs Hb _ IH]; [reflexivity|].
  change (decode_single_byte (b :: bs) high)
    with ((if b <=? 0x7f then b else nth (Z.to_nat (b - 0x80)) high 0) :: decode_single_byte bs high).
  rewrite encode_single_byte_cons, IH.
  destruct (table_inverts_byte b Hb) as [E _].
  cbn [decode_single_byte map] in E. rewrite E. reflexivity.
Qed.

Lemma decode_single_byte_wf bs : wf_bytes bs -> wf_str (decode_single_byte bs high).
Proof using Hinv.
  induction 1 as [|b bs Hb _ IH]; [constructor|].
  constructor; [|exact IH]. apply (Forall_inv (proj2 (table_inverts_byte b Hb))).
Qed.

(** Text the code page can represent reads back as it was. *)
Lemma decode_encode_single_byte text : wf_str text -> forall bs,
  encode_single_byte text high = Some bs ->
  decode_single_byte bs high = text /\ wf_bytes bs.
Proof using Hlen.
  induction 1 as [|c text Hc _ IH]; intros bs; cbn [encode_single_byte].
  - intros [= <-]; split; constructor.
  - destruct (if c <=? 0x7f then _ else _) as [b|] eqn:E; [|discriminate].
    destruct (encode_single_byte text high) as [bs'|]; [intros [= <-]|discriminate].
    destruct (IH bs' eq_refl) as [D W]. apply is_scalar_spec in Hc.
    cbn [decode_single_byte map]. fold (decode_single_byte bs' high). rewrite D.
    destruct (Z.leb_spec c 0x7f).
    + injection E as <-. rewrite (proj2 (Z.leb_le _ _)) by lia.
      split; [reflexivity|constructor; [unfold is_byte; lia|exact W]].
    + destruct (position high c) as [i|] eqn:P; [injection E as <-|discriminate].
      apply position_spec in P as [Hi Hn]. rewrite Hlen in Hi.
      rewrite (proj2 (Z.leb_gt _ _)) by lia.
      replace (i + 0x80 - 0x80) with i by lia. rewrite Hn.
      split; [reflexivity|constructor; [unfold is_byte; lia|exact W]].
Qed.
End SingleByte.

Section CodecLemmas.
Context {ER : EncodingRs}.

Lemma codec_decode_wf c bs s : wf_bytes bs -> codec_decode c bs = Some s -> wf_str s.
Proof.
  destruct c; cbn; intros Hb H; [eapply ers_decode_wf, H| |]; injection H as <-;
    apply decode_single_byte_wf; auto using CP437_inverts, CP850_inverts.
Qed.

Lemma codec_decode_lossy_wf c bs : wf_bytes bs -> wf_str (codec_decode_lossy c bs).
Proof.
  destruct c; cbn; intros Hb; [apply ers_decode_lossy_wf| |];
    apply decode_single_byte_wf; auto using CP437_inverts, CP850_inverts.
Qed.

Lemma codec_decode_lossy_strict c bs s : codec_decode c bs = Some s -> codec_decode_lossy c bs = s.
Proof. destruct c; cbn; intros H; [eapply ers_decode_lossy_strict, H|congruence|congruence]. Qed.

Lemma codec_encode_wf c s bs : wf_str s -> codec_encode c s = Some bs -> wf_bytes bs.
Proof.
  destruct c; cbn; intros Hs H; [eapply ers_encode_wf, H| |];
    eapply decode_encode_single_byte; try exact H; auto.
Qed.

(** The DOS code pages are bijections between bytes and their characters. *)
Lemma dos_codec_roundtrip c bs s : c = Cp437 \/ c = Cp850 -> wf_bytes bs -> wf_str s ->
  (codec_encode c s = Some bs <-> codec_decode c bs = Some s).
Proof.
  intros Hc Hb Hs. destruct Hc as [-> | ->]; cbn; split; intros H.
  - f_equal. apply (decode_encode_single_byte CP437_HIGH eq_refl s Hs bs H).
  - injection H as <-. apply encode_decode_single_byte; auto using CP437_inverts.
  - f_equal. apply (decode_encode_single_byte CP850_HIGH eq_refl s Hs bs H).
  - injection H as <-. apply encode_decode_single_byte; auto using CP850_inverts.
Qed.
End CodecLemmas.
