(* ===== verification/SqlRead.v ===== *)
(** * SqlRead: the wire readers of [sql_read_bytes.rs]

    The readers and the decoders built on them are generic in what they read
    from, as those of the source are in [R: SqlReadBytes].  Two instances
    matter: the rest of a message as a list of bytes, packet boundaries
    removed, on which the decoders are specified; and the connection
    ([Reader.v]), which takes packets from its transport as it is asked for
    bytes. *)

From S2P Require Import Prelude Unicode.

(** ** Fixed-size readers: the instances of [bytes_reader!] *)

(** [SqlReadBytes: AsyncRead]: [read_n] is a [poll_read] into a buffer of [n]
    bytes until it is ready.  [unread] bounds the bytes that can still be
    read; it is only the fuel of the two loops that go on until the input says
    stop. *)
Class SqlReadBytes (R : Type) := {
  read_n : nat -> M R bytes;
  unread : R -> nat;
}.

(** Of a list, [n] bytes, all of them or none. *)
Definition take_n (n : nat) : M bytes bytes := fun buf =>
  if (n <=? length buf)%nat then (Ok (take n buf), drop n buf)
  else (Err (Io UnexpectedEof), buf).
#[export] Instance bytes_source : SqlReadBytes bytes := { read_n := take_n; unread := @length Z }.

Definition read_uint_le {R} `{SqlReadBytes R} (n : nat) : M R Z := l <- read_n n ;; ret (le_val l).
Definition read_uint_be {R} `{SqlReadBytes R} (n : nat) : M R Z := l <- read_n n ;; ret (be_val l).
Definition read_sint_le {R} `{SqlReadBytes R} (n : nat) : M R Z :=
  l <- read_n n ;; ret (to_signed (8 * Z.of_nat n) (le_val l)).

Definition read_u8 {R} `{SqlReadBytes R} : M R Z := read_uint_le 1.
Definition read_i8 {R} `{SqlReadBytes R} : M R Z := read_sint_le 1.
Definition read_u16_le {R} `{SqlReadBytes R} : M R Z := read_uint_le 2.
Definition read_u32_le {R} `{SqlReadBytes R} : M R Z := read_uint_le 4.
Definition read_u64_le {R} `{SqlReadBytes R} : M R Z := read_uint_le 8.
Definition read_u128_le {R} `{SqlReadBytes R} : M R Z := read_uint_le 16.
Definition read_u32 {R} `{SqlReadBytes R} : M R Z := read_uint_be 4.
Definition read_i16_le {R} `{SqlReadBytes R} : M R Z := read_sint_le 2.
Definition read_i32_le {R} `{SqlReadBytes R} : M R Z := read_sint_le 4.
Definition read_i64_le {R} `{SqlReadBytes R} : M R Z := read_sint_le 8.
Definition read_i128_le {R} `{SqlReadBytes R} : M R Z := read_sint_le 16.
(** Floats are carried as their IEEE-754 bit patterns. *)
Definition read_f32_le {R} `{SqlReadBytes R} : M R Z := read_uint_le 4.
Definition read_f64_le {R} `{SqlReadBytes R} : M R Z := read_uint_le 8.
Definition read_f32 {R} `{SqlReadBytes R} : M R Z := read_uint_be 4.
Definition read_f64 {R} `{SqlReadBytes R} : M R Z := read_uint_be 8.

(** ** Strings: the instances of [varchar_reader!]

    A length in UTF-16 code units, then the units. *)
Definition read_varchar {R} `{SqlReadBytes R} (length_reader : M R Z) : M R str :=
  n <- length_reader ;;
  us <- repeat_m (Z.to_nat n) read_u16_le ;;
  lift (ok_or (from_utf16 us) (Io InvalidData)).

Definition read_b_varchar {R} `{SqlReadBytes R} : M R str := read_varchar read_u8.
Definition read_us_varchar {R} `{SqlReadBytes R} : M R str := read_varchar read_u16_le.

(** ** The bulk reader [read_bytes_into]

    Reads [remaining] bytes in windows of at most [prealloc_cap], appending
    them to [dst]. *)
Fixpoint read_bytes_into {R} `{SqlReadBytes R} (fuel : nat) (dst : bytes) (remaining prealloc_cap : Z) : M R bytes :=
  if remaining <=? 0 then ret dst
  else match fuel with
       | O => out_of_fuel
       | S fuel =>
           let want := Z.min remaining prealloc_cap in
           l <- read_n (Z.to_nat want) ;;
           read_bytes_into fuel (dst ++ l) (remaining - want) prealloc_cap
       end.

(** [MAX_PREALLOC] of [column_data.rs], the window of every caller. *)
Definition MAX_PREALLOC : Z := 8192.

(** A read of [n] bytes into a fresh vector, as its callers do. *)
Definition read_bytes {R} `{SqlReadBytes R} (n : Z) : M R bytes :=
  read_bytes_into (Z.to_nat n) [] n MAX_PREALLOC.

(** ** Lemmas *)

Lemma read_n_bytes n (buf : bytes) :
  read_n n buf = if (n <=? length buf)%nat then (Ok (take n buf), drop n buf) else (Err (Io UnexpectedEof), buf).
Proof. reflexivity. Qed.

Lemma read_n_app l rest : read_n (length l) (l ++ rest) = (Ok l, rest).
Proof.
  rewrite read_n_bytes, length_app. rewrite (proj2 (Nat.leb_le _ _)) by lia.
  rewrite take_app_length, drop_app_length. reflexivity.
Qed.

Lemma decodes_read_n n l : length l = n -> decodes (read_n n) l l.
Proof. intros <- rest; apply read_n_app. Qed.

Lemma decodes_uint_le n v :
  in_unsigned (8 * Z.of_nat n) v -> decodes (read_uint_le n) (le_bytes n v) v.
Proof.
  intros Hv. unfold read_uint_le. eapply decodes_eq; [|reflexivity].
  rewrite <- (wrap_small _ v Hv) at 2. rewrite <- le_val_bytes.
  apply (decodes_bind_ret _ le_val), decodes_read_n, length_le_bytes.
Qed.

Lemma decodes_uint_be n v :
  in_unsigned (8 * Z.of_nat n) v -> decodes (read_uint_be n) (be_bytes n v) v.
Proof.
  intros Hv. unfold read_uint_be.
  rewrite <- (wrap_small _ v Hv) at 2. rewrite <- be_val_bytes.
  apply (decodes_bind_ret _ be_val), decodes_read_n, length_be_bytes.
Qed.

Lemma decodes_sint_le n v : (0 < n)%nat ->
  in_signed (8 * Z.of_nat n) v -> decodes (read_sint_le n) (le_bytes n v) v.
Proof.
  intros Hn Hv. unfold read_sint_le.
  rewrite <- (to_signed_wrap (8 * Z.of_nat n) v) at 2 by (auto; lia).
  rewrite <- le_val_bytes.
  apply (decodes_bind_ret _ (fun l => to_signed _ (le_val l))), decodes_read_n, length_le_bytes.
Qed.

Lemma decodes_u8 v : in_unsigned 8 v -> decodes read_u8 (le_bytes 1 v) v.
Proof. apply (decodes_uint_le 1). Qed.
Lemma decodes_u8_cons v : in_unsigned 8 v -> decodes read_u8 [v] v.
Proof.
  intros H. eapply decodes_eq; [apply decodes_u8, H|].
  unfold le_bytes; unfold in_unsigned in H; rewrite Z.mod_small by lia; reflexivity.
Qed.
Lemma decodes_u16_le v : in_unsigned 16 v -> decodes read_u16_le (le_bytes 2 v) v.
Proof. apply (decodes_uint_le 2). Qed.
Lemma decodes_u32_le v : in_unsigned 32 v -> decodes read_u32_le (le_bytes 4 v) v.
Proof. apply (decodes_uint_le 4). Qed.
Lemma decodes_u64_le v : in_unsigned 64 v -> decodes read_u64_le (le_bytes 8 v) v.
Proof. apply (decodes_uint_le 8). Qed.
Lemma decodes_i16_le v : in_signed 16 v -> decodes read_i16_le (le_bytes 2 v) v.
Proof. apply (decodes_sint_le 2); lia. Qed.
Lemma decodes_i32_le v : in_signed 32 v -> decodes read_i32_le (le_bytes 4 v) v.
Proof. apply (decodes_sint_le 4); lia. Qed.
Lemma decodes_i64_le v : in_signed 64 v -> decodes read_i64_le (le_bytes 8 v) v.
Proof. apply (decodes_sint_le 8); lia. Qed.
Lemma decodes_f32_le v : in_unsigned 32 v -> decodes read_f32_le (le_bytes 4 v) v.
Proof. apply (decodes_uint_le 4). Qed.
Lemma decodes_f64_le v : in_unsigned 64 v -> decodes read_f64_le (le_bytes 8 v) v.
Proof. apply (decodes_uint_le 8). Qed.

Lemma units_bytes_concat us : units_bytes us = concat (map (le_bytes 2) us).
Proof. induction us; cbn [units_bytes map concat]; congruence. Qed.

Lemma decodes_units us :
  Forall (in_unsigned 16) us -> decodes (repeat_m (length us) read_u16_le) (units_bytes us) us.
Proof.
  intros H. rewrite units_bytes_concat. apply decodes_repeat_m.
  eapply Forall_impl; [exact H|]. apply decodes_u16_le.
Qed.

(** A length-prefixed string reads back. *)
Lemma decodes_varchar lr out s :
  wf_str s -> decodes lr out (len (encode_utf16 s)) ->
  decodes (read_varchar lr) (out ++ units_bytes (encode_utf16 s)) s.
Proof.
  intros Hs Hl. unfold read_varchar.
  eapply decodes_bind; [exact Hl|]. rewrite Nat2Z.id.
  eapply decodes_eq; [eapply decodes_bind|symmetry; apply app_nil_r].
  - apply decodes_units, encode_utf16_units, Hs.
  - apply decodes_lift. rewrite from_encode_utf16 by assumption. reflexivity.
Qed.

Lemma read_n_drop n m buf : (n + m <= length buf)%nat ->
  bind (read_n n) (fun a => bind (read_n m) (fun b => ret (a ++ b))) buf = read_n (n + m) buf.
Proof.
  intros H. unfold bind, ret. rewrite !read_n_bytes, (proj2 (Nat.leb_le n _)) by lia.
  rewrite read_n_bytes, length_drop. rewrite !(proj2 (Nat.leb_le _ _)) by lia.
  rewrite take_take_drop, drop_drop. reflexivity.
Qed.

(** The windowed reader is one read of the whole length when the bytes are
    there, and an [UnexpectedEof] when they are not: the cap bounds what is
    allocated, not what is read. *)
Lemma read_bytes_into_spec fuel : forall dst rem cap buf,
  0 < cap -> 0 <= rem -> (Z.to_nat rem <= fuel)%nat ->
  if decide (rem <= len buf)
  then read_bytes_into fuel dst rem cap buf = (Ok (dst ++ take (Z.to_nat rem) buf), drop (Z.to_nat rem) buf)
  else exists buf', read_bytes_into fuel dst rem cap buf = (Err (Io UnexpectedEof), buf') /\ suffix buf' buf.
Proof.
  induction fuel as [|fuel IH]; intros dst rem cap buf Hcap Hrem Hfuel.
  - replace rem with 0 by lia. rewrite decide_True by lia. cbn.
    rewrite app_nil_r; reflexivity.
  - cbn [read_bytes_into]. destruct (Z.leb_spec rem 0).
    { replace rem with 0 by lia. rewrite decide_True by lia. cbn. rewrite app_nil_r; reflexivity. }
    set (w := Z.min rem cap). assert (0 < w <= rem) by lia.
    unfold bind at 1 2. rewrite read_n_bytes. destruct (Nat.leb_spec (Z.to_nat w) (length buf)) as [Hw|Hw].
    + pose proof (IH (dst ++ take (Z.to_nat w) buf) (rem - w) cap (drop (Z.to_nat w) buf) Hcap
        ltac:(lia) ltac:(lia)) as IH'. rewrite length_drop in IH'.
      replace (Z.to_nat (rem - w)) with (Z.to_nat rem - Z.to_nat w)%nat in IH' by lia.
      destruct (decide (rem <= len buf)) as [Hr|Hr].
      * rewrite decide_True in IH' by lia. rewrite IH', drop_drop, <- app_assoc, take_take_drop.
        do 3 f_equal; try f_equal; lia.
      * rewrite decide_False in IH' by lia. destruct IH' as (b & -> & Hb).
        exists b; split; [reflexivity|]. etrans; [exact Hb|]. exists (take (Z.to_nat w) buf).
        symmetry; apply take_drop.
    + rewrite decide_False by lia. exists buf; split; [reflexivity|exists []; reflexivity].
Qed.

Lemma decodes_read_bytes l n : n = len l -> decodes (read_bytes n) l l.
Proof.
  intros -> rest. unfold read_bytes.
  pose proof (read_bytes_into_spec (Z.to_nat (len l)) [] (len l) MAX_PREALLOC (l ++ rest)
    eq_refl ltac:(lia) ltac:(lia)) as H.
  rewrite length_app, decide_True in H by lia. rewrite H, Nat2Z.id.
  rewrite take_app_length, drop_app_length. reflexivity.
Qed.

(** ** Safety of the readers *)

Lemma read_n_suffix n (buf : bytes) : suffix (drop n buf) buf.
Proof. exists (take n buf); symmetry; apply take_drop. Qed.

Lemma safe_read_n n : safe (read_n n) (fun l => wf_bytes l /\ length l = n).
Proof.
  intros buf Hb. rewrite read_n_bytes. destruct (Nat.leb_spec n (length buf)).
  - exists (Ok (take n buf)), (drop n buf). repeat split; auto using read_n_suffix, Forall_take.
    rewrite length_take; lia.
  - exists (Err (Io UnexpectedEof)), buf; repeat split; auto.
Qed.

Lemma safe_uint_le n : safe (read_uint_le n) (in_unsigned (8 * Z.of_nat n)).
Proof.
  eapply safe_bind; [apply safe_read_n|intros l [Hl <-]].
  apply safe_ret, le_val_range, Hl.
Qed.

Lemma safe_uint_be n : safe (read_uint_be n) (in_unsigned (8 * Z.of_nat n)).
Proof.
  eapply safe_bind; [apply safe_read_n|intros l [Hl <-]].
  apply safe_ret, be_val_range, Hl.
Qed.

Lemma safe_sint_le n : (0 < n)%nat -> safe (read_sint_le n) (in_signed (8 * Z.of_nat n)).
Proof.
  intros Hn. eapply safe_bind; [apply safe_read_n|intros l [Hl _]].
  apply safe_ret, to_signed_range; lia.
Qed.

Lemma safe_u8 : safe read_u8 (in_unsigned 8).
Proof. apply (safe_uint_le 1). Qed.
Lemma safe_u16_le : safe read_u16_le (in_unsigned 16).
Proof. apply (safe_uint_le 2). Qed.
Lemma safe_u32_le : safe read_u32_le (in_unsigned 32).
Proof. apply (safe_uint_le 4). Qed.
Lemma safe_u64_le : safe read_u64_le (in_unsigned 64).
Proof. apply (safe_uint_le 8). Qed.
Lemma safe_u32 : safe read_u32 (in_unsigned 32).
Proof. apply (safe_uint_be 4). Qed.
Lemma safe_i16_le : safe read_i16_le (in_signed 16).
Proof. apply (safe_sint_le 2); lia. Qed.
Lemma safe_i32_le : safe read_i32_le (in_signed 32).
Proof. apply (safe_sint_le 4); lia. Qed.
Lemma safe_i64_le : safe read_i64_le (in_signed 64).
Proof. apply (safe_sint_le 8); lia. Qed.
Lemma safe_f32_le : safe read_f32_le (in_unsigned 32).
Proof. apply (safe_uint_le 4). Qed.
Lemma safe_f64_le : safe read_f64_le (in_unsigned 64).
Proof. apply (safe_uint_le 8). Qed.

Lemma safe_varchar lr Q : safe lr Q -> safe (read_varchar lr) (fun s => wf_str s).
Proof.
  intros Hl. eapply safe_bind; [exact Hl|intros n _].
  eapply safe_bind; [apply safe_repeat_m, safe_u16_le|intros us [Hu _]].
  apply safe_lift. destruct (from_utf16 us) eqn:E; cbn; eauto using from_utf16_wf.
Qed.

Lemma safe_b_varchar : safe read_b_varchar (fun s => wf_str s).
Proof. eapply safe_varchar, safe_u8. Qed.
Lemma safe_us_varchar : safe read_us_varchar (fun s => wf_str s).
Proof. eapply safe_varchar, safe_u16_le. Qed.

Lemma safe_read_bytes_into dst n cap : 0 < cap -> wf_bytes dst -> 0 <= n ->
  safe (read_bytes_into (Z.to_nat n) dst n cap) (fun l => wf_bytes l /\ len l = len dst + n).
Proof.
  intros Hc Hd Hn buf Hb.
  pose proof (read_bytes_into_spec (Z.to_nat n) dst n cap buf Hc Hn (le_n _)) as H.
  destruct (decide (n <= len buf)) as [Hl|Hl].
  - rewrite H. do 2 eexists; repeat split; auto using read_n_suffix.
    + apply Forall_app; auto using Forall_take.
    + rewrite length_app, length_take; lia.
  - destruct H as (b & E & Hs). rewrite E. do 2 eexists; repeat split; auto.
Qed.

Lemma safe_read_bytes n : 0 <= n -> safe (read_bytes n) (fun l => wf_bytes l /\ len l = n).
Proof. intros H. apply (safe_read_bytes_into [] n MAX_PREALLOC); auto; reflexivity. Qed.

#[export] Hint Resolve safe_u8 safe_u16_le safe_u32_le safe_u64_le safe_u32 safe_i16_le
  safe_i32_le safe_i64_le safe_f32_le safe_f64_le safe_b_varchar safe_us_varchar
  safe_read_n : tds_safe.
#[export] Hint Resolve decodes_u8 decodes_u16_le decodes_u32_le decodes_u64_le decodes_i16_le
  decodes_i32_le decodes_i64_le decodes_f32_le decodes_f64_le decodes_ret : tds_decodes.
#[export] Hint Extern 2 (in_unsigned _ _) => unfold in_unsigned, in_signed in *; lia : tds_decodes.
#[export] Hint Extern 2 (in_signed _ _) => unfold in_unsigned, in_signed in *; lia : tds_decodes.
