(* ===== verification/SqlWrite.v ===== *)
(** * SqlWrite: writing to a [BytesMut], [tds/codec/encode.rs]

    An encoder of the source appends to the buffer it is given; a few write a
    placeholder length and patch it at its absolute position once the payload
    is known.  An encoder is a computation over the buffer, so that a failed
    one shows what it had written. *)

From S2P Require Import Prelude Unicode SqlRead.

Definition put_slice (l : bytes) : M bytes unit := fun dst => (Ok tt, dst ++ l).

Definition put_u8 (v : Z) : M bytes unit := put_slice (le_bytes 1 v).
Definition put_u16_le (v : Z) : M bytes unit := put_slice (le_bytes 2 v).
Definition put_u32_le (v : Z) : M bytes unit := put_slice (le_bytes 4 v).
Definition put_u64_le (v : Z) : M bytes unit := put_slice (le_bytes 8 v).
Definition put_u128_le (v : Z) : M bytes unit := put_slice (le_bytes 16 v).
(** Signed integers are written in two's complement, which [le_bytes] gives
    for a negative argument; floats are their bit patterns. *)
Definition put_i16_le := put_u16_le.
Definition put_i32_le := put_u32_le.
Definition put_i64_le := put_u64_le.
Definition put_f32_le := put_u32_le.
Definition put_f64_le := put_u64_le.
Definition put_u16 (v : Z) : M bytes unit := put_slice (be_bytes 2 v).
Definition put_u32 (v : Z) : M bytes unit := put_slice (be_bytes 4 v).

(** [for chr in s.encode_utf16() { dst.put_u16_le(chr) }] *)
Definition put_units (us : list Z) : M bytes unit := iter_m put_u16_le us.

(** [dst.len()] *)
Definition buf_len : M bytes Z := fun dst => (Ok (len dst), dst).

(** [dst[pos..pos + l.len()].copy_from_slice(l)]: a panic when the range is
    out of bounds. *)
Definition patch (pos : Z) (l : bytes) : M bytes unit := fun dst =>
  if pos + len l <=? len dst
  then (Ok tt, take (Z.to_nat pos) dst ++ l ++ drop (Z.to_nat pos + length l) dst)
  else (Panic, dst).

(** [encode_b_varchar] *)
Definition encode_b_varchar (s : str) : M bytes unit :=
  let units := encode_utf16 s in
  if 255 <? len units then fail (Protocol "string is too long for a B_VARCHAR")
  else put_u8 (len units) ;; put_units units.

(** [encode_us_varchar] of [type_info.rs] *)
Definition encode_us_varchar (s : str) : M bytes unit :=
  let units := encode_utf16 s in
  if 65535 <? len units then fail (Protocol "string is too long for a US_VARCHAR")
  else put_u16_le (len units) ;; put_units units.

(** ** Lemmas *)

Lemma appends_put_slice l : appends (put_slice l) l.
Proof. intros dst; reflexivity. Qed.
Lemma appends_put_u8 v : appends (put_u8 v) (le_bytes 1 v).
Proof. apply appends_put_slice. Qed.
Lemma appends_put_u16_le v : appends (put_u16_le v) (le_bytes 2 v).
Proof. apply appends_put_slice. Qed.
Lemma appends_put_u32_le v : appends (put_u32_le v) (le_bytes 4 v).
Proof. apply appends_put_slice. Qed.
Lemma appends_put_u64_le v : appends (put_u64_le v) (le_bytes 8 v).
Proof. apply appends_put_slice. Qed.
Lemma appends_put_u128_le v : appends (put_u128_le v) (le_bytes 16 v).
Proof. apply appends_put_slice. Qed.

Lemma appends_put_units us : appends (put_units us) (units_bytes us).
Proof.
  rewrite units_bytes_concat. apply appends_iter_m.
  induction us; constructor; auto using appends_put_u16_le.
Qed.

(** The placeholder idiom: what is written behind the position is patched
    without moving anything. *)
Lemma patch_app pre old post l : length old = length l ->
  patch (len pre) l (pre ++ old ++ post) = (Ok tt, pre ++ l ++ post).
Proof.
  intros H. unfold patch. rewrite !length_app.
  rewrite (proj2 (Z.leb_le _ _)) by lia. rewrite Nat2Z.id, take_app_length, <- H.
  rewrite <- drop_drop, drop_app_length, drop_app_length. reflexivity.
Qed.

(** [len_pos = dst.len(); dst.put(placeholder); body; dst[len_pos..] = l] is
    the same as writing [l] and then the body. *)
Lemma appends_patch (old l out : bytes) (body : M bytes unit) :
  length old = length l -> appends body out ->
  appends (pos <- buf_len ;; put_slice old ;; body ;; patch pos l) (l ++ out).
Proof.
  intros Hl Hb dst. unfold bind at 1, buf_len.
  rewrite (bind_ok _ _ _ _ _ (appends_put_slice old dst)).
  rewrite (bind_ok _ _ _ _ _ (Hb _)), <- app_assoc. apply patch_app, Hl.
Qed.

Lemma le_bytes_1 v : in_unsigned 8 v -> le_bytes 1 v = [v].
Proof. unfold in_unsigned, le_bytes; intros; rewrite Z.mod_small by lia; reflexivity. Qed.

(** The bytes of a [B_VARCHAR] and of a [US_VARCHAR]. *)
Definition b_varchar (s : str) : bytes :=
  le_bytes 1 (len (encode_utf16 s)) ++ units_bytes (encode_utf16 s).
Definition us_varchar (s : str) : bytes :=
  le_bytes 2 (len (encode_utf16 s)) ++ units_bytes (encode_utf16 s).

Lemma appends_b_varchar s : len (encode_utf16 s) <= 255 ->
  appends (encode_b_varchar s) (b_varchar s).
Proof.
  intros H. unfold encode_b_varchar. rewrite (proj2 (Z.ltb_ge _ _)) by lia.
  apply appends_bind; [apply appends_put_u8|apply appends_put_units].
Qed.

Lemma appends_us_varchar s : len (encode_utf16 s) <= 65535 ->
  appends (encode_us_varchar s) (us_varchar s).
Proof.
  intros H. unfold encode_us_varchar. rewrite (proj2 (Z.ltb_ge _ _)) by lia.
  apply appends_bind; [apply appends_put_u16_le|apply appends_put_units].
Qed.

Lemma decodes_b_varchar s : wf_str s -> len (encode_utf16 s) <= 255 ->
  decodes read_b_varchar (b_varchar s) s.
Proof.
  intros Hs Hl. apply decodes_varchar; [exact Hs|].
  apply (decodes_uint_le 1); unfold in_unsigned; lia.
Qed.

Lemma decodes_us_varchar s : wf_str s -> len (encode_utf16 s) <= 65535 ->
  decodes read_us_varchar (us_varchar s) s.
Proof.
  intros Hs Hl. apply decodes_varchar; [exact Hs|].
  apply (decodes_uint_le 2); unfold in_unsigned; lia.
Qed.

Create HintDb tds_appends discriminated.
#[export] Hint Resolve appends_put_slice appends_put_u8 appends_put_u16_le appends_put_u32_le
  appends_put_u64_le appends_put_u128_le appends_put_units appends_ret appends_b_varchar
  appends_us_varchar : tds_appends.
#[export] Hint Resolve decodes_b_varchar decodes_us_varchar : tds_decodes.

(** Runs a straight-line encoder: every step by a lemma of the database. *)
Ltac appends_steps :=
  repeat (eapply appends_bind; [solve [eauto 2 with tds_appends]|]); try (eauto 2 with tds_appends).

(** Runs a straight-line decoder against bytes given as an append of fields. *)
Ltac decodes_step :=
  first
    [ eapply decodes_bind_ret_eq; [solve [eauto 4 with tds_decodes]|reflexivity]
    | eapply decodes_bind; [solve [eauto 4 with tds_decodes]|] ].
Ltac decodes_steps := repeat decodes_step.

(** Walks through a decoder proving its safety: reads by lemma, branches by
    case analysis. *)
Ltac safe_step :=
  match goal with
  | |- safe (bind _ _) _ => eapply safe_bind; [solve [eauto 2 with tds_safe]|intros ? ?]
  | |- safe (fail _) _ => apply safe_fail
  | |- safe (ret _) _ => apply safe_ret
  | |- safe (if ?b then _ else _) _ => destruct b eqn:?
  end.
Ltac safe_steps := repeat safe_step.
