(* ===== verification/Types.v ===== *)
(** * Types: the data model of the codecs

    The enumerations and structures of [tds/codec/type_info.rs],
    [tds/codec/column_data.rs], [tds/numeric.rs], [tds/time.rs] and
    [tds/xml.rs].  An enumeration lives in a module of its name, so that its
    constructors are written as in the source ([VarLenType.Money]).  The
    [tds73] feature (a default feature) is on. *)

From S2P Require Import Prelude Unicode Collation.

(** ** [uint_enum!]: conversion from a wire byte

    The macro generates one comparison per variant, in order. *)
Section UintEnum.
Context {A : Type} (as_u8 : A -> Z).

Fixpoint uint_try_from (variants : list A) (n : Z) : option A :=
  match variants with
  | [] => None
  | v :: vs => if n =? as_u8 v then Some v else uint_try_from vs n
  end.

Lemma uint_try_from_sound vs n v : uint_try_from vs n = Some v -> as_u8 v = n.
Proof.
  induction vs as [|x vs IH]; cbn; [discriminate|].
  destruct (Z.eqb_spec n (as_u8 x)); [intros [= <-]; auto|auto].
Qed.
End UintEnum.

Module FixedLenType.
Inductive FixedLenType :=
| Null | Int1 | Bit | Int2 | Int4 | Datetime4 | Float4 | Money | Datetime | Float8 | Money4 | Int8.

Definition fixed_as_u8 (t : FixedLenType) : Z :=
  match t with
  | Null => 0x1F
  | Int1 => 0x30
  | Bit => 0x32
  | Int2 => 0x34
  | Int4 => 0x38
  | Datetime4 => 0x3A
  | Float4 => 0x3B
  | Money => 0x3C
  | Datetime => 0x3D
  | Float8 => 0x3E
  | Money4 => 0x7A
  | Int8 => 0x7F
  end.

Definition fixed_try_from (n : Z) : option FixedLenType :=
  uint_try_from fixed_as_u8
    [Null; Int1; Bit; Int2; Int4; Datetime4; Float4; Money; Datetime; Float8; Money4; Int8] n.

#[global] Instance FixedLenType_eq_dec : EqDecision FixedLenType.
Proof. solve_decision. Defined.

Lemma fixed_try_from_as_u8 t : fixed_try_from (fixed_as_u8 t) = Some t.
Proof. destruct t; reflexivity. Qed.
End FixedLenType.
Notation FixedLenType := FixedLenType.FixedLenType.
Notation fixed_as_u8 := FixedLenType.fixed_as_u8.
Notation fixed_try_from := FixedLenType.fixed_try_from.

Module VarLenType.
Inductive VarLenType :=
| Guid | Intn | Bitn | Decimaln | Numericn | Floatn | Money | Datetimen
| Daten | Timen | Datetime2 | DatetimeOffsetn
| BigVarBin | BigVarChar | BigBinary | BigChar | NVarchar | NChar
| Xml | Udt | Text | Image | NText | SSVariant.

Definition var_as_u8 (t : VarLenType) : Z :=
  match t with
  | Guid => 0x24
  | Intn => 0x26
  | Bitn => 0x68
  | Decimaln => 0x6A
  | Numericn => 0x6C
  | Floatn => 0x6D
  | Money => 0x6E
  | Datetimen => 0x6F
  | Daten => 0x28
  | Timen => 0x29
  | Datetime2 => 0x2A
  | DatetimeOffsetn => 0x2B
  | BigVarBin => 0xA5
  | BigVarChar => 0xA7
  | BigBinary => 0xAD
  | BigChar => 0xAF
  | NVarchar => 0xE7
  | NChar => 0xEF
  | Xml => 0xF1
  | Udt => 0xF0
  | Text => 0x23
  | Image => 0x22
  | NText => 0x63
  | SSVariant => 0x62
  end.

Definition var_try_from (n : Z) : option VarLenType :=
  uint_try_from var_as_u8
    [Guid; Intn; Bitn; Decimaln; Numericn; Floatn; Money; Datetimen;
     Daten; Timen; Datetime2; DatetimeOffsetn;
     BigVarBin; BigVarChar; BigBinary; BigChar; NVarchar; NChar;
     Xml; Udt; Text; Image; NText; SSVariant] n.

#[global] Instance VarLenType_eq_dec : EqDecision VarLenType.
Proof. solve_decision. Defined.

Lemma var_try_from_as_u8 t : var_try_from (var_as_u8 t) = Some t.
Proof. destruct t; reflexivity. Qed.

(** No byte is both a fixed-length and a variable-length type. *)
Lemma fixed_try_from_var t : fixed_try_from (var_as_u8 t) = None.
Proof. destruct t; reflexivity. Qed.

Lemma var_as_u8_range t : in_unsigned 8 (var_as_u8 t).
Proof. destruct t; unfold in_unsigned; cbn; lia. Qed.
End VarLenType.
Notation VarLenType := VarLenType.VarLenType.
Notation var_as_u8 := VarLenType.var_as_u8.
Notation var_try_from := VarLenType.var_try_from.

#[export] Hint Resolve VarLenType.var_as_u8_range : tds_decodes.

(** ** Metadata *)

Record VarLenContext := mkVarLenContext {
  vlc_type : VarLenType;
  vlc_len : Z;            (* usize *)
  vlc_collation : option Collation;
}.

Record UdtInfo := mkUdtInfo {
  max_byte_size : Z;
  udt_db_name : str;
  schema_name : str;
  udt_type_name : str;
  assembly_qualified_name : str;
}.

Record XmlSchema := mkXmlSchema {
  xs_db_name : str;
  xs_owner : str;
  xs_collection : str;
}.

Module TypeInfo.
Inductive TypeInfo :=
| FixedLen (ty : FixedLenType)
| VarLenSized (cx : VarLenContext)
| VarLenSizedPrecision (ty : VarLenType) (size precision scale : Z)
| Xml (schema : option XmlSchema) (size : Z)
| Udt (info : UdtInfo).
End TypeInfo.
Notation TypeInfo := TypeInfo.TypeInfo.

(** ** Values *)

(** [Numeric]: [value] is an i128, [scale] a u8. *)
Record Numeric := mkNumeric { value : Z; scale : Z }.

Record DateTime := mkDateTime { dt_days : Z; dt_seconds_fragments : Z }.
Record SmallDateTime := mkSmallDateTime { sdt_days : Z; sdt_seconds_fragments : Z }.

(** [Date]: a number of days, a u32. *)
Record Date := mkDate { days : Z }.
(** [Time]: [increments] is a u64 counting 10^-scale seconds. *)
Record Time := mkTime { increments : Z; time_scale : Z }.
Record DateTime2 := mkDateTime2 { dt2_date : Date; dt2_time : Time }.
Record DateTimeOffset := mkDateTimeOffset { datetime2 : DateTime2; offset : Z }.

Record XmlData := mkXmlData { xml_data : str; xml_schema : option XmlSchema }.

Module ColumnData.
(** Floats are bit patterns, a GUID its 16 bytes in RFC 4122 order. *)
Inductive ColumnData :=
| U8 (v : option Z)
| I16 (v : option Z)
| I32 (v : option Z)
| I64 (v : option Z)
| F32 (v : option Z)
| F64 (v : option Z)
| Bit (v : option bool)
| String (v : option str)
| Guid (v : option bytes)
| Binary (v : option bytes)
| Numeric (v : option Numeric)
| Xml (v : option XmlData)
| DateTime (v : option DateTime)
| SmallDateTime (v : option SmallDateTime)
| Time (v : option Time)
| Date (v : option Date)
| DateTime2 (v : option DateTime2)
| DateTimeOffset (v : option DateTimeOffset).
End ColumnData.
Notation ColumnData := ColumnData.ColumnData.

(** ** Decidable equality *)

#[global] Instance XmlSchema_eq_dec : EqDecision XmlSchema.
Proof. solve_decision. Defined.
#[global] Instance VarLenContext_eq_dec : EqDecision VarLenContext.
Proof. solve_decision. Defined.
#[global] Instance UdtInfo_eq_dec : EqDecision UdtInfo.
Proof. solve_decision. Defined.
#[global] Instance TypeInfo_eq_dec : EqDecision TypeInfo.
Proof. solve_decision. Defined.
#[global] Instance Numeric_eq_dec : EqDecision Numeric.
Proof. solve_decision. Defined.
#[global] Instance DateTime_eq_dec : EqDecision DateTime.
Proof. solve_decision. Defined.
#[global] Instance SmallDateTime_eq_dec : EqDecision SmallDateTime.
Proof. solve_decision. Defined.
#[global] Instance Date_eq_dec : EqDecision Date.
Proof. solve_decision. Defined.
#[global] Instance Time_eq_dec : EqDecision Time.
Proof. solve_decision. Defined.
#[global] Instance DateTime2_eq_dec : EqDecision DateTime2.
Proof. solve_decision. Defined.
#[global] Instance DateTimeOffset_eq_dec : EqDecision DateTimeOffset.
Proof. solve_decision. Defined.
#[global] Instance XmlData_eq_dec : EqDecision XmlData.
Proof. solve_decision. Defined.
#[global] Instance ColumnData_eq_dec : EqDecision ColumnData.
Proof. solve_decision. Defined.

(** ** Type invariants: the ranges of the Rust field types *)

Definition wf_numeric (n : Numeric) : Prop := in_signed 128 (value n) /\ 0 <= scale n <= 38.
Definition wf_datetime (d : DateTime) : Prop :=
  in_signed 32 (dt_days d) /\ in_unsigned 32 (dt_seconds_fragments d).
Definition wf_smalldatetime (d : SmallDateTime) : Prop :=
  in_unsigned 16 (sdt_days d) /\ in_unsigned 16 (sdt_seconds_fragments d).
(** What [Date::new] asserts: the day count fits the three bytes of the wire. *)
Definition wf_date (d : Date) : Prop := in_unsigned 24 (days d).
Definition wf_time (t : Time) : Prop := in_unsigned 64 (increments t) /\ in_unsigned 8 (time_scale t).
Definition wf_datetime2 (d : DateTime2) : Prop := wf_date (dt2_date d) /\ wf_time (dt2_time d).
Definition wf_datetimeoffset (d : DateTimeOffset) : Prop :=
  wf_datetime2 (datetime2 d) /\ in_signed 16 (offset d).
Definition wf_guid (g : bytes) : Prop := wf_bytes g /\ length g = 16%nat.
Definition wf_xml (x : XmlData) : Prop := wf_str (xml_data x).

Definition opt_wf {A} (P : A -> Prop) (o : option A) : Prop :=
  match o with Some a => P a | None => True end.

Definition wf_column (d : ColumnData) : Prop :=
  match d with
  | ColumnData.U8 v => opt_wf (in_unsigned 8) v
  | ColumnData.I16 v => opt_wf (in_signed 16) v
  | ColumnData.I32 v => opt_wf (in_signed 32) v
  | ColumnData.I64 v => opt_wf (in_signed 64) v
  | ColumnData.F32 v => opt_wf (in_unsigned 32) v
  | ColumnData.F64 v => opt_wf (in_unsigned 64) v
  | ColumnData.Bit _ => True
  | ColumnData.String v => opt_wf (fun s => wf_str s) v
  | ColumnData.Guid v => opt_wf wf_guid v
  | ColumnData.Binary v => opt_wf (fun b => wf_bytes b) v
  | ColumnData.Numeric v => opt_wf wf_numeric v
  | ColumnData.Xml v => opt_wf wf_xml v
  | ColumnData.DateTime v => opt_wf wf_datetime v
  | ColumnData.SmallDateTime v => opt_wf wf_smalldatetime v
  | ColumnData.Time v => opt_wf wf_time v
  | ColumnData.Date v => opt_wf wf_date v
  | ColumnData.DateTime2 v => opt_wf wf_datetime2 v
  | ColumnData.DateTimeOffset v => opt_wf wf_datetimeoffset v
  end.

(** Metadata as [TypeInfo::decode] can produce it: the only invariant the
    decoders of values rely on is the bound on a numeric scale. *)
Definition wf_typeinfo (t : TypeInfo) : Prop :=
  match t with
  | TypeInfo.VarLenSizedPrecision _ _ precision scale => precision <= 38 /\ 0 <= scale <= precision
  | TypeInfo.VarLenSized cx => 0 <= vlc_len cx
  | _ => True
  end.

(** A sized type, by its parts. *)
Definition vls (t : VarLenType) (n : Z) (co : option Collation) : TypeInfo :=
  TypeInfo.VarLenSized (mkVarLenContext t n co).
