(* ===== verification/TypeInfoCodec.v ===== *)
(** * TypeInfoCodec: [TYPE_INFO] on the wire, [tds/codec/type_info.rs]

    The column types of COLMETADATA, RETURNVALUE, ALTMETADATA, table-valued
    parameters and bulk loads.  [typeinfo_decode] is what the driver reads
    from the server, [typeinfo_encode] what it sends back in a bulk load. *)

From S2P Require Import Prelude Unicode Collation SqlRead SqlWrite Types.

Import VarLenType.

(** How the length field of a variable-length type is sent. *)
Inductive LenField := NoLen | Len8 | Len16 | Len32.

(** [impl Encode for VarLenContext]: the width of the length field, by type;
    the types without an arm are an error. *)
Definition encode_len_field (ty : VarLenType) : option LenField :=
  match ty with
  | Daten => Some NoLen
  | Timen | DatetimeOffsetn | Datetime2 => Some Len8
  | Bitn | Intn | Floatn | Decimaln | Numericn | Guid | Money | Datetimen => Some Len8
  | NChar | BigChar | NVarchar | BigVarChar | BigBinary | BigVarBin => Some Len16
  | Image | Text | NText | SSVariant => Some Len32
  | Xml => Some NoLen
  | Udt => None
  end.

Definition put_collation (o : option Collation) : M bytes unit :=
  match o with
  | Some c => put_u32_le (info c) ;; put_u8 (sort_id c)
  | None => ret tt
  end.

Definition varlencontext_encode (cx : VarLenContext) : M bytes unit :=
  put_u8 (var_as_u8 (vlc_type cx)) ;;
  match encode_len_field (vlc_type cx) with
  | Some NoLen => ret tt
  | Some Len8 => put_u8 (vlc_len cx)
  | Some Len16 => put_u16_le (vlc_len cx)
  | Some Len32 => put_u32_le (vlc_len cx)
  | None => fail (Protocol "encoding a var-len context is not supported")
  end ;;
  put_collation (vlc_collation cx).

(** [impl Encode for TypeInfo] *)
Definition typeinfo_encode (t : TypeInfo) : M bytes unit :=
  match t with
  | TypeInfo.FixedLen ty => put_u8 (fixed_as_u8 ty)
  | TypeInfo.VarLenSized cx => varlencontext_encode cx
  | TypeInfo.VarLenSizedPrecision ty size precision scale =>
      put_u8 (var_as_u8 ty) ;; put_u8 size ;; put_u8 precision ;; put_u8 scale
  | TypeInfo.Xml schema _ =>
      put_u8 (var_as_u8 Xml) ;;
      match schema with
      | Some xs =>
          put_u8 1 ;;
          encode_b_varchar (xs_db_name xs) ;;
          encode_b_varchar (xs_owner xs) ;;
          encode_us_varchar (xs_collection xs)
      | None => put_u8 0
      end
  | TypeInfo.Udt i =>
      put_u8 (var_as_u8 Udt) ;;
      put_u16_le (max_byte_size i) ;;
      encode_b_varchar (udt_db_name i) ;;
      encode_b_varchar (schema_name i) ;;
      encode_b_varchar (udt_type_name i) ;;
      encode_us_varchar (assembly_qualified_name i)
  end.

(** The size [TypeInfo::decode] gives an [xml] column. *)
Definition XML_SIZE : Z := 0xfffffffffffffffe.

(** The [len] of [TypeInfo::decode], by type. *)
Definition decode_len {R} `{SqlReadBytes R} (ty : VarLenType) : M R Z :=
  match ty with
  | Timen | DatetimeOffsetn | Datetime2 => read_u8
  | Daten => ret 3
  | Bitn | Intn | Floatn | Decimaln | Numericn | Guid | Money | Datetimen => read_u8
  | NChar | BigChar | NVarchar | BigVarChar | BigBinary | BigVarBin => read_u16_le
  | Image | Text | NText | SSVariant => read_u32_le
  | Xml | Udt => fail (Protocol "unsupported column type in COLMETADATA")
  end.

Definition has_collation (ty : VarLenType) : bool :=
  match ty with NText | Text | BigChar | NChar | NVarchar | BigVarChar => true | _ => false end.

Definition read_collation {R} `{SqlReadBytes R} : M R Collation :=
  i <- read_u32_le ;; s <- read_u8 ;; ret (mkCollation i s).

(** [TypeInfo::decode] *)
Definition typeinfo_decode {R} `{SqlReadBytes R} : M R TypeInfo :=
  ty <- read_u8 ;;
  match fixed_try_from ty with
  | Some ty => ret (TypeInfo.FixedLen ty)
  | None =>
      match var_try_from ty with
      | None => fail (Protocol "invalid or unsupported column type")
      | Some Xml =>
          has_schema <- read_u8 ;;
          if has_schema =? 1 then
            db_name <- read_b_varchar ;;
            owner <- read_b_varchar ;;
            collection <- read_us_varchar ;;
            ret (TypeInfo.Xml (Some (mkXmlSchema db_name owner collection)) XML_SIZE)
          else ret (TypeInfo.Xml None XML_SIZE)
      | Some Udt =>
          mbs <- read_u16_le ;;
          db_name <- read_b_varchar ;;
          schema_name <- read_b_varchar ;;
          type_name <- read_b_varchar ;;
          aqn <- read_us_varchar ;;
          ret (TypeInfo.Udt (mkUdtInfo mbs db_name schema_name type_name aqn))
      | Some ty =>
          len <- decode_len ty ;;
          collation <- (if has_collation ty then c <- read_collation ;; ret (Some c) else ret None) ;;
          match ty with
          | Decimaln | Numericn =>
              precision <- read_u8 ;;
              scale <- read_u8 ;;
              if (38 <? precision) || (precision <? scale)
              then fail (Protocol "decimal/numeric: invalid precision / scale")
              else ret (TypeInfo.VarLenSizedPrecision ty len precision scale)
          | _ => ret (TypeInfo.VarLenSized (mkVarLenContext ty len collation))
          end
      end
  end.

(** ** What a [TYPE_INFO] can carry

    The metadata for which encoding is faithful: every length fits its field,
    every name its length prefix, a collation is present exactly for the
    character types, precision and scale are in range. *)
Definition fits_len (ty : VarLenType) (n : Z) : bool :=
  match encode_len_field ty with
  | Some NoLen => n =? 3
  | Some Len8 => (0 <=? n) && (n <? 2 ^ 8)
  | Some Len16 => (0 <=? n) && (n <? 2 ^ 16)
  | Some Len32 => (0 <=? n) && (n <? 2 ^ 32)
  | None => false
  end.

Definition is_decimal (ty : VarLenType) : bool :=
  match ty with Decimaln | Numericn => true | _ => false end.
Definition is_sized (ty : VarLenType) : bool :=
  match ty with Decimaln | Numericn | Xml | Udt => false | _ => true end.

Definition short_str (max : Z) (s : str) : Prop := wf_str s /\ len (encode_utf16 s) <= max.

Definition wire_typeinfo (t : TypeInfo) : Prop :=
  match t with
  | TypeInfo.FixedLen _ => True
  | TypeInfo.VarLenSized cx =>
      is_sized (vlc_type cx) = true /\ fits_len (vlc_type cx) (vlc_len cx) = true /\
      match vlc_collation cx with
      | Some c => has_collation (vlc_type cx) = true /\ wf_collation c
      | None => has_collation (vlc_type cx) = false
      end
  | TypeInfo.VarLenSizedPrecision ty size precision scale =>
      is_decimal ty = true /\ 0 <= size < 256 /\ precision <= 38 /\ 0 <= scale <= precision
  | TypeInfo.Xml schema size =>
      size = XML_SIZE /\
      match schema with
      | Some xs => short_str 255 (xs_db_name xs) /\ short_str 255 (xs_owner xs) /\
                   short_str 65535 (xs_collection xs)
      | None => True
      end
  | TypeInfo.Udt i =>
      in_unsigned 16 (max_byte_size i) /\ short_str 255 (udt_db_name i) /\
      short_str 255 (schema_name i) /\ short_str 255 (udt_type_name i) /\
      short_str 65535 (assembly_qualified_name i)
  end.

(** ** The bytes of a type *)

Definition len_bytes (ty : VarLenType) (n : Z) : bytes :=
  match encode_len_field ty with
  | Some Len8 => le_bytes 1 n
  | Some Len16 => le_bytes 2 n
  | Some Len32 => le_bytes 4 n
  | _ => []
  end.

Definition collation_bytes (o : option Collation) : bytes :=
  match o with Some c => le_bytes 4 (info c) ++ le_bytes 1 (sort_id c) | None => [] end.

Definition typeinfo_bytes (t : TypeInfo) : bytes :=
  match t with
  | TypeInfo.FixedLen ty => le_bytes 1 (fixed_as_u8 ty)
  | TypeInfo.VarLenSized cx =>
      le_bytes 1 (var_as_u8 (vlc_type cx)) ++ len_bytes (vlc_type cx) (vlc_len cx)
      ++ collation_bytes (vlc_collation cx)
  | TypeInfo.VarLenSizedPrecision ty size precision scale =>
      le_bytes 1 (var_as_u8 ty) ++ le_bytes 1 size ++ le_bytes 1 precision ++ le_bytes 1 scale
  | TypeInfo.Xml (Some xs) _ =>
      le_bytes 1 (var_as_u8 Xml) ++ le_bytes 1 1 ++ b_varchar (xs_db_name xs)
      ++ b_varchar (xs_owner xs) ++ us_varchar (xs_collection xs)
  | TypeInfo.Xml None _ => le_bytes 1 (var_as_u8 Xml) ++ le_bytes 1 0
  | TypeInfo.Udt i =>
      le_bytes 1 (var_as_u8 Udt) ++ le_bytes 2 (max_byte_size i) ++ b_varchar (udt_db_name i)
      ++ b_varchar (schema_name i) ++ b_varchar (udt_type_name i)
      ++ us_varchar (assembly_qualified_name i)
  end.

Lemma appends_collation o : appends (put_collation o) (collation_bytes o).
Proof. destruct o; cbn; [|apply appends_ret]. appends_steps. Qed.

Lemma appends_typeinfo t : wire_typeinfo t -> appends (typeinfo_encode t) (typeinfo_bytes t).
Proof.
  destruct t as [ty|[ty n co]|ty size p s|schema size|i]; cbn [wire_typeinfo typeinfo_encode typeinfo_bytes].
  - intros _. apply appends_put_u8.
  - unfold varlencontext_encode, len_bytes, fits_len; cbn [vlc_type vlc_len vlc_collation].
    intros (_ & Hf & _). appends_steps; apply appends_bind; [|apply appends_collation].
    destruct (encode_len_field ty) as [[]|]; try discriminate; auto with tds_appends.
  - intros _. appends_steps.
  - destruct schema as [xs|]; [intros (_ & [_ H1] & [_ H2] & [_ H3])|intros _]; appends_steps.
  - intros (_ & [_ H1] & [_ H2] & [_ H3] & [_ H4]). appends_steps.
Qed.

Lemma decodes_len ty n : is_sized ty || is_decimal ty = true -> fits_len ty n = true ->
  decodes (decode_len ty) (len_bytes ty n) n.
Proof.
  intros Hs Hf. destruct ty; try discriminate; unfold fits_len, len_bytes in *; cbn in *;
    bool_Z; subst; eauto with tds_decodes.
Qed.

Lemma decodes_collation c : wf_collation c ->
  decodes read_collation (le_bytes 4 (info c) ++ le_bytes 1 (sort_id c)) c.
Proof. intros [H1 H2]. destruct c. unfold read_collation. decodes_steps. Qed.

Lemma decodes_opt_collation ty o :
  match o with Some c => has_collation ty = true /\ wf_collation c | None => has_collation ty = false end ->
  decodes (if has_collation ty then c <- read_collation ;; ret (Some c) else ret None) (collation_bytes o) o.
Proof.
  destruct o as [c|]; cbn.
  - intros [-> Hc]. apply (decodes_bind_ret _ Some), decodes_collation, Hc.
  - intros ->. apply decodes_ret.
Qed.

Lemma decodes_typeinfo t : wire_typeinfo t -> decodes typeinfo_decode (typeinfo_bytes t) t.
Proof.
  unfold typeinfo_decode.
  destruct t as [ty|[ty n co]|ty size p s|schema size|i]; cbn [wire_typeinfo typeinfo_bytes vlc_type vlc_len vlc_collation].
  - intros _. eapply decodes_bind_last.
    + apply decodes_u8. destruct ty; unfold in_unsigned; cbn; lia.
    + rewrite FixedLenType.fixed_try_from_as_u8. apply decodes_ret.
  - intros (Hs & Hf & Hc). decodes_step. rewrite VarLenType.fixed_try_from_var, VarLenType.var_try_from_as_u8.
    pose proof (decodes_len ty n) as Hl. rewrite Hs in Hl. specialize (Hl eq_refl Hf).
    pose proof (decodes_opt_collation ty co Hc) as Hco.
    destruct ty; try discriminate;
      (eapply decodes_bind; [exact Hl|]; apply (decodes_bind_ret _ (fun c => _)), Hco).
  - intros (Hd & Hsz & Hp & Hsc). decodes_step.
    rewrite VarLenType.fixed_try_from_var, VarLenType.var_try_from_as_u8.
    assert (Hb : (38 <? p) || (p <? s) = false)
      by (rewrite (proj2 (Z.ltb_ge _ _)), (proj2 (Z.ltb_ge _ _)) by lia; reflexivity).
    destruct ty; try discriminate; cbn [decode_len has_collation]; decodes_step;
      (eapply decodes_bind_nil; [apply decodes_ret|]; decodes_step;
       eapply decodes_bind_last; [solve [eauto with tds_decodes]|]; rewrite Hb; apply decodes_ret).
  - destruct schema as [[d o c]|]; [intros (-> & [? ?] & [? ?] & [? ?])|intros (-> & _)];
      (decodes_step; rewrite VarLenType.fixed_try_from_var, VarLenType.var_try_from_as_u8).
    + cbn in *. decodes_steps.
    + eapply decodes_bind_last; [solve [eauto with tds_decodes]|apply decodes_ret].
  - destruct i; cbn. intros (? & [? ?] & [? ?] & [? ?] & [? ?]).
    decodes_step. decodes_steps.
Qed.

Lemma safe_collation : safe read_collation wf_collation.
Proof. unfold read_collation. safe_steps. split; assumption. Qed.
#[export] Hint Resolve safe_collation : tds_safe.

(** Whatever the server sends, decoding a type ends in a protocol error or in
    metadata whose precision and scale are in range, never in a panic. *)
Lemma safe_typeinfo : safe typeinfo_decode wf_typeinfo.
Proof.
  unfold typeinfo_decode. safe_step. destruct (fixed_try_from a); [apply safe_ret; exact I|].
  destruct (var_try_from a) as [ty|]; [|apply safe_fail].
  assert (Hl : safe (decode_len ty) (fun n => 0 <= n)).
  { destruct ty; cbn; try apply safe_fail; try (apply safe_ret; lia);
      (eapply safe_weaken; [eauto with tds_safe|]); unfold in_unsigned; lia. }
  assert (Hc : safe (if has_collation ty then c <- read_collation ;; ret (Some c) else ret None) (fun _ => True)).
  { destruct (has_collation ty); safe_steps; exact I. }
  destruct ty; safe_steps; cbn; unfold in_unsigned in *; auto.
  all: apply orb_false_iff in Heqb as [? ?]; bool_Z; lia.
Qed.
#[export] Hint Resolve safe_typeinfo : tds_safe.

(** A [TYPE_INFO] whose fields fit the wire ([wire_typeinfo]: lengths in
    their field, names in their prefix, a collation exactly for the character
    types, [scale <= precision <= 38]) is written by [TypeInfo::encode] and
    read back by [TypeInfo::decode] as the same type, consuming exactly what
    was written. *)
Theorem typeinfo_roundtrip (t : TypeInfo) (H : wire_typeinfo t) :
  exists out, appends (typeinfo_encode t) out /\ decodes typeinfo_decode out t.
Proof. exists (typeinfo_bytes t). split; [apply appends_typeinfo, H|apply decodes_typeinfo, H]. Qed.

Lemma typeinfo_roundtrip_witness :
  exists out, appends (typeinfo_encode (TypeInfo.VarLenSized (mkVarLenContext NVarchar 200 (Some (mkCollation 13632521 52))))) out /\
    decodes typeinfo_decode out (TypeInfo.VarLenSized (mkVarLenContext NVarchar 200 (Some (mkCollation 13632521 52)))).
Proof.
  apply typeinfo_roundtrip. repeat split; vm_compute; congruence.
Defined.

(** On any bytes, [TypeInfo::decode] consumes a prefix and returns an
    error or a type whose precision and scale satisfy
    [scale <= precision <= 38] ([wf_typeinfo]), which is what the value
    decoders divide and shift by; it does not panic. *)
Theorem typeinfo_decode_total (buf : bytes) (H : wf_bytes buf) :
  exists r rest, typeinfo_decode buf = (r, rest) /\ suffix rest buf /\
    match r with Ok t => wf_typeinfo t | Err _ => True | Panic | OutOfFuel => False end.
Proof.
  destruct (safe_typeinfo buf H) as (r & rest & E & S & X). exists r, rest. repeat split; assumption.
Qed.

Lemma typeinfo_decode_total_witness :
  exists r rest, typeinfo_decode [0x6C; 17; 40; 2] = (r, rest) /\ suffix rest [0x6C; 17; 40; 2] /\
    match r with Ok t => wf_typeinfo t | Err _ => True | Panic | OutOfFuel => False end.
Proof. apply typeinfo_decode_total. repeat constructor; lia. Defined.
