(* ===== verification/NumericCodec.v ===== *)
(** * NumericCodec: [decimal]/[numeric] values, [tds/numeric.rs]

    A [Numeric] is an i128 mantissa with a decimal scale.  Its fields are
    private and the constructors of the crate, the derived Deserialize apart, go through
    [new_with_scale], which asserts [scale <= 38]; [wf_numeric] is that
    invariant, and under it [10^scale] fits an i128, so the powers below are
    written without their overflow check. *)

From S2P Require Import Prelude Unicode Collation SqlRead SqlWrite Types.

Definition MAX_NUMERIC_SCALE : Z := 38.

(** [Numeric::new_with_scale]: a panic above the maximum scale. *)
Definition new_with_scale (v s : Z) : Res Numeric :=
  if s <=? MAX_NUMERIC_SCALE then Ok (mkNumeric v s) else Panic.

(** [Numeric::pow_scale] *)
Definition pow_scale (n : Numeric) : Z := 10 ^ scale n.

(** [Numeric::int_part]: i128 division truncates toward zero. *)
Definition int_part (n : Numeric) : Z := Z.quot (value n) (pow_scale n).

(** [Numeric::dec_part] *)
Definition dec_part (n : Numeric) : Z :=
  value n - Z.quot (value n) (pow_scale n) * pow_scale n.

(** The digit loop of [Numeric::precision]. *)
Fixpoint count_digits (fuel : nat) (n : Z) : Z :=
  match fuel with
  | O => 0
  | S fuel => if n =? 0 then 0 else 1 + count_digits fuel (Z.quot n 10)
  end.

(** An i128 has at most 39 digits ([count_digits_spec]). *)
Definition DIGITS_FUEL : nat := 39.

(** [Numeric::precision] *)
Definition precision (n : Numeric) : Z :=
  let result := count_digits DIGITS_FUEL (int_part n) in
  if result =? 0 then 1 + scale n else result + scale n.

(** [Numeric::len]: the width of the value on the wire, sign included. *)
Definition numeric_len (n : Numeric) : Z :=
  let p := precision n in
  if (1 <=? p) && (p <=? 9) then 5
  else if (10 <=? p) && (p <=? 19) then 9
  else if (20 <=? p) && (p <=? 28) then 13
  else 17.

(** [decode_d128]: the low word, and the high word when it is not zero. *)
Definition decode_d128 (buf : bytes) : Z :=
  let low_part := le_val (take 8 buf) in
  if forallb (fun x => x =? 0) (drop 8 buf) then low_part
  else let high_part := le_val (drop 8 buf) in low_part + high_part * (0xffffffffffffffff + 1).

(** [Numeric::decode] *)
Definition numeric_decode {R} `{SqlReadBytes R} (scale : Z) : M R (option Numeric) :=
  len <- read_u8 ;;
  if len =? 0 then ret None
  else
    s <- read_u8 ;;
    sign <- (if s =? 0 then ret (-1) else if s =? 1 then ret 1
             else fail (Protocol "decimal: invalid sign")) ;;
    v <- (if len =? 5 then m <- read_u32_le ;; ret (m * sign)
          else if len =? 9 then m <- read_u64_le ;; ret (m * sign)
          else if len =? 13 then
            buf <- read_bytes_into 12 [] 12 12 ;; ret (decode_d128 buf * sign)
          else if len =? 17 then
            buf <- read_bytes_into 16 [] 16 16 ;;
            let magnitude := decode_d128 buf in
            if 2 ^ 127 - 1 <? magnitude
            then fail (Protocol "decimal/numeric: magnitude exceeds the representable range")
            else ret (magnitude * sign)
          else fail (Protocol "decimal/numeric: invalid length received")) ;;
    n <- lift (new_with_scale v scale) ;;
    ret (Some n).

(** [impl Encode for Numeric]; [unsigned_abs] is a u128. *)
Definition numeric_encode (n : Numeric) : M bytes unit :=
  let len := numeric_len n in
  put_u8 len ;;
  (if value n <? 0 then put_u8 0 else put_u8 1) ;;
  let v := Z.abs (value n) in
  if len =? 5 then put_u32_le v
  else if len =? 9 then put_u64_le v
  else if len =? 13 then put_u64_le v ;; put_u32_le (Z.shiftr v 64)
  else put_u128_le v.

(** [impl PartialEq for Numeric]: the i128 product is unchecked, so it panics
    with overflow checks on ([oc]) and wraps without. *)
Definition numeric_eq (oc : bool) (a b : Numeric) : Res bool :=
  if scale b <? scale a then
    res_map (fun p => p =? value a) (arith_i oc 128 (10 ^ (scale a - scale b) * value b))
  else if scale a <? scale b then
    res_map (fun p => p =? value b) (arith_i oc 128 (10 ^ (scale b - scale a) * value a))
  else Ok (value a =? value b).

(** [From<Numeric> for i128] and [for u128]; the cast of a negative part
    wraps. *)
Definition numeric_to_i128 (n : Numeric) : Z := int_part n.
Definition numeric_to_u128 (n : Numeric) : Z := wrap 128 (int_part n).

(** ** Lemmas *)

Lemma pow10_pos k : 0 <= k -> 0 < 10 ^ k.
Proof. intros; apply Z.pow_pos_nonneg; lia. Qed.

(** The constructor invariant keeps the power inside an i128. *)
Lemma pow_scale_fits n : wf_numeric n -> in_signed 128 (pow_scale n) /\ 0 < pow_scale n.
Proof.
  intros [_ Hs]. unfold pow_scale, in_signed. pose proof (pow10_pos (scale n) ltac:(lia)).
  assert (10 ^ scale n <= 10 ^ 38) by (apply Z.pow_le_mono_r; lia).
  change (2 ^ (128 - 1)) with 170141183460469231731687303715884105728.
  change (10 ^ 38) with 100000000000000000000000000000000000000 in *. lia.
Qed.

Lemma int_dec_part n : wf_numeric n ->
  value n = int_part n * pow_scale n + dec_part n /\ Z.abs (dec_part n) < pow_scale n /\
  Z.abs (value n) = Z.abs (int_part n) * pow_scale n + Z.abs (dec_part n).
Proof.
  intros H. destruct (pow_scale_fits n H) as [_ Hp]. unfold int_part, dec_part.
  set (p := pow_scale n) in *. pose proof (Z.quot_rem' (value n) p) as E.
  pose proof (Z.rem_bound_abs (value n) p ltac:(lia)) as B.
  assert (value n - Z.quot (value n) p * p = Z.rem (value n) p) as -> by lia.
  repeat split; [lia|lia|].
  rewrite Z.quot_rem' with (a := value n) (b := p) at 1.
  destruct (Z.le_gt_cases 0 (value n)).
  - pose proof (Z.quot_pos (value n) p ltac:(lia) ltac:(lia)).
    pose proof (Z.rem_nonneg (value n) p ltac:(lia) ltac:(lia)). nia.
  - pose proof (Z.rem_nonpos (value n) p ltac:(lia) ltac:(lia)).
    assert (Z.quot (value n) p <= 0).
    { pose proof (Z.quot_pos (- value n) p ltac:(lia) ltac:(lia)) as Q.
      rewrite Z.quot_opp_l in Q by lia. lia. }
    nia.
Qed.

(** The digit loop with enough fuel counts the decimal digits. *)
Lemma count_digits_spec fuel : forall n, Z.abs n < 10 ^ Z.of_nat fuel ->
  let d := count_digits fuel n in
  0 <= d <= Z.of_nat fuel /\ Z.abs n < 10 ^ d /\ (n <> 0 -> 0 < d /\ 10 ^ (d - 1) <= Z.abs n) /\
  (n = 0 -> d = 0).
Proof.
  induction fuel as [|fuel IH]; intros n Hn; cbn [count_digits].
  - cbn in *. assert (n = 0) as -> by lia. repeat split; lia.
  - rewrite Nat2Z.inj_succ, Z.pow_succ_r in Hn by lia.
    destruct (Z.eqb_spec n 0) as [->|Hz]; [cbn; repeat split; lia|].
    pose proof (Z.quot_rem' n 10) as E. pose proof (Z.rem_bound_abs n 10 ltac:(lia)) as B.
    assert (A : Z.abs n = 10 * Z.abs (Z.quot n 10) + Z.abs (Z.rem n 10)).
    { destruct (Z.le_gt_cases 0 n).
      - pose proof (Z.quot_pos n 10 ltac:(lia) ltac:(lia)).
        pose proof (Z.rem_nonneg n 10 ltac:(lia) ltac:(lia)). lia.
      - pose proof (Z.rem_nonpos n 10 ltac:(lia) ltac:(lia)).
        pose proof (Z.quot_pos (- n) 10 ltac:(lia) ltac:(lia)) as Q.
        rewrite Z.quot_opp_l in Q by lia. lia. }
    specialize (IH (Z.quot n 10) ltac:(lia)). cbn zeta in IH. destruct IH as (H1 & H2 & H3 & H4).
    set (d := count_digits fuel (Z.quot n 10)) in *. cbn zeta.
    rewrite Z.add_comm, Z.pow_add_r by lia. change (10 ^ 1) with 10.
    split; [lia|]. split; [lia|]. split; [|lia]. intros _. split; [lia|]. replace (d + 1 - 1) with d by lia.
    destruct (Z.eq_dec (Z.quot n 10) 0) as [Z0|Z0].
    + rewrite (H4 Z0). cbn; lia.
    + destruct (H3 Z0) as [P Q]. replace d with (Z.succ (d - 1)) by lia.
      rewrite Z.pow_succ_r by lia. lia.
Qed.

Lemma int_part_digits n : wf_numeric n -> Z.abs (int_part n) < 10 ^ Z.of_nat DIGITS_FUEL.
Proof.
  intros H. destruct (int_dec_part n H) as (_ & _ & E). destruct (pow_scale_fits n H) as [_ Hp].
  destruct H as [[Hl Hh] _]. unfold DIGITS_FUEL.
  change (10 ^ Z.of_nat 39) with 1000000000000000000000000000000000000000.
  change (2 ^ (128 - 1)) with 170141183460469231731687303715884105728 in *. nia.
Qed.

(** The precision bounds the mantissa: [|value| < 10^precision]. *)
Lemma precision_spec n : wf_numeric n ->
  1 + scale n <= precision n <= 39 + scale n /\ Z.abs (value n) < 10 ^ precision n.
Proof.
  intros H. destruct (int_dec_part n H) as (_ & D & E).
  pose proof (count_digits_spec _ _ (int_part_digits n H)) as (H1 & H2 & H3 & H4).
  unfold precision. set (d := count_digits DIGITS_FUEL (int_part n)) in *.
  pose proof (pow10_pos (scale n) ltac:(destruct H; lia)). unfold DIGITS_FUEL in H1.
  destruct H as [_ Hs]. unfold pow_scale in *.
  destruct (Z.eqb_spec d 0) as [Hd|Hd].
  - rewrite Hd in H2. cbn in H2. rewrite Z.pow_add_r by lia. lia.
  - rewrite Z.pow_add_r by lia. split; [lia|]. nia.
Qed.

(** The width chosen for the wire holds the mantissa. *)
Lemma numeric_len_spec n : wf_numeric n -> value n <> - 2 ^ 127 ->
  (numeric_len n = 5 /\ Z.abs (value n) < 2 ^ 32) \/
  (numeric_len n = 9 /\ Z.abs (value n) < 2 ^ 64) \/
  (numeric_len n = 13 /\ Z.abs (value n) < 2 ^ 96) \/
  (numeric_len n = 17 /\ Z.abs (value n) < 2 ^ 127).
Proof.
  intros H Hmin. destruct (precision_spec n H) as [Hp Hv]. unfold numeric_len.
  assert (Mono : forall k, precision n <= k -> Z.abs (value n) < 10 ^ k).
  { intros k Hk. eapply Z.lt_le_trans; [exact Hv|]. apply Z.pow_le_mono_r; lia. }
  destruct H as [[Hl Hh] Hs]. change (2 ^ (128 - 1)) with (2 ^ 127) in *.
  destruct (Z.leb_spec 1 (precision n)), (Z.leb_spec (precision n) 9); cbn [andb]; try lia.
  - left. specialize (Mono 9 ltac:(lia)). cbn in *; lia.
  - destruct (Z.leb_spec 10 (precision n)), (Z.leb_spec (precision n) 19); cbn [andb]; try lia.
    + right; left. specialize (Mono 19 ltac:(lia)). cbn in *; lia.
    + destruct (Z.leb_spec 20 (precision n)), (Z.leb_spec (precision n) 28); cbn [andb]; try lia.
      right; right; left. specialize (Mono 28 ltac:(lia)). cbn in *; lia.
Qed.

(** ** The wire form *)

Definition numeric_bytes (n : Numeric) : bytes :=
  le_bytes 1 (numeric_len n) ++ le_bytes 1 (if value n <? 0 then 0 else 1) ++
  le_bytes (Z.to_nat (numeric_len n) - 1) (Z.abs (value n)).

Lemma appends_numeric n : wf_numeric n -> value n <> - 2 ^ 127 ->
  appends (numeric_encode n) (numeric_bytes n).
Proof.
  intros H Hm. unfold numeric_encode, numeric_bytes. appends_steps.
  apply appends_bind; [destruct (value n <? 0); apply appends_put_u8|].
  destruct (numeric_len_spec n H Hm) as [[-> ?]|[[-> ?]|[[-> ?]|[-> ?]]]]; cbn [Z.eqb Pos.eqb].
  - apply appends_put_u32_le.
  - apply appends_put_u64_le.
  - change (Z.to_nat 13 - 1)%nat with (8 + 4)%nat. rewrite le_bytes_split.
    rewrite Z.shiftr_div_pow2 by lia. appends_steps.
  - apply appends_put_u128_le.
Qed.

Lemma forallb_zero_val l : forallb (fun x => x =? 0) l = true -> le_val l = 0.
Proof.
  induction l as [|b l IH]; cbn; [auto|]. intros H. apply andb_true_iff in H as [H1 H2].
  apply Z.eqb_eq in H1. rewrite IH by assumption. lia.
Qed.

(** [decode_d128] reads a little-endian integer of more than eight bytes. *)
Lemma decode_d128_val buf : (8 <= length buf)%nat -> decode_d128 buf = le_val buf.
Proof.
  intros H. unfold decode_d128.
  replace (le_val buf) with (le_val (take 8 buf ++ drop 8 buf)) by (rewrite take_drop; reflexivity).
  rewrite le_val_app, length_take, Nat.min_l by lia.
  destruct (forallb _ (drop 8 buf)) eqn:E; [rewrite (forallb_zero_val _ E)|];
    change (2 ^ (8 * Z.of_nat 8)) with (0xffffffffffffffff + 1); lia.
Qed.

Lemma decodes_read_bytes_into l cap : 0 < cap ->
  decodes (read_bytes_into (length l) [] (len l) cap) l l.
Proof.
  intros Hc rest. pose proof (read_bytes_into_spec (length l) [] (len l) cap (l ++ rest) Hc
    ltac:(lia) ltac:(lia)) as H.
  rewrite length_app, decide_True in H by lia. rewrite H, Nat2Z.id.
  rewrite take_app_length, drop_app_length. reflexivity.
Qed.

Lemma new_with_scale_ok n : wf_numeric n -> new_with_scale (value n) (scale n) = Ok n.
Proof.
  intros [_ Hs]. unfold new_with_scale, MAX_NUMERIC_SCALE. rewrite (proj2 (Z.leb_le _ _)) by lia.
  destruct n; reflexivity.
Qed.

Lemma decodes_numeric n : wf_numeric n -> value n <> - 2 ^ 127 ->
  decodes (numeric_decode (scale n)) (numeric_bytes n) (Some n).
Proof.
  intros H Hm. unfold numeric_decode, numeric_bytes.
  set (sg := if value n <? 0 then 0 else 1).
  assert (Hsg : in_unsigned 8 sg) by (unfold sg, in_unsigned; destruct (value n <? 0); cbn; lia).
  assert (Hs : decodes (if sg =? 0 then ret (-1) else if sg =? 1 then ret 1
             else fail (Protocol "decimal: invalid sign")) [] (Z.sgn (value n + value n + 1))).
  { unfold sg. destruct (Z.ltb_spec (value n) 0); cbn [Z.eqb Pos.eqb];
      [rewrite Z.sgn_neg by lia|rewrite Z.sgn_pos by lia]; apply decodes_ret. }
  assert (Hv : Z.abs (value n) * Z.sgn (value n + value n + 1) = value n).
  { destruct (Z.ltb_spec (value n) 0); [rewrite Z.sgn_neg by lia|rewrite Z.sgn_pos by lia]; lia. }
  assert (Hend : decodes (n <- lift (new_with_scale (value n) (scale n)) ;; ret (Some n)) [] (Some n)).
  { apply (decodes_bind_ret _ Some), decodes_lift, new_with_scale_ok, H. }
  destruct (numeric_len_spec n H Hm) as [[E L]|[[E L]|[[E L]|[E L]]]]; rewrite E;
    decodes_step; cbn [Z.eqb Pos.eqb]; decodes_step;
    (eapply decodes_bind_nil; [exact Hs|]);
    (eapply decodes_bind_last; [|rewrite <- Hv in Hend; exact Hend]).
  - apply (decodes_bind_ret _ (fun m => m * _)), decodes_u32_le. unfold in_unsigned; lia.
  - apply (decodes_bind_ret _ (fun m => m * _)), decodes_u64_le. unfold in_unsigned; lia.
  - set (l := le_bytes (Z.to_nat 13 - 1) _).
    replace (Z.abs (value n)) with (decode_d128 l)
      by (rewrite decode_d128_val by (unfold l; rewrite length_le_bytes; cbn; lia);
          unfold l; rewrite le_val_bytes; apply wrap_small; split; [apply Z.abs_nonneg|exact L]).
    apply (decodes_bind_ret _ (fun b => decode_d128 b * _)), (decodes_read_bytes_into l 12). lia.
  - set (l := le_bytes (Z.to_nat 17 - 1) _).
    assert (D : decode_d128 l = Z.abs (value n)).
    { rewrite decode_d128_val by (unfold l; rewrite length_le_bytes; cbn; lia).
      unfold l; rewrite le_val_bytes; apply wrap_small; split; [apply Z.abs_nonneg|].
      eapply Z.lt_trans; [exact L|reflexivity]. }
    eapply decodes_bind_last; [apply (decodes_read_bytes_into l 16); lia|].
    cbn zeta. rewrite D, (proj2 (Z.ltb_ge _ _)) by lia. apply decodes_ret.
Qed.

(** [Numeric::decode] is safe at every scale the metadata decoder lets
    through. *)
Lemma safe_numeric s : 0 <= s <= 38 -> safe (numeric_decode s) (opt_wf wf_numeric).
Proof.
  intros Hs. unfold numeric_decode. safe_step. safe_step; [apply safe_ret; exact I|].
  safe_step. eapply (safe_bind _ _ (fun s => s = 1 \/ s = -1)).
  { safe_steps; auto. }
  intros sign Hsign.
  eapply (safe_bind _ _ (fun v => Z.abs v < 2 ^ 127)).
  { assert (R : forall k n, n = Z.of_nat k -> safe (read_bytes_into k [] n n) (fun l => wf_bytes l /\ length l = k) \/ k = 0%nat).
    { intros [|k] n E; [right; reflexivity|left]. subst n.
      eapply safe_weaken; [rewrite <- (Nat2Z.id (S k)) at 1; apply safe_read_bytes_into; try lia; constructor|].
      cbn beta; intros l [W L]; split; [exact W|]. cbn [length] in L. lia. }
    destruct (R 12%nat 12 eq_refl) as [R12|]; [|lia]. destruct (R 16%nat 16 eq_refl) as [R16|]; [|lia].
    safe_steps; unfold in_unsigned in *; cbn zeta;
      try match goal with H : wf_bytes ?l /\ length ?l = _ |- _ => destruct H as [W L] end.
    - destruct Hsign; subst; lia.
    - destruct Hsign; subst; lia.
    - pose proof (le_val_range _ W) as V; unfold in_unsigned in V. rewrite L in V.
      rewrite decode_d128_val by lia. change (2 ^ (8 * Z.of_nat 12)) with (2 ^ 96) in V.
      destruct Hsign; subst; lia.
    - pose proof (le_val_range _ W) as V; unfold in_unsigned in V.
      rewrite decode_d128_val in * by lia. safe_steps. destruct Hsign; bool_Z; subst; lia. }
  intros v Hv. eapply safe_bind; [apply (safe_lift _ wf_numeric)|intros n Hn; apply safe_ret; exact Hn].
  unfold new_with_scale, MAX_NUMERIC_SCALE. rewrite (proj2 (Z.leb_le _ _)) by lia.
  cbn. unfold wf_numeric, in_signed; cbn [value scale]. change (2 ^ (128 - 1)) with (2 ^ 127). lia.
Qed.
#[export] Hint Resolve safe_numeric : tds_safe.

(** ** Properties *)

(** Every decimal the driver can hold, the one mantissa [i128::MIN]
    apart, is encoded without error in the width its precision selects, and
    decoding those bytes at the same scale gives it back, consuming exactly
    what was written. *)
Theorem numeric_roundtrip (n : Numeric) (H : wf_numeric n) (Hmin : value n <> - 2 ^ 127) :
  appends (numeric_encode n) (numeric_bytes n) /\
  decodes (numeric_decode (scale n)) (numeric_bytes n) (Some n).
Proof. split; [apply appends_numeric|apply decodes_numeric]; assumption. Qed.

Lemma numeric_roundtrip_witness :
  appends (numeric_encode (mkNumeric (-123456789012345678901234567) 10))
          (numeric_bytes (mkNumeric (-123456789012345678901234567) 10)) /\
  decodes (numeric_decode 10) (numeric_bytes (mkNumeric (-123456789012345678901234567) 10))
          (Some (mkNumeric (-123456789012345678901234567) 10)).
Proof.
  apply (numeric_roundtrip (mkNumeric (-123456789012345678901234567) 10));
    [split; [split; vm_compute; congruence|cbn; lia]|vm_compute; congruence].
Defined.

(** [Numeric::precision] is the exact number of digits when there is an
    integer part, [1 + scale] otherwise, and the mantissa never needs more
    digits than it says. *)
Theorem numeric_precision_exact (n : Numeric) (H : wf_numeric n) :
  Z.abs (value n) < 10 ^ precision n /\
  (int_part n <> 0 -> 10 ^ (precision n - 1) <= Z.abs (value n)) /\
  (int_part n = 0 -> precision n = 1 + scale n).
Proof.
  split; [apply precision_spec, H|].
  destruct (int_dec_part n H) as (_ & _ & E).
  pose proof (count_digits_spec _ _ (int_part_digits n H)) as (H1 & _ & H3 & H4).
  unfold precision. set (d := count_digits DIGITS_FUEL (int_part n)) in *.
  split; intros Hi; [|rewrite (H4 Hi); reflexivity].
  destruct (H3 Hi) as [Hd Hp]. rewrite (proj2 (Z.eqb_neq _ _)) by lia.
  replace (d + scale n - 1) with ((d - 1) + scale n) by lia.
  destruct H as [_ Hs]. rewrite Z.pow_add_r by lia. unfold pow_scale in E.
  pose proof (pow10_pos (scale n) ltac:(lia)). nia.
Qed.

Lemma numeric_precision_exact_witness :
  wf_numeric (mkNumeric (-12345) 2) /\ precision (mkNumeric (-12345) 2) = 5 /\
  Z.abs (-12345) < 10 ^ precision (mkNumeric (-12345) 2).
Proof.
  assert (wf_numeric (mkNumeric (-12345) 2)) as H by (split; [split; vm_compute; congruence|cbn; lia]).
  split; [exact H|]. split; [reflexivity|]. apply (numeric_precision_exact (mkNumeric (-12345) 2) H).
Defined.

(** A fraction of scale 38 gets precision 39, one more than the type
    allows: the parameter declaration and the [TYPE_INFO] written for it say
    [numeric(39,38)], which the driver's own metadata decoder rejects. *)
Lemma numeric_precision_exceeds_38 (v : Z) (H : Z.abs v < 10 ^ 38) :
  precision (mkNumeric v 38) = 39.
Proof.
  unfold precision, int_part, pow_scale; cbn [value scale].
  assert (Z.quot v (10 ^ 38) = 0) as ->; [|reflexivity].
  apply Z.quot_small_iff; [discriminate|exact H].
Qed.

Lemma numeric_precision_exceeds_38_witness :
  Z.abs 5 < 10 ^ 38 /\ precision (mkNumeric 5 38) = 39.
Proof.
  assert (Z.abs 5 < 10 ^ 38) as H by (vm_compute; reflexivity).
  split; [exact H|]. apply (numeric_precision_exceeds_38 5 H).
Defined.

(** Comparing two decimals is comparing the rational numbers they stand
    for, whenever the rescaled mantissa still fits an i128. *)
Theorem numeric_eq_spec (oc : bool) (a b : Numeric) (Ha : wf_numeric a) (Hb : wf_numeric b)
  (Hfit : in_signed 128 (if scale b <? scale a then 10 ^ (scale a - scale b) * value b
                         else 10 ^ (scale b - scale a) * value a)) :
  numeric_eq oc a b = Ok (value a * 10 ^ scale b =? value b * 10 ^ scale a).
Proof.
  unfold numeric_eq, arith_i. destruct Ha as [_ Ha], Hb as [_ Hb].
  pose proof (pow10_pos (scale a) ltac:(lia)). pose proof (pow10_pos (scale b) ltac:(lia)).
  destruct (Z.ltb_spec (scale b) (scale a)) as [L|L]; [|destruct (Z.ltb_spec (scale a) (scale b)) as [L'|L']].
  - rewrite (proj2 (is_signed_spec _ _) Hfit). cbn [res_map]. f_equal.
    replace (10 ^ scale a) with (10 ^ (scale a - scale b) * 10 ^ scale b)
      by (rewrite <- Z.pow_add_r by lia; f_equal; lia).
    apply Bool.eq_iff_eq_true; rewrite !Z.eqb_eq; nia.
  - rewrite (proj2 (is_signed_spec _ _) Hfit). cbn [res_map]. f_equal.
    replace (10 ^ scale b) with (10 ^ (scale b - scale a) * 10 ^ scale a)
      by (rewrite <- Z.pow_add_r by lia; f_equal; lia).
    apply Bool.eq_iff_eq_true; rewrite !Z.eqb_eq; nia.
  - replace (scale b) with (scale a) by lia. f_equal.
    apply Bool.eq_iff_eq_true; rewrite !Z.eqb_eq; nia.
Qed.

Lemma numeric_eq_spec_witness :
  numeric_eq true (mkNumeric 150 2) (mkNumeric 15 1) = Ok true.
Proof.
  apply (numeric_eq_spec true (mkNumeric 150 2) (mkNumeric 15 1));
    [split; [split; vm_compute; congruence|cbn; lia]
    |split; [split; vm_compute; congruence|cbn; lia]|split; vm_compute; congruence].
Defined.

(** When the product does not fit, comparing two valid decimals panics in
    a debug build, and in a release build 2^90 at scale 0 compares equal to 0
    at scale 38. *)
Lemma numeric_eq_overflow :
  wf_numeric (mkNumeric (2 ^ 90) 0) /\ wf_numeric (mkNumeric 0 38) /\
  numeric_eq true (mkNumeric (2 ^ 90) 0) (mkNumeric 0 38) = Panic /\
  numeric_eq false (mkNumeric (2 ^ 90) 0) (mkNumeric 0 38) = Ok true.
Proof.
  repeat split; try (vm_compute; congruence); cbn; lia.
Qed.
