(* ===== verification/Temporal.v ===== *)
(** * Temporal: date and time values, [tds/time.rs]

    The wire forms of [datetime], [smalldatetime], [date], [time],
    [datetime2] and [datetimeoffset], and the narrowing of a [datetime2] to a
    legacy [datetime] column in [column_data.rs]. *)

From S2P Require Import Prelude Unicode Collation SqlRead SqlWrite Types.

(** [DateTime::decode] and its encoder *)
Definition datetime_decode {R} `{SqlReadBytes R} : M R DateTime :=
  d <- read_i32_le ;; f <- read_u32_le ;; ret (mkDateTime d f).
Definition datetime_encode (d : DateTime) : M bytes unit :=
  put_i32_le (dt_days d) ;; put_u32_le (dt_seconds_fragments d).

(** [SmallDateTime::decode] and its encoder *)
Definition smalldatetime_decode {R} `{SqlReadBytes R} : M R SmallDateTime :=
  d <- read_u16_le ;; f <- read_u16_le ;; ret (mkSmallDateTime d f).
Definition smalldatetime_encode (d : SmallDateTime) : M bytes unit :=
  put_u16_le (sdt_days d) ;; put_u16_le (sdt_seconds_fragments d).

(** [Date::new]: asserts that the count fits three bytes. *)
Definition date_new (n : Z) : Res Date :=
  if Z.shiftr n 24 =? 0 then Ok (mkDate n) else Panic.

(** [Date::decode]: three bytes and a zero fourth. *)
Definition date_decode {R} `{SqlReadBytes R} : M R Date :=
  l <- read_n 3 ;; lift (date_new (le_val (l ++ [0]))).

(** [impl Encode for Date]: a count of more than three bytes is an error. *)
Definition date_encode (d : Date) : M bytes unit :=
  let tmp := le_bytes 4 (days d) in
  if nth 3 tmp 0 =? 0 then put_slice (take 3 tmp)
  else fail (Protocol "date day count is out of the 3-byte range").

(** [Time::len]: the width the scale selects. *)
Definition time_len (t : Time) : Res Z :=
  let s := time_scale t in
  if (0 <=? s) && (s <=? 2) then Ok 3
  else if (3 <=? s) && (s <=? 4) then Ok 4
  else if (5 <=? s) && (s <=? 7) then Ok 5
  else Err (Protocol "timen: invalid scale").

(** [Time::decode]: [n] is the declared scale, [rlen] the received length. *)
Definition time_decode {R} `{SqlReadBytes R} (n rlen : Z) : M R Time :=
  v <- (if (0 <=? n) && (n <=? 2) && (rlen =? 3) then
          hi <- read_u16_le ;; lo <- read_u8 ;; ret (Z.lor hi (Z.shiftl lo 16))
        else if (3 <=? n) && (n <=? 4) && (rlen =? 4) then read_u32_le
        else if (5 <=? n) && (n <=? 7) && (rlen =? 5) then
          hi <- read_u32_le ;; lo <- read_u8 ;; ret (Z.lor hi (Z.shiftl lo 32))
        else fail (Protocol "timen: invalid length")) ;;
  ret (mkTime v (wrap 8 n)).

(** [impl Encode for Time] *)
Definition time_encode (t : Time) : M bytes unit :=
  w <- lift (time_len t) ;;
  width_bits <- (if w =? 3 then ret 24 else if w =? 4 then ret 32 else if w =? 5 then ret 40 else panic) ;;
  if negb (Z.shiftr (increments t) width_bits =? 0)
  then fail (Protocol "time increments do not fit the field for scale")
  else
    if w =? 3 then put_u16_le (increments t) ;; put_u8 (Z.shiftr (increments t) 16)
    else if w =? 4 then put_u32_le (increments t)
    else if w =? 5 then put_u32_le (increments t) ;; put_u8 (Z.shiftr (increments t) 32)
    else panic.

(** [DateTime2::decode] and its encoder: the time, then the date. *)
Definition datetime2_decode {R} `{SqlReadBytes R} (n rlen : Z) : M R DateTime2 :=
  t <- time_decode n rlen ;;
  l <- read_n 3 ;;
  d <- lift (date_new (le_val (l ++ [0]))) ;;
  ret (mkDateTime2 d t).
Definition datetime2_encode (d : DateTime2) : M bytes unit :=
  time_encode (dt2_time d) ;; date_encode (dt2_date d).

(** [DateTimeOffset::decode] and its encoder *)
Definition datetimeoffset_decode {R} `{SqlReadBytes R} (n rlen : Z) : M R DateTimeOffset :=
  d <- datetime2_decode n rlen ;; o <- read_i16_le ;; ret (mkDateTimeOffset d o).
Definition datetimeoffset_encode (d : DateTimeOffset) : M bytes unit :=
  datetime2_encode (datetime2 d) ;; put_i16_le (offset d).

Definition DAYS_YEAR_1_TO_1900 : Z := 693595.

(** [datetime2_to_datetime] of [column_data.rs]; the two casts keep the low
    32 bits. *)
Definition datetime2_to_datetime (d : DateTime2) : Res DateTime :=
  let dt2_days := days (dt2_date d) in
  if dt2_days <? DAYS_YEAR_1_TO_1900
  then Err (Conversion "invalid datetime, expecting a date not earlier than 1900-01-01")
  else
    let ds := to_signed 32 (dt2_days - DAYS_YEAR_1_TO_1900) in
    let s := time_scale (dt2_time d) in
    if 9 <? s then Err (Protocol "invalid datetime2 scale, expected 0..=9")
    else
      let nanos := increments (dt2_time d) * 10 ^ (9 - s) in
      Ok (mkDateTime ds (wrap 32 (nanos * 300 / 1000000000))).

(** ** Lemmas *)

Lemma shiftr_zero v k : 0 <= v -> 0 <= k -> (Z.shiftr v k =? 0) = true <-> v < 2 ^ k.
Proof.
  intros Hv Hk. rewrite Z.eqb_eq, Z.shiftr_div_pow2 by lia.
  pose proof (Z.pow_pos_nonneg 2 k ltac:(lia) ltac:(lia)). split; intros H1.
  - apply Z.div_small_iff in H1; lia.
  - apply Z.div_small; lia.
Qed.

(** A word and the bytes above it, put together with [|] and [<<]. *)
Lemma lor_shiftl_add hi lo k : 0 <= k -> 0 <= hi < 2 ^ k -> 0 <= lo ->
  Z.lor hi (Z.shiftl lo k) = hi + lo * 2 ^ k.
Proof.
  intros Hk Hhi Hlo. rewrite <- Z.shiftl_mul_pow2 by lia.
  assert (D : Z.land hi (Z.shiftl lo k) = 0).
  { apply Z.bits_inj'; intros i Hi. rewrite Z.land_spec, Z.bits_0.
    destruct (Z.lt_ge_cases i k).
    - rewrite Z.shiftl_spec_low by lia. apply andb_false_r.
    - destruct (Z.eq_dec hi 0) as [->|]; [rewrite Z.bits_0; reflexivity|].
      rewrite (Z.bits_above_log2 hi); [reflexivity|lia|].
      apply Z.lt_le_trans with k; [apply Z.log2_lt_pow2; lia|lia]. }
  rewrite Z.add_nocarry_lxor, Z.lxor_lor by exact D. reflexivity.
Qed.

(** ** The wire forms *)

Definition datetime_bytes (d : DateTime) : bytes :=
  le_bytes 4 (dt_days d) ++ le_bytes 4 (dt_seconds_fragments d).
Definition smalldatetime_bytes (d : SmallDateTime) : bytes :=
  le_bytes 2 (sdt_days d) ++ le_bytes 2 (sdt_seconds_fragments d).
Definition date_bytes (d : Date) : bytes := le_bytes 3 (days d).

(** The width of a time of a valid scale. *)
Definition time_width (s : Z) : nat := if s <=? 2 then 3 else if s <=? 4 then 4 else 5.
Definition time_bytes (t : Time) : bytes := le_bytes (time_width (time_scale t)) (increments t).
Definition datetime2_bytes (d : DateTime2) : bytes := time_bytes (dt2_time d) ++ date_bytes (dt2_date d).
Definition datetimeoffset_bytes (d : DateTimeOffset) : bytes :=
  datetime2_bytes (datetime2 d) ++ le_bytes 2 (offset d).

(** A time that fits its field: a scale the protocol has and a count of
    increments within the width that scale selects. *)
Definition fits_time (t : Time) : Prop :=
  0 <= time_scale t <= 7 /\ in_unsigned (8 * Z.of_nat (time_width (time_scale t))) (increments t).
Definition fits_datetime2 (d : DateTime2) : Prop := fits_time (dt2_time d) /\ wf_date (dt2_date d).
Definition fits_datetimeoffset (d : DateTimeOffset) : Prop :=
  fits_datetime2 (datetime2 d) /\ in_signed 16 (offset d).

Lemma appends_datetime d : appends (datetime_encode d) (datetime_bytes d).
Proof. apply appends_bind; apply appends_put_slice. Qed.
Lemma appends_smalldatetime d : appends (smalldatetime_encode d) (smalldatetime_bytes d).
Proof. apply appends_bind; apply appends_put_slice. Qed.

Lemma appends_date d : wf_date d -> appends (date_encode d) (date_bytes d).
Proof.
  intros H. unfold date_encode, date_bytes. rewrite (le_bytes_split 3 1).
  rewrite Z.div_small by exact H. cbn. apply appends_put_slice.
Qed.

Lemma decodes_datetime d : wf_datetime d -> decodes datetime_decode (datetime_bytes d) d.
Proof. destruct d; intros [? ?]; cbn in *. unfold datetime_decode, datetime_bytes. decodes_steps. Qed.
Lemma decodes_smalldatetime d : wf_smalldatetime d -> decodes smalldatetime_decode (smalldatetime_bytes d) d.
Proof. destruct d; intros [? ?]; cbn in *. unfold smalldatetime_decode, smalldatetime_bytes. decodes_steps. Qed.

Lemma date_new_ok n : in_unsigned 24 n -> date_new n = Ok (mkDate n).
Proof.
  intros [H1 H2]. unfold date_new. rewrite (proj2 (shiftr_zero n 24 ltac:(lia) ltac:(lia))) by lia.
  reflexivity.
Qed.

Lemma le_val_3 l : le_val (l ++ [0]) = le_val l.
Proof. rewrite le_val_app. cbn. lia. Qed.

Lemma date_new_read d : wf_date d -> date_new (le_val (date_bytes d ++ [0])) = Ok d.
Proof.
  intros H. rewrite le_val_3. unfold date_bytes. rewrite le_val_bytes, wrap_small by exact H.
  rewrite date_new_ok by exact H. destruct d; reflexivity.
Qed.

Lemma decodes_date d : wf_date d -> decodes date_decode (date_bytes d) d.
Proof.
  intros H. eapply decodes_bind_last; [apply decodes_read_n, length_le_bytes|].
  apply decodes_lift, date_new_read, H.
Qed.

Lemma time_len_ok t : 0 <= time_scale t <= 7 -> time_len t = Ok (Z.of_nat (time_width (time_scale t))).
Proof.
  intros H. unfold time_len, time_width.
  destruct (Z.leb_spec (time_scale t) 2); [rewrite (proj2 (Z.leb_le _ _)) by lia; reflexivity|].
  rewrite andb_false_r.
  destruct (Z.leb_spec (time_scale t) 4); [rewrite (proj2 (Z.leb_le _ _)) by lia; reflexivity|].
  rewrite andb_false_r, !(proj2 (Z.leb_le _ _)) by lia. reflexivity.
Qed.

Lemma time_width_cases s : 0 <= s <= 7 ->
  (0 <= s <= 2 /\ time_width s = 3%nat) \/ (3 <= s <= 4 /\ time_width s = 4%nat) \/
  (5 <= s <= 7 /\ time_width s = 5%nat).
Proof.
  intros H. unfold time_width. destruct (Z.leb_spec s 2), (Z.leb_spec s 4); try lia; auto.
Qed.

Lemma appends_time t : fits_time t -> appends (time_encode t) (time_bytes t).
Proof.
  intros [Hs Hi] dst. unfold time_encode, time_bytes.
  rewrite (bind_ok _ _ dst _ dst) by (unfold lift; rewrite time_len_ok by lia; reflexivity).
  assert (R : (Z.shiftr (increments t) (8 * Z.of_nat (time_width (time_scale t))) =? 0) = true)
    by (apply shiftr_zero; unfold in_unsigned in Hi; lia).
  destruct (time_width_cases _ Hs) as [[_ E]|[[_ E]|[_ E]]]; rewrite E in R |- *;
    [change (8 * Z.of_nat 3) with 24 in R|change (8 * Z.of_nat 4) with 32 in R
    |change (8 * Z.of_nat 5) with 40 in R];
    eval_tests; rewrite bind_ret_l, R; eval_tests.
  - rewrite (le_bytes_split 2 1), Z.shiftr_div_pow2 by lia. revert dst. change (appends (put_u16_le (increments t) ;; put_u8 (increments t / 2 ^ 16))
      (le_bytes 2 (increments t) ++ le_bytes 1 (increments t / 2 ^ (8 * Z.of_nat 2)))). appends_steps.
  - apply appends_put_u32_le.
  - rewrite (le_bytes_split 4 1), Z.shiftr_div_pow2 by lia. revert dst. change (appends (put_u32_le (increments t) ;; put_u8 (increments t / 2 ^ 32))
      (le_bytes 4 (increments t) ++ le_bytes 1 (increments t / 2 ^ (8 * Z.of_nat 4)))). appends_steps.
Qed.

Lemma time_value n m v : in_unsigned (8 * Z.of_nat (n + m)) v ->
  Z.lor (v mod 2 ^ (8 * Z.of_nat n)) (Z.shiftl (v / 2 ^ (8 * Z.of_nat n)) (8 * Z.of_nat n)) = v.
Proof.
  intros [H1 _]. pose proof (Z.pow_pos_nonneg 2 (8 * Z.of_nat n) ltac:(lia) ltac:(lia)).
  rewrite lor_shiftl_add; try lia; [|apply Z.mod_pos_bound; lia|apply Z.div_pos; lia].
  pose proof (Z.div_mod v (2 ^ (8 * Z.of_nat n)) ltac:(lia)). lia.
Qed.

Lemma decodes_uint_le_wrap n v : decodes (read_uint_le n) (le_bytes n v) (v mod 2 ^ (8 * Z.of_nat n)).
Proof.
  unfold read_uint_le. fold (wrap (8 * Z.of_nat n) v). rewrite <- le_val_bytes.
  apply (decodes_bind_ret _ le_val), decodes_read_n, length_le_bytes.
Qed.

Lemma decodes_two_words n m v : in_unsigned (8 * Z.of_nat (n + m)) v ->
  decodes (hi <- read_uint_le n ;; lo <- read_uint_le m ;; ret (Z.lor hi (Z.shiftl lo (8 * Z.of_nat n))))
    (le_bytes (n + m) v) v.
Proof.
  intros H. rewrite le_bytes_split. eapply decodes_bind; [apply decodes_uint_le_wrap|].
  eapply decodes_bind_ret_eq; [apply decodes_uint_le|symmetry; apply (time_value n m), H].
  unfold in_unsigned in *. rewrite Nat2Z.inj_add, Z.mul_add_distr_l, Z.pow_add_r in H by lia.
  pose proof (Z.pow_pos_nonneg 2 (8 * Z.of_nat n) ltac:(lia) ltac:(lia)).
  split; [apply Z.div_pos; lia|apply Z.div_lt_upper_bound; lia].
Qed.

Lemma decodes_time t : fits_time t ->
  decodes (time_decode (time_scale t) (Z.of_nat (time_width (time_scale t)))) (time_bytes t) t.
Proof.
  intros [Hs Hi]. unfold time_decode, time_bytes. destruct t as [inc s]; cbn [increments time_scale] in *.
  apply decodes_bind_ret_eq with (a := inc); [|rewrite wrap_small by (unfold in_unsigned; lia); reflexivity].
  destruct (time_width_cases _ Hs) as [[B E]|[[B E]|[B E]]]; rewrite E in Hi |- *.
  - rewrite !(proj2 (Z.leb_le _ _)) by lia. apply (decodes_two_words 2 1), Hi.
  - rewrite (proj2 (Z.leb_gt s 2)) by lia. rewrite andb_false_r. cbn [andb].
    rewrite !(proj2 (Z.leb_le _ _)) by lia. apply decodes_u32_le, Hi.
  - rewrite (proj2 (Z.leb_gt s 2)), (proj2 (Z.leb_gt s 4)) by lia. rewrite !andb_false_r. cbn [andb].
    rewrite !(proj2 (Z.leb_le _ _)) by lia. apply (decodes_two_words 4 1), Hi.
Qed.

Lemma appends_datetime2 d : fits_datetime2 d -> appends (datetime2_encode d) (datetime2_bytes d).
Proof. intros [Ht Hd]. apply appends_bind; [apply appends_time, Ht|apply appends_date, Hd]. Qed.

Lemma appends_datetimeoffset d : fits_datetimeoffset d ->
  appends (datetimeoffset_encode d) (datetimeoffset_bytes d).
Proof. intros [Hd _]. apply appends_bind; [apply appends_datetime2, Hd|apply appends_put_u16_le]. Qed.

Lemma decodes_datetime2 d : fits_datetime2 d ->
  let s := time_scale (dt2_time d) in
  decodes (datetime2_decode s (Z.of_nat (time_width s))) (datetime2_bytes d) d.
Proof.
  intros [Ht Hd] s. unfold datetime2_decode. eapply decodes_bind; [apply decodes_time, Ht|].
  eapply decodes_bind_last; [apply decodes_read_n, length_le_bytes|].
  eapply decodes_bind_ret_eq; [apply decodes_lift, date_new_read, Hd|destruct d; reflexivity].
Qed.

Lemma decodes_datetimeoffset d : fits_datetimeoffset d ->
  let s := time_scale (dt2_time (datetime2 d)) in
  decodes (datetimeoffset_decode s (Z.of_nat (time_width s))) (datetimeoffset_bytes d) d.
Proof.
  intros [Hd Ho] s. unfold datetimeoffset_decode. eapply decodes_bind; [apply decodes_datetime2, Hd|].
  eapply decodes_bind_ret_eq; [apply decodes_i16_le, Ho|destruct d; reflexivity].
Qed.

(** ** Safety *)

Lemma date_new_safe l : wf_bytes l -> length l = 3%nat -> res_safe wf_date (date_new (le_val (l ++ [0]))).
Proof.
  intros Hl Hn. rewrite le_val_3. pose proof (le_val_range l Hl) as R. rewrite Hn in R.
  rewrite date_new_ok by exact R. exact R.
Qed.

Lemma safe_datetime : safe datetime_decode wf_datetime.
Proof. unfold datetime_decode. safe_steps. split; assumption. Qed.
Lemma safe_smalldatetime : safe smalldatetime_decode wf_smalldatetime.
Proof. unfold smalldatetime_decode. safe_steps. split; assumption. Qed.
Lemma safe_date : safe date_decode wf_date.
Proof.
  unfold date_decode. safe_step. destruct H. apply safe_lift, date_new_safe; assumption.
Qed.

(** A decoded time fits its field, whatever scale the metadata declared. *)
Lemma safe_time n rlen : safe (time_decode n rlen) fits_time.
Proof.
  unfold time_decode.
  apply (safe_bind _ _ (fun v => 0 <= n <= 7 /\ in_unsigned (8 * Z.of_nat (time_width n)) v)).
  - assert (W : forall k m, safe (hi <- read_uint_le k ;; lo <- read_uint_le m ;;
                  ret (Z.lor hi (Z.shiftl lo (8 * Z.of_nat k)))) (in_unsigned (8 * Z.of_nat (k + m)))).
    { intros k m. eapply safe_bind; [apply safe_uint_le|intros hi Hh].
      eapply safe_bind; [apply safe_uint_le|intros lo Hl]. apply safe_ret.
      unfold in_unsigned in *. rewrite lor_shiftl_add by lia.
      rewrite Nat2Z.inj_add, Z.mul_add_distr_l, Z.pow_add_r by lia. nia. }
    destruct ((0 <=? n) && (n <=? 2) && (rlen =? 3)) eqn:E1; [|destruct ((3 <=? n) && (n <=? 4) && (rlen =? 4)) eqn:E2;
      [|destruct ((5 <=? n) && (n <=? 7) && (rlen =? 5)) eqn:E3; [|apply safe_fail]]].
    + bool_Z. eapply safe_weaken; [apply (W 2%nat 1%nat)|]. intros v Hv. split; [lia|].
      destruct (time_width_cases n ltac:(lia)) as [[? ->]|[[? ->]|[? ->]]]; [exact Hv|lia|lia].
    + clear E1; bool_Z. eapply safe_weaken; [apply safe_u32_le|]. intros v Hv. split; [lia|].
      destruct (time_width_cases n ltac:(lia)) as [[? ->]|[[? ->]|[? ->]]]; [lia|exact Hv|lia].
    + clear E1 E2; bool_Z. eapply safe_weaken; [apply (W 4%nat 1%nat)|]. intros v Hv. split; [lia|].
      destruct (time_width_cases n ltac:(lia)) as [[? ->]|[[? ->]|[? ->]]]; [lia|lia|exact Hv].
  - intros v [Hn Hv]. apply safe_ret. unfold fits_time; cbn [increments time_scale].
    rewrite wrap_small by (unfold in_unsigned; lia). split; assumption.
Qed.

Lemma fits_time_wf t : fits_time t -> wf_time t.
Proof.
  intros [Hs Hi]. split; unfold in_unsigned in *; [|lia].
  destruct (time_width_cases _ Hs) as [[_ E]|[[_ E]|[_ E]]]; rewrite E in Hi; cbn in Hi; cbn; lia.
Qed.

Lemma safe_datetime2 n rlen : safe (datetime2_decode n rlen) fits_datetime2.
Proof.
  unfold datetime2_decode. eapply safe_bind; [apply safe_time|intros t Ht].
  eapply safe_bind; [apply safe_read_n|intros l [Hl Hn]].
  eapply safe_bind; [apply safe_lift, (date_new_safe l Hl Hn)|intros d Hd].
  apply safe_ret; split; assumption.
Qed.

Lemma safe_datetimeoffset n rlen : safe (datetimeoffset_decode n rlen) fits_datetimeoffset.
Proof.
  unfold datetimeoffset_decode. eapply safe_bind; [apply safe_datetime2|intros d Hd].
  eapply safe_bind; [apply safe_i16_le|intros o Ho]. apply safe_ret; split; assumption.
Qed.

#[export] Hint Resolve safe_datetime safe_smalldatetime safe_date safe_time safe_datetime2
  safe_datetimeoffset : tds_safe.
#[export] Hint Resolve appends_datetime appends_smalldatetime appends_date appends_time
  appends_datetime2 appends_datetimeoffset : tds_appends.
#[export] Hint Resolve decodes_datetime decodes_smalldatetime decodes_date : tds_decodes.

(** ** Properties *)

(** [date], [time], [datetime2] and [datetimeoffset] values that fit
    their fields are encoded without error and read back exactly at their
    scale. *)
Theorem temporal_roundtrip (d : DateTimeOffset) (H : fits_datetimeoffset d) :
  let dt2 := datetime2 d in
  let s := time_scale (dt2_time dt2) in
  let w := Z.of_nat (time_width s) in
  (appends (datetimeoffset_encode d) (datetimeoffset_bytes d) /\
   decodes (datetimeoffset_decode s w) (datetimeoffset_bytes d) d) /\
  (appends (datetime2_encode dt2) (datetime2_bytes dt2) /\
   decodes (datetime2_decode s w) (datetime2_bytes dt2) dt2) /\
  (appends (time_encode (dt2_time dt2)) (time_bytes (dt2_time dt2)) /\
   decodes (time_decode s w) (time_bytes (dt2_time dt2)) (dt2_time dt2)) /\
  (appends (date_encode (dt2_date dt2)) (date_bytes (dt2_date dt2)) /\
   decodes date_decode (date_bytes (dt2_date dt2)) (dt2_date dt2)).
Proof.
  pose proof H as [[Ht Hd] Ho]. cbn zeta.
  repeat match goal with |- _ /\ _ => split end;
    first [ apply appends_datetimeoffset | apply decodes_datetimeoffset | apply appends_datetime2
          | apply decodes_datetime2 | apply appends_time | apply decodes_time | apply appends_date
          | apply decodes_date ]; try assumption; split; assumption.
Qed.

Definition sample_offset : DateTimeOffset :=
  mkDateTimeOffset (mkDateTime2 (mkDate 738000) (mkTime 456789012345 7)) (-120).

Lemma temporal_roundtrip_witness :
  decodes (datetimeoffset_decode 7 5) (datetimeoffset_bytes sample_offset) sample_offset.
Proof.
  assert (H : fits_datetimeoffset sample_offset)
    by (repeat split; cbn; lia || (vm_compute; congruence)).
  exact (proj2 (proj1 (temporal_roundtrip sample_offset H))).
Defined.

(** A time or a date that does not fit is refused before anything is
    written: a scale above 7, increments beyond the width of the scale, or a
    day count beyond three bytes leave the buffer as it was. *)
Theorem temporal_rejects (t : Time) (d : Date) (dst : bytes)
  (Ht : wf_time t /\ ~ fits_time t) (Hd : in_unsigned 32 (days d) /\ ~ wf_date d) :
  (exists m, time_encode t dst = (Err (Protocol m), dst)) /\
  (exists m, date_encode d dst = (Err (Protocol m), dst)).
Proof.
  destruct Ht as [[Hi Hs] Hn], Hd as [Hd1 Hd2]. split.
  - destruct (decide (time_scale t <= 7)) as [L|L].
    + assert (R : 0 <= time_scale t <= 7) by (unfold in_unsigned in Hs; lia).
      unfold time_encode. rewrite (bind_ok _ _ dst _ dst) by (unfold lift; rewrite time_len_ok by lia; reflexivity).
      assert (F : (Z.shiftr (increments t) (8 * Z.of_nat (time_width (time_scale t))) =? 0) = false).
      { apply not_true_iff_false. rewrite shiftr_zero by (unfold in_unsigned in Hi; lia).
        intros HH. apply Hn. split; [exact R|]. unfold in_unsigned in *; lia. }
      destruct (time_width_cases _ R) as [[_ E]|[[_ E]|[_ E]]]; rewrite E in F |- *;
        [change (8 * Z.of_nat 3) with 24 in F|change (8 * Z.of_nat 4) with 32 in F
        |change (8 * Z.of_nat 5) with 40 in F];
        eval_tests; rewrite bind_ret_l, F; eexists; reflexivity.
    + eexists. unfold time_encode. apply bind_err. unfold lift, time_len.
      rewrite !(proj2 (Z.leb_gt (time_scale t) _)) by lia. rewrite !andb_false_r. reflexivity.
  - unfold date_encode. rewrite (le_bytes_split 3 1), app_nth2 by (rewrite length_le_bytes; lia).
    rewrite length_le_bytes. cbn [Nat.sub nth]. unfold le_bytes at 1. cbn [nth].
    destruct (Z.eqb_spec (days d / 2 ^ (8 * Z.of_nat 3) mod 256) 0) as [Z0|Z0]; [|eexists; reflexivity].
    exfalso; apply Hd2. unfold wf_date, in_unsigned in *. change (2 ^ (8 * Z.of_nat 3)) with 16777216 in Z0.
    rewrite Z.mod_small in Z0 by (split; [apply Z.div_pos; lia|apply Z.div_lt_upper_bound; cbn in *; lia]).
    apply Z.div_small_iff in Z0; [|lia]. cbn; lia.
Qed.

Lemma temporal_rejects_witness :
  (exists m, time_encode (mkTime (2 ^ 24) 0) [1] = (Err (Protocol m), [1])) /\
  (exists m, date_encode (mkDate (2 ^ 24)) [1] = (Err (Protocol m), [1])).
Proof.
  apply (temporal_rejects (mkTime (2 ^ 24) 0) (mkDate (2 ^ 24)) [1]).
  - split; [repeat split; vm_compute; congruence|]. intros [_ [_ H]]. revert H; vm_compute; congruence.
  - split; [split; vm_compute; congruence|]. intros [_ H]. revert H; vm_compute; congruence.
Defined.

(** Narrowing a [datetime2] of up to a day to a [datetime] keeps the day
    relative to 1900-01-01 and rounds the time down to the nearest 1/300 s:
    the fragment count is below a day's 25,920,000 and the two instants are
    less than one fragment apart. *)
Theorem datetime2_to_datetime_spec (d : DateTime2) (H : fits_datetime2 d)
  (Hday : increments (dt2_time d) < 86400 * 10 ^ time_scale (dt2_time d))
  (Hera : DAYS_YEAR_1_TO_1900 <= days (dt2_date d)) :
  exists r, datetime2_to_datetime d = Ok r /\ wf_datetime r /\
    dt_days r = days (dt2_date d) - DAYS_YEAR_1_TO_1900 /\
    dt_seconds_fragments r < 25920000 /\
    dt_seconds_fragments r * 10 ^ time_scale (dt2_time d) <= increments (dt2_time d) * 300
      < (dt_seconds_fragments r + 1) * 10 ^ time_scale (dt2_time d).
Proof.
  destruct H as [[Hs Hi] Hd]. unfold datetime2_to_datetime, wf_date, in_unsigned, DAYS_YEAR_1_TO_1900 in *.
  set (s := time_scale (dt2_time d)) in *. set (i := increments (dt2_time d)) in *.
  rewrite (proj2 (Z.ltb_ge _ _)), (proj2 (Z.ltb_ge 9 s)) by lia.
  pose proof (Z.pow_pos_nonneg 10 s ltac:(lia) ltac:(lia)) as P1.
  pose proof (Z.pow_pos_nonneg 10 (9 - s) ltac:(lia) ltac:(lia)) as P2.
  assert (P : 1000000000 = 10 ^ (9 - s) * 10 ^ s) by (rewrite <- Z.pow_add_r by lia; replace (9 - s + s) with 9 by lia; reflexivity).
  assert (Q : i * 10 ^ (9 - s) * 300 / 1000000000 = i * 300 / 10 ^ s).
  { rewrite P. replace (i * 10 ^ (9 - s) * 300) with (10 ^ (9 - s) * (i * 300)) by lia.
    apply Z.div_mul_cancel_l; lia. }
  rewrite Q. pose proof (Z.div_mod (i * 300) (10 ^ s) ltac:(lia)) as D.
  pose proof (Z.mod_pos_bound (i * 300) (10 ^ s) ltac:(lia)) as B.
  assert (L : 0 <= i * 300 / 10 ^ s < 25920000)
    by (split; [apply Z.div_pos; lia|apply Z.div_lt_upper_bound; lia]).
  change (2 ^ 24) with 16777216 in Hd.
  eexists; split; [reflexivity|]. cbn [dt_days dt_seconds_fragments]. unfold wf_datetime; cbn [dt_days dt_seconds_fragments].
  rewrite to_signed_small by (change (2 ^ (32 - 1)) with 2147483648; lia).
  rewrite wrap_small by (unfold in_unsigned; change (2 ^ 32) with 4294967296; lia).
  unfold in_signed, in_unsigned. change (2 ^ (32 - 1)) with 2147483648. change (2 ^ 32) with 4294967296.
  repeat split; try lia; nia.
Qed.

Lemma datetime2_to_datetime_witness :
  exists r, datetime2_to_datetime (mkDateTime2 (mkDate 738000) (mkTime 456789012345 7)) = Ok r /\
    dt_days r = 44405 /\ dt_seconds_fragments r = 13703670.
Proof.
  destruct (datetime2_to_datetime_spec (mkDateTime2 (mkDate 738000) (mkTime 456789012345 7))) as (r & E & _).
  - repeat split; cbn; lia || (vm_compute; congruence).
  - vm_compute; reflexivity.
  - vm_compute; congruence.
  - exists r; split; [exact E|]. vm_compute in E. injection E as <-. split; reflexivity.
Defined.
