(* ===== verification/Money.v ===== *)
(** * Money: [money]/[smallmoney] values, [column_data/money.rs]

    Money is a scaled integer on the wire (value * 10^4).  The driver exposes
    it as an [f64] and accepts an [f64] or a decimal; the [f64] arithmetic is
    IEEE binary64, computed here with the Standard Library's [SpecFloat]. *)

From S2P Require Import Prelude Unicode Collation SqlRead SqlWrite Types NumericCodec Temporal.
From Stdlib Require Import Floats.SpecFloat.

(** ** binary64 *)

Definition f64_of_Z (z : Z) : spec_float := binary_normalize 53 1024 z 0 false.
Definition f64_add : spec_float -> spec_float -> spec_float := SFadd 53 1024.
Definition f64_mul : spec_float -> spec_float -> spec_float := SFmul 53 1024.
Definition f64_div : spec_float -> spec_float -> spec_float := SFdiv 53 1024.

(** [f64::to_bits]: sign, biased exponent, mantissa.  A canonical finite
    number has a 53-bit mantissa, or is subnormal at exponent -1074; the
    result is a u64. *)
Definition f64_bits (f : spec_float) : Z :=
  let sgn (s : bool) := if s then 2 ^ 63 else 0 in
  wrap 64 match f with
  | S754_zero s => sgn s
  | S754_infinity s => sgn s + 0x7ff0000000000000
  | S754_nan => 0x7ff8000000000000
  | S754_finite s m e =>
      if Z.pos m <? 2 ^ 52 then sgn s + Z.pos m
      else sgn s + (e + 1075) * 2 ^ 52 + (Z.pos m - 2 ^ 52)
  end.

(** [f64::from_bits] *)
Definition f64_of_bits (b : Z) : spec_float :=
  let s := 2 ^ 63 <=? b in
  let ex := (b / 2 ^ 52) mod 2 ^ 11 in
  let ma := b mod 2 ^ 52 in
  if ex =? 0 then
    match ma with Z.pos m => S754_finite s m (-1074) | _ => S754_zero s end
  else if ex =? 2047 then (if ma =? 0 then S754_infinity s else S754_nan)
  else match ma + 2 ^ 52 with Z.pos m => S754_finite s m (ex - 1075) | _ => S754_nan end.

Definition f64_is_finite (f : spec_float) : bool :=
  match f with S754_zero _ | S754_finite _ _ _ => true | _ => false end.

(** [f.round() as i128]: ties away from zero, saturating at the ends of the
    range; an infinity saturates too. *)
Definition f64_round_i128 (f : spec_float) : Z :=
  let sat (z : Z) := Z.max (- 2 ^ 127) (Z.min z (2 ^ 127 - 1)) in
  match f with
  | S754_zero _ | S754_nan => 0
  | S754_infinity s => if s then - 2 ^ 127 else 2 ^ 127 - 1
  | S754_finite s m e =>
      let mag := if 0 <=? e then Z.pos m * 2 ^ e
                 else (Z.pos m + 2 ^ (- e - 1)) / 2 ^ (- e) in
      sat (if s then - mag else mag)
  end.

(** ** Encoding *)

Definition MONEY_SCALE : Z := 4.
Definition MONEY_SCALE_FACTOR : spec_float := f64_of_Z 10000.

(** [put_scaled]: checks the range of the column, then writes the scaled
    integer; [money] sends its high word first. *)
Definition put_scaled (max_len scaled : Z) (length_prefixed : bool) : M bytes unit :=
  if max_len =? 4 then
    if (scaled <? - 2 ^ 31) || (2 ^ 31 - 1 <? scaled)
    then fail (BulkInput "money: value is out of range for smallmoney")
    else (if length_prefixed then put_u8 4 else ret tt) ;; put_i32_le scaled
  else
    if (scaled <? - 2 ^ 63) || (2 ^ 63 - 1 <? scaled)
    then fail (BulkInput "money: value is out of range for money")
    else
      (if length_prefixed then put_u8 8 else ret tt) ;;
      put_i32_le (Z.shiftr scaled 32) ;; put_u32_le scaled.

(** [encode_inner], from the bits of an [f64] *)
Definition money_encode_inner (max_len val : Z) (length_prefixed : bool) : M bytes unit :=
  let v := f64_of_bits val in
  if negb (f64_is_finite v) then fail (BulkInput "money: value is not finite (NaN/Inf cannot be encoded)")
  else put_scaled max_len (f64_round_i128 (f64_mul v MONEY_SCALE_FACTOR)) length_prefixed.

Definition money_encode (max_len val : Z) : M bytes unit := money_encode_inner max_len val true.
Definition money_encode_fixed (max_len val : Z) : M bytes unit := money_encode_inner max_len val false.

(** The rescaling of [encode_numeric_inner], in i128.  [remainder * 2] and
    [quotient + signum] stay in range for a scale of at most 38. *)
Definition money_rescale (n : Numeric) : Res Z :=
  let mantissa := value n in
  if scale n =? MONEY_SCALE then Ok mantissa
  else if scale n <? MONEY_SCALE then
    ok_or (checked 128 (mantissa * 10 ^ (MONEY_SCALE - scale n)))
          (BulkInput "money: value overflows while rescaling to money")
  else
    let divisor := 10 ^ (scale n - MONEY_SCALE) in
    let quotient := Z.quot mantissa divisor in
    let remainder := Z.abs (Z.rem mantissa divisor) in
    if divisor <=? remainder * 2 then Ok (quotient + Z.sgn mantissa) else Ok quotient.

Definition money_encode_numeric_inner (max_len : Z) (n : Numeric) (length_prefixed : bool) : M bytes unit :=
  scaled <- lift (money_rescale n) ;; put_scaled max_len scaled length_prefixed.

Definition money_encode_numeric (max_len : Z) (n : Numeric) := money_encode_numeric_inner max_len n true.
Definition money_encode_numeric_fixed (max_len : Z) (n : Numeric) := money_encode_numeric_inner max_len n false.

(** ** Decoding *)

(** The [f64] of a scaled [smallmoney], and of the two words of a [money]. *)
Definition smallmoney_f64 (v : Z) : Z := f64_bits (f64_div (f64_of_Z v) MONEY_SCALE_FACTOR).
Definition money_f64 (high low : Z) : Z :=
  f64_bits (f64_div (f64_add (f64_of_Z (high * 2 ^ 32)) (f64_of_Z low)) MONEY_SCALE_FACTOR).

(** [money::decode] *)
Definition money_decode {R} `{SqlReadBytes R} (len : Z) : M R ColumnData :=
  if len =? 0 then ret (ColumnData.F64 None)
  else if len =? 4 then v <- read_i32_le ;; ret (ColumnData.F64 (Some (smallmoney_f64 v)))
  else if len =? 8 then
    high <- read_i32_le ;; low <- read_u32_le ;; ret (ColumnData.F64 (Some (money_f64 high low)))
  else fail (Protocol "money: length is invalid").

(** ** Lemmas *)

Definition money_fits (max_len scaled : Z) : bool :=
  if max_len =? 4 then is_signed 32 scaled else is_signed 64 scaled.

(** The bytes of a scaled amount, without and with the length byte. *)
Definition scaled_bytes (max_len scaled : Z) : bytes :=
  if max_len =? 4 then le_bytes 4 scaled else le_bytes 4 (scaled / 2 ^ 32) ++ le_bytes 4 scaled.
Definition prefix_bytes (max_len : Z) (length_prefixed : bool) : bytes :=
  if length_prefixed then le_bytes 1 (if max_len =? 4 then 4 else 8) else [].

Lemma is_signed_ltb w v :
  (v <? - 2 ^ (w - 1)) || (2 ^ (w - 1) - 1 <? v) = negb (is_signed w v).
Proof.
  unfold is_signed. rewrite negb_andb, Z.ltb_antisym. f_equal.
  destruct (Z.ltb_spec (2 ^ (w - 1) - 1) v), (Z.ltb_spec v (2 ^ (w - 1))); cbn; lia.
Qed.

(** [put_scaled] writes the whole amount or nothing. *)
Lemma put_scaled_spec max_len scaled lp dst :
  if money_fits max_len scaled
  then put_scaled max_len scaled lp dst = (Ok tt, dst ++ prefix_bytes max_len lp ++ scaled_bytes max_len scaled)
  else exists m, put_scaled max_len scaled lp dst = (Err (BulkInput m), dst).
Proof.
  unfold put_scaled, money_fits, prefix_bytes, scaled_bytes.
  destruct (max_len =? 4).
  - rewrite (is_signed_ltb 32). destruct (is_signed 32 scaled); cbn [negb]; [|eexists; reflexivity].
    destruct lp; revert dst; [apply (appends_bind _ _ (le_bytes 1 4))|apply (appends_bind _ _ [])];
      auto with tds_appends; apply appends_put_slice.
  - rewrite (is_signed_ltb 64). destruct (is_signed 64 scaled); cbn [negb]; [|eexists; reflexivity].
    assert (P : appends (put_i32_le (Z.shiftr scaled 32) ;; put_u32_le scaled)
                  (le_bytes 4 (scaled / 2 ^ 32) ++ le_bytes 4 scaled)).
    { rewrite Z.shiftr_div_pow2 by lia. apply appends_bind; apply appends_put_slice. }
    destruct lp; revert dst; [apply (appends_bind _ _ (le_bytes 1 8))|apply (appends_bind _ _ [])];
      auto with tds_appends.
Qed.

(** The exact amount, rounded half away from zero: [money_rescale] is the
    closest integer to [value * 10^(4 - scale)]. *)
Lemma money_rescale_spec n r : wf_numeric n -> money_rescale n = Ok r ->
  2 * Z.abs (r * 10 ^ scale n - value n * 10 ^ MONEY_SCALE) <= 10 ^ scale n /\
  (2 * Z.abs (r * 10 ^ scale n - value n * 10 ^ MONEY_SCALE) = 10 ^ scale n ->
   Z.abs (value n) * 10 ^ MONEY_SCALE < Z.abs r * 10 ^ scale n).
Proof.
  intros [_ Hs]. unfold money_rescale, MONEY_SCALE.
  pose proof (pow10_pos (scale n) ltac:(lia)) as P.
  destruct (Z.eqb_spec (scale n) 4) as [E|E]; [|destruct (Z.ltb_spec (scale n) 4) as [L|L]].
  - intros [= <-]. rewrite E. rewrite Z.sub_diag. cbn; lia.
  - unfold checked. destruct (is_signed 128 _); cbn; [intros [= <-]|discriminate].
    replace (value n * 10 ^ (4 - scale n) * 10 ^ scale n) with (value n * 10 ^ 4)
      by (rewrite <- Z.mul_assoc, <- Z.pow_add_r by lia; do 2 f_equal; lia).
    rewrite Z.sub_diag. cbn [Z.abs]; lia.
  - set (d := 10 ^ (scale n - 4)). pose proof (pow10_pos (scale n - 4) ltac:(lia)) as Pd. fold d in Pd.
    assert (E10 : 10 ^ scale n = d * 10 ^ 4) by (unfold d; rewrite <- Z.pow_add_r by lia; f_equal; lia).
    rewrite E10. set (v := value n). set (q := Z.quot v d). set (m := Z.rem v d).
    assert (V : v = d * q + m) by apply Z.quot_rem'.
    assert (B : Z.abs m < d)
      by (unfold m; pose proof (Z.rem_bound_abs v d ltac:(lia)); rewrite (Z.abs_eq d) in * by lia; assumption).
    assert (Sg : 0 <= v /\ 0 <= q /\ 0 <= m \/ v < 0 /\ q <= 0 /\ m <= 0).
    { destruct (Z.le_gt_cases 0 v).
      - left. repeat split; [lia|apply Z.quot_pos; lia|apply Z.rem_nonneg; lia].
      - right. repeat split; [lia| |apply Z.rem_nonpos; lia].
        pose proof (Z.quot_pos (- v) d ltac:(lia) ltac:(lia)) as Q. rewrite Z.quot_opp_l in Q by lia.
        unfold q; lia. }
    change (10 ^ 4) with 10000.
    destruct (Z.leb_spec d (Z.abs m * 2)) as [C|C]; intros [= <-]; rewrite V.
    + destruct Sg as [(Sv & Sq & Sm)|(Sv & Sq & Sm)].
      * destruct (Z.eq_dec v 0) as [Z0|Z0]; [nia|]. rewrite Z.sgn_pos by lia. split; nia.
      * rewrite Z.sgn_neg by lia. split; nia.
    + split; nia.
Qed.

Lemma money_rescale_cases n :
  (exists r, money_rescale n = Ok r) \/
  (exists m, money_rescale n = Err (BulkInput m) /\ ~ in_signed 128 (value n * 10 ^ (4 - scale n))).
Proof.
  unfold money_rescale, checked, MONEY_SCALE. destruct (scale n =? 4); [left; eexists; reflexivity|].
  destruct (scale n <? 4).
  - destruct (is_signed 128 _) eqn:S; [left; eexists; reflexivity|right; eexists; split; [reflexivity|]].
    intros F. apply is_signed_spec in F. congruence.
  - left. destruct (_ <=? _); eexists; reflexivity.
Qed.

Lemma money_f64_wf h l : in_unsigned 64 (money_f64 h l).
Proof. apply wrap_range; lia. Qed.
Lemma smallmoney_f64_wf v : in_unsigned 64 (smallmoney_f64 v).
Proof. apply wrap_range; lia. Qed.

Lemma safe_money n : safe (money_decode n) wf_column.
Proof.
  unfold money_decode. safe_steps; cbn [wf_column opt_wf]; auto using money_f64_wf, smallmoney_f64_wf.
Qed.
#[export] Hint Resolve safe_money : tds_safe.

Lemma decodes_money max_len scaled : max_len = 4 \/ max_len = 8 -> money_fits max_len scaled = true ->
  decodes (money_decode max_len) (scaled_bytes max_len scaled)
    (ColumnData.F64 (Some (if max_len =? 4 then smallmoney_f64 scaled
                           else money_f64 (scaled / 2 ^ 32) (scaled mod 2 ^ 32)))).
Proof.
  intros [-> | ->]; unfold money_fits, money_decode, scaled_bytes; eval_tests; intros H; apply is_signed_spec in H.
  - eapply decodes_bind_ret_eq; [apply decodes_i32_le, H|reflexivity].
  - unfold in_signed in H. change (64 - 1) with 63 in H. eapply decodes_bind.
    + apply decodes_i32_le. unfold in_signed. change (2 ^ (32 - 1)) with (2 ^ 31).
      split; [apply Z.div_le_lower_bound|apply Z.div_lt_upper_bound]; lia.
    + eapply decodes_bind_ret_eq; [apply (decodes_uint_le_wrap 4)|reflexivity].
Qed.

(** ** Properties *)

(** Encoding a decimal into a money column is exact: the integer written
    is the decimal times 10^4 rounded half away from zero, a value outside
    the column's integer range is a [BulkInput] error, and an error leaves
    the buffer untouched. *)
Theorem money_encode_numeric_exact (max_len : Z) (n : Numeric) (lp : bool) (dst : bytes)
  (H : wf_numeric n) :
  match money_rescale n with
  | Ok r =>
      (2 * Z.abs (r * 10 ^ scale n - value n * 10 ^ 4) <= 10 ^ scale n /\
       (2 * Z.abs (r * 10 ^ scale n - value n * 10 ^ 4) = 10 ^ scale n ->
        Z.abs (value n) * 10 ^ 4 < Z.abs r * 10 ^ scale n)) /\
      (if money_fits max_len r
       then money_encode_numeric_inner max_len n lp dst
            = (Ok tt, dst ++ prefix_bytes max_len lp ++ scaled_bytes max_len r)
       else exists m, money_encode_numeric_inner max_len n lp dst = (Err (BulkInput m), dst))
  | Err e => (exists m, e = BulkInput m) /\ money_encode_numeric_inner max_len n lp dst = (Err e, dst) /\
             ~ in_signed 128 (value n * 10 ^ (4 - scale n))
  | _ => False
  end.
Proof.
  unfold money_encode_numeric_inner, bind, lift.
  destruct (money_rescale_cases n) as [[r E]|[m [E F]]]; rewrite E.
  - split; [apply (money_rescale_spec n r H E)|apply put_scaled_spec].
  - repeat split; [eexists; reflexivity|exact F].
Qed.

Lemma money_encode_numeric_exact_witness :
  money_encode_numeric 4 (mkNumeric (-1234565) 5) [7] = (Ok tt, [7] ++ [4] ++ le_bytes 4 (-123457)).
Proof.
  assert (H : wf_numeric (mkNumeric (-1234565) 5)) by (split; [split; vm_compute; congruence|cbn; lia]).
  exact (proj2 (money_encode_numeric_exact 4 (mkNumeric (-1234565) 5) true [7] H)).
Defined.

(** An [f64] amount is written in full or refused with the buffer as it
    was; NaN and the infinities are always refused, and what is written is
    read back by the decoder as the float of the same scaled integer. *)
Theorem money_encode_f64_total (max_len val : Z) (dst : bytes) (Hlen : max_len = 4 \/ max_len = 8) :
  let scaled := f64_round_i128 (f64_mul (f64_of_bits val) MONEY_SCALE_FACTOR) in
  if f64_is_finite (f64_of_bits val) && money_fits max_len scaled
  then money_encode_fixed max_len val dst = (Ok tt, dst ++ scaled_bytes max_len scaled) /\
       money_encode max_len val dst = (Ok tt, dst ++ [max_len] ++ scaled_bytes max_len scaled) /\
       decodes (money_decode max_len) (scaled_bytes max_len scaled)
         (ColumnData.F64 (Some (if max_len =? 4 then smallmoney_f64 scaled
                                else money_f64 (scaled / 2 ^ 32) (scaled mod 2 ^ 32))))
  else exists m, money_encode max_len val dst = (Err (BulkInput m), dst) /\
       exists m', money_encode_fixed max_len val dst = (Err (BulkInput m'), dst).
Proof.
  cbn zeta. set (scaled := f64_round_i128 _). unfold money_encode, money_encode_fixed, money_encode_inner.
  destruct (f64_is_finite (f64_of_bits val)); cbn [negb andb]; [|do 2 (eexists; split || reflexivity); reflexivity].
  fold scaled. pose proof (put_scaled_spec max_len scaled true dst) as T.
  pose proof (put_scaled_spec max_len scaled false dst) as F.
  destruct (money_fits max_len scaled) eqn:Fit.
  - rewrite F, T. repeat split; [|apply decodes_money; assumption].
    destruct Hlen as [-> | ->]; reflexivity.
  - destruct T as [m ->], F as [m' ->]. eexists; split; [reflexivity|eexists; reflexivity].
Qed.

Lemma money_encode_f64_total_witness :
  let scaled := f64_round_i128 (f64_mul (f64_of_bits (smallmoney_f64 12345)) MONEY_SCALE_FACTOR) in
  scaled = 12345 /\
  money_encode 8 (smallmoney_f64 12345) [] = (Ok tt, [] ++ [8] ++ scaled_bytes 8 scaled).
Proof.
  cbn zeta. pose proof (money_encode_f64_total 8 (smallmoney_f64 12345) [] (or_intror eq_refl)) as T.
  cbn zeta in T.
  replace (f64_is_finite (f64_of_bits (smallmoney_f64 12345)) &&
           money_fits 8 (f64_round_i128 (f64_mul (f64_of_bits (smallmoney_f64 12345)) MONEY_SCALE_FACTOR)))
    with true in T by (vm_compute; reflexivity).
  split; [vm_compute; reflexivity|exact (proj1 (proj2 T))].
Defined.
