(* ===== verification/Floats.v ===== *)
(** * Floats: binary64 arithmetic on small integers

    The driver computes with [f64] in a few places: [money] is a quotient by
    10^4, a time compares through a quotient by a power of ten, a [datetime2] is
    rescaled by a product.  [SpecFloat] gives the operations bit by bit; this
    file gives them by value, for integers of at most 53 bits: they and their
    sums are exact ([f64_of_Z_exact], [f64_add_exact]), a quotient is the ratio
    and a product the product, scaled to 53 bits and rounded to the nearest
    even integer ([f64_div_ratio], [f64_mul_round]), and a normal number
    survives its bits ([f64_bits_roundtrip]). *)

From S2P Require Import Prelude Unicode SqlRead SqlWrite Types NumericCodec Temporal Money.
From Stdlib Require Import Floats.SpecFloat.

(** ** Rounding a ratio to an integer *)

(** The integer nearest to [n / d], the even one of two. *)
Definition rne (n d : Z) : Z :=
  let q := n / d in
  if n mod d =? 0 then q
  else match 2 * (n mod d) ?= d with Lt => q | Eq => if Z.even q then q else q + 1 | Gt => q + 1 end.

(** The [f64] with the significand [m], of 53 bits or just above, and the exponent [e]. *)
Definition finish (s : bool) (m e : Z) : spec_float :=
  if m =? 2 ^ 53 then S754_finite s (Z.to_pos (2 ^ 52)) (e + 1) else S754_finite s (Z.to_pos m) e.

Lemma rne_scale k n d : 0 < k -> 0 < d -> rne (k * n) (k * d) = rne n d.
Proof.
  intros Hk Hd. unfold rne. rewrite Z.div_mul_cancel_l, Z.mul_mod_distr_l by lia.
  replace (k * (n mod d) =? 0) with (n mod d =? 0) by (destruct (Z.eqb_spec (n mod d) 0), (Z.eqb_spec (k * (n mod d)) 0); auto; nia).
  replace (2 * (k * (n mod d))) with (k * (2 * (n mod d))) by lia. rewrite <- Zmult_compare_compat_l by lia. reflexivity.
Qed.

Lemma rne_near n d : 0 < d -> Z.abs (n - d * rne n d) < d.
Proof.
  intros Hd. unfold rne. pose proof (Z.div_mod n d ltac:(lia)). pose proof (Z.mod_pos_bound n d Hd).
  destruct (Z.eqb_spec (n mod d) 0); [lia|]. destruct (Z.compare_spec (2 * (n mod d)) d); try destruct (Z.even _); lia.
Qed.

Lemma rne_bounds n d lo hi : 0 < d -> lo * d <= n < hi * d -> lo <= rne n d <= hi.
Proof.
  intros Hd [Hl Hh]. assert (lo <= n / d) by (apply Z.div_le_lower_bound; lia). assert (n / d < hi) by (apply Z.div_lt_upper_bound; lia).
  unfold rne. destruct (_ =? _); [lia|]. destruct (_ ?= _); try destruct (Z.even _); lia.
Qed.

(** ** The steps of [SpecFloat] on 53-bit significands *)

Lemma digits_bounds p : 2 ^ (Z.pos (digits2_pos p) - 1) <= Z.pos p < 2 ^ Z.pos (digits2_pos p).
Proof.
  replace (digits2_pos p) with (Pos.size p) by (induction p; cbn; congruence).
  pose proof (Pos2Z.pos_lt_pos _ _ (Pos.size_gt p)) as G. pose proof (Pos2Z.pos_le_pos _ _ (Pos.size_le p)) as L.
  rewrite Pos2Z.inj_pow in G, L. split; [|exact G].
  assert (2 ^ Z.pos (Pos.size p) = 2 * 2 ^ (Z.pos (Pos.size p) - 1)) by (rewrite <- Z.pow_succ_r, <- Z.add_1_r, Z.sub_add by lia; reflexivity).
  lia.
Qed.

(** The digits of a number between two powers. *)
Lemma digits_of p k : 2 ^ (k - 1) <= Z.pos p < 2 ^ k -> Z.pos (digits2_pos p) = k.
Proof.
  intros H. pose proof (digits_bounds p) as D. assert (0 < k) by (destruct (Z_lt_le_dec 0 k); [assumption|]; pose proof (Z.pow_le_mono_r 2 k 0 ltac:(lia) ltac:(lia)); lia).
  destruct (Z.lt_trichotomy (Z.pos (digits2_pos p)) k) as [L|[E|L]]; [|exact E|].
  - pose proof (Z.pow_le_mono_r 2 (Z.pos (digits2_pos p)) (k - 1) ltac:(lia) ltac:(lia)). lia.
  - pose proof (Z.pow_le_mono_r 2 k (Z.pos (digits2_pos p) - 1) ltac:(lia) ltac:(lia)). lia.
Qed.

Lemma iter_xO p d : Z.pos (Pos.iter xO p d) = Z.pos p * 2 ^ Z.pos d.
Proof.
  induction d as [|d IH] using Pos.peano_ind; [cbn; lia|]. rewrite Pos.iter_succ, Pos2Z.inj_xO, IH, Pos2Z.inj_succ, Z.pow_succ_r by lia. lia.
Qed.

Lemma new_location_spec d k : 0 < d -> new_location d k = if k =? 0 then loc_Exact else loc_Inexact (2 * k ?= d).
Proof.
  intros Hd. unfold new_location, new_location_even, new_location_odd. destruct (Z.even d) eqn:E; [reflexivity|].
  destruct (k =? 0); [reflexivity|]. f_equal. assert (2 * k <> d) by (intros <-; rewrite Z.even_mul in E; discriminate).
  destruct (Z.compare_spec (2 * k + 1) d), (Z.compare_spec (2 * k) d); lia || reflexivity.
Qed.

(** No shift for 53 bits, one for 54. *)
Lemma shr_fexp_53 p e l : 2 ^ 52 <= Z.pos p < 2 ^ 53 -> -1000 <= e -> shr_fexp 53 1024 (Z.pos p) e l = (shr_record_of_loc (Z.pos p) l, e).
Proof.
  intros H He. unfold shr_fexp. cbn [Zdigits2]. rewrite (digits_of p 53) by exact H. unfold fexp, emin. rewrite Z.max_l by lia.
  replace (53 + e - 53 - e) with 0 by lia. reflexivity.
Qed.
Lemma shr_fexp_54 p e l : 2 ^ 53 <= Z.pos p < 2 ^ 54 -> -1000 <= e -> shr_fexp 53 1024 (Z.pos p) e l = (shr_1 (shr_record_of_loc (Z.pos p) l), e + 1).
Proof.
  intros H He. unfold shr_fexp. cbn [Zdigits2]. rewrite (digits_of p 54) by exact H. unfold fexp, emin. rewrite Z.max_l by lia.
  replace (54 + e - 53 - e) with 1 by lia. reflexivity.
Qed.

(** A rounded significand is finished. *)
Lemma round_finish s m e : 2 ^ 52 <= m <= 2 ^ 53 -> -1000 <= e <= 900 ->
  (let '(mrs, e') := shr_fexp 53 1024 m e loc_Exact in
   match shr_m mrs with Z0 => S754_zero s | Z.pos m => if e' <=? 1024 - 53 then S754_finite s m e' else S754_infinity s | _ => S754_nan end) = finish s m e.
Proof.
  intros Hm He. unfold finish. destruct m as [|p|p]; [lia| |lia]. destruct (Z.eqb_spec (Z.pos p) (2 ^ 53)) as [E|E].
  - rewrite shr_fexp_54 by lia. rewrite E. cbn. rewrite (proj2 (Z.leb_le _ _)) by lia. reflexivity.
  - rewrite shr_fexp_53 by lia. cbn [shr_m shr_record_of_loc Z.to_pos]. rewrite (proj2 (Z.leb_le _ _)) by lia. reflexivity.
Qed.

(** ** Shifting out bits *)

(** The location of a remainder [r] of a division by [d]. *)
Definition locate (r d : Z) : location := if r =? 0 then loc_Exact else loc_Inexact (2 * r ?= d).

(** A record after [k] bits of [m] are shifted out. *)
Definition shifted (m k : Z) (rec : shr_record) : Prop := shr_m rec = m / 2 ^ k /\ loc_of_shr_record rec = locate (m mod 2 ^ k) (2 ^ k).

Lemma shr_1_shifted m k rec : 0 <= m -> 0 <= k -> shifted m k rec -> shifted m (k + 1) (shr_1 rec).
Proof.
  intros Hm Hk [Q Lc]. destruct rec as [q r s]. cbn [shr_m] in Q. pose proof (Z.pow_pos_nonneg 2 k ltac:(lia) Hk) as P. set (D := 2 ^ k) in *.
  assert (Hq : 0 <= q) by (rewrite Q; apply Z.div_pos; lia). pose proof (Z.mod_pos_bound m D P) as R.
  assert (S1 : shr_1 (Build_shr_record q r s) = Build_shr_record (q / 2) (Z.odd q) (r || s)).
  { rewrite <- Z.div2_div. destruct q as [|[q|q|]|q]; try lia; reflexivity. }
  rewrite S1. unfold shifted. cbn [shr_m]. rewrite Z.pow_add_r, Z.pow_1_r by lia. fold D. rewrite <- Z.div_div, <- Q, Z.rem_mul_r, <- Q, Zmod_odd by lia.
  split; [reflexivity|]. assert (B : r || s = negb (m mod D =? 0)).
  { unfold locate in Lc. destruct (m mod D =? 0), r, s; try reflexivity; try discriminate Lc. }
  rewrite B. unfold locate. destruct (Z.odd q), (Z.eqb_spec (m mod D) 0) as [E|E]; cbn [negb loc_of_shr_record];
    match goal with |- context [?x =? 0] => destruct (Z.eqb_spec x 0); try (exfalso; lia); try reflexivity end;
    match goal with |- context [?x ?= D * 2] => destruct (Z.compare_spec x (D * 2)); try (exfalso; lia); reflexivity end.
Qed.

Lemma iter_shifted p : forall m k rec, 0 <= m -> 0 <= k -> shifted m k rec -> shifted m (k + Z.pos p) (iter_pos shr_1 p rec).
Proof.
  induction p as [p IH|p IH|]; intros m k rec Hm Hk H; cbn [iter_pos].
  - replace (k + Z.pos p~1) with (k + 1 + Z.pos p + Z.pos p) by lia. apply IH, IH, shr_1_shifted; lia || assumption.
  - replace (k + Z.pos p~0) with (k + Z.pos p + Z.pos p) by lia. apply IH, IH; lia || assumption.
  - apply shr_1_shifted; assumption.
Qed.

Lemma round_locate q r d : round_nearest_even q (locate r d) = if r =? 0 then q else match 2 * r ?= d with Lt => q | Eq => if Z.even q then q else q + 1 | Gt => q + 1 end.
Proof. unfold locate. destruct (r =? 0); [reflexivity|]. destruct (2 * r ?= d); reflexivity. Qed.

(** Rounding a significand of [53 + j] bits. *)
Lemma round_shift s m j e : 2 ^ (52 + j) <= m < 2 ^ (53 + j) -> 0 <= j -> -1000 <= e -> e + j <= 900 ->
  binary_round_aux 53 1024 s m e loc_Exact = finish s (rne m (2 ^ j)) (e + j).
Proof.
  intros Hm Hj He Hje. pose proof (Z.pow_pos_nonneg 2 j ltac:(lia) Hj) as P. rewrite !Z.pow_add_r in Hm by lia. unfold binary_round_aux.
  assert (F : exists rec, shr_fexp 53 1024 m e loc_Exact = (rec, e + j) /\ shifted m j rec).
  { unfold shr_fexp. assert (D : Zdigits2 m = 53 + j).
    { destruct m as [|p|p]; [nia| |nia]. cbn [Zdigits2]. apply digits_of. replace (53 + j - 1) with (52 + j) by lia. rewrite !Z.pow_add_r by lia. lia. }
    rewrite D. unfold fexp, emin. rewrite Z.max_l by lia. replace (53 + j + e - 53 - e) with j by lia.
    assert (S0 : shifted m 0 (shr_record_of_loc m loc_Exact)) by (split; cbn; [rewrite Z.div_1_r|rewrite Z.mod_1_r]; reflexivity).
    destruct j as [|p|p]; [eexists; rewrite Z.add_0_r; split; [reflexivity|exact S0]| |lia].
    eexists. split; [reflexivity|]. apply (iter_shifted p m 0); [nia|lia|exact S0]. }
  destruct F as (rec & -> & Q & Lc). rewrite Q, Lc, round_locate. apply (round_finish s (rne m (2 ^ j)) (e + j)); [|lia]. apply rne_bounds; lia.
Qed.

(** ** Exact values *)

(** The significand and the exponent of an integer of at most 53 bits. *)
Definition sig (n : Z) : Z := n * 2 ^ (52 - Z.log2 n).
Definition ex (n : Z) : Z := Z.log2 n - 52.

Lemma sig_bounds n : 0 < n < 2 ^ 53 -> 2 ^ 52 <= sig n < 2 ^ 53 /\ -52 <= ex n <= 0 /\ sig n = n * 2 ^ (- ex n).
Proof.
  intros H. pose proof (Z.log2_spec n ltac:(lia)) as [L U]. pose proof (Z.log2_nonneg n). assert (Z.log2 n < 53) by (apply Z.log2_lt_pow2; lia).
  unfold sig, ex. replace (- (Z.log2 n - 52)) with (52 - Z.log2 n) by lia. split; [|lia].
  replace (2 ^ 52) with (2 ^ Z.log2 n * 2 ^ (52 - Z.log2 n)) by (rewrite <- Z.pow_add_r by lia; f_equal; lia).
  replace (2 ^ 53) with (2 ^ Z.succ (Z.log2 n) * 2 ^ (52 - Z.log2 n)) by (rewrite <- Z.pow_add_r by lia; f_equal; lia).
  pose proof (Z.pow_pos_nonneg 2 (52 - Z.log2 n) ltac:(lia) ltac:(lia)). nia.
Qed.

Lemma rne_exact m d : 0 < d -> rne (m * d) d = m.
Proof. intros Hd. unfold rne. rewrite Z.mod_mul, Z.div_mul by lia. reflexivity. Qed.

Lemma finish_sig s n e : 0 < n < 2 ^ 53 -> finish s (sig n) e = S754_finite s (Z.to_pos (sig n)) e.
Proof. intros H. unfold finish. rewrite (proj2 (Z.eqb_neq _ _)) by (pose proof (sig_bounds n H); lia). reflexivity. Qed.

(** An integer with zeros behind it is rounded to itself. *)
Lemma round_aux_exact s n k : 0 < n < 2 ^ 53 -> 0 <= k <= 500 -> 0 <= ex n + k ->
  binary_round_aux 53 1024 s (n * 2 ^ k) (- k) loc_Exact = S754_finite s (Z.to_pos (sig n)) (ex n).
Proof.
  intros Hn Hk L. destruct (sig_bounds n Hn) as (B & He & Es).
  assert (E : n * 2 ^ k = sig n * 2 ^ (ex n + k)) by (rewrite Es, <- Z.mul_assoc, <- Z.pow_add_r by lia; do 2 f_equal; lia).
  pose proof (Z.pow_pos_nonneg 2 (ex n + k) ltac:(lia) ltac:(lia)).
  rewrite E, (round_shift s _ (ex n + k)), rne_exact by (rewrite ?(Z.pow_add_r 2 52), ?(Z.pow_add_r 2 53) by lia; nia). rewrite finish_sig by exact Hn. f_equal. lia.
Qed.

Lemma binary_round_exact s n k : 0 < n < 2 ^ 53 -> 0 <= k <= 500 ->
  binary_round 53 1024 s (Z.to_pos (n * 2 ^ k)) (- k) = S754_finite s (Z.to_pos (sig n)) (ex n).
Proof.
  intros Hn Hk. destruct (sig_bounds n Hn) as (B & He & Es). pose proof (Z.pow_pos_nonneg 2 k ltac:(lia) ltac:(lia)) as P. unfold binary_round.
  assert (D : Z.pos (digits2_pos (Z.to_pos (n * 2 ^ k))) = Z.log2 n + 1 + k).
  { apply digits_of. rewrite Z2Pos.id by nia. pose proof (Z.log2_spec n ltac:(lia)) as [L U]. replace (Z.log2 n + 1 + k - 1) with (Z.log2 n + k) by lia.
    pose proof (Z.log2_nonneg n). rewrite !Z.pow_add_r, Z.pow_1_r by lia. rewrite Z.pow_succ_r in U by lia. nia. }
  rewrite D. unfold fexp at 1, emin at 1. replace (Z.log2 n + 1 + k + - k - 53) with (ex n) by (unfold ex; lia). rewrite Z.max_l by lia.
  destruct (Z_lt_le_dec (ex n + k) 0) as [L|L].
  - assert (A : shl_align (Z.to_pos (n * 2 ^ k)) (- k) (ex n) = (Z.to_pos (sig n), ex n)).
    { unfold shl_align. replace (ex n - - k) with (- (- (ex n + k))) by lia. destruct (- (ex n + k)) as [|q|q] eqn:Eq; [lia| |lia]. cbn [Z.opp]. f_equal. apply Pos2Z.inj.
      rewrite iter_xO, !Z2Pos.id by nia. rewrite Es, <- Eq, <- Z.mul_assoc, <- Z.pow_add_r by lia. do 2 f_equal. lia. }
    rewrite A, Z2Pos.id by lia. pose proof (round_shift s (sig n) 0 (ex n) ltac:(rewrite !Z.add_0_r; lia) ltac:(lia) ltac:(lia) ltac:(lia)) as R.
    rewrite R, Z.add_0_r. replace (rne (sig n) (2 ^ 0)) with (sig n) by (rewrite <- (Z.mul_1_r (sig n)) at 2; symmetry; apply rne_exact; lia). apply finish_sig, Hn.
  - assert (A : shl_align (Z.to_pos (n * 2 ^ k)) (- k) (ex n) = (Z.to_pos (n * 2 ^ k), - k)) by (unfold shl_align; replace (ex n - - k) with (ex n + k) by lia; destruct (ex n + k); lia || reflexivity).
    rewrite A, Z2Pos.id by nia. apply round_aux_exact; assumption.
Qed.

(** Integers of at most 53 bits are exact, and so are their sums. *)
Lemma f64_of_Z_exact s n : 0 < n < 2 ^ 53 -> f64_of_Z (cond_Zopp s n) = S754_finite s (Z.to_pos (sig n)) (ex n).
Proof.
  intros H. pose proof (binary_round_exact s n 0 H ltac:(lia)) as E. rewrite Z.mul_1_r in E. unfold f64_of_Z, binary_normalize.
  destruct n as [|p|p]; [lia| |lia]. destruct s; exact E.
Qed.

(** What is left of a division after the first shift: the rounded quotient. *)
Lemma round_location q r d : 0 < d -> 0 <= r < d ->
  round_nearest_even q (loc_of_shr_record (shr_record_of_loc q (new_location d r))) = rne (q * d + r) d.
Proof.
  intros Hd Hr. unfold rne. rewrite Z.div_add_l, (Z.div_small r d), Z.add_0_r by lia.
  replace ((q * d + r) mod d) with r by (rewrite Z.add_comm, Z.mod_add, Z.mod_small by lia; reflexivity).
  rewrite new_location_spec by exact Hd. destruct (r =? 0); [reflexivity|]. destruct (2 * r ?= d); reflexivity.
Qed.

Lemma round_location_half q r d : 0 < d -> 0 <= r < d -> 0 < q -> Z.even (q * d + r) = true ->
  let mrs := shr_1 (shr_record_of_loc q (new_location d r)) in
  round_nearest_even (shr_m mrs) (loc_of_shr_record mrs) = rne ((q * d + r) / 2) d.
Proof.
  intros Hd Hr Hq Ev. rewrite new_location_spec by exact Hd.
  assert (S1 : forall b1 b2, shr_1 (Build_shr_record q b1 b2) = Build_shr_record (q / 2) (Z.odd q) (b1 || b2)).
  { intros b1 b2. rewrite <- Z.div2_div. destruct q as [|[q|q|]|q]; try lia; reflexivity. }
  set (b := Z.b2z (Z.odd q)). assert (Eq : q = 2 * (q / 2) + b) by (unfold b; pose proof (Z.div_mod q 2 ltac:(lia)); pose proof (Zmod_odd q); destruct (Z.odd q); cbn; lia).
  set (n := (q * d + r) / 2). assert (En : q * d + r = 2 * n) by (unfold n; rewrite (Z.div_mod (q * d + r) 2) at 1 by lia; rewrite Zmod_even, Ev; lia).
  assert (Er : n = (q / 2) * d + (b * d + r) / 2) by (apply (Z.mul_cancel_l _ _ 2); [lia|]; assert (b * d + r = 2 * (n - q / 2 * d)) as -> by nia; rewrite (Z.mul_comm 2 (_ - _)), Z.div_mul by lia; lia).
  assert (Hb : 2 * ((b * d + r) / 2) = b * d + r) by nia.
  assert (Hs : 0 <= (b * d + r) / 2 < d) by (assert (0 <= b <= 1) by (unfold b; destruct (Z.odd q); cbn; lia); nia).
  unfold rne. replace (n / d) with (q / 2) by (rewrite Er, Z.div_add_l, (Z.div_small _ d), Z.add_0_r by lia; reflexivity).
  replace (n mod d) with ((b * d + r) / 2) by (rewrite Er, (Z.add_comm (q / 2 * d)), Z.mod_add, Z.mod_small by lia; reflexivity). rewrite Hb.
  set (h := (b * d + r) / 2) in *. clearbody h n.
  assert (Hh : forall b1 b2, b1 || b2 = negb (r =? 0) -> let mrs := shr_1 (Build_shr_record q b1 b2) in
    round_nearest_even (shr_m mrs) (loc_of_shr_record mrs) =
    (if h =? 0 then q / 2 else match b * d + r ?= d with Lt => q / 2 | Eq => if Z.even (q / 2) then q / 2 else q / 2 + 1 | Gt => q / 2 + 1 end)).
  { intros b1 b2 E. rewrite S1, E. cbn [shr_m]. unfold b in *. destruct (Z.odd q), (Z.eqb_spec r 0), (Z.eqb_spec h 0); cbn [Z.b2z negb loc_of_shr_record round_nearest_even] in *;
      try (exfalso; lia); try reflexivity; match goal with |- context [?x ?= d] => destruct (Z.compare_spec x d); try (exfalso; lia); reflexivity end. }
  destruct (Z.eqb_spec r 0); [|destruct (2 * r ?= d)]; apply Hh; reflexivity.
Qed.

Lemma div_core m1 e1 m2 e2 : 2 ^ 52 <= Z.pos m1 < 2 ^ 53 -> 2 ^ 52 <= Z.pos m2 < 2 ^ 53 -> -52 <= e1 <= 0 -> -52 <= e2 <= 0 ->
  SFdiv_core_binary 53 1024 (Z.pos m1) e1 (Z.pos m2) e2 =
  (Z.pos m1 * 2 ^ 53 / Z.pos m2, e1 - e2 - 53, new_location (Z.pos m2) ((Z.pos m1 * 2 ^ 53) mod Z.pos m2)).
Proof.
  intros H1 H2 He1 He2. unfold SFdiv_core_binary. cbn [Zdigits2]. rewrite (digits_of m1 53), (digits_of m2 53) by assumption.
  unfold fexp, emin. rewrite Z.max_l, Z.min_l by lia. replace (53 + e1 - (53 + e2) - 53) with (e1 - e2 - 53) by lia.
  replace (e1 - e2 - (e1 - e2 - 53)) with 53 by lia. rewrite Z.shiftl_mul_pow2 by lia. unfold Z.div, Z.modulo.
  destruct (Z.div_eucl (Z.pos m1 * 2 ^ 53) (Z.pos m2)) as [q r]. reflexivity.
Qed.

(** Dividing normalised significands: the ratio, rounded at the 53rd bit. *)
Lemma div_finish s1 m1 e1 s2 m2 e2 : 2 ^ 52 <= Z.pos m1 < 2 ^ 53 -> 2 ^ 52 <= Z.pos m2 < 2 ^ 53 -> -52 <= e1 <= 0 -> -52 <= e2 <= 0 ->
  f64_div (S754_finite s1 m1 e1) (S754_finite s2 m2 e2) =
  let k := if Z.pos m1 <? Z.pos m2 then 53 else 52 in finish (xorb s1 s2) (rne (Z.pos m1 * 2 ^ k) (Z.pos m2)) (e1 - e2 - k).
Proof.
  intros H1 H2 He1 He2. unfold f64_div, SFdiv. rewrite div_core by assumption. set (n := Z.pos m1 * 2 ^ 53) in *.
  pose proof (Z.div_mod n (Z.pos m2) ltac:(lia)) as E. pose proof (Z.mod_pos_bound n (Z.pos m2) ltac:(lia)) as R. unfold binary_round_aux.
  destruct (Z.ltb_spec (Z.pos m1) (Z.pos m2)) as [L|L]; cbn zeta.
  - assert (B : 2 ^ 52 * Z.pos m2 <= n < 2 ^ 53 * Z.pos m2) by (unfold n; lia). fold n. pose proof (rne_bounds n (Z.pos m2) _ _ ltac:(lia) B) as Br.
    assert (Q : 2 ^ 52 <= n / Z.pos m2 < 2 ^ 53) by (split; [apply Z.div_le_lower_bound|apply Z.div_lt_upper_bound]; lia).
    destruct (n / Z.pos m2) as [|q|q]; [lia| |lia]. rewrite shr_fexp_53 by lia.
    assert (M : shr_m (shr_record_of_loc (Z.pos q) (new_location (Z.pos m2) (n mod Z.pos m2))) = Z.pos q) by (destruct (new_location _ _) as [|[]]; reflexivity).
    rewrite M, round_location by lia. replace (Z.pos q * Z.pos m2 + n mod Z.pos m2) with n by lia. apply round_finish; lia.
  - set (n' := Z.pos m1 * 2 ^ 52) in *. assert (En : n = 2 * n') by (unfold n, n'; lia).
    assert (B : 2 ^ 52 * Z.pos m2 <= n' < 2 ^ 53 * Z.pos m2) by (unfold n'; lia). pose proof (rne_bounds n' (Z.pos m2) _ _ ltac:(lia) B) as Br.
    assert (Q : 2 ^ 53 <= n / Z.pos m2 < 2 ^ 54) by (split; [apply Z.div_le_lower_bound|apply Z.div_lt_upper_bound]; lia).
    destruct (n / Z.pos m2) as [|q|q]; [lia| |lia]. rewrite shr_fexp_54 by lia.
    assert (Eq : Z.pos q * Z.pos m2 + n mod Z.pos m2 = n' * 2) by lia.
    pose proof (round_location_half (Z.pos q) (n mod Z.pos m2) (Z.pos m2) ltac:(lia) R ltac:(lia) ltac:(rewrite Eq, Z.even_mul; apply orb_true_r)) as Rh. cbn zeta in Rh.
    rewrite Rh, Eq, Z.div_mul by lia. replace (e1 - e2 - 53 + 1) with (e1 - e2 - 52) by lia. apply round_finish; lia.
Qed.

(** The [f64] quotient of two integers is their ratio, scaled to 53 bits and
    rounded. *)
Lemma f64_div_ratio s n d : 0 < n < 2 ^ 53 -> 0 < d < 2 ^ 53 ->
  exists x, 0 <= x /\ 2 ^ 52 * d <= n * 2 ^ x < 2 ^ 53 * d /\ f64_div (f64_of_Z (cond_Zopp s n)) (f64_of_Z d) = finish s (rne (n * 2 ^ x) d) (- x).
Proof.
  intros Hn Hd. rewrite (f64_of_Z_exact s n Hn), (f64_of_Z_exact false d Hd : f64_of_Z d = _). destruct (sig_bounds n Hn) as (B1 & He1 & E1), (sig_bounds d Hd) as (B2 & He2 & E2).
  rewrite <- (Z2Pos.id (sig n)) in B1, E1 by lia. rewrite <- (Z2Pos.id (sig d)) in B2, E2 by lia. set (m1 := Z.to_pos (sig n)) in *. set (m2 := Z.to_pos (sig d)) in *. set (e1 := ex n) in *. set (e2 := ex d) in *.
  rewrite div_finish, xorb_false_r by assumption. cbn zeta. set (k := if Z.pos m1 <? Z.pos m2 then 53 else 52).
  assert (Hk : 52 <= k <= 53) by (unfold k; destruct (_ <? _); lia). exists (k - e1 + e2). split; [lia|].
  assert (P2 : 0 < 2 ^ (- e2)) by (apply Z.pow_pos_nonneg; lia).
  assert (S : 2 ^ (- e2) * (n * 2 ^ (k - e1 + e2)) = Z.pos m1 * 2 ^ k).
  { rewrite E1. transitivity (n * (2 ^ (- e2) * 2 ^ (k - e1 + e2))); [lia|]. rewrite <- Z.pow_add_r by lia.
    replace (- e2 + (k - e1 + e2)) with (- e1 + k) by lia. rewrite Z.pow_add_r by lia. lia. }
  split; [|rewrite <- (rne_scale (2 ^ (- e2)) (n * 2 ^ (k - e1 + e2)) d), S, (Z.mul_comm _ d), <- E2 by lia; f_equal; lia].
  assert (2 ^ 52 * Z.pos m2 <= Z.pos m1 * 2 ^ k < 2 ^ 53 * Z.pos m2) as B by (unfold k; destruct (Z.ltb_spec (Z.pos m1) (Z.pos m2)); lia).
  rewrite <- S, E2 in B. nia.
Qed.

(** ** Sums, products and bits *)

Lemma signed_abs z : z <> 0 -> exists s n, 0 < n /\ z = cond_Zopp s n /\ Z.abs z = n.
Proof. destruct z as [|p|p]; [congruence|exists false, (Z.pos p)|exists true, (Z.pos p)]; cbn; lia. Qed.

Lemma cond_Zopp_mul s n k : cond_Zopp s n * k = cond_Zopp s (n * k).
Proof. destruct s; cbn; lia. Qed.

Lemma normalize_exact z k : Z.abs z < 2 ^ 53 -> 0 <= k <= 500 -> binary_normalize 53 1024 (z * 2 ^ k) (- k) false = f64_of_Z z.
Proof.
  intros Hz Hk. destruct (Z.eq_dec z 0) as [->|N]; [reflexivity|]. destruct (signed_abs z N) as (s & n & Hn & -> & A).
  rewrite cond_Zopp_mul, f64_of_Z_exact, <- (binary_round_exact s n k) by lia. pose proof (Z.pow_pos_nonneg 2 k ltac:(lia) ltac:(lia)).
  assert (0 < n * 2 ^ k) by nia. destruct (n * 2 ^ k) as [|p|p]; [lia| |lia]. destruct s; reflexivity.
Qed.

Lemma shl_align_sig n e : 0 < n < 2 ^ 53 -> e <= ex n -> Z.pos (fst (shl_align (Z.to_pos (sig n)) (ex n) e)) = n * 2 ^ (- e).
Proof.
  intros Hn He. destruct (sig_bounds n Hn) as (B & Hx & E). unfold shl_align. destruct (e - ex n) as [|q|q] eqn:D; [|lia|]; cbn [fst].
  - rewrite Z2Pos.id by lia. rewrite E. do 2 f_equal. lia.
  - rewrite iter_xO, Z2Pos.id, E, <- Z.mul_assoc, <- Z.pow_add_r by lia. do 2 f_equal. lia.
Qed.

Lemma f64_add_exact a b : Z.abs a < 2 ^ 53 -> Z.abs b < 2 ^ 53 -> Z.abs (a + b) < 2 ^ 53 -> f64_add (f64_of_Z a) (f64_of_Z b) = f64_of_Z (a + b).
Proof.
  intros Ha Hb Hab. destruct (Z.eq_dec a 0) as [->|Na], (Z.eq_dec b 0) as [->|Nb].
  - reflexivity.
  - destruct (signed_abs b Nb) as (s & n & Hn & -> & A). rewrite Z.add_0_l, f64_of_Z_exact by lia. reflexivity.
  - destruct (signed_abs a Na) as (s & n & Hn & -> & A). rewrite Z.add_0_r, f64_of_Z_exact by lia. reflexivity.
  - rewrite <- (normalize_exact (a + b) (- Z.min (ex (Z.abs a)) (ex (Z.abs b)))) by (pose proof (sig_bounds (Z.abs a)); pose proof (sig_bounds (Z.abs b)); lia).
    destruct (signed_abs a Na) as (s & n & Hn & -> & A), (signed_abs b Nb) as (s' & n' & Hn' & -> & A'). rewrite A, A' in *.
    rewrite !f64_of_Z_exact by lia. unfold f64_add, SFadd. rewrite !shl_align_sig by lia. rewrite <- !cond_Zopp_mul, <- Z.mul_add_distr_r, Z.opp_involutive. reflexivity.
Qed.

(** A product of normalised significands. *)
Lemma f64_mul_round s1 m1 e1 s2 m2 e2 : 2 ^ 52 <= m1 < 2 ^ 53 -> 2 ^ 52 <= m2 < 2 ^ 53 -> -400 <= e1 <= 400 -> -400 <= e2 <= 400 ->
  f64_mul (S754_finite s1 (Z.to_pos m1) e1) (S754_finite s2 (Z.to_pos m2) e2) =
  let j := if 2 ^ 105 <=? m1 * m2 then 53 else 52 in finish (xorb s1 s2) (rne (m1 * m2) (2 ^ j)) (e1 + e2 + j).
Proof.
  intros H1 H2 He1 He2. unfold f64_mul, SFmul. rewrite Pos2Z.inj_mul, !Z2Pos.id by lia.
  destruct (Z.leb_spec (2 ^ 105) (m1 * m2)); cbn zeta; apply round_shift; cbn; nia.
Qed.

Lemma f64_mul_exact n k : 0 < n -> 0 < k -> n * k < 2 ^ 53 -> f64_mul (f64_of_Z n) (f64_of_Z k) = f64_of_Z (n * k).
Proof.
  intros Hn Hk Hnk. assert (Bn : 0 < n < 2 ^ 53) by nia. assert (Bk : 0 < k < 2 ^ 53) by nia. assert (Bp : 0 < n * k < 2 ^ 53) by nia.
  rewrite (f64_of_Z_exact false n Bn : f64_of_Z n = _), (f64_of_Z_exact false k Bk : f64_of_Z k = _), (f64_of_Z_exact false (n * k) Bp : f64_of_Z (n * k) = _).
  destruct (sig_bounds n Bn) as (B1 & He1 & E1), (sig_bounds k Bk) as (B2 & He2 & E2). unfold f64_mul, SFmul. rewrite Pos2Z.inj_mul, !Z2Pos.id by lia.
  replace (sig n * sig k) with (n * k * 2 ^ (- (ex n + ex k))) by (rewrite E1, E2; replace (- (ex n + ex k)) with (- ex n + - ex k) by lia; rewrite Z.pow_add_r by lia; lia).
  replace (ex n + ex k) with (- - (ex n + ex k)) at 2 by lia. apply round_aux_exact; [exact Bp|lia|].
  pose proof (Z.log2_mul_below n k Hn Hk). unfold ex. lia.
Qed.

(** A normal number survives its bits. *)
Lemma f64_bits_roundtrip s m e : 2 ^ 52 <= m < 2 ^ 53 -> -1074 <= e <= 971 ->
  f64_of_bits (f64_bits (S754_finite s (Z.to_pos m) e)) = S754_finite s (Z.to_pos m) e.
Proof.
  intros Hm He. unfold f64_bits. rewrite Z2Pos.id, (proj2 (Z.ltb_ge m (2 ^ 52))) by lia. set (sg := if s then 2 ^ 63 else 0).
  assert (Hs : sg = Z.b2z s * 2 ^ 63) by (destruct s; reflexivity). assert (Hb : 0 <= Z.b2z s <= 1) by (destruct s; cbn; lia).
  rewrite wrap_small by (unfold in_unsigned; lia). set (b := sg + (e + 1075) * 2 ^ 52 + (m - 2 ^ 52)).
  assert (Eb : b = (Z.b2z s * 2 ^ 11 + (e + 1075)) * 2 ^ 52 + (m - 2 ^ 52)) by (unfold b; lia). unfold f64_of_bits.
  assert (D : b / 2 ^ 52 = Z.b2z s * 2 ^ 11 + (e + 1075)) by (rewrite Eb, Z.div_add_l, (Z.div_small (m - 2 ^ 52)), Z.add_0_r by lia; reflexivity).
  assert (R : b mod 2 ^ 52 = m - 2 ^ 52) by (rewrite Eb, Z.add_comm, Z.mod_add, Z.mod_small by lia; reflexivity).
  rewrite D, R, Z.add_comm, Z.mod_add, Z.mod_small by lia. rewrite (proj2 (Z.eqb_neq _ 0)), (proj2 (Z.eqb_neq _ 2047)) by lia.
  replace (2 ^ 63 <=? b) with s by (destruct s; symmetry; [apply Z.leb_le|apply Z.leb_gt]; cbn [Z.b2z] in *; lia).
  rewrite Z.sub_add. destruct m as [|p|p]; [lia| |lia]. cbn [Z.to_pos]. f_equal. lia.
Qed.
