(* ===== verification/Context.v ===== *)
(** * Context: the session state the codecs share, [tds/context.rs]

    What the client remembers between messages: the negotiated version and
    packet size, the packet counter, the transaction descriptor, the metadata
    of the current result set.  The column metadata of
    [token_col_metadata.rs] and [token_alt_meta_data.rs] is here because the
    context holds it. *)

From S2P Require Import Prelude Unicode Collation Types.

(** ** [FeatureLevel], [login.rs] *)

Inductive FeatureLevel :=
| SqlServerV7 | SqlServer2000 | SqlServer2000Sp1 | SqlServer2005
| SqlServer2008 | SqlServer2008R2 | SqlServerN.

Definition feature_as_u32 (l : FeatureLevel) : Z :=
  match l with
  | SqlServerV7 => 0x70000000
  | SqlServer2000 => 0x71000000
  | SqlServer2000Sp1 => 0x71000001
  | SqlServer2005 => 0x72090002
  | SqlServer2008 => 0x730A0003
  | SqlServer2008R2 => 0x730B0003
  | SqlServerN => 0x74000004
  end.

Definition feature_try_from (n : Z) : option FeatureLevel :=
  uint_try_from feature_as_u32
    [SqlServerV7; SqlServer2000; SqlServer2000Sp1; SqlServer2005; SqlServer2008; SqlServer2008R2;
     SqlServerN] n.

#[global] Instance FeatureLevel_eq_dec : EqDecision FeatureLevel.
Proof. solve_decision. Defined.

(** [FeatureLevel::done_row_count_bytes] *)
Definition done_row_count_bytes (l : FeatureLevel) : Z :=
  if feature_as_u32 SqlServer2005 <=? feature_as_u32 l then 8 else 4.

(** The derived order of [FeatureLevel] is the order of its variants, which
    is the order of their values. *)
Definition feature_geb (a b : FeatureLevel) : bool := feature_as_u32 b <=? feature_as_u32 a.

(** ** Column metadata *)

(** [ColumnFlag]: the bits of the COLMETADATA [Flags] field the driver knows. *)
Definition Nullable : Z := 2 ^ 0.
Definition CaseSensitive : Z := 2 ^ 1.
Definition Updateable : Z := 2 ^ 2.
Definition UpdateableUnknown : Z := 2 ^ 3.
Definition Identity : Z := 2 ^ 4.
Definition Computed : Z := 2 ^ 5.
Definition FixedLenClrType : Z := 2 ^ 8.
Definition SparseColumnSet : Z := 2 ^ 10.
Definition Encrypted : Z := 2 ^ 11.
Definition Hidden : Z := 2 ^ 13.
Definition Key : Z := 2 ^ 14.
Definition NullableUnknown : Z := 2 ^ 15.

Definition COLUMN_FLAGS : Z :=
  Nullable + CaseSensitive + Updateable + UpdateableUnknown + Identity + Computed +
  FixedLenClrType + SparseColumnSet + Encrypted + Hidden + Key + NullableUnknown.

(** [BitFlags::from_bits_truncate] and [contains] *)
Definition truncate_flags (mask bits : Z) : Z := Z.land bits mask.
Definition contains (flags f : Z) : bool := Z.land flags f =? f.

Record BaseMetaDataColumn := mkBaseMetaDataColumn {
  flags : Z;
  ty : TypeInfo;
  table_name : option str;
}.

(** [BaseMetaDataColumn::is_nullable], [is_identity], [is_updateable] *)
Definition is_nullable (c : BaseMetaDataColumn) : bool := contains (flags c) Nullable.
Definition is_identity (c : BaseMetaDataColumn) : bool := contains (flags c) Identity.
Definition is_updateable (c : BaseMetaDataColumn) : bool :=
  contains (flags c) Updateable || contains (flags c) UpdateableUnknown.

Record MetaDataColumn := mkMetaDataColumn { base : BaseMetaDataColumn; col_name : str }.
Record TokenColMetaData := mkTokenColMetaData { columns : list MetaDataColumn }.

Record AltMetaDataColumn := mkAltMetaDataColumn {
  amc_op : Z;
  amc_operand : Z;
  amc_base : BaseMetaDataColumn;
  amc_col_name : str;
}.
Record TokenAltMetaData := mkTokenAltMetaData {
  alt_id : Z;
  by_columns : list Z;
  alt_columns : list AltMetaDataColumn;
}.

(** ** The context *)

Record Context := mkContext {
  version : FeatureLevel;
  packet_size : Z;                       (* u32 *)
  packet_id : Z;                         (* u8 *)
  transaction_desc : bytes;              (* [u8; 8] *)
  last_meta : option TokenColMetaData;
  alt_metas : gmap Z TokenAltMetaData;
  spn : option str;
  command_timeout : option Z;
  lossy_utf16 : bool;
  lossy_codepage : bool;
}.

(** [Context::new] *)
Definition context_new : Context :=
  mkContext SqlServerN 4096 0 (repeat 0 8) None ∅ None None false false.

(** [Context::next_packet_id]: the id to use, and the counter advanced with
    wrap-around. *)
Definition next_packet_id (c : Context) : Z * Context :=
  (packet_id c,
   mkContext (version c) (packet_size c) (wrap 8 (packet_id c + 1)) (transaction_desc c) (last_meta c)
     (alt_metas c) (spn c) (command_timeout c) (lossy_utf16 c) (lossy_codepage c)).

Definition set_last_meta (m : TokenColMetaData) (c : Context) : Context :=
  mkContext (version c) (packet_size c) (packet_id c) (transaction_desc c) (Some m)
    (alt_metas c) (spn c) (command_timeout c) (lossy_utf16 c) (lossy_codepage c).

(** [Context::set_alt_meta]: keyed by the COMPUTE clause id. *)
Definition set_alt_meta (m : TokenAltMetaData) (c : Context) : Context :=
  mkContext (version c) (packet_size c) (packet_id c) (transaction_desc c) (last_meta c)
    (<[alt_id m := m]> (alt_metas c)) (spn c) (command_timeout c) (lossy_utf16 c) (lossy_codepage c).

(** [Context::alt_meta] *)
Definition alt_meta (id : Z) (c : Context) : option TokenAltMetaData := alt_metas c !! id.

Definition set_packet_size (n : Z) (c : Context) : Context :=
  mkContext (version c) n (packet_id c) (transaction_desc c) (last_meta c)
    (alt_metas c) (spn c) (command_timeout c) (lossy_utf16 c) (lossy_codepage c).

Definition set_command_timeout (t : option Z) (c : Context) : Context :=
  mkContext (version c) (packet_size c) (packet_id c) (transaction_desc c) (last_meta c)
    (alt_metas c) (spn c) t (lossy_utf16 c) (lossy_codepage c).

Definition set_lossy_utf16 (b : bool) (c : Context) : Context :=
  mkContext (version c) (packet_size c) (packet_id c) (transaction_desc c) (last_meta c)
    (alt_metas c) (spn c) (command_timeout c) b (lossy_codepage c).

Definition set_lossy_codepage (b : bool) (c : Context) : Context :=
  mkContext (version c) (packet_size c) (packet_id c) (transaction_desc c) (last_meta c)
    (alt_metas c) (spn c) (command_timeout c) (lossy_utf16 c) b.

Definition set_transaction_descriptor (d : bytes) (c : Context) : Context :=
  mkContext (version c) (packet_size c) (packet_id c) d (last_meta c)
    (alt_metas c) (spn c) (command_timeout c) (lossy_utf16 c) (lossy_codepage c).

Definition set_version (v : FeatureLevel) (c : Context) : Context :=
  mkContext v (packet_size c) (packet_id c) (transaction_desc c) (last_meta c)
    (alt_metas c) (spn c) (command_timeout c) (lossy_utf16 c) (lossy_codepage c).

(** [Context::set_spn]: [MSSQLSvc/host:port] *)
Definition set_spn (host : str) (port : Z) (c : Context) : Context :=
  mkContext (version c) (packet_size c) (packet_id c) (transaction_desc c) (last_meta c)
    (alt_metas c) (Some (ascii_str "MSSQLSvc/" ++ host ++ ascii_str ":" ++ show_Z port))
    (command_timeout c) (lossy_utf16 c) (lossy_codepage c).

(** ** Invariant

    What every operation of the client maintains: machine-width fields, a
    packet size the framing can work with, and metadata whose types the value
    decoders accept. *)
Definition MIN_PACKET_SIZE : Z := 512.
Definition MAX_PACKET_SIZE : Z := 32767.

Definition wf_meta (m : TokenColMetaData) : Prop := Forall (fun c => wf_typeinfo (ty (base c))) (columns m).
Definition wf_alt_meta (m : TokenAltMetaData) : Prop :=
  Forall (fun c => wf_typeinfo (ty (amc_base c))) (alt_columns m).

Record wf_context (c : Context) : Prop := {
  wf_packet_size : MIN_PACKET_SIZE <= packet_size c <= MAX_PACKET_SIZE;
  wf_packet_id : in_unsigned 8 (packet_id c);
  wf_transaction_desc : wf_bytes (transaction_desc c) /\ length (transaction_desc c) = 8%nat;
  wf_last_meta : opt_wf wf_meta (last_meta c);
  wf_alt_metas : forall id m, alt_metas c !! id = Some m -> wf_alt_meta m;
}.

Lemma wf_context_new : wf_context context_new.
Proof.
  split; cbn; unfold MIN_PACKET_SIZE, MAX_PACKET_SIZE, in_unsigned; try lia.
  - split; [|reflexivity]. repeat constructor; lia.
  - intros id m H. rewrite lookup_empty in H. discriminate.
Qed.

Lemma wf_next_packet_id c : wf_context c -> wf_context (snd (next_packet_id c)).
Proof. intros []. split; cbn; auto. apply wrap_range; lia. Qed.

Lemma wf_set_last_meta m c : wf_meta m -> wf_context c -> wf_context (set_last_meta m c).
Proof. intros Hm []. split; cbn; auto. Qed.

Lemma wf_set_alt_meta m c : wf_alt_meta m -> wf_context c -> wf_context (set_alt_meta m c).
Proof.
  intros Hm []. split; cbn; auto. intros id m' H.
  destruct (decide (id = alt_id m)) as [->|Hn].
  - rewrite lookup_insert_eq in H. congruence.
  - rewrite lookup_insert_ne in H by congruence. eauto.
Qed.

Lemma wf_set_packet_size n c : MIN_PACKET_SIZE <= n <= MAX_PACKET_SIZE -> wf_context c ->
  wf_context (set_packet_size n c).
Proof. intros Hn []. split; cbn; auto. Qed.

Lemma wf_set_transaction_descriptor d c : wf_bytes d -> length d = 8%nat -> wf_context c ->
  wf_context (set_transaction_descriptor d c).
Proof. intros Hd Hl []. split; cbn; auto. Qed.

Lemma wf_set_version v c : wf_context c -> wf_context (set_version v c).
Proof. intros []. split; cbn; auto. Qed.
