(* ===== verification/ColumnDecode.v ===== *)
(** * ColumnDecode: reading column values, [tds/codec/column_data/*.rs]

    One definition per module of [column_data/], composed as
    [ColumnData::decode] composes them.  The [TypeInfo] comes from the
    metadata decoder, the lossy flags from the context. *)

From S2P Require Import Prelude Unicode Collation SqlRead SqlWrite Types TypeInfoCodec NumericCodec Temporal Money Context.

Definition MAX_PLP_SIZE : Z := 2 ^ 31 - 1.
Definition PLP_NULL : Z := 0xffffffffffffffff.
Definition PLP_UNKNOWN : Z := 0xfffffffffffffffe.

(** ** [plp.rs]: partially length-prefixed values *)

(** The chunk loop.  Every round reads a length of four bytes, so as many
    rounds as there are bytes, and one more, are enough
    ([safe_plp_chunks]). *)
Fixpoint plp_chunks {R} `{SqlReadBytes R} (fuel : nat) (data : bytes) : M R bytes :=
  match fuel with
  | O => out_of_fuel
  | S fuel =>
      chunk_size <- read_u32_le ;;
      if chunk_size =? 0 then ret data
      else if MAX_PLP_SIZE <? len data + chunk_size
      then fail (Protocol "PLP value exceeds the maximum supported size")
      else
        data <- read_bytes_into (Z.to_nat chunk_size) data chunk_size MAX_PREALLOC ;;
        plp_chunks fuel data
  end.

(** [plp::decode]; [n] is the declared length of the type. *)
Definition plp_decode {R} `{SqlReadBytes R} (n : Z) : M R (option bytes) :=
  if n <? 0xffff then
    len <- read_u16_le ;;
    if len =? 0xffff then ret None else data <- read_bytes len ;; ret (Some data)
  else
    len <- read_u64_le ;;
    if len =? PLP_NULL then ret None
    else data <- (fun r => plp_chunks (S (unread r)) [] r) ;; ret (Some data).

(** [guid::reorder_bytes]: the four swaps. *)
Definition reorder_bytes (b : bytes) : bytes :=
  match b with
  | b0 :: b1 :: b2 :: b3 :: b4 :: b5 :: b6 :: b7 :: rest =>
      b3 :: b2 :: b1 :: b0 :: b5 :: b4 :: b7 :: b6 :: rest
  | _ => b
  end.

Definition bit_decode {R} `{SqlReadBytes R} : M R ColumnData :=
  n <- read_u8 ;;
  if n =? 0 then ret (ColumnData.Bit None)
  else if n =? 1 then v <- read_u8 ;; ret (ColumnData.Bit (Some (0 <? v)))
  else fail (Protocol "bitn: length is invalid").

Definition int_decode {R} `{SqlReadBytes R} (type_len : Z) : M R ColumnData :=
  n <- read_u8 ;;
  if n =? 0 then
    ret (if type_len =? 1 then ColumnData.U8 None
         else if type_len =? 2 then ColumnData.I16 None
         else if type_len =? 4 then ColumnData.I32 None
         else ColumnData.I64 None)
  else if n =? 1 then v <- read_u8 ;; ret (ColumnData.U8 (Some v))
  else if n =? 2 then v <- read_i16_le ;; ret (ColumnData.I16 (Some v))
  else if n =? 4 then v <- read_i32_le ;; ret (ColumnData.I32 (Some v))
  else if n =? 8 then v <- read_i64_le ;; ret (ColumnData.I64 (Some v))
  else fail (Protocol "intn: length is invalid").

Definition float_decode {R} `{SqlReadBytes R} (type_len : Z) : M R ColumnData :=
  n <- read_u8 ;;
  if n =? 0 then ret (if type_len =? 4 then ColumnData.F32 None else ColumnData.F64 None)
  else if n =? 4 then v <- read_f32_le ;; ret (ColumnData.F32 (Some v))
  else if n =? 8 then v <- read_f64_le ;; ret (ColumnData.F64 (Some v))
  else fail (Protocol "floatn: length is invalid").

Definition guid_decode {R} `{SqlReadBytes R} : M R ColumnData :=
  n <- read_u8 ;;
  if n =? 0 then ret (ColumnData.Guid None)
  else if n =? 16 then
    data <- read_bytes_into 16 [] 16 16 ;; ret (ColumnData.Guid (Some (reorder_bytes data)))
  else fail (Protocol "guid: length is invalid").

(** [datetimen::decode]: [rlen] received, [n] declared. *)
Definition datetimen_decode {R} `{SqlReadBytes R} (rlen n : Z) : M R ColumnData :=
  if (rlen =? 0) && (n =? 4) then ret (ColumnData.SmallDateTime None)
  else if (rlen =? 0) && (n =? 8) then ret (ColumnData.DateTime None)
  else if rlen =? 4 then d <- smalldatetime_decode ;; ret (ColumnData.SmallDateTime (Some d))
  else if rlen =? 8 then d <- datetime_decode ;; ret (ColumnData.DateTime (Some d))
  else fail (Protocol "datetimen: length is invalid").

(** [date.rs], [time.rs], [datetime2.rs], [datetimeoffsetn.rs] *)
Definition date_column_decode {R} `{SqlReadBytes R} : M R ColumnData :=
  n <- read_u8 ;;
  if n =? 0 then ret (ColumnData.Date None)
  else if n =? 3 then d <- date_decode ;; ret (ColumnData.Date (Some d))
  else fail (Protocol "daten: length is invalid").

Definition time_column_decode {R} `{SqlReadBytes R} (n : Z) : M R ColumnData :=
  rlen <- read_u8 ;;
  if rlen =? 0 then ret (ColumnData.Time None)
  else if (3 <=? rlen) && (rlen <=? 5) then
    t <- time_decode n rlen ;; ret (ColumnData.Time (Some t))
  else fail (Protocol "timen: invalid value length").

Definition datetime2_column_decode {R} `{SqlReadBytes R} (n : Z) : M R ColumnData :=
  rlen <- read_u8 ;;
  if rlen =? 0 then ret (ColumnData.DateTime2 None)
  else if rlen <? 3 then fail (Protocol "datetime2: invalid value length")
  else d <- datetime2_decode n (rlen - 3) ;; ret (ColumnData.DateTime2 (Some d)).

Definition datetimeoffset_column_decode {R} `{SqlReadBytes R} (n : Z) : M R ColumnData :=
  rlen <- read_u8 ;;
  if rlen =? 0 then ret (ColumnData.DateTimeOffset None)
  else if rlen <? 5 then fail (Protocol "datetimeoffset: invalid value length")
  else d <- datetimeoffset_decode n (rlen - 5) ;; ret (ColumnData.DateTimeOffset (Some d)).

Definition binary_decode {R} `{SqlReadBytes R} (n : Z) : M R ColumnData :=
  d <- plp_decode n ;; ret (ColumnData.Binary d).

(** [udt::decode]: always the chunked form. *)
Definition udt_decode {R} `{SqlReadBytes R} : M R ColumnData :=
  d <- plp_decode 0xffffffff ;; ret (ColumnData.Binary d).

(** The text pointer and the timestamp before a [text]/[image] value. *)
Definition skip_text_pointer {R} `{SqlReadBytes R} (ptr_len : Z) : M R unit :=
  read_bytes ptr_len ;; read_i32_le ;; read_u32_le ;; ret tt.

Definition image_decode {R} `{SqlReadBytes R} : M R ColumnData :=
  ptr_len <- read_u8 ;;
  if ptr_len =? 0 then ret (ColumnData.Binary None)
  else
    skip_text_pointer ptr_len ;;
    n <- read_u32_le ;;
    buf <- read_bytes n ;;
    ret (ColumnData.Binary (Some buf)).

(** [fixed_len::decode] *)
Definition fixed_len_decode {R} `{SqlReadBytes R} (t : FixedLenType) : M R ColumnData :=
  match t with
  | FixedLenType.Null => ret (ColumnData.I32 None)
  | FixedLenType.Bit => v <- read_u8 ;; ret (ColumnData.Bit (Some (negb (v =? 0))))
  | FixedLenType.Int1 => v <- read_u8 ;; ret (ColumnData.U8 (Some v))
  | FixedLenType.Int2 => v <- read_i16_le ;; ret (ColumnData.I16 (Some v))
  | FixedLenType.Int4 => v <- read_i32_le ;; ret (ColumnData.I32 (Some v))
  | FixedLenType.Int8 => v <- read_i64_le ;; ret (ColumnData.I64 (Some v))
  | FixedLenType.Float4 => v <- read_f32_le ;; ret (ColumnData.F32 (Some v))
  | FixedLenType.Float8 => v <- read_f64_le ;; ret (ColumnData.F64 (Some v))
  | FixedLenType.Datetime => datetimen_decode 8 8
  | FixedLenType.Datetime4 => datetimen_decode 4 8
  | FixedLenType.Money4 => money_decode 4
  | FixedLenType.Money => money_decode 8
  end.

Section Decode.
Context {ER : EncodingRs} (ctx : Context).

(** Code page bytes to text, by the lossy flag of the connection. *)
Definition decode_codepage (c : Collation) (buf : bytes) (msg : string) : Res str :=
  res_bind (codec c) (fun cc =>
    if lossy_codepage ctx then Ok (codec_decode_lossy cc buf)
    else ok_or (codec_decode cc buf) (Encoding msg)).

(** [string::decode] *)
Definition string_decode {R} `{SqlReadBytes R} (t : VarLenType) (n : Z) (collation : option Collation) : M R (option str) :=
  data <- plp_decode n ;;
  match data, t with
  | Some buf, (VarLenType.BigChar | VarLenType.BigVarChar) =>
      c <- lift (ok_or collation (Protocol "string column missing collation")) ;;
      s <- lift (decode_codepage c buf "invalid sequence") ;;
      ret (Some s)
  | Some buf, _ =>
      if negb (len buf mod 2 =? 0) then fail (Protocol "nvarchar: invalid plp length")
      else
        let units := le_units buf in
        if (match t with VarLenType.NChar | VarLenType.NVarchar => true | _ => false end) && lossy_utf16 ctx
        then ret (Some (from_utf16_lossy units))
        else s <- lift (ok_or (from_utf16 units) (Protocol "nvarchar: invalid UTF-16 sequence")) ;;
             ret (Some s)
  | None, _ => ret None
  end.

(** [text::decode]: TEXT with a collation, NTEXT without. *)
Definition text_decode {R} `{SqlReadBytes R} (collation : option Collation) : M R ColumnData :=
  ptr_len <- read_u8 ;;
  if ptr_len =? 0 then ret (ColumnData.String None)
  else
    skip_text_pointer ptr_len ;;
    s <- match collation with
         | Some c =>
             cc <- lift (codec c) ;;
             text_len <- read_u32_le ;;
             buf <- read_bytes text_len ;;
             if lossy_codepage ctx then ret (codec_decode_lossy cc buf)
             else lift (ok_or (codec_decode cc buf) (Encoding "invalid sequence"))
         | None =>
             byte_len <- read_u32_le ;;
             if negb (byte_len mod 2 =? 0) then fail (Protocol "ntext: odd byte length is invalid")
             else
               raw <- read_bytes byte_len ;;
               if lossy_utf16 ctx then ret (from_utf16_lossy (le_units raw))
               else lift (ok_or (from_utf16 (le_units raw)) Utf16)
         end ;;
    ret (ColumnData.String (Some s)).

(** [xml::decode] *)
Definition xml_decode {R} `{SqlReadBytes R} (n : Z) (schema : option XmlSchema) : M R ColumnData :=
  s <- string_decode VarLenType.Xml n None ;;
  ret (ColumnData.Xml (match s with Some d => Some (mkXmlData d schema) | None => None end)).

(** ** [sql_variant.rs] *)

Definition MAX_VARIANT_PAYLOAD : Z := 8000.

Definition check_prop_bytes {R} `{SqlReadBytes R} (got want : Z) : M R unit :=
  if got =? want then ret tt else fail (Protocol "sql_variant: unexpected property bytes").
Definition check_data_len {R} `{SqlReadBytes R} (got want : Z) : M R unit :=
  if got =? want then ret tt else fail (Protocol "sql_variant: unexpected value length").

(** [decode_numeric]: sign and magnitude, no length byte; the words are put
    together with checked i128 arithmetic. *)
Definition variant_numeric {R} `{SqlReadBytes R} (data_len scale : Z) : M R ColumnData :=
  let overflow := Protocol "sql_variant: numeric magnitude out of range" in
  let words (l : bytes) : Res Z :=
    match checked 128 (le_val (drop 8 l) * 2 ^ 64) with
    | Some hi => ok_or (checked 128 (hi + le_val (take 8 l))) overflow
    | None => Err overflow
    end in
  if data_len =? 0 then fail (Protocol "sql_variant: empty numeric value")
  else if 38 <? scale then fail (Protocol "sql_variant: invalid numeric scale")
  else
    s <- read_u8 ;;
    sign <- (if s =? 0 then ret (-1) else if s =? 1 then ret 1
             else fail (Protocol "sql_variant: invalid numeric sign")) ;;
    magnitude <- read_bytes (data_len - 1) ;;
    v <- lift (if len magnitude =? 4 then Ok (le_val magnitude)
               else if len magnitude =? 8 then Ok (le_val magnitude)
               else if len magnitude =? 12 then words magnitude
               else if len magnitude =? 16 then words magnitude
               else Err (Protocol "sql_variant: invalid numeric magnitude length")) ;;
    v <- lift (ok_or (checked 128 (v * sign)) overflow) ;;
    n <- lift (new_with_scale v scale) ;;
    ret (ColumnData.Numeric (Some n)).

(** The match of [sql_variant::decode] on a variable-length base type. *)
Definition variant_var {R} `{SqlReadBytes R} (var : VarLenType) (prop_bytes data_len : Z) : M R ColumnData :=
  match var with
  | VarLenType.Guid =>
      check_prop_bytes prop_bytes 0 ;;
      check_data_len data_len 16 ;;
      data <- read_bytes 16 ;;
      ret (ColumnData.Guid (Some (reorder_bytes data)))
  | VarLenType.Decimaln | VarLenType.Numericn =>
      check_prop_bytes prop_bytes 2 ;;
      read_u8 ;;
      scale <- read_u8 ;;
      variant_numeric data_len scale
  | VarLenType.BigChar | VarLenType.BigVarChar =>
      check_prop_bytes prop_bytes 7 ;;
      c <- read_collation ;;
      read_u16_le ;;
      buf <- read_bytes data_len ;;
      s <- lift (decode_codepage c buf "sql_variant: invalid sequence") ;;
      ret (ColumnData.String (Some s))
  | VarLenType.NChar | VarLenType.NVarchar =>
      check_prop_bytes prop_bytes 7 ;;
      read_collation ;;
      read_u16_le ;;
      buf <- read_bytes data_len ;;
      if negb (len buf mod 2 =? 0) then fail (Protocol "sql_variant: invalid nchar length")
      else s <- lift (ok_or (from_utf16 (le_units buf)) Utf16) ;; ret (ColumnData.String (Some s))
  | VarLenType.BigBinary | VarLenType.BigVarBin =>
      check_prop_bytes prop_bytes 2 ;;
      read_u16_le ;;
      buf <- read_bytes data_len ;;
      ret (ColumnData.Binary (Some buf))
  | VarLenType.Daten =>
      check_prop_bytes prop_bytes 0 ;;
      check_data_len data_len 3 ;;
      d <- date_decode ;;
      ret (ColumnData.Date (Some d))
  | VarLenType.Timen =>
      check_prop_bytes prop_bytes 1 ;;
      scale <- read_u8 ;;
      t <- time_decode scale data_len ;;
      ret (ColumnData.Time (Some t))
  | VarLenType.Datetime2 =>
      check_prop_bytes prop_bytes 1 ;;
      scale <- read_u8 ;;
      if data_len <? 3 then fail (Protocol "sql_variant: datetime2 value too short")
      else d <- datetime2_decode scale (data_len - 3) ;; ret (ColumnData.DateTime2 (Some d))
  | VarLenType.DatetimeOffsetn =>
      check_prop_bytes prop_bytes 1 ;;
      scale <- read_u8 ;;
      if data_len <? 5 then fail (Protocol "sql_variant: datetimeoffset value too short")
      else if 255 <? data_len - 5 then fail (Protocol "sql_variant: datetimeoffset time length too large")
      else d <- datetimeoffset_decode scale (data_len - 5) ;; ret (ColumnData.DateTimeOffset (Some d))
  | _ => fail (Protocol "sql_variant: unsupported base type")
  end.

(** [sql_variant::decode] *)
Definition sql_variant_decode {R} `{SqlReadBytes R} : M R ColumnData :=
  total_len <- read_u32_le ;;
  if total_len =? 0 then ret (ColumnData.String None)
  else if total_len <? 2 then fail (Protocol "sql_variant: invalid total length")
  else
    base_type <- read_u8 ;;
    prop_bytes <- read_u8 ;;
    if total_len <? 2 + prop_bytes then fail (Protocol "sql_variant: total length too small for property bytes")
    else
      let data_len := total_len - 2 - prop_bytes in
      if MAX_VARIANT_PAYLOAD <? data_len then fail (Protocol "sql_variant: value length exceeds the maximum")
      else match fixed_try_from base_type with
           | Some fixed =>
               if negb (prop_bytes =? 0)
               then fail (Protocol "sql_variant: fixed base type must not carry property bytes")
               else fixed_len_decode fixed
           | None =>
               match var_try_from base_type with
               | None => fail (Protocol "sql_variant: unknown base type")
               | Some var => variant_var var prop_bytes data_len
               end
           end.

(** [var_len::decode] *)
Definition var_len_decode {R} `{SqlReadBytes R} (cx : VarLenContext) : M R ColumnData :=
  let n := vlc_len cx in
  match vlc_type cx with
  | VarLenType.Bitn => bit_decode
  | VarLenType.Intn => int_decode n
  | VarLenType.Floatn => float_decode n
  | VarLenType.Guid => guid_decode
  | (VarLenType.BigChar | VarLenType.BigVarChar | VarLenType.NChar | VarLenType.NVarchar) as t =>
      s <- string_decode t n (vlc_collation cx) ;; ret (ColumnData.String s)
  | VarLenType.Money => l <- read_u8 ;; money_decode l
  | VarLenType.Datetimen => rlen <- read_u8 ;; datetimen_decode rlen (wrap 8 n)
  | VarLenType.Daten => date_column_decode
  | VarLenType.Timen => time_column_decode n
  | VarLenType.Datetime2 => datetime2_column_decode n
  | VarLenType.DatetimeOffsetn => datetimeoffset_column_decode n
  | VarLenType.BigBinary | VarLenType.BigVarBin => binary_decode n
  | VarLenType.Text => text_decode (vlc_collation cx)
  | VarLenType.NText => text_decode None
  | VarLenType.Image => image_decode
  | VarLenType.SSVariant => sql_variant_decode
  | _ => fail (Protocol "unsupported column type")
  end.

(** [ColumnData::decode] *)
Definition column_decode {R} `{SqlReadBytes R} (t : TypeInfo) : M R ColumnData :=
  match t with
  | TypeInfo.FixedLen f => fixed_len_decode f
  | TypeInfo.VarLenSized cx => var_len_decode cx
  | TypeInfo.VarLenSizedPrecision ty _ _ scale =>
      match ty with
      | VarLenType.Decimaln | VarLenType.Numericn =>
          n <- numeric_decode scale ;; ret (ColumnData.Numeric n)
      | _ => fail (Protocol "unexpected type for a precision/scale-typed column")
      end
  | TypeInfo.Xml schema size => xml_decode size schema
  | TypeInfo.Udt _ => udt_decode
  end.
End Decode.

(** ** Safety *)

Lemma read_uint_le_consumes n buf v buf' :
  read_uint_le n buf = (Ok v, buf') -> length buf = (n + length buf')%nat.
Proof.
  unfold read_uint_le, bind, ret. rewrite read_n_bytes. destruct (Nat.leb_spec n (length buf)); [|discriminate].
  intros [= _ <-]. rewrite length_drop. lia.
Qed.

Definition plp_ok (d : bytes) : Prop := wf_bytes d /\ len d <= MAX_PLP_SIZE.

(** The chunk loop ends within its fuel, and what it gathers is bounded. *)
Lemma safe_plp_chunks fuel : forall data buf, plp_ok data -> wf_bytes buf -> (length buf < fuel)%nat ->
  exists r buf', plp_chunks fuel data buf = (r, buf') /\ res_safe plp_ok r /\ suffix buf' buf.
Proof.
  induction fuel as [|fuel IH]; intros data buf Hd Hb Hf; [lia|]. cbn [plp_chunks].
  destruct (safe_u32_le buf Hb) as (r & b1 & E & Hr & Hs). rewrite bind_run, E.
  destruct r as [n|e| |]; cbn in Hr; try tauto; [|exists (Err e), b1; auto].
  apply read_uint_le_consumes in E. pose proof (suffix_wf _ _ Hs Hb) as Hb1.
  destruct (Z.eqb_spec n 0); [exists (Ok data), b1; auto|].
  destruct (Z.ltb_spec MAX_PLP_SIZE (len data + n)); [do 2 eexists; split; [reflexivity|split; [exact I|exact Hs]]|].
  destruct (safe_read_bytes_into data n MAX_PREALLOC ltac:(reflexivity) (proj1 Hd)
    ltac:(unfold in_unsigned in Hr; lia) b1 Hb1) as (r2 & b2 & E2 & Hr2 & Hs2).
  rewrite bind_run, E2. destruct r2 as [d2|e| |]; cbn in Hr2; try tauto;
    [|exists (Err e), b2; repeat split; auto; etrans; eauto].
  destruct (IH d2 b2) as (r3 & b3 & E3 & Hr3 & Hs3).
  - split; [tauto|lia].
  - eapply suffix_wf; eauto.
  - apply suffix_length in Hs2. lia.
  - exists r3, b3. rewrite E3. repeat split; auto. etrans; [exact Hs3|]. etrans; eauto.
Qed.

Lemma safe_plp n : safe (plp_decode n) (opt_wf plp_ok).
Proof.
  unfold plp_decode. safe_step.
  - safe_step. safe_step; [apply safe_ret; exact I|].
    eapply safe_bind; [apply safe_read_bytes; unfold in_unsigned in *; lia|intros d [Hd Hl]].
    apply safe_ret. split; [exact Hd|]. unfold in_unsigned, MAX_PLP_SIZE in *. lia.
  - safe_step. safe_step; [apply safe_ret; exact I|].
    eapply safe_bind; [|intros d Hd; apply safe_ret; exact Hd].
    intros buf Hb. apply (safe_plp_chunks _ [] buf); [split; [constructor|vm_compute; discriminate]|exact Hb|cbn; lia].
Qed.
#[export] Hint Resolve safe_plp : tds_safe.

Lemma safe_read_bytes' n : 0 <= n -> safe (read_bytes n) (fun l => wf_bytes l).
Proof. intros H. eapply safe_weaken; [apply safe_read_bytes, H|]. intros l [W _]; exact W. Qed.

Lemma reorder_wf b : wf_guid b -> wf_guid (reorder_bytes b).
Proof.
  intros [W L]. do 16 (destruct b as [|? b]; [discriminate|]).
  repeat match goal with H : wf_bytes (_ :: _) |- _ => inversion_clear H end.
  split; [|exact L]. cbn. repeat (constructor; [assumption|]). assumption.
Qed.

Lemma safe_skip n : 0 <= n -> safe (skip_text_pointer n) (fun _ => True).
Proof.
  intros H. unfold skip_text_pointer. eapply safe_bind; [apply safe_read_bytes', H|intros _ _].
  safe_steps. exact I.
Qed.

Lemma safe_datetimen rlen n : safe (datetimen_decode rlen n) wf_column.
Proof. unfold datetimen_decode. safe_steps; cbn; auto. Qed.
#[export] Hint Resolve safe_datetimen : tds_safe.

Lemma safe_fixed_len t : safe (fixed_len_decode t) wf_column.
Proof. destruct t; cbn [fixed_len_decode]; safe_steps; auto with tds_safe; exact I. Qed.
#[export] Hint Resolve safe_fixed_len : tds_safe.

Lemma safe_bit : safe bit_decode wf_column.
Proof. unfold bit_decode; safe_steps; exact I. Qed.
Lemma safe_int n : safe (int_decode n) wf_column.
Proof. unfold int_decode; safe_steps; cbn; auto. destruct (n =? 1), (n =? 2), (n =? 4); exact I. Qed.
Lemma safe_float n : safe (float_decode n) wf_column.
Proof. unfold float_decode; safe_steps; cbn; auto. destruct (n =? 4); exact I. Qed.
Lemma safe_guid : safe guid_decode wf_column.
Proof.
  unfold guid_decode. safe_step. safe_step; [apply safe_ret; exact I|]. safe_step; [|apply safe_fail].
  eapply safe_bind; [apply (safe_read_bytes_into [] 16 16); [lia|constructor|lia]|].
  intros d [Hd Hl]. apply safe_ret, reorder_wf. split; [exact Hd|cbn in Hl; lia].
Qed.
Lemma safe_date_column : safe date_column_decode wf_column.
Proof. unfold date_column_decode; safe_steps; cbn; auto. Qed.
Lemma safe_time_column n : safe (time_column_decode n) wf_column.
Proof. unfold time_column_decode; safe_steps; cbn; auto using fits_time_wf. Qed.

Lemma fits_datetime2_wf d : fits_datetime2 d -> wf_datetime2 d.
Proof. intros [H1 H2]. split; auto using fits_time_wf. Qed.
Lemma fits_datetimeoffset_wf d : fits_datetimeoffset d -> wf_datetimeoffset d.
Proof. intros [H1 H2]. split; auto using fits_datetime2_wf. Qed.

Lemma safe_datetime2_column n : safe (datetime2_column_decode n) wf_column.
Proof. unfold datetime2_column_decode; safe_steps; cbn; auto using fits_datetime2_wf. Qed.
Lemma safe_datetimeoffset_column n : safe (datetimeoffset_column_decode n) wf_column.
Proof. unfold datetimeoffset_column_decode; safe_steps; cbn; auto using fits_datetimeoffset_wf. Qed.

Lemma plp_ok_wf (o : option bytes) : opt_wf plp_ok o -> opt_wf (fun b => wf_bytes b) o.
Proof. destruct o; cbn; [intros [H _]; exact H|auto]. Qed.

Lemma safe_binary n : safe (binary_decode n) wf_column.
Proof. unfold binary_decode; safe_steps. cbn; apply plp_ok_wf; assumption. Qed.
Lemma safe_udt : safe udt_decode wf_column.
Proof. unfold udt_decode; safe_steps. cbn; apply plp_ok_wf; assumption. Qed.
Lemma safe_image : safe image_decode wf_column.
Proof.
  unfold image_decode. safe_step. unfold in_unsigned in *. safe_step; [apply safe_ret; exact I|].
  eapply safe_bind; [apply safe_skip; lia|intros _ _]. safe_step. unfold in_unsigned in *.
  eapply safe_bind; [apply safe_read_bytes'; lia|intros b Hb]. apply safe_ret; exact Hb.
Qed.
#[export] Hint Resolve safe_bit safe_int safe_float safe_guid safe_date_column safe_time_column
  safe_datetime2_column safe_datetimeoffset_column safe_binary safe_udt safe_image : tds_safe.

Section SafeDecode.
Context {ER : EncodingRs} (ctx : Context).

Lemma codec_safe c : res_safe (fun _ => True) (codec c).
Proof.
  unfold codec, encoding, ok_or. destruct (_ && _); [exact I|]. destruct (_ || _); [exact I|].
  destruct (if sort_id c =? 0 then _ else _); exact I.
Qed.

Lemma decode_codepage_safe c buf msg : wf_bytes buf -> res_safe (fun s => wf_str s) (decode_codepage ctx c buf msg).
Proof.
  intros Hb. unfold decode_codepage. pose proof (codec_safe c) as Hc.
  destruct (codec c) as [cc|e| |]; cbn in *; auto.
  destruct (lossy_codepage ctx); cbn; [apply codec_decode_lossy_wf, Hb|].
  destruct (codec_decode cc buf) eqn:E; cbn; [eapply codec_decode_wf; eauto|exact I].
Qed.

Lemma from_utf16_safe b e : wf_bytes b -> res_safe (fun s => wf_str s) (ok_or (from_utf16 (le_units b)) e).
Proof.
  intros H. destruct (from_utf16 _) eqn:E; cbn; [|exact I].
  eapply from_utf16_wf; [apply le_units_range, H|exact E].
Qed.

Lemma safe_string t n co : safe (string_decode ctx t n co) (opt_wf (fun s => wf_str s)).
Proof.
  unfold string_decode. safe_step. destruct a as [buf|]; [|destruct t; apply safe_ret; exact I].
  destruct H as [Hb _].
  assert (U : safe (if negb (len buf mod 2 =? 0) then fail (Protocol "nvarchar: invalid plp length")
      else let units := le_units buf in
        if (match t with VarLenType.NChar | VarLenType.NVarchar => true | _ => false end) && lossy_utf16 ctx
        then ret (Some (from_utf16_lossy units))
        else s <- lift (ok_or (from_utf16 units) (Protocol "nvarchar: invalid UTF-16 sequence")) ;;
             ret (Some s)) (opt_wf (fun s => wf_str s))).
  { cbn zeta. safe_step; [apply safe_fail|]. safe_step.
    - apply safe_ret, from_utf16_lossy_wf, le_units_range, Hb.
    - eapply safe_bind; [apply safe_lift, from_utf16_safe, Hb|intros s Hs; apply safe_ret, Hs]. }
  assert (P : safe (c <- lift (ok_or co (Protocol "string column missing collation")) ;;
      s <- lift (decode_codepage ctx c buf "invalid sequence") ;; ret (Some s)) (opt_wf (fun s => wf_str s))).
  { apply (safe_bind _ _ (fun _ => True)); [apply safe_lift; destruct co; exact I|intros c _].
    eapply safe_bind; [apply safe_lift, decode_codepage_safe, Hb|intros s Hs; apply safe_ret, Hs]. }
  destruct t; assumption.
Qed.

Lemma safe_text co : safe (text_decode ctx co) wf_column.
Proof.
  unfold text_decode. safe_step. unfold in_unsigned in *. safe_step; [apply safe_ret; exact I|].
  eapply safe_bind; [apply safe_skip; lia|intros _ _].
  apply (safe_bind _ _ (fun s => wf_str s)); [|intros s Hs; apply safe_ret, Hs].
  destruct co as [c|].
  - eapply safe_bind; [apply safe_lift, codec_safe|intros cc _]. safe_step. unfold in_unsigned in *.
    eapply safe_bind; [apply safe_read_bytes'; lia|intros b Hb].
    safe_step; [apply safe_ret, codec_decode_lossy_wf, Hb|]. apply safe_lift.
    destruct (codec_decode cc b) eqn:E; cbn; [eapply codec_decode_wf; eauto|exact I].
  - safe_step. unfold in_unsigned in *. safe_step; [apply safe_fail|].
    eapply safe_bind; [apply safe_read_bytes'; lia|intros b Hb].
    safe_step; [apply safe_ret, from_utf16_lossy_wf, le_units_range, Hb|apply safe_lift, from_utf16_safe, Hb].
Qed.

Lemma safe_xml n schema : safe (xml_decode ctx n schema) wf_column.
Proof.
  unfold xml_decode. eapply safe_bind; [apply safe_string|intros s Hs]. apply safe_ret.
  destruct s; [exact Hs|exact I].
Qed.

Lemma safe_check_prop a b : safe (check_prop_bytes a b) (fun _ => True).
Proof. unfold check_prop_bytes; safe_steps; exact I. Qed.
Lemma safe_check_len a b : safe (check_data_len a b) (fun _ => a = b).
Proof. unfold check_data_len. destruct (Z.eqb_spec a b); safe_steps; assumption. Qed.
#[local] Hint Resolve safe_check_prop safe_check_len : tds_safe.

Lemma checked_spec w v : match checked w v with Some x => x = v /\ in_signed w v | None => ~ in_signed w v end.
Proof.
  unfold checked. destruct (is_signed w v) eqn:E; [split; [reflexivity|apply is_signed_spec, E]|].
  intros H. apply is_signed_spec in H. congruence.
Qed.

Lemma safe_variant_numeric n s : 0 <= n -> 0 <= s -> safe (variant_numeric n s) wf_column.
Proof.
  intros Hn Hs. unfold variant_numeric. cbn zeta.
  destruct (Z.eqb_spec n 0); [apply safe_fail|]. destruct (Z.ltb_spec 38 s); [apply safe_fail|].
  safe_step. apply (safe_bind _ _ (fun _ => True)); [safe_steps; exact I|intros sign _].
  eapply safe_bind; [apply safe_read_bytes'; lia|intros l Hl].
  apply (safe_bind _ _ (fun _ => True)); [apply safe_lift|intros v _].
  { destruct (_ =? 4); [exact I|]. destruct (_ =? 8); [exact I|].
    assert (W : res_safe (fun _ : Z => True) match checked 128 (le_val (drop 8 l) * 2 ^ 64) with
      | Some hi => ok_or (checked 128 (hi + le_val (take 8 l))) (Protocol "sql_variant: numeric magnitude out of range")
      | None => Err (Protocol "sql_variant: numeric magnitude out of range") end).
    { destruct (checked 128 _); [|exact I]. destruct (checked 128 _); exact I. }
    destruct (_ =? 12); [exact W|]. destruct (_ =? 16); [exact W|exact I]. }
  apply (safe_bind _ _ (in_signed 128)); [apply safe_lift|intros w Hw].
  { pose proof (checked_spec 128 (v * sign)). destruct (checked _ _); cbn; [|exact I].
    destruct H1 as [-> H1]; exact H1. }
  unfold new_with_scale, MAX_NUMERIC_SCALE. rewrite (proj2 (Z.leb_le _ _)) by lia.
  eapply safe_bind; [apply (safe_lift _ wf_numeric); split; cbn; [exact Hw|lia]|].
  intros x Hx. apply safe_ret, Hx.
Qed.

Lemma safe_variant_var v p n : 0 <= p -> 0 <= n -> safe (variant_var ctx v p n) wf_column.
Proof.
  intros Hp Hn. destruct v; cbn [variant_var]; try apply safe_fail.
  all: try (safe_steps; cbn; solve [auto using fits_time_wf, fits_datetime2_wf, fits_datetimeoffset_wf]).
  - safe_step. safe_step. eapply safe_bind; [apply safe_read_bytes; lia|intros l [Hl Hn16]].
    apply safe_ret, reorder_wf. split; [exact Hl|lia].
  - safe_steps. apply safe_variant_numeric; unfold in_unsigned in *; lia.
  - safe_steps. apply safe_variant_numeric; unfold in_unsigned in *; lia.
  - safe_step. safe_step. eapply safe_bind; [apply safe_read_bytes'; lia|intros l Hl]. apply safe_ret, Hl.
  - do 3 safe_step. eapply safe_bind; [apply safe_read_bytes'; lia|intros l Hl].
    eapply safe_bind; [apply safe_lift, decode_codepage_safe, Hl|intros s Hs]. apply safe_ret, Hs.
  - safe_step. safe_step. eapply safe_bind; [apply safe_read_bytes'; lia|intros l Hl]. apply safe_ret, Hl.
  - do 3 safe_step. eapply safe_bind; [apply safe_read_bytes'; lia|intros l Hl].
    eapply safe_bind; [apply safe_lift, decode_codepage_safe, Hl|intros s Hs]. apply safe_ret, Hs.
  - do 3 safe_step. eapply safe_bind; [apply safe_read_bytes'; lia|intros l Hl].
    safe_step; [apply safe_fail|].
    eapply safe_bind; [apply safe_lift, from_utf16_safe, Hl|intros s Hs]. apply safe_ret, Hs.
  - do 3 safe_step. eapply safe_bind; [apply safe_read_bytes'; lia|intros l Hl].
    safe_step; [apply safe_fail|].
    eapply safe_bind; [apply safe_lift, from_utf16_safe, Hl|intros s Hs]. apply safe_ret, Hs.
Qed.

Lemma safe_sql_variant : safe (sql_variant_decode ctx) wf_column.
Proof.
  unfold sql_variant_decode. safe_step. safe_step; [apply safe_ret; exact I|]. safe_step; [apply safe_fail|].
  do 2 safe_step. destruct (Z.ltb_spec a (2 + a1)); [apply safe_fail|]. cbn zeta. safe_step; [apply safe_fail|].
  unfold in_unsigned in *. destruct (fixed_try_from a0).
  - safe_step; [apply safe_fail|apply safe_fixed_len].
  - destruct (var_try_from a0); [|apply safe_fail]. apply safe_variant_var; lia.
Qed.

Lemma safe_var_len cx : safe (var_len_decode ctx cx) wf_column.
Proof.
  unfold var_len_decode. cbn zeta.
  destruct (vlc_type cx); auto using safe_fail, safe_text, safe_sql_variant with tds_safe;
    safe_steps; auto with tds_safe.
  all: eapply safe_bind; [apply safe_string|intros s Hs; apply safe_ret, Hs].
Qed.

(** Every value decoder is total: on any bytes and any metadata the metadata
    decoder lets through. *)
Lemma safe_column t : wf_typeinfo t -> safe (column_decode ctx t) wf_column.
Proof.
  destruct t as [f|cx|v size p s|schema size|i]; cbn [column_decode wf_typeinfo]; intros Ht.
  - apply safe_fixed_len.
  - apply safe_var_len.
  - destruct v; try apply safe_fail;
      (eapply safe_bind; [apply safe_numeric; lia|intros n Hn; apply safe_ret, Hn]).
  - apply safe_xml.
  - apply safe_udt.
Qed.
End SafeDecode.
#[export] Hint Resolve safe_column : tds_safe.

(** ** PLP framing *)

(** A chunked value on the wire: the length field, the chunks, the empty
    chunk that ends them. *)
Definition plp_stream (chunks : list bytes) : bytes :=
  concat (map (fun c => le_bytes 4 (len c) ++ c) chunks) ++ le_bytes 4 0.

Lemma decodes_plp_chunks chunks : forall fuel data,
  Forall (fun c => c <> []) chunks -> len data + len (concat chunks) <= MAX_PLP_SIZE ->
  (length chunks < fuel)%nat ->
  decodes (plp_chunks fuel data) (plp_stream chunks) (data ++ concat chunks).
Proof.
  induction chunks as [|c chunks IH]; intros fuel data Hne Hlen Hf; (destruct fuel as [|fuel]; [cbn in Hf; lia|]).
  - unfold plp_stream. cbn [plp_chunks map concat]. rewrite app_nil_r.
    eapply decodes_bind_last; [apply decodes_u32_le; unfold in_unsigned; lia|]. apply decodes_ret.
  - inversion_clear Hne as [|? ? Hc Hcs]. cbn [concat] in *. rewrite length_app in Hlen.
    assert (0 < len c) by (destruct c; [congruence|cbn [length]; lia]). unfold MAX_PLP_SIZE in Hlen.
    unfold plp_stream. cbn [map concat plp_chunks]. rewrite <- !app_assoc.
    eapply decodes_bind; [apply decodes_u32_le; unfold in_unsigned; lia|].
    rewrite (proj2 (Z.eqb_neq _ _)), (proj2 (Z.ltb_ge _ _)) by (unfold MAX_PLP_SIZE; lia).
    rewrite (app_assoc data). fold (plp_stream chunks).
    eapply decodes_bind; [|apply IH; [exact Hcs| |cbn in Hf; lia]].
    + intros rest. pose proof (read_bytes_into_spec (Z.to_nat (len c)) data (len c) MAX_PREALLOC (c ++ rest)
        ltac:(reflexivity) ltac:(lia) (le_n _)) as R.
      rewrite length_app, decide_True in R by lia. rewrite R, Nat2Z.id, take_app_length, drop_app_length.
      reflexivity.
    + rewrite length_app. unfold MAX_PLP_SIZE. lia.
Qed.

Lemma length_plp_stream chunks : (length chunks < length (plp_stream chunks))%nat.
Proof.
  unfold plp_stream. rewrite length_app, length_le_bytes.
  induction chunks as [|c l IH]; cbn [map concat length]; [lia|].
  rewrite !length_app, length_le_bytes. lia.
Qed.

Lemma decodes_plp_max n v chunks : 0xffff <= n -> in_unsigned 64 v -> v <> PLP_NULL ->
  Forall (fun c => c <> []) chunks -> len (concat chunks) <= MAX_PLP_SIZE ->
  decodes (plp_decode n) (le_bytes 8 v ++ plp_stream chunks) (Some (concat chunks)).
Proof.
  intros Hn Hv Hnull Hne Hlen. unfold plp_decode. rewrite (proj2 (Z.ltb_ge _ _)) by lia.
  eapply decodes_bind; [apply decodes_u64_le, Hv|]. rewrite (proj2 (Z.eqb_neq _ _)) by assumption.
  apply (decodes_bind_ret _ Some). intros rest.
  apply (decodes_plp_chunks chunks (S (length (plp_stream chunks ++ rest))) [] Hne Hlen).
  rewrite length_app. pose proof (length_plp_stream chunks). lia.
Qed.

(** A chunk that would take the value past the limit is refused before it is
    read. *)
Lemma plp_chunks_too_long c rest : in_unsigned 32 c -> forall cs fuel data,
  Forall (fun c => c <> []) cs -> len data + len (concat cs) <= MAX_PLP_SIZE ->
  MAX_PLP_SIZE < len data + len (concat cs) + c -> (length cs < fuel)%nat ->
  exists m r, plp_chunks fuel data (concat (map (fun c => le_bytes 4 (len c) ++ c) cs) ++ le_bytes 4 c ++ rest)
              = (Err (Protocol m), r).
Proof.
  intros Hc cs. unfold MAX_PLP_SIZE.
  induction cs as [|c0 cs IH]; intros fuel data Hne Hle Hgt Hf; (destruct fuel as [|fuel]; [cbn in Hf; lia|]).
  + cbn [map concat app plp_chunks]. cbn [concat length] in *.
    rewrite (bind_ok _ _ _ _ _ (decodes_u32_le c Hc _)).
    rewrite (proj2 (Z.eqb_neq _ _)), (proj2 (Z.ltb_lt _ _)) by (unfold MAX_PLP_SIZE; lia).
    do 2 eexists; reflexivity.
  + inversion_clear Hne as [|? ? Hc0 Hcs]. cbn [map concat plp_chunks] in *. rewrite length_app in Hle, Hgt.
    assert (0 < len c0) by (destruct c0; [congruence|cbn [length]; lia]). rewrite <- !app_assoc.
    rewrite (bind_ok _ _ _ _ _ (decodes_u32_le (len c0) ltac:(unfold in_unsigned; lia) _)).
    rewrite (proj2 (Z.eqb_neq _ _)), (proj2 (Z.ltb_ge _ _)) by (unfold MAX_PLP_SIZE; lia).
    rewrite bind_run.
    match goal with |- context [read_bytes_into _ _ _ _ (c0 ++ ?r)] => set (R := r) end.
    pose proof (read_bytes_into_spec (Z.to_nat (len c0)) data (len c0) MAX_PREALLOC (c0 ++ R)
      ltac:(reflexivity) ltac:(lia) (le_n _)) as E.
    rewrite length_app, decide_True in E by lia. rewrite E, Nat2Z.id, take_app_length, drop_app_length.
    apply IH; [exact Hcs| | |cbn in Hf; lia]; rewrite length_app; lia.
Qed.

Lemma decodes_plp_short n d : n < 0xffff -> len d < 0xffff ->
  decodes (plp_decode n) (le_bytes 2 (len d) ++ d) (Some d).
Proof.
  intros Hn Hd. unfold plp_decode. rewrite (proj2 (Z.ltb_lt _ _)) by lia.
  eapply decodes_bind; [apply decodes_u16_le; unfold in_unsigned; lia|].
  rewrite (proj2 (Z.eqb_neq _ _)) by lia. apply (decodes_bind_ret _ Some), decodes_read_bytes. reflexivity.
Qed.

(** ** Properties *)

Section Properties.
Context {ER : EncodingRs}.

(** C7: whatever bytes a server sends, decoding a value of any column type
    the metadata decoder accepts ends in a value within the ranges of its
    Rust type or in an error: no panic, no endless loop, and only a prefix of
    the stream is consumed. *)
Theorem column_decode_total (ctx : Context) (t : TypeInfo) (H : wf_typeinfo t) (buf : bytes)
  (Hb : wf_bytes buf) :
  exists r rest, column_decode ctx t buf = (r, rest) /\ suffix rest buf /\
    match r with Ok v => wf_column v | Err _ => True | Panic | OutOfFuel => False end.
Proof.
  destruct (safe_column ctx t H buf Hb) as (r & rest & E & Hr & Hs).
  exists r, rest; auto.
Qed.
End Properties.

(** A stand-in for [encoding_rs] that knows ASCII only. *)
Definition ascii_only (b : Z) : bool := (0 <=? b) && (b <? 128).

#[local] Instance ascii_encoding_rs : EncodingRs.
Proof.
  refine {| ers_decode := fun _ b => if forallb ascii_only b then Some b else None;
            ers_decode_lossy := fun _ b => map (fun x => if ascii_only x then x else 0xFFFD) b;
            ers_encode := fun _ s => if forallb ascii_only s then Some s else None |}.
  - intros _ b s H. destruct (forallb ascii_only b) eqn:E; [injection H as <-|discriminate].
    apply List.Forall_forall. intros x Hx. rewrite forallb_forall in E. specialize (E x Hx).
    unfold ascii_only in E. apply is_scalar_spec. bool_Z; lia.
  - intros _ b. apply List.Forall_forall. intros x Hx. apply in_map_iff in Hx as (y & <- & _).
    unfold ascii_only. destruct (Z.leb_spec 0 y), (Z.ltb_spec y 128); cbn; try reflexivity.
    apply is_scalar_spec; lia.
  - intros _ b s H. destruct (forallb ascii_only b) eqn:E; [injection H as <-|discriminate].
    rewrite <- (map_id b) at 2. apply map_ext_in. intros x Hx. rewrite forallb_forall in E.
    rewrite (E x Hx). reflexivity.
  - intros _ s b H. destruct (forallb ascii_only s) eqn:E; [injection H as <-|discriminate].
    apply List.Forall_forall. intros x Hx. rewrite forallb_forall in E. specialize (E x Hx).
    unfold ascii_only in E. unfold is_byte. bool_Z; lia.
Defined.

Lemma column_decode_total_witness :
  exists r rest, column_decode context_new (TypeInfo.VarLenSizedPrecision VarLenType.Numericn 5 9 2)
    [5; 1; 210; 4; 0; 0; 9] = (r, rest) /\ suffix rest [5; 1; 210; 4; 0; 0; 9] /\
    match r with Ok v => wf_column v | Err _ => True | Panic | OutOfFuel => False end.
Proof.
  apply (column_decode_total context_new (TypeInfo.VarLenSizedPrecision VarLenType.Numericn 5 9 2)).
  - cbn; lia.
  - repeat constructor; lia.
Defined.

(** A partially length-prefixed value reads back as the concatenation of
    its chunks, however the server split it and whether or not it announced a
    length, as long as the total stays within 2^31 - 1 bytes; one byte more
    is refused instead of growing the buffer. *)
Theorem plp_chunks_concatenate (n v : Z) (chunks : list bytes) (rest : bytes)
  (Hn : 0xffff <= n) (Hv : in_unsigned 64 v /\ v <> PLP_NULL)
  (Hne : Forall (fun c => c <> []) chunks) :
  (len (concat chunks) <= MAX_PLP_SIZE ->
   plp_decode n (le_bytes 8 v ++ plp_stream chunks ++ rest) = (Ok (Some (concat chunks)), rest)) /\
  (forall c, len (concat chunks) <= MAX_PLP_SIZE < len (concat chunks) + c -> in_unsigned 32 c ->
   exists m r, plp_decode n (le_bytes 8 v ++ concat (map (fun c => le_bytes 4 (len c) ++ c) chunks)
                             ++ le_bytes 4 c ++ rest) = (Err (Protocol m), r)).
Proof.
  destruct Hv as [Hv Hnull]. split.
  - intros Hlen. rewrite app_assoc. apply decodes_plp_max; assumption.
  - intros c [Hle Hgt] Hc. unfold plp_decode. rewrite (proj2 (Z.ltb_ge _ _)) by lia.
    rewrite (bind_ok _ _ _ _ _ (decodes_u64_le v Hv _)).
    rewrite (proj2 (Z.eqb_neq _ _)) by assumption. rewrite bind_run. cbn [unread bytes_source].
    edestruct (plp_chunks_too_long c rest Hc chunks
      (S (length (concat (map (fun c => le_bytes 4 (len c) ++ c) chunks) ++ le_bytes 4 c ++ rest))) [])
      as (m & r & ->); try assumption; [|do 2 eexists; reflexivity].
    pose proof (length_plp_stream chunks). unfold plp_stream in *. rewrite !length_app, !length_le_bytes in *. lia.
Qed.

Lemma plp_chunks_concatenate_witness :
  plp_decode 0xffff (le_bytes 8 PLP_UNKNOWN ++ plp_stream [[1; 2]; [3]] ++ [9])
  = (Ok (Some [1; 2; 3]), [9]).
Proof.
  apply (plp_chunks_concatenate 0xffff PLP_UNKNOWN [[1; 2]; [3]] [9]).
  - lia.
  - split; [split; vm_compute; congruence|vm_compute; congruence].
  - repeat constructor; discriminate.
  - vm_compute; discriminate.
Defined.
