(* ===== verification/ColumnEncode.v ===== *)
(** * ColumnEncode: writing column values, [tds/codec/column_data.rs]

    [impl Encode for ColumnData]: with a [TypeInfo] the value is a row value
    of a bulk load or of a table-valued parameter and must match the column;
    without one it is an RPC parameter and carries its own [TYPE_INFO].  The
    arms of the source are grouped by the variant of the value; what no arm
    takes falls to [encode_rest], in the source's order. *)

From S2P Require Import Prelude Unicode Collation SqlRead SqlWrite Types TypeInfoCodec NumericCodec Temporal Money Context ColumnDecode.
From Stdlib Require Import Floats.SpecFloat.

(** [if let Some(val) = opt { dst.put_u8(n); w(val) } else { dst.put_u8(0) }] *)
Definition put_opt {A} (n : Z) (w : A -> M bytes unit) (opt : option A) : M bytes unit :=
  match opt with Some v => put_u8 n ;; w v | None => put_u8 0 end.

Definition bit_u8 (b : bool) : Z := if b then 1 else 0.

(** [f64 as u64]: truncates toward zero and saturates. *)
Definition f64_to_u64 (f : spec_float) : Z :=
  match f with
  | S754_zero _ | S754_nan => 0
  | S754_infinity s => if s then 0 else 2 ^ 64 - 1
  | S754_finite s m e =>
      let mag := if 0 <=? e then Z.pos m * 2 ^ e else Z.pos m / 2 ^ (- e) in
      if s then 0 else Z.min mag (2 ^ 64 - 1)
  end.

Section Encode.
(** [oc]: overflow checks on; [powi10 k] is [10_f64.powi(k)], whose precision
    the standard library leaves open. *)
Context {ER : EncodingRs} (oc : bool) (powi10 : Z -> spec_float).

(** [impl Encode for XmlData], [tds/xml.rs] *)
Definition xml_encode (x : XmlData) : M bytes unit :=
  put_u64_le PLP_UNKNOWN ;;
  len_pos <- buf_len ;;
  put_u32_le 0 ;;
  put_units (encode_utf16 (xml_data x)) ;;
  length <- lift (arith_u oc 32 (len (encode_utf16 (xml_data x)))) ;;
  put_u32_le 0 ;;
  byte_len <- lift (if length * 2 <? 2 ^ 32 then Ok (length * 2)
                    else Err (Protocol "xml payload byte length overflows u32")) ;;
  patch len_pos (le_bytes 4 byte_len).

(** [sql_variant::encode], the match that builds the body; the result is
    [has_value]. *)
Definition variant_body (data : ColumnData) : M bytes bool :=
  match data with
  | ColumnData.Bit (Some v) =>
      put_u8 (fixed_as_u8 FixedLenType.Bit) ;; put_u8 0 ;; put_u8 (bit_u8 v) ;; ret true
  | ColumnData.U8 (Some v) =>
      put_u8 (fixed_as_u8 FixedLenType.Int1) ;; put_u8 0 ;; put_u8 v ;; ret true
  | ColumnData.I16 (Some v) =>
      put_u8 (fixed_as_u8 FixedLenType.Int2) ;; put_u8 0 ;; put_i16_le v ;; ret true
  | ColumnData.I32 (Some v) =>
      put_u8 (fixed_as_u8 FixedLenType.Int4) ;; put_u8 0 ;; put_i32_le v ;; ret true
  | ColumnData.I64 (Some v) =>
      put_u8 (fixed_as_u8 FixedLenType.Int8) ;; put_u8 0 ;; put_i64_le v ;; ret true
  | ColumnData.F32 (Some v) =>
      put_u8 (fixed_as_u8 FixedLenType.Float4) ;; put_u8 0 ;; put_f32_le v ;; ret true
  | ColumnData.F64 (Some v) =>
      put_u8 (fixed_as_u8 FixedLenType.Float8) ;; put_u8 0 ;; put_f64_le v ;; ret true
  | ColumnData.DateTime (Some d) =>
      put_u8 (fixed_as_u8 FixedLenType.Datetime) ;; put_u8 0 ;; datetime_encode d ;; ret true
  | ColumnData.SmallDateTime (Some d) =>
      put_u8 (fixed_as_u8 FixedLenType.Datetime4) ;; put_u8 0 ;; smalldatetime_encode d ;; ret true
  | ColumnData.Guid (Some g) =>
      put_u8 (var_as_u8 VarLenType.Guid) ;; put_u8 0 ;; put_slice (reorder_bytes g) ;; ret true
  | ColumnData.Numeric (Some n) =>
      put_u8 (var_as_u8 VarLenType.Numericn) ;; put_u8 2 ;;
      put_u8 (precision n) ;; put_u8 (scale n) ;;
      (fun dst => match numeric_encode n [] with
                  | (Ok tt, tmp) => put_slice (drop 1 tmp) dst
                  | (Err e, _) => (Err e, dst)
                  | (Panic, _) => (Panic, dst)
                  | (OutOfFuel, _) => (OutOfFuel, dst)
                  end) ;;
      ret true
  | ColumnData.String (Some s) =>
      let utf16 := units_bytes (encode_utf16 s) in
      if MAX_VARIANT_PAYLOAD <? len utf16 then fail (Conversion "sql_variant: string exceeds the byte limit")
      else
        put_u8 (var_as_u8 VarLenType.NVarchar) ;; put_u8 7 ;; put_slice (repeat 0 5) ;;
        put_u16_le MAX_VARIANT_PAYLOAD ;; put_slice utf16 ;; ret true
  | ColumnData.Binary (Some b) =>
      if MAX_VARIANT_PAYLOAD <? len b then fail (Conversion "sql_variant: binary exceeds the byte limit")
      else
        put_u8 (var_as_u8 VarLenType.BigVarBin) ;; put_u8 2 ;;
        put_u16_le MAX_VARIANT_PAYLOAD ;; put_slice b ;; ret true
  | ColumnData.Date (Some d) =>
      put_u8 (var_as_u8 VarLenType.Daten) ;; put_u8 0 ;; date_encode d ;; ret true
  | ColumnData.Time (Some t) =>
      put_u8 (var_as_u8 VarLenType.Timen) ;; put_u8 1 ;; put_u8 (time_scale t) ;; time_encode t ;; ret true
  | ColumnData.DateTime2 (Some d) =>
      put_u8 (var_as_u8 VarLenType.Datetime2) ;; put_u8 1 ;; put_u8 (time_scale (dt2_time d)) ;;
      datetime2_encode d ;; ret true
  | ColumnData.DateTimeOffset (Some d) =>
      put_u8 (var_as_u8 VarLenType.DatetimeOffsetn) ;; put_u8 1 ;;
      put_u8 (time_scale (dt2_time (datetime2 d))) ;; datetimeoffset_encode d ;; ret true
  | ColumnData.Xml (Some _) => fail (Conversion "sql_variant: xml is not a valid sql_variant base type")
  | _ => ret false
  end.

(** [sql_variant::encode]: the body is built apart, so a failure leaves [dst]
    alone. *)
Definition sql_variant_encode (data : ColumnData) : M bytes unit := fun dst =>
  match variant_body data [] with
  | (Ok true, body) => (put_u32_le (len body) ;; put_slice body) dst
  | (Ok false, _) => put_u32_le 0 dst
  | (Err e, _) => (Err e, dst)
  | (Panic, _) => (Panic, dst)
  | (OutOfFuel, _) => (OutOfFuel, dst)
  end.

(** The last three arms: a [sql_variant] column, a typeless NULL parameter,
    a value that does not match its column. *)
Definition encode_rest (data : ColumnData) (ti : option TypeInfo) : M bytes unit :=
  match ti with
  | Some (TypeInfo.VarLenSized cx) =>
      match vlc_type cx with
      | VarLenType.SSVariant => sql_variant_encode data
      | _ => fail (BulkInput "invalid data type")
      end
  | None => put_u8 (fixed_as_u8 FixedLenType.Null)
  | Some _ => fail (BulkInput "invalid data type")
  end.

Definition header (t : VarLenType) (n : Z) : M bytes unit := put_slice [var_as_u8 t; n].

Definition encode_bit (opt : option bool) (ti : option TypeInfo) : M bytes unit :=
  let rest := encode_rest (ColumnData.Bit opt) ti in
  match ti with
  | Some (TypeInfo.VarLenSized cx) =>
      match vlc_type cx with
      | VarLenType.Bitn => put_opt 1 (fun v => put_u8 (bit_u8 v)) opt
      | _ => rest
      end
  | Some (TypeInfo.FixedLen FixedLenType.Bit) =>
      match opt with Some v => put_u8 (bit_u8 v) | None => rest end
  | None => header VarLenType.Bitn 1 ;; put_opt 1 (fun v => put_u8 (bit_u8 v)) opt
  | _ => rest
  end.

(** The arms of the integers and floats: [width] bytes, the fixed type and
    the nullable type of the variant. *)
Definition encode_scalar (data : ColumnData) (fixed : FixedLenType) (var : VarLenType) (width : Z)
    (put : Z -> M bytes unit) (opt : option Z) (ti : option TypeInfo) : M bytes unit :=
  let rest := encode_rest data ti in
  match ti with
  | Some (TypeInfo.FixedLen f) =>
      match opt with
      | Some v => if decide (f = fixed) then put v else rest
      | None => rest
      end
  | Some (TypeInfo.VarLenSized cx) => if decide (vlc_type cx = var) then put_opt width put opt else rest
  | None => header var width ;; put_opt width put opt
  | _ => rest
  end.

Definition encode_u8 (opt : option Z) (ti : option TypeInfo) : M bytes unit :=
  encode_scalar (ColumnData.U8 opt) FixedLenType.Int1 VarLenType.Intn 1 put_u8 opt ti.
Definition encode_i16 (opt : option Z) (ti : option TypeInfo) : M bytes unit :=
  encode_scalar (ColumnData.I16 opt) FixedLenType.Int2 VarLenType.Intn 2 put_i16_le opt ti.
Definition encode_i32 (opt : option Z) (ti : option TypeInfo) : M bytes unit :=
  encode_scalar (ColumnData.I32 opt) FixedLenType.Int4 VarLenType.Intn 4 put_i32_le opt ti.
Definition encode_i64 (opt : option Z) (ti : option TypeInfo) : M bytes unit :=
  encode_scalar (ColumnData.I64 opt) FixedLenType.Int8 VarLenType.Intn 8 put_i64_le opt ti.
Definition encode_f32 (opt : option Z) (ti : option TypeInfo) : M bytes unit :=
  encode_scalar (ColumnData.F32 opt) FixedLenType.Float4 VarLenType.Floatn 4 put_f32_le opt ti.

(** An [f64] also goes to the money columns. *)
Definition encode_f64 (opt : option Z) (ti : option TypeInfo) : M bytes unit :=
  let scalar := encode_scalar (ColumnData.F64 opt) FixedLenType.Float8 VarLenType.Floatn 8 put_f64_le opt ti in
  match ti, opt with
  | Some (TypeInfo.VarLenSized cx), _ =>
      match vlc_type cx with
      | VarLenType.Money => match opt with Some v => money_encode (vlc_len cx) v | None => put_u8 0 end
      | _ => scalar
      end
  | Some (TypeInfo.FixedLen FixedLenType.Money), Some v => money_encode_fixed 8 v
  | Some (TypeInfo.FixedLen FixedLenType.Money4), Some v => money_encode_fixed 4 v
  | _, _ => scalar
  end.

Definition encode_guid (opt : option bytes) (ti : option TypeInfo) : M bytes unit :=
  let rest := encode_rest (ColumnData.Guid opt) ti in
  match ti with
  | Some (TypeInfo.VarLenSized cx) =>
      match vlc_type cx with
      | VarLenType.Guid => put_opt 16 (fun g => put_slice (reorder_bytes g)) opt
      | _ => rest
      end
  | None => header VarLenType.Guid 16 ;; put_opt 16 (fun g => put_slice (reorder_bytes g)) opt
  | _ => rest
  end.

(** The NULL of a sized column: [0xffff], or the PLP null of a MAX column. *)
Definition put_null (n : Z) : M bytes unit :=
  if n <? 0xffff then put_u16_le 0xffff else put_u64_le PLP_NULL.

(** The text of a code page column: bytes of the collation's codec. *)
Definition collation_bytes_of (co : option Collation) (s : str) : Res bytes :=
  res_bind (ok_or co (Protocol "string column missing collation")) (fun c =>
  res_bind (codec c) (fun cc => ok_or (codec_encode cc s) (Encoding "unrepresentable character"))).

Definition encode_bigchar (cx : VarLenContext) (opt : option str) : M bytes unit :=
  match opt with
  | Some s =>
      b <- lift (collation_bytes_of (vlc_collation cx) s) ;;
      if vlc_len cx <? len b then fail (BulkInput "Encoded string length exceed column limit")
      else if vlc_len cx <? 0xffff then put_u16_le (len b) ;; put_slice b
      else
        put_u64_le PLP_UNKNOWN ;;
        (if str_len s <? 0xffffffff then ret tt else panic) ;;
        put_u32_le (len b) ;;
        put_slice b ;;
        (if len b =? 0 then ret tt else put_u32_le 0)
  | None => put_null (vlc_len cx)
  end.

Definition encode_nvarchar (cx : VarLenContext) (opt : option str) : M bytes unit :=
  match opt with
  | Some s =>
      let payload := units_bytes (encode_utf16 s) in
      let length := len payload in
      if vlc_len cx <? length then fail (BulkInput "Encoded string length exceed column limit")
      else if vlc_len cx <? 0xffff then put_u16_le length ;; put_slice payload
      else
        (if str_len s <? 0xffffffff then ret tt else panic) ;;
        put_u64_le PLP_UNKNOWN ;;
        put_u32_le length ;;
        put_slice payload ;;
        (if 0 <? length then put_u32_le 0 else ret tt)
  | None => put_null (vlc_len cx)
  end.

(** TEXT and NTEXT rows: a dummy text pointer and timestamp, then the data. *)
Definition encode_text (cx : VarLenContext) (is_text : bool) (opt : option str) : M bytes unit :=
  match opt with
  | Some s =>
      put_u8 16 ;; put_slice (repeat 0 16) ;; put_slice (repeat 0 8) ;;
      if is_text then
        b <- lift (collation_bytes_of (vlc_collation cx) s) ;;
        put_u32_le (len b) ;; put_slice b
      else
        len_pos <- buf_len ;;
        put_u32_le 0 ;;
        put_units (encode_utf16 s) ;;
        length <- lift (arith_u oc 32 (2 * len (encode_utf16 s))) ;;
        patch len_pos (le_bytes 4 length)
  | None => put_u8 0
  end.

(** A string parameter: [nvarchar(4000)] up to 4000 bytes of UTF-8, else
    [nvarchar(max)] in one chunk. *)
Definition encode_string_param (s : str) : M bytes unit :=
  let units := encode_utf16 s in
  if str_len s <=? 4000 then
    put_u8 (var_as_u8 VarLenType.NVarchar) ;; put_u16_le 8000 ;; put_slice (repeat 0 5) ;;
    len_pos <- buf_len ;;
    put_u16_le 0 ;;
    put_units units ;;
    length <- lift (arith_u oc 16 (len units)) ;;
    length2 <- lift (arith_u oc 16 (length * 2)) ;;
    patch len_pos (le_bytes 2 length2)
  else
    put_u8 (var_as_u8 VarLenType.NVarchar) ;; put_slice [0xff; 0xff] ;; put_slice (repeat 0 5) ;;
    put_u64_le PLP_UNKNOWN ;;
    len_pos <- buf_len ;;
    put_u32_le 0 ;;
    put_units units ;;
    length <- lift (arith_u oc 32 (len units)) ;;
    (if 0 <? length then put_u32_le 0 else ret tt) ;;
    length2 <- lift (arith_u oc 32 (length * 2)) ;;
    patch len_pos (le_bytes 4 length2).

Definition encode_string (opt : option str) (ti : option TypeInfo) : M bytes unit :=
  let rest := encode_rest (ColumnData.String opt) ti in
  match ti with
  | Some (TypeInfo.VarLenSized cx) =>
      match vlc_type cx with
      | VarLenType.BigChar | VarLenType.BigVarChar => encode_bigchar cx opt
      | VarLenType.NVarchar | VarLenType.NChar => encode_nvarchar cx opt
      | VarLenType.Text => encode_text cx true opt
      | VarLenType.NText => encode_text cx false opt
      | _ => rest
      end
  | None => match opt with Some s => encode_string_param s | None => rest end
  | _ => rest
  end.

Definition encode_binary (opt : option bytes) (ti : option TypeInfo) : M bytes unit :=
  let rest := encode_rest (ColumnData.Binary opt) ti in
  match ti with
  | Some (TypeInfo.VarLenSized cx) =>
      match vlc_type cx with
      | VarLenType.BigBinary | VarLenType.BigVarBin =>
          match opt with
          | Some b =>
              if vlc_len cx <? len b then fail (BulkInput "Binary length exceed column limit")
              else if vlc_len cx <? 0xffff then put_u16_le (len b) ;; put_slice b
              else
                put_u64_le PLP_UNKNOWN ;; put_u32_le (len b) ;;
                (if len b =? 0 then ret tt else put_slice b ;; put_u32_le 0)
          | None => put_null (vlc_len cx)
          end
      | _ => rest
      end
  | None =>
      match opt with
      | Some b =>
          if len b <=? 8000 then
            put_u8 (var_as_u8 VarLenType.BigVarBin) ;; put_u16_le 8000 ;; put_u16_le (len b) ;; put_slice b
          else
            put_u8 (var_as_u8 VarLenType.BigVarBin) ;; put_u16_le 0xffff ;; put_u64_le PLP_UNKNOWN ;;
            put_u32_le (len b) ;; (if len b =? 0 then ret tt else put_slice b ;; put_u32_le 0)
      | None => rest
      end
  | _ => rest
  end.
Definition encode_datetime (opt : option DateTime) (ti : option TypeInfo) : M bytes unit :=
  let rest := encode_rest (ColumnData.DateTime opt) ti in
  match ti, opt with
  | Some (TypeInfo.VarLenSized cx), _ =>
      match vlc_type cx with VarLenType.Datetimen => put_opt 8 datetime_encode opt | _ => rest end
  | Some (TypeInfo.FixedLen FixedLenType.Datetime), Some d => datetime_encode d
  | None, Some d => put_slice [var_as_u8 VarLenType.Datetimen; 8; 8] ;; datetime_encode d
  | _, _ => rest
  end.

Definition encode_smalldatetime (opt : option SmallDateTime) (ti : option TypeInfo) : M bytes unit :=
  let rest := encode_rest (ColumnData.SmallDateTime opt) ti in
  match ti, opt with
  | Some (TypeInfo.VarLenSized cx), _ =>
      match vlc_type cx with VarLenType.Datetimen => put_opt 4 smalldatetime_encode opt | _ => rest end
  | Some (TypeInfo.FixedLen FixedLenType.Datetime4), Some d => smalldatetime_encode d
  | None, Some d => put_slice [var_as_u8 VarLenType.Datetimen; 4; 4] ;; smalldatetime_encode d
  | _, _ => rest
  end.

Definition encode_date (opt : option Date) (ti : option TypeInfo) : M bytes unit :=
  let rest := encode_rest (ColumnData.Date opt) ti in
  match ti, opt with
  | Some (TypeInfo.VarLenSized cx), _ =>
      match vlc_type cx with VarLenType.Daten => put_opt 3 date_encode opt | _ => rest end
  | None, Some d => put_slice [var_as_u8 VarLenType.Daten; 3] ;; date_encode d
  | _, _ => rest
  end.

Definition encode_time (opt : option Time) (ti : option TypeInfo) : M bytes unit :=
  let rest := encode_rest (ColumnData.Time opt) ti in
  match ti, opt with
  | Some (TypeInfo.VarLenSized cx), _ =>
      match vlc_type cx with
      | VarLenType.Timen =>
          match opt with
          | Some t => n <- lift (time_len t) ;; put_u8 n ;; time_encode t
          | None => put_u8 0
          end
      | _ => rest
      end
  | None, Some t =>
      n <- lift (time_len t) ;;
      put_slice [var_as_u8 VarLenType.Timen; time_scale t; n] ;; time_encode t
  | _, _ => rest
  end.

(** The rescaling of a [datetime2] to the scale of its column, through
    [f64]. *)
Definition rescale_datetime2 (d : DateTime2) (n : Z) : DateTime2 :=
  let t := dt2_time d in
  if time_scale t =? wrap 8 n then d
  else
    let inc := f64_to_u64 (f64_mul (f64_of_Z (increments t)) (powi10 (to_signed 32 n - time_scale t))) in
    mkDateTime2 (dt2_date d) (mkTime inc (wrap 8 n)).

Definition encode_datetime2 (opt : option DateTime2) (ti : option TypeInfo) : M bytes unit :=
  let rest := encode_rest (ColumnData.DateTime2 opt) ti in
  match ti, opt with
  | Some (TypeInfo.VarLenSized cx), _ =>
      match vlc_type cx with
      | VarLenType.Datetimen =>
          match opt with
          | Some d => dt <- lift (datetime2_to_datetime d) ;; put_u8 8 ;; datetime_encode dt
          | None => put_u8 0
          end
      | VarLenType.Datetime2 =>
          match opt with
          | Some d =>
              let d := rescale_datetime2 d (vlc_len cx) in
              n <- lift (time_len (dt2_time d)) ;; put_u8 (n + 3) ;; datetime2_encode d
          | None => put_u8 0
          end
      | _ => rest
      end
  | None, Some d =>
      n <- lift (time_len (dt2_time d)) ;;
      put_slice [var_as_u8 VarLenType.Datetime2; time_scale (dt2_time d); n + 3] ;; datetime2_encode d
  | _, _ => rest
  end.

Definition encode_datetimeoffset (opt : option DateTimeOffset) (ti : option TypeInfo) : M bytes unit :=
  let rest := encode_rest (ColumnData.DateTimeOffset opt) ti in
  match ti, opt with
  | Some (TypeInfo.VarLenSized cx), _ =>
      match vlc_type cx with
      | VarLenType.DatetimeOffsetn =>
          match opt with
          | Some d =>
              n <- lift (time_len (dt2_time (datetime2 d))) ;; put_u8 (n + 5) ;; datetimeoffset_encode d
          | None => put_u8 0
          end
      | _ => rest
      end
  | None, Some d =>
      n <- lift (time_len (dt2_time (datetime2 d))) ;;
      put_slice [var_as_u8 VarLenType.DatetimeOffsetn; time_scale (dt2_time (datetime2 d)); n + 5] ;;
      datetimeoffset_encode d
  | _, _ => rest
  end.

Definition encode_xml (opt : option XmlData) (ti : option TypeInfo) : M bytes unit :=
  match ti, opt with
  | Some (TypeInfo.Xml _ _), Some x => xml_encode x
  | Some (TypeInfo.Xml _ _), None => put_u64_le PLP_NULL
  | None, Some x => put_u8 (var_as_u8 VarLenType.Xml) ;; put_u8 0 ;; xml_encode x
  | _, _ => encode_rest (ColumnData.Xml opt) ti
  end.

(** Brings a decimal to the scale of its column: up by a checked
    multiplication, down by a division that rounds half away from zero. *)
Definition rescale_numeric (n : Numeric) (target_scale : Z) : Res Numeric :=
  let overflow := Protocol "numeric rescale overflow" in
  if target_scale =? scale n then Ok n
  else if scale n <? target_scale then
    match checked 128 (10 ^ (target_scale - scale n)) with
    | Some factor =>
        match checked 128 (value n * factor) with
        | Some v => new_with_scale v target_scale
        | None => Err overflow
        end
    | None => Err overflow
    end
  else
    match checked 128 (10 ^ (scale n - target_scale)) with
    | Some factor =>
        let half := Z.quot factor 2 in
        let v := value n in
        match (if 0 <=? v then checked 128 (v + half) else checked 128 (v - half)) with
        | Some rounded => new_with_scale (Z.quot rounded factor) target_scale
        | None => Err overflow
        end
    | None => Err overflow
    end.

Definition encode_numeric (opt : option Numeric) (ti : option TypeInfo) : M bytes unit :=
  let rest := encode_rest (ColumnData.Numeric opt) ti in
  match ti, opt with
  | Some (TypeInfo.VarLenSized cx), _ =>
      match vlc_type cx with
      | VarLenType.Money => match opt with Some n => money_encode_numeric (vlc_len cx) n | None => put_u8 0 end
      | _ => rest
      end
  | Some (TypeInfo.FixedLen FixedLenType.Money), Some n => money_encode_numeric_fixed 8 n
  | Some (TypeInfo.FixedLen FixedLenType.Money4), Some n => money_encode_numeric_fixed 4 n
  | Some (TypeInfo.VarLenSizedPrecision t _ _ s), _ =>
      match t with
      | VarLenType.Numericn | VarLenType.Decimaln =>
          match opt with
          | Some n => n <- lift (rescale_numeric n s) ;; numeric_encode n
          | None => put_u8 0
          end
      | _ => rest
      end
  | None, Some n =>
      put_slice [var_as_u8 VarLenType.Numericn; numeric_len n; precision n; scale n] ;; numeric_encode n
  | _, _ => rest
  end.

(** [impl Encode<BytesMutWithTypeInfo> for ColumnData] *)
Definition column_encode (data : ColumnData) (ti : option TypeInfo) : M bytes unit :=
  match data with
  | ColumnData.Bit v => encode_bit v ti
  | ColumnData.U8 v => encode_u8 v ti
  | ColumnData.I16 v => encode_i16 v ti
  | ColumnData.I32 v => encode_i32 v ti
  | ColumnData.I64 v => encode_i64 v ti
  | ColumnData.F32 v => encode_f32 v ti
  | ColumnData.F64 v => encode_f64 v ti
  | ColumnData.Guid v => encode_guid v ti
  | ColumnData.String v => encode_string v ti
  | ColumnData.Binary v => encode_binary v ti
  | ColumnData.DateTime v => encode_datetime v ti
  | ColumnData.SmallDateTime v => encode_smalldatetime v ti
  | ColumnData.Date v => encode_date v ti
  | ColumnData.Time v => encode_time v ti
  | ColumnData.DateTime2 v => encode_datetime2 v ti
  | ColumnData.DateTimeOffset v => encode_datetimeoffset v ti
  | ColumnData.Xml v => encode_xml v ti
  | ColumnData.Numeric v => encode_numeric v ti
  end.
End Encode.

(** ** Rescaling a decimal *)

Lemma pow10_fits k : 0 <= k <= 38 -> in_signed 128 (10 ^ k).
Proof.
  intros Hk. assert (0 < 10 ^ k <= 10 ^ 38) by (split; [apply Z.pow_pos_nonneg; lia|apply Z.pow_le_mono_r; lia]).
  assert (10 ^ 38 < 2 ^ (128 - 1)) by reflexivity. split; lia.
Qed.

(** Division of [v ± half] that truncates is rounding of the magnitude. *)
Lemma quot_half v f : 0 < f -> f mod 2 = 0 ->
  Z.abs (Z.quot (if 0 <=? v then v + Z.quot f 2 else v - Z.quot f 2) f) = (2 * Z.abs v + f) / (2 * f) /\
  0 <= Z.quot (if 0 <=? v then v + Z.quot f 2 else v - Z.quot f 2) f * v.
Proof.
  intros Hf He. rewrite (Z.quot_div_nonneg f 2) by lia. set (h := f / 2).
  assert (Eh : f = 2 * h) by (unfold h; pose proof (Z.div_mod f 2); lia). assert (0 < h) by lia.
  assert (R : (2 * Z.abs v + f) / (2 * f) = (Z.abs v + h) / f).
  { replace (2 * Z.abs v + f) with (2 * (Z.abs v + h)) by lia. apply Z.div_mul_cancel_l; lia. }
  rewrite R. pose proof (Z.div_pos (Z.abs v + h) f ltac:(lia) Hf).
  destruct (Z.leb_spec 0 v).
  - rewrite Z.quot_div_nonneg, (Z.abs_eq v) in * by lia. split; [apply Z.abs_eq; lia|nia].
  - replace (v - h) with (- (Z.abs v + h)) by lia. rewrite Z.quot_opp_l, Z.quot_div_nonneg by lia.
    split; [lia|nia].
Qed.

Lemma pow10_even k : 0 < k -> 10 ^ k mod 2 = 0.
Proof.
  intros Hk. replace k with (Z.succ (k - 1)) by lia. rewrite Z.pow_succ_r by lia.
  replace (10 * 10 ^ (k - 1)) with (5 * 10 ^ (k - 1) * 2) by lia. apply Z.mod_mul. lia.
Qed.

(** A decimal written for a column of another scale is brought to the
    column's scale exactly when digits are added, and rounded half away from
    zero when digits are dropped; the only error is a mantissa that leaves
    i128 on the way, and there is no panic. *)
Theorem rescale_numeric_spec (n : Numeric) (s : Z) (H : wf_numeric n) (Hs : 0 <= s <= 38) :
  match rescale_numeric n s with
  | Ok m => scale m = s /\
      if scale n <=? s then value m = value n * 10 ^ (s - scale n)
      else let f := 10 ^ (scale n - s) in Z.abs (value m) = (2 * Z.abs (value n) + f) / (2 * f) /\ 0 <= value m * value n
  | Err e => e = Protocol "numeric rescale overflow" /\
      if scale n <=? s then ~ in_signed 128 (value n * 10 ^ (s - scale n))
      else 2 ^ 127 <= Z.abs (value n) + 10 ^ (scale n - s) / 2
  | Panic | OutOfFuel => False
  end.
Proof.
  destruct H as [Hv Hn]. unfold rescale_numeric. destruct (Z.eqb_spec s (scale n)) as [->|Hne].
  { rewrite Z.leb_refl, Z.sub_diag. split; [reflexivity|]. rewrite Z.mul_1_r. reflexivity. }
  assert (N : forall v, new_with_scale v s = Ok (mkNumeric v s))
    by (intros v; unfold new_with_scale; rewrite (proj2 (Z.leb_le _ _)) by (unfold MAX_NUMERIC_SCALE; lia); reflexivity).
  destruct (Z.ltb_spec (scale n) s).
  - rewrite (proj2 (Z.leb_le _ _)) by lia. pose proof (checked_spec 128 (10 ^ (s - scale n))) as C.
    destruct (checked 128 (10 ^ (s - scale n))) as [f|]; [|destruct C; apply pow10_fits; lia].
    destruct C as [-> _]. pose proof (checked_spec 128 (value n * 10 ^ (s - scale n))) as C.
    destruct (checked 128 _) as [v|]; [|auto]. destruct C as [-> _]. rewrite N. auto.
  - rewrite (proj2 (Z.leb_gt (scale n) s)) by lia. pose proof (checked_spec 128 (10 ^ (scale n - s))) as C.
    destruct (checked 128 (10 ^ (scale n - s))) as [f|]; [|destruct C; apply pow10_fits; lia].
    destruct C as [-> _]. set (f := 10 ^ (scale n - s)). assert (0 < f) by (apply Z.pow_pos_nonneg; lia).
    pose proof (quot_half (value n) f ltac:(assumption) (pow10_even (scale n - s) ltac:(lia))) as Q.
    destruct (Z.leb_spec 0 (value n)).
    + pose proof (checked_spec 128 (value n + Z.quot f 2)) as C. destruct (checked 128 _) as [v|].
      * destruct C as [-> _]. rewrite N. auto.
      * split; [reflexivity|]. unfold in_signed in *. change (128 - 1) with 127 in *. rewrite Z.quot_div_nonneg in C by lia.
        clear Q. pose proof (Z.div_pos f 2). clearbody f. lia.
    + pose proof (checked_spec 128 (value n - Z.quot f 2)) as C. destruct (checked 128 _) as [v|].
      * destruct C as [-> _]. rewrite N. auto.
      * split; [reflexivity|]. unfold in_signed in *. change (128 - 1) with 127 in *. rewrite Z.quot_div_nonneg in C by lia.
        clear Q. pose proof (Z.div_pos f 2). clearbody f. lia.
Qed.

(** -12.345 for a column of scale 2 is -12.35. *)
Lemma rescale_numeric_spec_witness :
  rescale_numeric (mkNumeric (-12345) 3) 2 = Ok (mkNumeric (-1235) 2) /\
  Z.abs (-1235) = (2 * Z.abs (-12345) + 10) / (2 * 10).
Proof.
  split; [reflexivity|].
  exact (proj1 (proj2 (rescale_numeric_spec (mkNumeric (-12345) 3) 2
    ltac:(repeat split; vm_compute; congruence) ltac:(lia)))).
Defined.
