(* ===== verification/MoneyRoundtrip.v ===== *)
(** * MoneyRoundtrip: reading an amount and writing it back

    [column_data/money.rs] hands a [money] out as an [f64], the quotient of the
    integer of the wire by 10^4, and takes an [f64] back, multiplied and
    rounded.  Both steps round in binary64; the file shows that together they
    return the integer they started from. *)

From S2P Require Import Prelude Unicode Collation SqlRead SqlWrite Types TypeInfoCodec NumericCodec Temporal Money Floats Context ColumnDecode ColumnEncode.
From Stdlib Require Import Floats.SpecFloat.

(** ** Lemmas *)

(** A rounded significand, normalised. *)
Lemma finish_shape s m e : 2 ^ 52 <= m <= 2 ^ 53 ->
  exists m' c, 0 <= c <= 1 /\ (c = 1 -> m = 2 ^ 53) /\ m' * 2 ^ c = m /\ 2 ^ 52 <= m' < 2 ^ 53 /\ finish s m e = S754_finite s (Z.to_pos m') (e + c).
Proof.
  intros H. unfold finish. destruct (Z.eqb_spec m (2 ^ 53)) as [->|N]; [exists (2 ^ 52), 1|exists m, 0]; repeat split; try lia. rewrite Z.add_0_r. reflexivity.
Qed.

(** [round] of a number within one half of an integer. *)
Lemma round_i128_near s m w n : 0 < w -> 0 < m -> 0 <= n < 2 ^ 100 -> Z.abs (m - n * 2 ^ w) < 2 ^ (w - 1) ->
  f64_round_i128 (S754_finite s (Z.to_pos m) (- w)) = cond_Zopp s n.
Proof.
  intros Hw Hm Hn H. unfold f64_round_i128. rewrite (proj2 (Z.leb_gt 0 (- w))), Z2Pos.id, Z.opp_involutive by lia.
  assert (E : 2 ^ w = 2 * 2 ^ (w - 1)) by (rewrite <- Z.pow_succ_r, <- Z.add_1_r, Z.sub_add by lia; reflexivity).
  assert ((m + 2 ^ (w - 1)) / 2 ^ w = n) as -> by (symmetry; apply (Z.div_unique _ _ _ (m + 2 ^ (w - 1) - n * 2 ^ w)); lia).
  destruct s; cbn [cond_Zopp]; lia.
Qed.

(** The bounds that make the two roundings harmless: [n] amounts, [x] the
    exponent of the quotient, [m0] and [m1] the significands. *)
Lemma money_error n x c j m m1 : 0 < n < 2 ^ 50 -> 0 <= x -> 2 ^ 52 * 10000 <= n * 2 ^ x -> 0 <= c <= 1 -> 52 <= j <= 53 -> (c = 1 -> m * 2 ^ c = 2 ^ 53) ->
  Z.abs (n * 2 ^ x - 10000 * (m * 2 ^ c)) < 10000 -> Z.abs (m * (10000 * 2 ^ 39) - 2 ^ j * m1) < 2 ^ j ->
  16 + c <= x /\ Z.abs (2 ^ j * m1 - n * 2 ^ (x - c + 39)) < 2 ^ (x - c + 38).
Proof.
  intros Hn Hx Hq Hc Hj Hm Q P.
  assert (Lx : forall y, 2 ^ y < 2 ^ x -> y < x) by (intros y Hy; destruct (Z_lt_le_dec y x); [assumption|]; pose proof (Z.pow_le_mono_r 2 x y ltac:(lia) ltac:(lia)); lia).
  assert (X : 16 + c <= x).
  { assert (40000 < 2 ^ x) by nia. destruct (Z.eq_dec c 1) as [->|]; [|pose proof (Lx 15 ltac:(lia)); lia].
    specialize (Hm eq_refl). rewrite Hm in Q. assert (2 ^ 16 < 2 ^ x) by nia. pose proof (Lx 16 ltac:(lia)). lia. }
  split; [exact X|]. assert (E : 2 ^ x = 2 ^ (x - c) * 2 ^ c) by (rewrite <- Z.pow_add_r by lia; f_equal; lia).
  rewrite (Z.pow_add_r 2 (x - c) 39), (Z.pow_add_r 2 (x - c) 38) by lia.
  assert (J : 2 ^ j <= 2 ^ 53) by (apply Z.pow_le_mono_r; lia). pose proof (Z.pow_le_mono_r 2 16 (x - c) ltac:(lia) ltac:(lia)) as G.
  assert (C : 1 <= 2 ^ c <= 2) by (split; [pose proof (Z.pow_le_mono_r 2 0 c ltac:(lia) ltac:(lia)); lia|pose proof (Z.pow_le_mono_r 2 c 1 ltac:(lia) ltac:(lia)); lia]).
  rewrite E in *. set (a := 2 ^ (x - c)) in *. set (b := 2 ^ c) in *. set (p := 2 ^ j * m1) in *. clearbody a b p. clear Lx E.
  assert (A : 4 * 10000 < a * b) by nia. assert (U : Z.abs (n * a - 10000 * m) * b < 10000) by (rewrite <- (Z.abs_eq b) at 1 by lia; rewrite <- Z.abs_mul; replace ((n * a - 10000 * m) * b) with (n * (a * b) - 10000 * (m * b)) by lia; exact Q).
  assert (V : 4 * Z.abs (n * a - 10000 * m) < a) by nia. lia.
Qed.

(** Dividing an amount by 10^4 and multiplying it back. *)
Lemma money_back v : Z.abs v < 2 ^ 50 ->
  let f := f64_of_bits (smallmoney_f64 v) in f64_is_finite f = true /\ f64_round_i128 (f64_mul f MONEY_SCALE_FACTOR) = v.
Proof.
  intros Hv. destruct (Z.eq_dec v 0) as [->|N]; [split; reflexivity|]. destruct (signed_abs v N) as (s & n & Hn & -> & A). rewrite A in Hv. cbn zeta.
  destruct (f64_div_ratio s n 10000 ltac:(lia) ltac:(lia)) as (x & X0 & B & E). unfold smallmoney_f64, MONEY_SCALE_FACTOR. rewrite E. clear E.
  assert (Hx : x < 67) by (destruct (Z_lt_le_dec x 67); [assumption|]; pose proof (Z.pow_le_mono_r 2 67 x ltac:(lia) ltac:(lia)); nia).
  pose proof (rne_near (n * 2 ^ x) 10000 ltac:(lia)) as Q. pose proof (rne_bounds (n * 2 ^ x) 10000 (2 ^ 52) (2 ^ 53) ltac:(lia) ltac:(lia)) as Br.
  destruct (finish_shape s _ (- x) Br) as (m & c & Hc & Hc1 & Em & Bm & ->). rewrite <- Em in *. rewrite f64_bits_roundtrip by lia. split; [reflexivity|].
  change (f64_of_Z 10000) with (S754_finite false (Z.to_pos (10000 * 2 ^ 39)) (- 39)). rewrite f64_mul_round, xorb_false_r by lia. cbn zeta.
  set (j := if 2 ^ 105 <=? m * (10000 * 2 ^ 39) then 53 else 52). assert (Hj : 52 <= j <= 53) by (unfold j; destruct (_ <=? _); lia).
  assert (Bp : 2 ^ 52 * 2 ^ j <= m * (10000 * 2 ^ 39) < 2 ^ 53 * 2 ^ j) by (unfold j; destruct (Z.leb_spec (2 ^ 105) (m * (10000 * 2 ^ 39))); lia).
  pose proof (rne_near _ (2 ^ j) ltac:(lia) : Z.abs (m * (10000 * 2 ^ 39) - 2 ^ j * rne (m * (10000 * 2 ^ 39)) (2 ^ j)) < 2 ^ j) as P.
  pose proof (rne_bounds _ (2 ^ j) (2 ^ 52) (2 ^ 53) ltac:(lia) Bp) as Br1. set (m1 := rne (m * (10000 * 2 ^ 39)) (2 ^ j)) in *.
  destruct (money_error n x c j m m1) as [X W]; [lia|lia|lia|lia|lia|assumption|assumption|assumption|].
  destruct (finish_shape s m1 (- x + c + - 39 + j) Br1) as (m' & c' & Hc' & _ & Em' & Bm' & ->).
  set (w := x - c + 39 - j - c'). replace (- x + c + -39 + j + c') with (- w) by (unfold w; lia). apply round_i128_near; [unfold w; lia|lia|lia|].
  assert (Ew : forall y, 0 <= w + y -> 2 ^ j * 2 ^ c' * 2 ^ (w + y) = 2 ^ (x - c + 39 + y)) by (intros y Hy; rewrite <- !Z.pow_add_r by (unfold w in *; lia); f_equal; unfold w; lia).
  pose proof (Ew 0 ltac:(unfold w; lia)) as E0. pose proof (Ew (-1) ltac:(unfold w; lia)) as E1. rewrite !Z.add_0_r in E0. replace (x - c + 39 + -1) with (x - c + 38) in E1 by lia.
  change (w + -1) with (w - 1) in E1. rewrite <- E0, <- E1, <- Em' in W. assert (0 < 2 ^ j * 2 ^ c') by (apply Z.mul_pos_pos; apply Z.pow_pos_nonneg; lia).
  replace (2 ^ j * (m' * 2 ^ c') - n * (2 ^ j * 2 ^ c' * 2 ^ w)) with ((2 ^ j * 2 ^ c') * (m' - n * 2 ^ w)) in W by lia. rewrite Z.abs_mul, (Z.abs_eq (2 ^ j * 2 ^ c')) in W by lia.
  apply (Z.mul_lt_mono_pos_l (2 ^ j * 2 ^ c')); assumption.
Qed.

(** The two words of a [money] are the integer again. *)
Lemma money_words v : Z.abs v < 2 ^ 50 -> money_f64 (v / 2 ^ 32) (v mod 2 ^ 32) = smallmoney_f64 v.
Proof.
  intros Hv. unfold money_f64, smallmoney_f64. pose proof (Z.div_mod v (2 ^ 32) ltac:(lia)). pose proof (Z.mod_pos_bound v (2 ^ 32) ltac:(lia)).
  rewrite f64_add_exact by lia. do 3 f_equal. lia.
Qed.

(** The decoder's [f64] is written back by the encoders of the same width. *)
Lemma money_writes_back max_len v : max_len = 4 \/ max_len = 8 -> money_fits max_len v = true -> Z.abs v < 2 ^ 50 ->
  decodes (money_decode max_len) (scaled_bytes max_len v) (ColumnData.F64 (Some (smallmoney_f64 v))) /\
  appends (money_encode max_len (smallmoney_f64 v)) ([max_len] ++ scaled_bytes max_len v) /\
  appends (money_encode_fixed max_len (smallmoney_f64 v)) (scaled_bytes max_len v).
Proof.
  intros Hl Hf B. split.
  - pose proof (decodes_money max_len v Hl Hf) as D. rewrite money_words in D by exact B. destruct (max_len =? 4); exact D.
  - destruct (money_back v B) as [Fi Rd]. unfold money_encode, money_encode_fixed, money_encode_inner, appends. rewrite Fi, Rd. cbn [negb].
    split; intros dst; [pose proof (put_scaled_spec max_len v true dst) as T|pose proof (put_scaled_spec max_len v false dst) as T]; rewrite Hf in T; rewrite T; destruct Hl as [->| ->]; reflexivity.
Qed.

(** The money columns: their width, and the bytes of an amount in a row. *)
Inductive money_column : TypeInfo -> Z -> bool -> Prop :=
| column_money : money_column (TypeInfo.FixedLen FixedLenType.Money) 8 false
| column_smallmoney : money_column (TypeInfo.FixedLen FixedLenType.Money4) 4 false
| column_moneyn max_len co : max_len = 4 \/ max_len = 8 -> money_column (vls VarLenType.Money max_len co) max_len true.
Definition money_bytes (max_len : Z) (nullable : bool) (v : Z) : bytes := (if nullable then [max_len] else []) ++ scaled_bytes max_len v.

(** ** Properties *)

(** C35: an amount of money read by the driver and written back is the same
    amount.  What [ColumnData::decode] makes of a value of a [money] or
    [smallmoney] column, nullable or not, is an [f64] that
    [ColumnData::encode] accepts for a row of that column and writes as the
    bytes it was read from: for every [smallmoney], and for every [money] below
    2^50 ten thousandths (more than 10^11 units) either way. *)
Theorem money_roundtrip {ER : EncodingRs} (oc : bool) (powi10 : Z -> spec_float) (ctx : Context) (t : TypeInfo) (max_len : Z) (nullable : bool) (v : Z)
  (Ht : money_column t max_len nullable) (Hf : money_fits max_len v = true) (Hv : max_len = 8 -> Z.abs v < 2 ^ 50) :
  exists val, decodes (column_decode ctx t) (money_bytes max_len nullable v) (ColumnData.F64 (Some val)) /\
    appends (column_encode oc powi10 (ColumnData.F64 (Some val)) (Some t)) (money_bytes max_len nullable v).
Proof.
  assert (Hl : max_len = 4 \/ max_len = 8) by (destruct Ht; auto).
  assert (B : Z.abs v < 2 ^ 50) by (destruct Hl as [->|E]; [|exact (Hv E)]; apply is_signed_spec in Hf; unfold in_signed in Hf; cbn in Hf; lia).
  destruct (money_writes_back max_len v Hl Hf B) as (D & A & Af). exists (smallmoney_f64 v).
  destruct Ht as [| |max_len co _]; [split; assumption|split; assumption|]. split; [|exact A].
  eapply decodes_bind; [apply decodes_u8_cons; unfold in_unsigned; lia|exact D].
Qed.

(** The bound is there for a reason: this [money] comes back changed. *)
Lemma money_roundtrip_large : exists v, money_fits 8 v = true /\
  f64_round_i128 (f64_mul (f64_of_bits (money_f64 (v / 2 ^ 32) (v mod 2 ^ 32))) MONEY_SCALE_FACTOR) <> v.
Proof. exists (2 ^ 53 + 1). split; [reflexivity|vm_compute; congruence]. Qed.

(** ** Witnesses *)

Lemma money_roundtrip_witness :
  exists val, decodes (column_decode (ER := ascii_encoding_rs) context_new (vls VarLenType.Money 8 None)) (money_bytes 8 true (-123456789)) (ColumnData.F64 (Some val)) /\
    appends (column_encode (ER := ascii_encoding_rs) true (fun _ => S754_nan) (ColumnData.F64 (Some val)) (Some (vls VarLenType.Money 8 None))) (money_bytes 8 true (-123456789)).
Proof.
  exact (money_roundtrip (ER := ascii_encoding_rs) true (fun _ => S754_nan) context_new (vls VarLenType.Money 8 None) 8 true (-123456789)
    (column_moneyn 8 None (or_intror eq_refl)) eq_refl ltac:(intros _; cbn; lia)).
Defined.
