(* ===== verification/TimeEq.v ===== *)
(** * TimeEq: equality of temporal values

    [PartialEq] of [Time], [DateTime2] and [DateTimeOffset] in [tds/time.rs].
    A time compares through two divisions in [f64], so that [Time]s of
    different scales can be equal.  The file shows that the rounding of the
    divisions neither joins nor separates moments, for every time the wire can
    carry: the quotient of two small integers in binary64 is a function of
    their ratio alone ([same_ratio]), and it takes different values on ratios
    that differ by as much as two times do ([same_quotient]).  A rescaled
    [datetime2] is compared the same way. *)

From S2P Require Import Prelude Unicode Collation SqlRead SqlWrite Types TypeInfoCodec NumericCodec Temporal Money Floats ColumnEncode.
From Stdlib Require Import Floats.SpecFloat.

Section Equality.
(** [powi10 s] is [10f64.powi(s)]. *)
Variable powi10 : Z -> spec_float.

(** [impl PartialEq for Time] *)
Definition time_seconds (t : Time) : spec_float := f64_div (f64_of_Z (increments t)) (powi10 (time_scale t)).
Definition time_eq (a b : Time) : bool := SFeqb (time_seconds a) (time_seconds b).

(** The derived [PartialEq] of [DateTime2] and [DateTimeOffset] *)
Definition datetime2_eq (a b : DateTime2) : bool := (days (dt2_date a) =? days (dt2_date b)) && time_eq (dt2_time a) (dt2_time b).
Definition datetimeoffset_eq (a b : DateTimeOffset) : bool := datetime2_eq (datetime2 a) (datetime2 b) && (offset a =? offset b).
End Equality.

(** ** Equal quotients *)

Lemma SFeqb_finite m1 e1 m2 e2 : SFeqb (S754_finite false m1 e1) (S754_finite false m2 e2) = true <-> m1 = m2 /\ e1 = e2.
Proof.
  unfold SFeqb, SFcompare. change (Pos.compare_cont Eq m1 m2) with (Pos.compare m1 m2).
  destruct (Z.compare_spec e1 e2), (Pos.compare_spec m1 m2); split; intros X; try discriminate; auto; destruct X; subst; lia || (exfalso; lia).
Qed.

Lemma finish_finite m e : exists p e', finish false m e = S754_finite false p e'.
Proof. unfold finish. destruct (_ =? _); eauto. Qed.

(** Equal floats have equal values. *)
Lemma finish_value m x m' x' : 0 < m -> 0 < m' -> 0 <= x -> 0 <= x' -> finish false m (- x) = finish false m' (- x') -> m * 2 ^ x' = m' * 2 ^ x.
Proof.
  intros Hm Hm' Hx Hx' E. unfold finish in E. destruct (Z.eqb_spec m (2 ^ 53)) as [->|N], (Z.eqb_spec m' (2 ^ 53)) as [->|N'];
    [injection E as Ee|injection E as Em Ee..].
  - replace x' with x by lia. reflexivity.
  - apply (f_equal Z.pos) in Em. rewrite Z2Pos.id in Em by lia. replace x with (x' + 1) by lia. rewrite Z.pow_add_r by lia. lia.
  - apply (f_equal Z.pos) in Em. rewrite Z2Pos.id in Em by lia. replace x' with (x + 1) by lia. rewrite Z.pow_add_r by lia. lia.
  - apply Z2Pos.inj in Em; [|assumption..]. replace x' with x by lia. congruence.
Qed.

(** Quotients of the same ratio are equal. *)
Lemma same_ratio n d n' d' : 0 < n < 2 ^ 53 -> 0 < d < 2 ^ 53 -> 0 < n' < 2 ^ 53 -> 0 < d' < 2 ^ 53 -> n * d' = n' * d ->
  f64_div (f64_of_Z n) (f64_of_Z d) = f64_div (f64_of_Z n') (f64_of_Z d').
Proof.
  intros Hn Hd Hn' Hd' E. destruct (f64_div_ratio false n d Hn Hd) as (x & X0 & B & Ex). destruct (f64_div_ratio false n' d' Hn' Hd') as (x' & X0' & B' & Ex'). cbn [cond_Zopp] in *. rewrite Ex, Ex'.
  assert (x' = x) as ->.
  { assert (Lt : forall n d n' d' x x', 0 < d -> 0 < d' -> n * d' = n' * d -> 0 <= x -> 2 ^ 52 * d <= n * 2 ^ x -> n' * 2 ^ x' < 2 ^ 53 * d' -> x' <= x).
    { clear. intros n d n' d' x x' Hd Hd' E Hx L U. destruct (Z_le_gt_dec x' x) as [|G]; [assumption|exfalso].
      pose proof (Z.pow_le_mono_r 2 (x + 1) x' ltac:(lia) ltac:(lia)) as P. rewrite Z.pow_add_r in P by lia.
      assert (2 ^ 53 * d * d' <= n' * 2 ^ x' * d); [|nia]. assert (2 ^ 53 * d * d' <= n * d' * (2 ^ x * 2 ^ 1)) by nia. rewrite E in *.
      assert (0 < n') by nia. nia. }
    apply Z.le_antisymm; [apply (Lt n d n' d'); lia|apply (Lt n' d' n d); lia]. }
  f_equal. rewrite <- (rne_scale d' (n * 2 ^ x) d), <- (rne_scale d (n' * 2 ^ x) d'), (Z.mul_comm d' d) by lia. f_equal. nia.
Qed.

Lemma no_room w a b D : 1 <= w -> 2 ^ 28 < a -> 2 ^ 28 < b -> D < 2 ^ 24 -> w * (a * b) < D * (a + b) -> False.
Proof.
  intros W A B HD U. pose proof (Z.mul_le_mono_nonneg_r 1 w (a * b) ltac:(lia) W). pose proof (Z.mul_le_mono_nonneg_r D (2 ^ 24) (a + b) ltac:(lia) ltac:(lia)).
  pose proof (Z.mul_le_mono_nonneg_r (2 ^ 28) a b ltac:(lia) ltac:(lia)). pose proof (Z.mul_le_mono_nonneg_l (2 ^ 28) b a ltac:(lia) ltac:(lia)). lia.
Qed.

(** Quotients that are equal come from the same ratio, when the ratios are
    small and one denominator divides the other. *)
Lemma same_quotient n d n' k : 0 < n < 2 ^ 53 -> 0 < d -> 0 < n' < 2 ^ 53 -> 0 < k -> d * k < 2 ^ 24 -> n < 2 ^ 24 * d -> n' < 2 ^ 24 * (d * k) ->
  f64_div (f64_of_Z n) (f64_of_Z d) = f64_div (f64_of_Z n') (f64_of_Z (d * k)) -> n' = n * k.
Proof.
  intros Hn Hd Hn' Hk Hdk Sn Sn' E. assert (d <= d * k) by nia.
  destruct (f64_div_ratio false n d Hn ltac:(lia)) as (x & X0 & B & Ex). destruct (f64_div_ratio false n' (d * k) Hn' ltac:(lia)) as (x' & X0' & B' & Ex').
  cbn [cond_Zopp] in *. rewrite Ex, Ex' in E. pose proof (rne_near (n * 2 ^ x) d Hd) as Nr. pose proof (rne_near (n' * 2 ^ x') (d * k) ltac:(nia)) as Nr'.
  pose proof (rne_bounds (n * 2 ^ x) d (2 ^ 52) (2 ^ 53) Hd B) as Br. pose proof (rne_bounds (n' * 2 ^ x') (d * k) (2 ^ 52) (2 ^ 53) ltac:(nia) B') as Br'.
  apply finish_value in E; [|lia..]. set (m := rne (n * 2 ^ x) d) in *. set (m' := rne (n' * 2 ^ x') (d * k)) in *. clearbody m m'. clear Ex Ex' Br Br'.
  assert (Px : 2 ^ 28 < 2 ^ x) by nia. assert (Px' : 2 ^ 28 < 2 ^ x') by nia. set (a := 2 ^ x) in *. set (b := 2 ^ x') in *. clearbody a b.
  destruct (Z.eq_dec n' (n * k)) as [|N]; [assumption|exfalso].
  assert (U : Z.abs (n * k - n') * (a * b) < (d * k) * (a + b)).
  { assert (Z.abs (n * a * (b * k) - d * m * (b * k)) < d * (b * k)) by nia. assert (Z.abs (n' * b * a - d * k * m' * a) < d * k * a) by nia.
    replace (d * m * (b * k)) with (d * k * (m * b)) in * by lia. rewrite E in *. nia. }
  exact (no_room (Z.abs (n * k - n')) a b (d * k) ltac:(lia) Px Px' Hdk U).
Qed.

Lemma f64_to_u64_exact n : 0 <= n < 2 ^ 53 -> f64_to_u64 (f64_of_Z n) = n.
Proof.
  intros H. destruct (Z.eq_dec n 0) as [->|N]; [reflexivity|]. rewrite (f64_of_Z_exact false n ltac:(lia) : f64_of_Z n = _). destruct (sig_bounds n ltac:(lia)) as (B & He & E). cbn [f64_to_u64]. rewrite Z2Pos.id by lia.
  assert (M : (if 0 <=? ex n then sig n * 2 ^ ex n else sig n / 2 ^ (- ex n)) = n).
  { destruct (Z.leb_spec 0 (ex n)); [assert (ex n = 0) as Z0 by lia; rewrite Z0 in *; cbn in E; cbn; lia|]. rewrite E, Z.div_mul by (apply Z.pow_nonzero; lia). reflexivity. }
  rewrite M. apply Z.min_l. lia.
Qed.

(** ** Properties *)

Section Properties.
Context (powi10 : Z -> spec_float).
(** The powers up to [10^7] are exact: they are integers of 24 bits. *)
Hypothesis powi10_exact : forall s, 0 <= s <= 7 -> powi10 s = f64_of_Z (10 ^ s).

Lemma time_power s : 0 <= s <= 7 -> 0 < 10 ^ s < 2 ^ 24.
Proof.
  intros H. split; [apply Z.pow_pos_nonneg; lia|]. pose proof (Z.pow_le_mono_r 10 s 7 ltac:(lia) ltac:(lia)). lia.
Qed.

(** A time of the wire is shorter than [2^24] seconds. *)
Lemma time_short t : fits_time t -> 0 <= increments t < 2 ^ 24 * 10 ^ time_scale t /\ increments t < 2 ^ 53.
Proof.
  intros [Hs Hi]. unfold in_unsigned, time_width in Hi.
  destruct (Z.leb_spec (time_scale t) 2); [|destruct (Z.leb_spec (time_scale t) 4)]; cbn in Hi.
  - pose proof (Z.pow_le_mono_r 10 0 (time_scale t) ltac:(lia) ltac:(lia)). lia.
  - pose proof (Z.pow_le_mono_r 10 3 (time_scale t) ltac:(lia) ltac:(lia)). lia.
  - pose proof (Z.pow_le_mono_r 10 5 (time_scale t) ltac:(lia) ltac:(lia)). lia.
Qed.

Lemma seconds_zero t : fits_time t -> increments t = 0 -> time_seconds powi10 t = S754_zero false.
Proof using powi10_exact.
  intros [Hs _] E. unfold time_seconds. rewrite powi10_exact, E by exact Hs. pose proof (time_power _ Hs).
  rewrite (f64_of_Z_exact false (10 ^ time_scale t) ltac:(lia) : f64_of_Z (10 ^ time_scale t) = _). reflexivity.
Qed.

Lemma seconds_finite t : fits_time t -> increments t <> 0 ->
  time_seconds powi10 t = f64_div (f64_of_Z (increments t)) (f64_of_Z (10 ^ time_scale t)) /\ exists m e, time_seconds powi10 t = S754_finite false m e.
Proof using powi10_exact.
  intros F N. pose proof (time_short t F). destruct F as [Hs _]. pose proof (time_power _ Hs). unfold time_seconds. rewrite powi10_exact by exact Hs.
  split; [reflexivity|]. destruct (f64_div_ratio false (increments t) (10 ^ time_scale t)) as (x & _ & _ & E); [lia|lia|]. cbn [cond_Zopp] in E. rewrite E. apply finish_finite.
Qed.

Lemma scaled_quotient n s n' s' : 0 <= s <= s' -> s' <= 7 -> n <> 0 -> n' <> 0 -> 0 <= n < 2 ^ 24 * 10 ^ s /\ n < 2 ^ 53 -> 0 <= n' < 2 ^ 24 * 10 ^ s' /\ n' < 2 ^ 53 ->
  f64_div (f64_of_Z n) (f64_of_Z (10 ^ s)) = f64_div (f64_of_Z n') (f64_of_Z (10 ^ s')) -> n * 10 ^ s' = n' * 10 ^ s.
Proof.
  intros Hs Hs' N N' B B' E. assert (P : 10 ^ s' = 10 ^ s * 10 ^ (s' - s)) by (rewrite <- Z.pow_add_r by lia; f_equal; lia).
  pose proof (time_power s ltac:(lia)). pose proof (time_power s' ltac:(lia)). pose proof (Z.pow_pos_nonneg 10 (s' - s) ltac:(lia) ltac:(lia)).
  rewrite P in *. rewrite (same_quotient n (10 ^ s) n' (10 ^ (s' - s))) by (lia || exact E). lia.
Qed.

Lemma time_eq_agrees (a b : Time) : fits_time a -> fits_time b ->
  time_eq powi10 a b = bool_decide (increments a * 10 ^ time_scale b = increments b * 10 ^ time_scale a).
Proof using powi10_exact.
  intros Ha Hb. unfold time_eq. pose proof (time_short a Ha) as La. pose proof (time_short b Hb) as Lb. pose proof (time_power _ (proj1 Ha)) as Pa. pose proof (time_power _ (proj1 Hb)) as Pb.
  destruct (Z.eq_dec (increments a) 0) as [Za|Na], (Z.eq_dec (increments b) 0) as [Zb|Nb].
  - rewrite (seconds_zero a Ha Za), (seconds_zero b Hb Zb), Za, Zb. rewrite bool_decide_eq_true_2 by lia. reflexivity.
  - rewrite (seconds_zero a Ha Za), Za. destruct (seconds_finite b Hb Nb) as (_ & m & e & ->). rewrite bool_decide_eq_false_2 by nia. reflexivity.
  - rewrite (seconds_zero b Hb Zb), Zb. destruct (seconds_finite a Ha Na) as (_ & m & e & ->). rewrite bool_decide_eq_false_2 by nia. reflexivity.
  - destruct (seconds_finite a Ha Na) as (Ea & ma & ea & Fa). destruct (seconds_finite b Hb Nb) as (Eb & mb & eb & Fb).
    destruct (Z.eq_dec (increments a * 10 ^ time_scale b) (increments b * 10 ^ time_scale a)) as [E|E].
    + rewrite bool_decide_eq_true_2 by exact E. rewrite <- (same_ratio (increments a) (10 ^ time_scale a) (increments b) (10 ^ time_scale b) ltac:(lia) ltac:(lia) ltac:(lia) ltac:(lia) E), <- Ea in Eb.
      rewrite Eb, Fa. apply SFeqb_finite. auto.
    + rewrite bool_decide_eq_false_2 by exact E. apply not_true_is_false. rewrite Fa, Fb, SFeqb_finite. intros [-> ->]. rewrite <- Fb in Fa. rewrite Ea, Eb in Fa. apply E.
      destruct (Z.le_ge_cases (time_scale a) (time_scale b)) as [L|L].
      * exact (scaled_quotient _ _ _ _ (conj (proj1 (proj1 Ha)) L) (proj2 (proj1 Hb)) Na Nb La Lb Fa).
      * symmetry. exact (scaled_quotient _ _ _ _ (conj (proj1 (proj1 Hb)) L) (proj2 (proj1 Ha)) Nb Na Lb La (eq_sym Fa)).
Qed.


(** The derived comparisons: the same day, moment and offset. *)
Corollary datetimeoffset_eq_exact (a b : DateTimeOffset) : fits_datetimeoffset a -> fits_datetimeoffset b ->
  datetimeoffset_eq powi10 a b = true <->
  days (dt2_date (datetime2 a)) = days (dt2_date (datetime2 b)) /\ offset a = offset b /\
  increments (dt2_time (datetime2 a)) * 10 ^ time_scale (dt2_time (datetime2 b)) = increments (dt2_time (datetime2 b)) * 10 ^ time_scale (dt2_time (datetime2 a)).
Proof using powi10_exact.
  intros Ha Hb. unfold datetimeoffset_eq, datetime2_eq. rewrite time_eq_agrees by (apply Ha || apply Hb).
  rewrite !andb_true_iff, !Z.eqb_eq, bool_decide_eq_true. tauto.
Qed.
(** A [datetime2] written into a column of a larger scale is the same moment
    if the column has room for it: the product in [f64] is exact. *)
Theorem rescale_up_same (d : DateTime2) (n : Z) (Hd : fits_time (dt2_time d)) (Hn : time_scale (dt2_time d) < n <= 7)
  (Hf : fits_time (mkTime (increments (dt2_time d) * 10 ^ (n - time_scale (dt2_time d))) n)) :
  datetime2_eq powi10 (rescale_datetime2 powi10 d n) d = true.
Proof using powi10_exact.
  pose proof (time_short _ Hd) as L. pose proof (time_short _ Hf) as [_ Hs]. cbn [increments] in Hs. destruct Hd as [H0 Hd]. set (t := dt2_time d) in *. pose proof (Z.pow_pos_nonneg 10 (n - time_scale t) ltac:(lia) ltac:(lia)) as P.
  assert (E : rescale_datetime2 powi10 d n = mkDateTime2 (dt2_date d) (mkTime (increments t * 10 ^ (n - time_scale t)) n)).
  { unfold rescale_datetime2. fold t. rewrite wrap_small by (unfold in_unsigned; lia). rewrite (proj2 (Z.eqb_neq _ _)) by lia.
    rewrite to_signed_small by lia. rewrite powi10_exact by lia. do 2 f_equal.
    destruct (Z.eq_dec (increments t) 0) as [->|N]; [|rewrite f64_mul_exact, f64_to_u64_exact by nia; reflexivity].
    pose proof (time_power (n - time_scale t) ltac:(lia)). rewrite (f64_of_Z_exact false (10 ^ (n - time_scale t)) ltac:(lia) : f64_of_Z (10 ^ (n - time_scale t)) = _). reflexivity. }
  rewrite E. unfold datetime2_eq. cbn [dt2_date dt2_time]. rewrite Z.eqb_refl. cbn [andb]. fold t.
  rewrite time_eq_agrees; [|exact Hf|split; assumption].
  apply bool_decide_eq_true_2. cbn [increments time_scale]. rewrite <- Z.mul_assoc, <- Z.pow_add_r by lia. do 2 f_equal. lia.
Qed.
End Properties.

(** ** Witnesses *)

