(* ===== verification/ColumnRoundtrip.v ===== *)
(** * ColumnRoundtrip: a value written for a column reads back

    The encoder of a bulk-load row against the decoder of a result row, type
    by type, and the values for which the two disagree. *)

From S2P Require Import Prelude Unicode Collation SqlRead SqlWrite Types TypeInfoCodec NumericCodec Temporal Money Context ColumnDecode ColumnEncode.
From Stdlib Require Import Floats.SpecFloat.

Section Roundtrip.
Context {ER : EncodingRs} (oc : bool) (powi10 : Z -> spec_float) (ctx : Context).

(** [d] can be written as a row value of a column of type [t], and reading
    the bytes at that type gives [d]. *)
Definition roundtrips (d : ColumnData) (t : TypeInfo) : Prop :=
  exists out, appends (column_encode oc powi10 d (Some t)) out /\ decodes (column_decode ctx t) out d.

Lemma appends_put_opt_some {A} n (w : A -> M bytes unit) v out :
  appends (w v) out -> appends (put_opt n w (Some v)) (le_bytes 1 n ++ out).
Proof. intros H. apply appends_bind; [apply appends_put_u8|exact H]. Qed.

(** A one-byte length and a value, as [rt_some], or a zero length, as
    [rt_none]. *)
Lemma rt_some w (k : Z -> M bytes ColumnData) n out d :
  0 <= n < 256 -> appends w (le_bytes 1 n ++ out) -> decodes (k n) out d ->
  exists out, appends w out /\ decodes (bind read_u8 k) out d.
Proof.
  intros Hn Hw Hk. eexists; split; [exact Hw|]. eapply decodes_bind; [apply decodes_u8|exact Hk].
  unfold in_unsigned; lia.
Qed.

Lemma rt_none w (k : Z -> M bytes ColumnData) d :
  appends w (le_bytes 1 0) -> decodes (k 0) [] d ->
  exists out, appends w out /\ decodes (bind read_u8 k) out d.
Proof.
  intros Hw Hk. eexists; split; [exact Hw|]. eapply decodes_bind_last; [apply decodes_u8|exact Hk].
  unfold in_unsigned; lia.
Qed.

Ltac start := unfold roundtrips, vls; cbn [column_encode column_decode vlc_type vlc_len vlc_collation
  encode_bit encode_u8 encode_i16 encode_i32 encode_i64 encode_f32 encode_f64 encode_scalar encode_guid
  encode_datetime encode_smalldatetime encode_date var_len_decode fixed_len_decode].

(** ** Integers, floats, bits, GUIDs *)

Lemma rt_fixed_bit b : roundtrips (ColumnData.Bit (Some b)) (TypeInfo.FixedLen FixedLenType.Bit).
Proof.
  start. eexists; split; [apply appends_put_u8|].
  eapply decodes_bind_ret_eq; [apply decodes_u8; destruct b; cbn; unfold in_unsigned; lia|].
  destruct b; reflexivity.
Qed.

Lemma rt_bitn o n co : roundtrips (ColumnData.Bit o) (vls VarLenType.Bitn n co).
Proof.
  start. unfold bit_decode. destruct o as [b|].
  - eapply rt_some with (n := 1); [lia|apply appends_put_opt_some, appends_put_u8|].
    eval_tests. eapply decodes_bind_ret_eq; [apply decodes_u8; destruct b; cbn; unfold in_unsigned; lia|].
    destruct b; reflexivity.
  - eapply rt_none; [apply appends_put_u8|]. eval_tests. apply decodes_ret.
Qed.

Lemma rt_fixed_int d f v :
  match d, f with
  | ColumnData.U8 o, FixedLenType.Int1 => o = Some v /\ in_unsigned 8 v
  | ColumnData.I16 o, FixedLenType.Int2 => o = Some v /\ in_signed 16 v
  | ColumnData.I32 o, FixedLenType.Int4 => o = Some v /\ in_signed 32 v
  | ColumnData.I64 o, FixedLenType.Int8 => o = Some v /\ in_signed 64 v
  | ColumnData.F32 o, FixedLenType.Float4 => o = Some v /\ in_unsigned 32 v
  | ColumnData.F64 o, FixedLenType.Float8 => o = Some v /\ in_unsigned 64 v
  | _, _ => False
  end -> roundtrips d (TypeInfo.FixedLen f).
Proof.
  destruct d, f; try tauto; intros [-> Hv]; start; rewrite decide_True by reflexivity;
    (eexists; split; [apply appends_put_slice|]);
    (eapply decodes_bind_ret_eq; [|reflexivity]); eauto with tds_decodes.
Qed.

Ltac rt_width w :=
  eapply rt_some with (n := w); [lia|apply appends_put_opt_some, appends_put_slice|];
  eval_tests; (eapply decodes_bind_ret_eq; [|reflexivity]); eauto with tds_decodes.

(** [intn]: the width goes with the value; a NULL has the column's width. *)
Lemma rt_intn d n co :
  match d with
  | ColumnData.U8 o => opt_wf (in_unsigned 8) o /\ (o = None -> n = 1)
  | ColumnData.I16 o => opt_wf (in_signed 16) o /\ (o = None -> n = 2)
  | ColumnData.I32 o => opt_wf (in_signed 32) o /\ (o = None -> n = 4)
  | ColumnData.I64 o => opt_wf (in_signed 64) o /\ (o = None -> n = 8)
  | _ => False
  end -> roundtrips d (vls VarLenType.Intn n co).
Proof.
  destruct d as [o|o|o|o| | | | | | | | | | | | | |]; try tauto; intros [Hv Hn]; start;
    rewrite decide_True by reflexivity; unfold int_decode; destruct o as [v|]; cbn [opt_wf] in Hv.
  - rt_width 1.
  - rewrite (Hn eq_refl). eapply rt_none; [apply appends_put_u8|]. eval_tests. apply decodes_ret.
  - rt_width 2.
  - rewrite (Hn eq_refl). eapply rt_none; [apply appends_put_u8|]. eval_tests. apply decodes_ret.
  - rt_width 4.
  - rewrite (Hn eq_refl). eapply rt_none; [apply appends_put_u8|]. eval_tests. apply decodes_ret.
  - rt_width 8.
  - rewrite (Hn eq_refl). eapply rt_none; [apply appends_put_u8|]. eval_tests. apply decodes_ret.
Qed.

Lemma rt_floatn d n co :
  match d with
  | ColumnData.F32 o => opt_wf (in_unsigned 32) o /\ (o = None -> n = 4)
  | ColumnData.F64 o => opt_wf (in_unsigned 64) o /\ (o = None -> n = 8)
  | _ => False
  end -> roundtrips d (vls VarLenType.Floatn n co).
Proof.
  destruct d as [| | | |o|o| | | | | | | | | | | |]; try tauto; intros [Hv Hn]; start;
    rewrite decide_True by reflexivity; unfold float_decode; destruct o as [v|]; cbn [opt_wf] in Hv.
  - rt_width 4.
  - rewrite (Hn eq_refl). eapply rt_none; [apply appends_put_u8|]. eval_tests. apply decodes_ret.
  - rt_width 8.
  - rewrite (Hn eq_refl). eapply rt_none; [apply appends_put_u8|]. eval_tests. apply decodes_ret.
Qed.

(** The byte swap of a GUID undoes itself. *)
Lemma reorder_involutive b : length b = 16%nat -> reorder_bytes (reorder_bytes b) = b.
Proof. intros L. do 8 (destruct b as [|? b]; [discriminate|]). reflexivity. Qed.

Lemma length_reorder b : length (reorder_bytes b) = length b.
Proof. do 8 (destruct b as [|? b]; [reflexivity|]). reflexivity. Qed.

Lemma rt_guid o n co : opt_wf wf_guid o -> roundtrips (ColumnData.Guid o) (vls VarLenType.Guid n co).
Proof.
  intros Hg. start. unfold guid_decode. destruct o as [g|].
  - destruct Hg as [Hw Hl]. eapply rt_some with (n := 16); [lia|apply appends_put_opt_some, appends_put_slice|].
    eval_tests. eapply decodes_bind_ret_eq.
    + pose proof (decodes_read_bytes_into (reorder_bytes g) 16 ltac:(lia)) as R.
      rewrite length_reorder, Hl in R. exact R.
    + rewrite reorder_involutive by exact Hl. reflexivity.
  - eapply rt_none; [apply appends_put_u8|]. eval_tests. apply decodes_ret.
Qed.

(** ** Dates and times *)

Lemma rt_datetime o n co : opt_wf wf_datetime o -> (o = None -> n = 8) ->
  roundtrips (ColumnData.DateTime o) (vls VarLenType.Datetimen n co).
Proof.
  intros Hd Hn. start. unfold datetimen_decode. destruct o as [d|].
  - eapply rt_some with (n := 8); [lia|apply appends_put_opt_some, appends_datetime|]. eval_tests.
    eapply decodes_bind_ret_eq; [apply decodes_datetime, Hd|reflexivity].
  - rewrite (Hn eq_refl). eapply rt_none; [apply appends_put_u8|]. apply decodes_ret.
Qed.

Lemma rt_smalldatetime o n co : opt_wf wf_smalldatetime o -> (o = None -> n = 4) ->
  roundtrips (ColumnData.SmallDateTime o) (vls VarLenType.Datetimen n co).
Proof.
  intros Hd Hn. start. unfold datetimen_decode. destruct o as [d|].
  - eapply rt_some with (n := 4); [lia|apply appends_put_opt_some, appends_smalldatetime|]. eval_tests.
    eapply decodes_bind_ret_eq; [apply decodes_smalldatetime, Hd|reflexivity].
  - rewrite (Hn eq_refl). eapply rt_none; [apply appends_put_u8|]. apply decodes_ret.
Qed.

Lemma rt_fixed_datetime d : wf_datetime d ->
  roundtrips (ColumnData.DateTime (Some d)) (TypeInfo.FixedLen FixedLenType.Datetime).
Proof.
  intros H. start. eexists; split; [apply appends_datetime|]. unfold datetimen_decode. eval_tests.
  eapply decodes_bind_ret_eq; [apply decodes_datetime, H|reflexivity].
Qed.

Lemma rt_fixed_smalldatetime d : wf_smalldatetime d ->
  roundtrips (ColumnData.SmallDateTime (Some d)) (TypeInfo.FixedLen FixedLenType.Datetime4).
Proof.
  intros H. start. eexists; split; [apply appends_smalldatetime|]. unfold datetimen_decode. eval_tests.
  eapply decodes_bind_ret_eq; [apply decodes_smalldatetime, H|reflexivity].
Qed.

Lemma rt_date o n co : opt_wf wf_date o -> roundtrips (ColumnData.Date o) (vls VarLenType.Daten n co).
Proof.
  intros Hd. start. unfold date_column_decode. destruct o as [d|].
  - eapply rt_some with (n := 3); [lia|apply appends_put_opt_some, appends_date, Hd|]. eval_tests.
    eapply decodes_bind_ret_eq; [apply decodes_date, Hd|reflexivity].
  - eapply rt_none; [apply appends_put_u8|]. eval_tests. apply decodes_ret.
Qed.

(** The width byte of a time: [n] by [time_len]. *)
Lemma appends_time_len (t : Time) k (w : M bytes unit) out : 0 <= time_scale t <= 7 -> appends w out ->
  appends (n <- lift (time_len t) ;; put_u8 (n + k) ;; w)
    (le_bytes 1 (Z.of_nat (time_width (time_scale t)) + k) ++ out).
Proof.
  intros Hs Hw dst. rewrite (bind_ok _ _ dst _ dst) by (unfold lift; rewrite time_len_ok by lia; reflexivity).
  revert dst. apply appends_bind; [apply appends_put_u8|exact Hw].
Qed.

Lemma time_width_range s : 0 <= s <= 7 -> 3 <= Z.of_nat (time_width s) <= 5.
Proof. intros H. destruct (time_width_cases s H) as [[_ ->]|[[_ ->]|[_ ->]]]; lia. Qed.

Lemma rt_time o n co : opt_wf (fun t => fits_time t /\ time_scale t = n) o ->
  roundtrips (ColumnData.Time o) (vls VarLenType.Timen n co).
Proof.
  intros Hd. start. unfold time_column_decode, encode_time. cbn [vlc_type vlc_len]. destruct o as [t|].
  - destruct Hd as [Ht Hn]. pose proof (time_width_range _ (proj1 Ht)) as W.
    eapply rt_some with (n := Z.of_nat (time_width (time_scale t))); [lia| |].
    + pose proof (appends_time_len t 0 (time_encode t) _ (proj1 Ht) (appends_time t Ht)) as A.
      rewrite Z.add_0_r in A. intros dst. rewrite <- A. rewrite !bind_run.
      destruct (lift (time_len t) dst) as [[m| | |] s]; try reflexivity. rewrite Z.add_0_r. reflexivity.
    + rewrite (proj2 (Z.eqb_neq _ _)), !(proj2 (Z.leb_le _ _)) by lia. cbn [andb].
      eapply decodes_bind_ret_eq; [subst n; apply decodes_time, Ht|reflexivity].
  - eapply rt_none; [apply appends_put_u8|]. eval_tests. apply decodes_ret.
Qed.

Lemma rt_datetime2 o n co : opt_wf (fun d => fits_datetime2 d /\ time_scale (dt2_time d) = n) o ->
  roundtrips (ColumnData.DateTime2 o) (vls VarLenType.Datetime2 n co).
Proof.
  intros Hd. start. unfold datetime2_column_decode, encode_datetime2. cbn [vlc_type vlc_len]. destruct o as [d|].
  - destruct Hd as [Ht Hn]. pose proof (proj1 (proj1 Ht)) as Hs. pose proof (time_width_range _ Hs) as W.
    unfold rescale_datetime2. rewrite wrap_small by (unfold in_unsigned; lia).
    rewrite (proj2 (Z.eqb_eq _ _) Hn).
    eapply rt_some with (n := Z.of_nat (time_width (time_scale (dt2_time d))) + 3); [lia| |].
    + apply appends_time_len; [exact Hs|apply appends_datetime2, Ht].
    + rewrite (proj2 (Z.eqb_neq _ _)), (proj2 (Z.ltb_ge _ _)) by lia.
      replace (_ + 3 - 3) with (Z.of_nat (time_width (time_scale (dt2_time d)))) by lia.
      eapply decodes_bind_ret_eq; [subst n; apply decodes_datetime2, Ht|reflexivity].
  - eapply rt_none; [apply appends_put_u8|]. eval_tests. apply decodes_ret.
Qed.

Lemma rt_datetimeoffset o n co :
  opt_wf (fun d => fits_datetimeoffset d /\ time_scale (dt2_time (datetime2 d)) = n) o ->
  roundtrips (ColumnData.DateTimeOffset o) (vls VarLenType.DatetimeOffsetn n co).
Proof.
  intros Hd. start. unfold datetimeoffset_column_decode, encode_datetimeoffset. cbn [vlc_type vlc_len].
  destruct o as [d|].
  - destruct Hd as [Ht Hn]. pose proof (proj1 (proj1 (proj1 Ht))) as Hs. pose proof (time_width_range _ Hs) as W.
    eapply rt_some with (n := Z.of_nat (time_width (time_scale (dt2_time (datetime2 d)))) + 5); [lia| |].
    + apply appends_time_len; [exact Hs|apply appends_datetimeoffset, Ht].
    + rewrite (proj2 (Z.eqb_neq _ _)), (proj2 (Z.ltb_ge _ _)) by lia.
      replace (_ + 5 - 5) with (Z.of_nat (time_width (time_scale (dt2_time (datetime2 d))))) by lia.
      eapply decodes_bind_ret_eq; [subst n; apply decodes_datetimeoffset, Ht|reflexivity].
  - eapply rt_none; [apply appends_put_u8|]. eval_tests. apply decodes_ret.
Qed.
(** ** Decimals *)

Lemma rescale_same n : rescale_numeric n (scale n) = Ok n.
Proof. unfold rescale_numeric. rewrite Z.eqb_refl. reflexivity. Qed.

Lemma rt_numeric o v size p s : v = VarLenType.Numericn \/ v = VarLenType.Decimaln ->
  opt_wf (fun n => wf_numeric n /\ value n <> - 2 ^ 127 /\ scale n = s) o ->
  roundtrips (ColumnData.Numeric o) (TypeInfo.VarLenSizedPrecision v size p s).
Proof.
  intros Hv Hn. unfold roundtrips.
  assert (R : exists out, appends (match o with Some n => n <- lift (rescale_numeric n s) ;; numeric_encode n
      | None => put_u8 0 end) out /\
      decodes (n <- numeric_decode s ;; ret (ColumnData.Numeric n)) out (ColumnData.Numeric o)).
  { destruct o as [n|].
    - destruct Hn as (W & M & <-). exists (numeric_bytes n). split.
      + intros dst. rewrite (bind_ok _ _ dst _ dst) by (unfold lift; rewrite rescale_same; reflexivity).
        apply appends_numeric; assumption.
      + eapply decodes_bind_ret_eq; [apply decodes_numeric; assumption|reflexivity].
    - eexists; split; [apply appends_put_u8|]. eapply decodes_bind_ret_eq; [|reflexivity].
      unfold numeric_decode. eapply decodes_bind_last; [apply decodes_u8; unfold in_unsigned; lia|].
      eval_tests. apply decodes_ret. }
  destruct Hv as [-> | ->]; exact R.
Qed.

(** ** Binary data and text *)

(** A MAX value in one chunk is a PLP stream. *)
Definition plp_chunk (b : bytes) : list bytes := match b with [] => [] | _ => [b] end.

Lemma plp_one_chunk n b : 0xffff <= n -> len b <= MAX_PLP_SIZE ->
  decodes (plp_decode n)
    (le_bytes 8 PLP_UNKNOWN ++ le_bytes 4 (len b) ++ b ++ (if len b =? 0 then [] else le_bytes 4 0)) (Some b).
Proof.
  intros Hn Hb.
  pose proof (decodes_plp_max n PLP_UNKNOWN (plp_chunk b) Hn) as D.
  replace (concat (plp_chunk b)) with b in D by (destruct b; cbn; [reflexivity|rewrite app_nil_r; reflexivity]).
  eapply decodes_eq; [apply D|].
  - split; vm_compute; congruence.
  - vm_compute; congruence.
  - destruct b; repeat constructor; discriminate.
  - exact Hb.
  - unfold plp_stream. destruct b as [|x b]; [reflexivity|]. cbn [plp_chunk map concat].
    rewrite (proj2 (Z.eqb_neq _ _)) by (cbn [length]; lia). rewrite app_nil_r, <- !app_assoc. reflexivity.
Qed.

Lemma decodes_put_null n :
  decodes (plp_decode n) (if n <? 0xffff then le_bytes 2 0xffff else le_bytes 8 PLP_NULL) None.
Proof.
  unfold plp_decode. destruct (n <? 0xffff);
    (eapply decodes_bind_last; [first [apply decodes_u16_le|apply decodes_u64_le]; split; vm_compute; congruence|]);
    eval_tests; apply decodes_ret.
Qed.

Lemma appends_put_null n :
  appends (put_null n) (if n <? 0xffff then le_bytes 2 0xffff else le_bytes 8 PLP_NULL).
Proof. unfold put_null. destruct (n <? 0xffff); apply appends_put_slice. Qed.

(** The bytes of a sized value: a two-byte length, or one PLP chunk. *)
Definition sized_bytes (n : Z) (b : bytes) : bytes :=
  if n <? 0xffff then le_bytes 2 (len b) ++ b
  else le_bytes 8 PLP_UNKNOWN ++ le_bytes 4 (len b) ++ b ++ (if len b =? 0 then [] else le_bytes 4 0).

Lemma decodes_sized n b : 0 <= n <= MAX_PLP_SIZE -> len b <= n ->
  decodes (plp_decode n) (sized_bytes n b) (Some b).
Proof.
  intros Hn Hb. unfold sized_bytes. destruct (Z.ltb_spec n 0xffff).
  - apply decodes_plp_short; lia.
  - apply plp_one_chunk; lia.
Qed.

Lemma rt_binary o v n co : v = VarLenType.BigBinary \/ v = VarLenType.BigVarBin ->
  0 <= n <= MAX_PLP_SIZE -> opt_wf (fun b => len b <= n) o -> roundtrips (ColumnData.Binary o) (vls v n co).
Proof.
  intros Hv Hn Hb. unfold roundtrips, vls, column_encode, encode_binary, column_decode, var_len_decode.
  cbn [vlc_type vlc_len vlc_collation].
  destruct o as [b|]; cbn [opt_wf] in Hb.
  - exists (sized_bytes n b). split.
    + assert (A : appends (if n <? len b then fail (BulkInput "Binary length exceed column limit")
              else if n <? 0xffff then put_u16_le (len b) ;; put_slice b
              else put_u64_le PLP_UNKNOWN ;; put_u32_le (len b) ;;
                (if len b =? 0 then ret tt else put_slice b ;; put_u32_le 0)) (sized_bytes n b)).
      { rewrite (proj2 (Z.ltb_ge _ _)) by lia. unfold sized_bytes.
        destruct (n <? 0xffff); appends_steps. destruct (Z.eqb_spec (len b) 0) as [E|E]; appends_steps.
        destruct b; [|cbn [length] in E; lia]. apply appends_ret. }
      destruct Hv as [-> | ->]; exact A.
    + destruct Hv as [-> | ->]; (eapply decodes_bind_ret_eq; [apply decodes_sized; assumption|reflexivity]).
  - eexists; split; [destruct Hv as [-> | ->]; apply appends_put_null|].
    destruct Hv as [-> | ->]; (eapply decodes_bind_ret_eq; [apply decodes_put_null|reflexivity]).
Qed.

Lemma units_bytes_even us : len (units_bytes us) mod 2 = 0.
Proof. rewrite length_units_bytes, Nat2Z.inj_mul, Z.mul_comm. apply Z.mod_mul. lia. Qed.

Lemma utf16_strict s : wf_str s -> from_utf16 (le_units (units_bytes (encode_utf16 s))) = Some s.
Proof.
  intros H. rewrite le_units_bytes by (apply encode_utf16_units, H). apply from_encode_utf16, H.
Qed.

(** Decoding UTF-16 text gives it back in both modes. *)
Lemma decodes_string_utf16 t n co s out : wf_str s ->
  match t with VarLenType.BigChar | VarLenType.BigVarChar => False | _ => True end ->
  decodes (plp_decode n) out (Some (units_bytes (encode_utf16 s))) ->
  decodes (string_decode ctx t n co) out (Some s).
Proof.
  intros Hs Ht Hp. unfold string_decode. eapply decodes_bind_last; [exact Hp|].
  pose proof (utf16_strict s Hs) as E.
  assert (G : decodes (if negb (len (units_bytes (encode_utf16 s)) mod 2 =? 0) then fail (Protocol "nvarchar: invalid plp length")
      else if (match t with VarLenType.NChar | VarLenType.NVarchar => true | _ => false end) && lossy_utf16 ctx
        then ret (Some (from_utf16_lossy (le_units (units_bytes (encode_utf16 s)))))
        else s0 <- lift (ok_or (from_utf16 (le_units (units_bytes (encode_utf16 s)))) (Protocol "nvarchar: invalid UTF-16 sequence")) ;;
             ret (Some s0)) [] (Some s)).
  { rewrite units_bytes_even. cbn [Z.eqb negb]. destruct (_ && _).
    - rewrite (from_utf16_lossy_strict _ _ E). apply decodes_ret.
    - apply (decodes_bind_ret _ Some), decodes_lift. rewrite E. reflexivity. }
  destruct t; try destruct Ht; exact G.
Qed.

Lemma rt_nvarchar o v n co : v = VarLenType.NVarchar \/ v = VarLenType.NChar ->
  0 <= n <= MAX_PLP_SIZE ->
  opt_wf (fun s => wf_str s /\ len (units_bytes (encode_utf16 s)) <= n /\ str_len s < 0xffffffff) o ->
  roundtrips (ColumnData.String o) (vls v n co).
Proof.
  intros Hv Hn Hs. unfold roundtrips, vls, column_encode, encode_string, column_decode, var_len_decode.
  cbn [vlc_type vlc_len vlc_collation].
  destruct o as [s|]; cbn [opt_wf] in Hs.
  - destruct Hs as (Hw & Hl & Hu). set (b := units_bytes (encode_utf16 s)) in *. exists (sized_bytes n b). split.
    + assert (A : appends (encode_nvarchar (mkVarLenContext v n co) (Some s)) (sized_bytes n b)).
      { unfold encode_nvarchar. cbn [vlc_len]. fold b. cbn zeta. rewrite (proj2 (Z.ltb_ge _ _)) by lia.
        unfold sized_bytes. destruct (n <? 0xffff); [appends_steps|].
        rewrite (proj2 (Z.ltb_lt (str_len s) _)) by lia. apply appends_bind_nil; [apply appends_ret|].
        do 3 (apply appends_bind; [apply appends_put_slice|]).
        destruct (Z.eqb_spec (len b) 0); [rewrite (proj2 (Z.ltb_ge 0 (len b))) by lia|
          rewrite (proj2 (Z.ltb_lt 0 (len b))) by lia]; [apply appends_ret|apply appends_put_slice]. }
      destruct Hv as [-> | ->]; exact A.
    + pose proof (decodes_sized n b Hn Hl) as D.
      destruct Hv as [-> | ->];
        (eapply decodes_bind_ret_eq; [apply decodes_string_utf16; [exact Hw|exact I|exact D]|reflexivity]).
  - eexists; split; [destruct Hv as [-> | ->]; apply appends_put_null|].
    destruct Hv as [-> | ->]; (eapply decodes_bind_ret_eq; [|reflexivity]; unfold string_decode;
      eapply decodes_bind_last; [apply decodes_put_null|]; apply decodes_ret).
Qed.

(** The text is representable in the collation's code page and decodes back
    to itself; for the DOS code pages this holds of every encodable text
    ([dos_codec_roundtrip]). *)
Definition codepage_text (co : option Collation) (s : str) (b : bytes) : Prop :=
  exists c cc, co = Some c /\ codec c = Ok cc /\ codec_encode cc s = Some b /\ codec_decode cc b = Some s.

Lemma codepage_encode co s b : codepage_text co s b -> collation_bytes_of co s = Ok b.
Proof. intros (c & cc & -> & E & Ee & _). cbn. rewrite E. cbn. rewrite Ee. reflexivity. Qed.

Lemma codepage_decode co s b msg : codepage_text co s b ->
  exists c, co = Some c /\ decode_codepage ctx c b msg = Ok s.
Proof.
  intros (c & cc & -> & E & _ & Ed). exists c; split; [reflexivity|]. unfold decode_codepage. rewrite E. cbn.
  rewrite (codec_decode_lossy_strict _ _ _ Ed), Ed. destruct (lossy_codepage ctx); reflexivity.
Qed.

Lemma rt_bigchar o v n co : v = VarLenType.BigChar \/ v = VarLenType.BigVarChar ->
  0 <= n <= MAX_PLP_SIZE ->
  opt_wf (fun s => exists b, codepage_text co s b /\ len b <= n /\ str_len s < 0xffffffff) o ->
  roundtrips (ColumnData.String o) (vls v n co).
Proof.
  intros Hv Hn Hs. unfold roundtrips, vls, column_encode, encode_string, column_decode, var_len_decode.
  cbn [vlc_type vlc_len vlc_collation].
  destruct o as [s|]; cbn [opt_wf] in Hs.
  - destruct Hs as (b & Ht & Hl & Hu). exists (sized_bytes n b). split.
    + assert (A : appends (encode_bigchar (mkVarLenContext v n co) (Some s)) (sized_bytes n b)).
      { unfold encode_bigchar. cbn [vlc_len vlc_collation]. intros dst.
        rewrite (bind_ok _ _ dst _ dst) by (unfold lift; rewrite (codepage_encode _ _ _ Ht); reflexivity).
        revert dst. rewrite (proj2 (Z.ltb_ge _ _)) by lia.
        unfold sized_bytes. destruct (n <? 0xffff); [apply appends_bind; apply appends_put_slice|].
        apply appends_bind; [apply appends_put_slice|].
        rewrite (proj2 (Z.ltb_lt (str_len s) _)) by lia. apply appends_bind_nil; [apply appends_ret|].
        appends_steps. destruct (len b =? 0); auto with tds_appends. }
      destruct Hv as [-> | ->]; exact A.
    + destruct (codepage_decode co s b "invalid sequence" Ht) as (c & Hc & E).
      destruct Hv as [-> | ->];
        (eapply decodes_bind_ret_eq; [|reflexivity]; unfold string_decode;
         eapply decodes_bind_last; [apply decodes_sized; assumption|];
         eapply decodes_bind_nil; [apply decodes_lift; rewrite Hc; reflexivity|];
         apply (decodes_bind_ret _ Some), decodes_lift, E).
  - eexists; split; [destruct Hv as [-> | ->]; apply appends_put_null|].
    destruct Hv as [-> | ->]; (eapply decodes_bind_ret_eq; [|reflexivity]; unfold string_decode;
      eapply decodes_bind_last; [apply decodes_put_null|]; apply decodes_ret).
Qed.
(** ** TEXT and NTEXT *)

Definition text_header : bytes := le_bytes 1 16 ++ repeat 0 16 ++ repeat 0 8.

Lemma text_header_app out : le_bytes 1 16 ++ repeat 0 16 ++ repeat 0 8 ++ out = text_header ++ out.
Proof. unfold text_header. rewrite <- !app_assoc. reflexivity. Qed.

Lemma decodes_text_header (k : M bytes ColumnData) out d : decodes k out d ->
  decodes (ptr_len <- read_u8 ;;
           if ptr_len =? 0 then ret (ColumnData.String None) else skip_text_pointer ptr_len ;; k)
    (text_header ++ out) d.
Proof.
  intros Hk. unfold text_header. rewrite <- !app_assoc.
  eapply decodes_bind; [apply decodes_u8; unfold in_unsigned; lia|]. eval_tests. rewrite app_assoc.
  eapply decodes_bind; [|exact Hk]. unfold skip_text_pointer.
  eapply decodes_bind; [apply decodes_read_bytes; reflexivity|].
  change (repeat 0 8) with (le_bytes 4 0 ++ le_bytes 4 0).
  eapply decodes_bind; [apply decodes_i32_le; unfold in_signed; lia|].
  eapply decodes_bind_last; [apply decodes_u32_le; unfold in_unsigned; lia|]. apply decodes_ret.
Qed.

(** The placeholder of an NTEXT length, patched once the units are written. *)
Lemma appends_ntext s : 2 * len (encode_utf16 s) < 2 ^ 32 ->
  appends (len_pos <- buf_len ;; put_u32_le 0 ;; put_units (encode_utf16 s) ;;
           length <- lift (arith_u oc 32 (2 * len (encode_utf16 s))) ;;
           patch len_pos (le_bytes 4 length))
    (le_bytes 4 (2 * len (encode_utf16 s)) ++ units_bytes (encode_utf16 s)).
Proof.
  intros H dst. set (us := encode_utf16 s) in *.
  rewrite <- (appends_patch (le_bytes 4 0) (le_bytes 4 (2 * len us)) _ (put_units us) eq_refl
                (appends_put_units us) dst).
  rewrite !bind_run. unfold buf_len, put_u32_le.
  rewrite !(bind_ok _ _ _ _ _ (appends_put_slice (le_bytes 4 0) dst)).
  rewrite !(bind_ok _ _ _ _ _ (appends_put_units us _)).
  unfold arith_u. rewrite (proj2 (Z.leb_le _ _)), (proj2 (Z.ltb_lt _ _)) by lia. reflexivity.
Qed.

Lemma rt_ntext o n co :
  opt_wf (fun s => wf_str s /\ 2 * len (encode_utf16 s) < 2 ^ 32) o ->
  roundtrips (ColumnData.String o) (vls VarLenType.NText n co).
Proof.
  intros Hs. unfold roundtrips, vls, column_encode, encode_string, column_decode, var_len_decode, encode_text.
  cbn [vlc_type]. destruct o as [s|]; cbn [opt_wf] in Hs.
  - destruct Hs as [Hw Hl]. eexists; split.
    + apply appends_bind; [apply appends_put_u8|]. apply appends_bind; [apply appends_put_slice|].
      apply appends_bind; [apply appends_put_slice|]. apply appends_ntext, Hl.
    + rewrite text_header_app.
      apply decodes_text_header. eapply decodes_bind_ret_eq; [|reflexivity].
      eapply decodes_bind; [apply decodes_u32_le; unfold in_unsigned; lia|].
      rewrite (Z.mul_comm 2), Z.mod_mul by lia. cbn [Z.eqb negb].
      eapply decodes_bind_last;
        [apply decodes_read_bytes; rewrite length_units_bytes; lia|].
      pose proof (utf16_strict s Hw) as E.
      rewrite (from_utf16_lossy_strict _ _ E), E. destruct (lossy_utf16 ctx); [apply decodes_ret|].
      apply decodes_lift; reflexivity.
  - eexists; split; [apply appends_put_u8|]. unfold text_decode.
    eapply decodes_bind_last; [apply decodes_u8; unfold in_unsigned; lia|]. eval_tests. apply decodes_ret.
Qed.

Lemma rt_text o n co :
  opt_wf (fun s => exists b, codepage_text co s b /\ len b < 2 ^ 32) o ->
  roundtrips (ColumnData.String o) (vls VarLenType.Text n co).
Proof.
  intros Hs. unfold roundtrips, vls, column_encode, encode_string, column_decode, var_len_decode, encode_text.
  cbn [vlc_type vlc_collation]. destruct o as [s|]; cbn [opt_wf] in Hs.
  - destruct Hs as (b & Ht & Hl). eexists; split.
    + apply appends_bind; [apply appends_put_u8|]. apply appends_bind; [apply appends_put_slice|].
      apply appends_bind; [apply appends_put_slice|].
      eapply appends_lift; [apply codepage_encode, Ht|]. apply appends_bind; apply appends_put_slice.
    + rewrite text_header_app.
      apply decodes_text_header. eapply decodes_bind_ret_eq; [|reflexivity].
      destruct Ht as (c & cc & -> & Ec & _ & Ed).
      eapply decodes_bind_nil; [apply decodes_lift, Ec|].
      eapply decodes_bind; [apply decodes_u32_le; unfold in_unsigned; lia|].
      eapply decodes_bind_last; [apply decodes_read_bytes; reflexivity|].
      rewrite (codec_decode_lossy_strict _ _ _ Ed), Ed.
      destruct (lossy_codepage ctx); [apply decodes_ret|apply decodes_lift; reflexivity].
  - eexists; split; [apply appends_put_u8|]. unfold text_decode.
    eapply decodes_bind_last; [apply decodes_u8; unfold in_unsigned; lia|]. eval_tests. apply decodes_ret.
Qed.

(** ** XML *)

(** What [xml_encode] writes: one chunk and a terminator, whatever the
    length. *)
Definition xml_bytes (x : XmlData) : bytes :=
  let b := units_bytes (encode_utf16 (xml_data x)) in
  le_bytes 8 PLP_UNKNOWN ++ le_bytes 4 (len b) ++ b ++ le_bytes 4 0.

Lemma appends_xml x : 2 * len (encode_utf16 (xml_data x)) < 2 ^ 32 ->
  appends (xml_encode oc x) (xml_bytes x).
Proof.
  intros H. unfold xml_encode, xml_bytes. set (us := encode_utf16 (xml_data x)) in *.
  apply appends_bind; [apply appends_put_slice|]. intros dst.
  rewrite length_units_bytes. replace (Z.of_nat (2 * length us)) with (len us * 2) by lia.
  rewrite <- (appends_patch (le_bytes 4 0) (le_bytes 4 (len us * 2)) _ (put_units us ;; put_u32_le 0)
                eq_refl (appends_bind _ _ _ _ (appends_put_units us) (appends_put_u32_le 0)) dst).
  rewrite !bind_run. unfold buf_len, put_u32_le.
  rewrite !(bind_ok _ _ _ _ _ (appends_put_slice (le_bytes 4 0) dst)). rewrite bind_assoc.
  rewrite !(bind_ok _ _ _ _ _ (appends_put_units us _)).
  unfold arith_u. rewrite (proj2 (Z.leb_le _ _)), (proj2 (Z.ltb_lt _ _)) by lia.
  rewrite (bind_ok (lift (Ok (len us))) _ _ _ _ eq_refl).
  rewrite !(bind_ok _ _ _ _ _ (appends_put_slice (le_bytes 4 0) _)).
  rewrite (proj2 (Z.ltb_lt (len us * 2) _)) by lia. reflexivity.
Qed.

Lemma rt_xml o schema size : 0xffff <= size ->
  opt_wf (fun x => wf_str (xml_data x) /\ xml_data x <> [] /\ xml_schema x = schema /\
                   2 * len (encode_utf16 (xml_data x)) <= MAX_PLP_SIZE) o ->
  roundtrips (ColumnData.Xml o) (TypeInfo.Xml schema size).
Proof.
  intros Hsz Hx. unfold roundtrips, column_encode, column_decode, encode_xml, xml_decode.
  destruct o as [x|]; cbn [opt_wf] in Hx.
  - destruct Hx as (Hw & Hne & Hsc & Hl). exists (xml_bytes x). split; [apply appends_xml; unfold MAX_PLP_SIZE in Hl; lia|].
    eapply decodes_bind_ret_eq; [apply (decodes_string_utf16 VarLenType.Xml size None (xml_data x)); [exact Hw|exact I|]|].
    + pose proof (plp_one_chunk size (units_bytes (encode_utf16 (xml_data x))) Hsz) as D.
      rewrite length_units_bytes in D. specialize (D ltac:(lia)). unfold xml_bytes. rewrite length_units_bytes.
      rewrite (proj2 (Z.eqb_neq _ _)) in D; [exact D|].
      destruct (xml_data x) as [|c l]; [congruence|]. unfold encode_utf16; cbn [map concat].
      rewrite length_app. unfold char_utf16. destruct (c <? 0x10000); cbn [length]; lia.
    + destruct x; cbn in *; congruence.
  - eexists; split; [apply appends_put_slice|]. eapply decodes_bind_ret_eq with (a := None); [|reflexivity].
    pose proof (decodes_put_null size) as D. rewrite (proj2 (Z.ltb_ge _ _)) in D by lia.
    unfold string_decode. eapply decodes_bind_last; [exact D|apply decodes_ret].
Qed.

(** ** The whole of it *)

(** The pairs of a value and a column type for which the row codec is
    faithful. *)
Definition fits_column (d : ColumnData) (t : TypeInfo) : Prop :=
  match t with
  | TypeInfo.FixedLen FixedLenType.Bit => exists b, d = ColumnData.Bit (Some b)
  | TypeInfo.FixedLen FixedLenType.Int1 => exists v, d = ColumnData.U8 (Some v) /\ in_unsigned 8 v
  | TypeInfo.FixedLen FixedLenType.Int2 => exists v, d = ColumnData.I16 (Some v) /\ in_signed 16 v
  | TypeInfo.FixedLen FixedLenType.Int4 => exists v, d = ColumnData.I32 (Some v) /\ in_signed 32 v
  | TypeInfo.FixedLen FixedLenType.Int8 => exists v, d = ColumnData.I64 (Some v) /\ in_signed 64 v
  | TypeInfo.FixedLen FixedLenType.Float4 => exists v, d = ColumnData.F32 (Some v) /\ in_unsigned 32 v
  | TypeInfo.FixedLen FixedLenType.Float8 => exists v, d = ColumnData.F64 (Some v) /\ in_unsigned 64 v
  | TypeInfo.FixedLen FixedLenType.Datetime => exists v, d = ColumnData.DateTime (Some v) /\ wf_datetime v
  | TypeInfo.FixedLen FixedLenType.Datetime4 => exists v, d = ColumnData.SmallDateTime (Some v) /\ wf_smalldatetime v
  | TypeInfo.FixedLen _ => False
  | TypeInfo.VarLenSized (mkVarLenContext t n co) =>
      match t with
      | VarLenType.Bitn => exists o, d = ColumnData.Bit o
      | VarLenType.Intn =>
          match d with
          | ColumnData.U8 o => opt_wf (in_unsigned 8) o /\ (o = None -> n = 1)
          | ColumnData.I16 o => opt_wf (in_signed 16) o /\ (o = None -> n = 2)
          | ColumnData.I32 o => opt_wf (in_signed 32) o /\ (o = None -> n = 4)
          | ColumnData.I64 o => opt_wf (in_signed 64) o /\ (o = None -> n = 8)
          | _ => False
          end
      | VarLenType.Floatn =>
          match d with
          | ColumnData.F32 o => opt_wf (in_unsigned 32) o /\ (o = None -> n = 4)
          | ColumnData.F64 o => opt_wf (in_unsigned 64) o /\ (o = None -> n = 8)
          | _ => False
          end
      | VarLenType.Guid => exists o, d = ColumnData.Guid o /\ opt_wf wf_guid o
      | VarLenType.Datetimen =>
          (exists o, d = ColumnData.DateTime o /\ opt_wf wf_datetime o /\ (o = None -> n = 8)) \/
          (exists o, d = ColumnData.SmallDateTime o /\ opt_wf wf_smalldatetime o /\ (o = None -> n = 4))
      | VarLenType.Daten => exists o, d = ColumnData.Date o /\ opt_wf wf_date o
      | VarLenType.Timen => exists o, d = ColumnData.Time o /\ opt_wf (fun t => fits_time t /\ time_scale t = n) o
      | VarLenType.Datetime2 =>
          exists o, d = ColumnData.DateTime2 o /\
            opt_wf (fun v => fits_datetime2 v /\ time_scale (dt2_time v) = n) o
      | VarLenType.DatetimeOffsetn =>
          exists o, d = ColumnData.DateTimeOffset o /\
            opt_wf (fun v => fits_datetimeoffset v /\ time_scale (dt2_time (datetime2 v)) = n) o
      | VarLenType.BigBinary | VarLenType.BigVarBin =>
          exists o, d = ColumnData.Binary o /\ 0 <= n <= MAX_PLP_SIZE /\ opt_wf (fun b => len b <= n) o
      | VarLenType.NChar | VarLenType.NVarchar =>
          exists o, d = ColumnData.String o /\ 0 <= n <= MAX_PLP_SIZE /\
            opt_wf (fun s => wf_str s /\ len (units_bytes (encode_utf16 s)) <= n /\ str_len s < 0xffffffff) o
      | VarLenType.BigChar | VarLenType.BigVarChar =>
          exists o, d = ColumnData.String o /\ 0 <= n <= MAX_PLP_SIZE /\
            opt_wf (fun s => exists b, codepage_text co s b /\ len b <= n /\ str_len s < 0xffffffff) o
      | VarLenType.Text =>
          exists o, d = ColumnData.String o /\ opt_wf (fun s => exists b, codepage_text co s b /\ len b < 2 ^ 32) o
      | VarLenType.NText =>
          exists o, d = ColumnData.String o /\ opt_wf (fun s => wf_str s /\ 2 * len (encode_utf16 s) < 2 ^ 32) o
      | _ => False
      end
  | TypeInfo.VarLenSizedPrecision v _ _ s =>
      (v = VarLenType.Numericn \/ v = VarLenType.Decimaln) /\
      exists o, d = ColumnData.Numeric o /\
        opt_wf (fun n => wf_numeric n /\ value n <> - 2 ^ 127 /\ scale n = s) o
  | TypeInfo.Xml schema size =>
      0xffff <= size /\ exists o, d = ColumnData.Xml o /\
        opt_wf (fun x => wf_str (xml_data x) /\ xml_data x <> [] /\ xml_schema x = schema /\
                         2 * len (encode_utf16 (xml_data x)) <= MAX_PLP_SIZE) o
  | TypeInfo.Udt _ => False
  end.

Lemma fits_roundtrips d t : fits_column d t -> roundtrips d t.
Proof.
  destruct t as [f|[v n co]|v size p s|schema size|i]; cbn [fits_column]; intros H.
  - destruct f; try contradiction; destruct H as [x H];
      try match type of H with _ /\ _ => destruct H as [H Hx] end; subst d;
      first [ apply rt_fixed_bit | apply rt_fixed_datetime; assumption
            | apply rt_fixed_smalldatetime; assumption
            | apply (rt_fixed_int _ _ x); split; [reflexivity|assumption] ].
  - destruct v; try contradiction; try (apply rt_intn, H); try (apply rt_floatn, H);
      try (destruct H as [[o [-> [? ?]]]|[o [-> [? ?]]]]; [apply rt_datetime|apply rt_smalldatetime]; assumption);
      destruct H as [o H]; repeat match type of H with _ /\ _ => destruct H as [? H] end; subst d;
      first [ apply rt_guid; assumption | apply rt_bitn | apply rt_date; assumption
            | apply rt_time; assumption | apply rt_datetime2; assumption
            | apply rt_datetimeoffset; assumption | solve [apply rt_binary; auto]
            | solve [apply rt_bigchar; auto] | solve [apply rt_nvarchar; auto]
            | solve [apply rt_text; auto] | solve [apply rt_ntext; auto] ].
  - destruct H as [Hv [o [-> Ho]]]. apply rt_numeric; assumption.
  - destruct H as [Hs [o [-> Ho]]]. apply rt_xml; assumption.
  - destruct H.
Qed.
End Roundtrip.

(** C6: every value that fits the type of its column (the integers, floats,
    bits, GUIDs, dates and times at the column's scale, decimals at the
    column's scale, text the column can represent and hold, binaries, XML,
    and the nulls of the nullable types) is accepted by [ColumnData::encode]
    for a row of that column, and [ColumnData::decode] at that type reads
    exactly the bytes written and returns the value. *)
Theorem column_roundtrip {ER : EncodingRs} (oc : bool) (powi10 : Z -> spec_float) (ctx : Context)
  (d : ColumnData) (t : TypeInfo) (H : fits_column d t) :
  exists out, appends (column_encode oc powi10 d (Some t)) out /\ decodes (column_decode ctx t) out d.
Proof. exact (fits_roundtrips oc powi10 ctx d t H). Qed.

(** [N'é'] into an [nvarchar(20)] column. *)
Lemma column_roundtrip_witness :
  exists out, appends (column_encode (ER := ascii_encoding_rs) true (fun _ => S754_nan)
                         (ColumnData.String (Some [0x4e; 0xe9]))
                         (Some (vls VarLenType.NVarchar 20 (Some (mkCollation 13632521 52))))) out /\
    decodes (column_decode (ER := ascii_encoding_rs) context_new
               (vls VarLenType.NVarchar 20 (Some (mkCollation 13632521 52)))) out
      (ColumnData.String (Some [0x4e; 0xe9])).
Proof.
  apply (column_roundtrip (ER := ascii_encoding_rs)). cbn [fits_column vls].
  exists (Some [0x4e; 0xe9]). split; [reflexivity|]. split; [vm_compute; intuition discriminate|].
  split; [repeat constructor|]. split; [vm_compute; discriminate|vm_compute; reflexivity].
Defined.

(** A MAX column announces the length 0xffff, and a row value for it goes
    out in chunks of up to 2^32 - 1 bytes; but the encoder still compares the
    value with the announced length, so a binary or a Unicode text of more
    than 65535 bytes is refused with a [BulkInput] error that names the column
    limit, and nothing is written. *)
Theorem max_column_refuses_long {ER : EncodingRs} (oc : bool) (powi10 : Z -> spec_float)
  (b : bytes) (s : str) (co : option Collation) (dst : bytes)
  (Hb : 65535 < len b) (Hs : 65535 < len (units_bytes (encode_utf16 s))) :
  (exists m, column_encode oc powi10 (ColumnData.Binary (Some b)) (Some (vls VarLenType.BigVarBin 0xffff None)) dst
             = (Err (BulkInput m), dst)) /\
  (exists m, column_encode oc powi10 (ColumnData.String (Some s)) (Some (vls VarLenType.NVarchar 0xffff co)) dst
             = (Err (BulkInput m), dst)).
Proof.
  split; eexists; cbn [column_encode vls encode_binary encode_string encode_nvarchar vlc_type vlc_len];
    rewrite (proj2 (Z.ltb_lt _ _)) by assumption; reflexivity.
Qed.

Lemma max_column_refuses_long_witness :
  (exists m, column_encode (ER := ascii_encoding_rs) true (fun _ => S754_nan)
      (ColumnData.Binary (Some (repeat 0 (Z.to_nat 65536)))) (Some (vls VarLenType.BigVarBin 0xffff None)) []
      = (Err (BulkInput m), [])) /\
  (exists m, column_encode (ER := ascii_encoding_rs) true (fun _ => S754_nan)
      (ColumnData.String (Some (repeat 65 (Z.to_nat 32768)))) (Some (vls VarLenType.NVarchar 0xffff None)) []
      = (Err (BulkInput m), [])).
Proof.
  apply (max_column_refuses_long (ER := ascii_encoding_rs)); vm_compute; reflexivity.
Defined.

(** An empty XML document does not survive the row codec: the encoder
    writes its zero-length chunk, which is the terminator of the value, and a
    terminator after it, so the decoder stops four bytes early and the next
    column starts inside the previous one. *)
Theorem empty_xml_leaves_terminator {ER : EncodingRs} (oc : bool) (powi10 : Z -> spec_float) (ctx : Context)
  (schema : option XmlSchema) (size : Z) (Hsize : 0xffff <= size) :
  let v := ColumnData.Xml (Some (mkXmlData [] schema)) in
  ~ fits_column v (TypeInfo.Xml schema size) /\
  exists out, appends (column_encode oc powi10 v (Some (TypeInfo.Xml schema size))) out /\
    forall rest, column_decode ctx (TypeInfo.Xml schema size) (out ++ rest) = (Ok v, le_bytes 4 0 ++ rest).
Proof.
  intros v. split.
  { intros (_ & o & [= <-] & _ & Hne & _). apply Hne. reflexivity. }
  exists (xml_bytes (mkXmlData [] schema)). split; [apply appends_xml; vm_compute; reflexivity|].
  intros rest. change (xml_bytes (mkXmlData [] schema)) with ((le_bytes 8 PLP_UNKNOWN ++ le_bytes 4 0) ++ le_bytes 4 0).
  rewrite <- app_assoc. revert rest.
  assert (D : decodes (column_decode ctx (TypeInfo.Xml schema size)) (le_bytes 8 PLP_UNKNOWN ++ le_bytes 4 0) v).
  { eapply decodes_bind_ret_eq with (a := Some []); [|reflexivity].
    apply (decodes_string_utf16 ctx VarLenType.Xml size None []); [constructor|exact I|].
    exact (plp_one_chunk size [] Hsize ltac:(vm_compute; discriminate)). }
  intros rest. apply D.
Qed.

Lemma empty_xml_leaves_terminator_witness :
  exists out, appends (column_encode (ER := ascii_encoding_rs) true (fun _ => S754_nan)
      (ColumnData.Xml (Some (mkXmlData [] None))) (Some (TypeInfo.Xml None 0xfffffffffffffffe))) out /\
    forall rest, column_decode (ER := ascii_encoding_rs) context_new (TypeInfo.Xml None 0xfffffffffffffffe) (out ++ rest)
      = (Ok (ColumnData.Xml (Some (mkXmlData [] None))), le_bytes 4 0 ++ rest).
Proof.
  apply (empty_xml_leaves_terminator (ER := ascii_encoding_rs) true (fun _ => S754_nan) context_new None 0xfffffffffffffffe). lia.
Defined.

(** A [time] value is written with its own scale, not the column's: in a
    column of another scale of the same width it is read back with the same
    number of increments at the column's scale, a different time of day. *)
Lemma time_not_rescaled {ER : EncodingRs} (oc : bool) (powi10 : Z -> spec_float) (ctx : Context)
  (t : Time) (n : Z) (Ht : fits_time t) (Hn : 0 <= n <= 7) (Hw : time_width n = time_width (time_scale t)) :
  exists out, appends (column_encode oc powi10 (ColumnData.Time (Some t)) (Some (vls VarLenType.Timen n None))) out /\
    decodes (column_decode ctx (vls VarLenType.Timen n None)) out
      (ColumnData.Time (Some (mkTime (increments t) n))).
Proof.
  destruct (rt_time oc powi10 ctx (Some t) (time_scale t) None (conj Ht eq_refl)) as (out & A & _).
  destruct (rt_time oc powi10 ctx (Some (mkTime (increments t) n)) n None) as (out' & A' & D').
  { split; [|reflexivity]. destruct Ht as [Hs Hi]. split; [exact Hn|]. cbn. rewrite Hw. exact Hi. }
  exists out'. split; [|exact D']. replace out' with out; [exact A|].
  assert (E : column_encode oc powi10 (ColumnData.Time (Some t)) (Some (vls VarLenType.Timen (time_scale t) None)) [] =
              column_encode oc powi10 (ColumnData.Time (Some (mkTime (increments t) n)))
                (Some (vls VarLenType.Timen n None)) []).
  { cbn [column_encode vls encode_time vlc_type]. unfold time_encode. destruct Ht as [Hs _].
    rewrite !time_len_ok by assumption. cbn [time_scale increments]. rewrite Hw. reflexivity. }
  rewrite (A []), (A' []) in E. cbn [app] in E. congruence.
Qed.

(** Five seconds at scale 0, in a [time(2)] column: five hundredths. *)
Lemma time_not_rescaled_witness :
  exists out, appends (column_encode (ER := ascii_encoding_rs) true (fun _ => S754_nan)
      (ColumnData.Time (Some (mkTime 5 0))) (Some (vls VarLenType.Timen 2 None))) out /\
    decodes (column_decode (ER := ascii_encoding_rs) context_new (vls VarLenType.Timen 2 None)) out
      (ColumnData.Time (Some (mkTime 5 2))).
Proof.
  apply (time_not_rescaled (ER := ascii_encoding_rs) true (fun _ => S754_nan) context_new (mkTime 5 0) 2).
  - split; cbn; [lia|vm_compute; intuition discriminate].
  - lia.
  - reflexivity.
Defined.
