(* ===== verification/PreLogin.v ===== *)
(** * PreLogin: the first message of a connection and what it settles,
    [tds/codec/pre_login.rs], [tds.rs] and the handshake of
    [client/connection.rs]

    A PRELOGIN message is a table of options, each with the offset and the
    length of its data in the message, a terminator and the data. *)

From S2P Require Import Prelude Unicode Utf8 Collation SqlRead SqlWrite Types TypeInfoCodec NumericCodec Temporal Money Context ColumnDecode ColumnEncode ColumnRoundtrip.

(** ** [EncryptionLevel], [tds.rs] *)

Module EncryptionLevel.
Inductive EncryptionLevel := Off | On | NotSupported | Required | Strict.

Definition encryption_as_u8 (e : EncryptionLevel) : Z :=
  match e with Off => 0 | On => 1 | NotSupported => 2 | Required => 3 | Strict => 4 end.

Definition encryption_try_from (n : Z) : option EncryptionLevel :=
  uint_try_from encryption_as_u8 [Off; On; NotSupported; Required; Strict] n.

(** [EncryptionLevel::as_wire_value] *)
Definition as_wire_value (e : EncryptionLevel) : Z :=
  match e with Strict => encryption_as_u8 Required | other => encryption_as_u8 other end.

(** What a server reads of it. *)
Definition wire_level (e : EncryptionLevel) : EncryptionLevel := match e with Strict => Required | other => other end.

Lemma encryption_wire e : encryption_try_from (as_wire_value e) = Some (wire_level e) /\ in_unsigned 8 (as_wire_value e).
Proof. destruct e; (split; [reflexivity|unfold in_unsigned; cbn; lia]). Qed.
End EncryptionLevel.
Notation EncryptionLevel := EncryptionLevel.EncryptionLevel.
Import EncryptionLevel (encryption_try_from, as_wire_value, wire_level, encryption_wire).

(** ** The message *)

Record ActivityId := mkActivityId { act_id : bytes; act_sequence : Z }.

Record PreloginMessage := mkPreloginMessage {
  pl_version : Z;
  pl_sub_build : Z;
  pl_encryption : EncryptionLevel;
  pl_instance_name : option str;
  pl_thread_id : Z;
  pl_mars : bool;
  pl_activity_id : option ActivityId;
  pl_fed_auth_required : bool;
  pl_nonce : option bytes;
}.

(** [str::splitn]: at most [n] parts, the last one with the separators that
    are left. *)
Fixpoint splitn (n : nat) (sep : Z) (s : str) : list str :=
  match n with
  | O => []
  | S O => [s]
  | S n' =>
      (fix go (s acc : str) : list str :=
         match s with
         | [] => [rev acc]
         | c :: s => if c =? sep then rev acc :: splitn n' sep s else go s (c :: acc)
         end) s []
  end.

(** [encode_driver_version], [lib.rs]: [num << (index * 8)] in a u64. *)
Definition encode_driver_version (version : str) : Z :=
  snd (fold_left (fun '(i, acc) part =>
         (i + 1, match parse_unsigned 64 part with
                 | Ok num => Z.lor acc (wrap 64 (Z.shiftl num (i * 8)))
                 | _ => acc
                 end)) (splitn 6 46 version) (0, 0)).

(** [get_driver_version]: the version in [Cargo.toml]. *)
Definition get_driver_version : Z := encode_driver_version (ascii_str "0.13.0").

(** [PreloginMessage::new] *)
Definition prelogin_new : PreloginMessage :=
  mkPreloginMessage (wrap 32 get_driver_version) (wrap 16 (Z.shiftr get_driver_version 32))
    EncryptionLevel.NotSupported None 0 false None false None.

(** [PreloginMessage::validate_instance] *)
Definition validate_instance (m : PreloginMessage) (requested : option str) : Res unit :=
  match requested, pl_instance_name m with
  | None, _ => Ok tt
  | Some _, None => Ok tt
  | Some _, Some _ => Err (Protocol "server rejected the requested instance")
  end.

Definition PRELOGIN_VERSION : Z := 0.
Definition PRELOGIN_ENCRYPTION : Z := 1.
Definition PRELOGIN_INSTOPT : Z := 2.
Definition PRELOGIN_THREADID : Z := 3.
Definition PRELOGIN_MARS : Z := 4.
Definition PRELOGIN_TRACEID : Z := 5.
Definition PRELOGIN_FEDAUTHREQUIRED : Z := 6.
Definition PRELOGIN_NONCEOPT : Z := 7.
Definition PRELOGIN_TERMINATOR : Z := 0xff.

(** ** Encoding *)

(** The options [encode] pushes: token, declared length, data. *)
Definition prelogin_parts (m : PreloginMessage) : list (Z * Z * bytes) :=
  let instance := encode_utf8 (match pl_instance_name m with Some s => s | None => [] end) in
  [(PRELOGIN_VERSION, 6, be_bytes 4 (pl_version m) ++ be_bytes 2 (pl_sub_build m));
   (PRELOGIN_ENCRYPTION, 1, le_bytes 1 (as_wire_value (pl_encryption m)));
   (PRELOGIN_INSTOPT, wrap 16 (len instance + 1), instance ++ [0]);
   (PRELOGIN_THREADID, 4, be_bytes 4 (pl_thread_id m));
   (PRELOGIN_MARS, 1, le_bytes 1 (bit_u8 (pl_mars m)))] ++
  match pl_activity_id m with
  | Some a => [(PRELOGIN_TRACEID, 0x14, reorder_bytes (act_id a) ++ le_bytes 4 (act_sequence a))]
  | None => []
  end ++
  (if pl_fed_auth_required m then [(PRELOGIN_FEDAUTHREQUIRED, 1, [1])] else []).

(** The offset table. *)
Fixpoint put_table (oc : bool) (fields : list (Z * Z * bytes)) (data_offset : Z) : M bytes unit :=
  match fields with
  | [] => ret tt
  | (token, length, _) :: fields =>
      put_u8 token ;; put_u16 data_offset ;; put_u16 length ;;
      data_offset <- lift (arith_u oc 16 (data_offset + length)) ;;
      put_table oc fields data_offset
  end.

(** [impl Encode for PreloginMessage] *)
Definition prelogin_encode (oc : bool) (m : PreloginMessage) : M bytes unit :=
  let fields := prelogin_parts m in
  put_table oc fields (wrap 16 (len fields * 5 + 1)) ;;
  put_u8 PRELOGIN_TERMINATOR ;;
  put_slice (concat (map snd fields)).

(** ** Decoding *)

(** A null-terminated string at the cursor. *)
Fixpoint read_cstr (l : bytes) : Res bytes :=
  match l with
  | [] => Err (Io UnexpectedEof)
  | b :: l => if b =? 0 then Ok [] else res_map (cons b) (read_cstr l)
  end.

(** The match of [decode] on an option, run on the bytes from its offset on. *)
Definition prelogin_option (token length : Z) (m : PreloginMessage) : M bytes PreloginMessage :=
  let '(mkPreloginMessage version sub_build encryption instance thread_id mars activity fed nonce) := m in
  if token =? PRELOGIN_VERSION then
    v <- read_uint_be 4 ;; b <- read_uint_be 2 ;;
    ret (mkPreloginMessage v b encryption instance thread_id mars activity fed nonce)
  else if token =? PRELOGIN_ENCRYPTION then
    n <- read_u8 ;;
    e <- lift (ok_or (encryption_try_from n) (Protocol "invalid encryption value")) ;;
    ret (mkPreloginMessage version sub_build e instance thread_id mars activity fed nonce)
  else if token =? PRELOGIN_INSTOPT then
    (fun l => (res_bind (read_cstr l) (fun b =>
       Ok (mkPreloginMessage version sub_build encryption
             (match b with [] => instance | _ => Some (from_utf8_lossy b) end) thread_id mars activity fed nonce)), l))
  else if token =? PRELOGIN_THREADID then
    t <- (if length =? 0 then ret 0
          else if length =? 4 then read_uint_be 4
          else fail (Protocol "prelogin: invalid threadid length")) ;;
    ret (mkPreloginMessage version sub_build encryption instance t mars activity fed nonce)
  else if token =? PRELOGIN_MARS then
    b <- read_u8 ;; ret (mkPreloginMessage version sub_build encryption instance thread_id (negb (b =? 0)) activity fed nonce)
  else if token =? PRELOGIN_TRACEID then
    data <- read_n 16 ;;
    s <- read_u32_le ;;
    ret (mkPreloginMessage version sub_build encryption instance thread_id mars
           (Some (mkActivityId (reorder_bytes data) s)) fed nonce)
  else if token =? PRELOGIN_FEDAUTHREQUIRED then
    b <- read_u8 ;; ret (mkPreloginMessage version sub_build encryption instance thread_id mars activity (negb (b =? 0)) nonce)
  else if token =? PRELOGIN_NONCEOPT then
    n <- read_n 32 ;; ret (mkPreloginMessage version sub_build encryption instance thread_id mars activity fed (Some n))
  else fail (Protocol "unsupported prelogin token").

(** The loop of [decode]: [src] is the whole message, the state what the
    cursor has left of it; a round reads five bytes. *)
Fixpoint prelogin_options (fuel : nat) (src : bytes) (m : PreloginMessage) : M bytes PreloginMessage :=
  match fuel with
  | O => out_of_fuel
  | S fuel =>
      token <- read_u8 ;;
      if token =? PRELOGIN_TERMINATOR then ret m
      else
        offset <- read_uint_be 2 ;;
        length <- read_uint_be 2 ;;
        m <- lift (fst (prelogin_option token length m (drop (Z.to_nat offset) src))) ;;
        prelogin_options fuel src m
  end.

(** [impl Decode for PreloginMessage] *)
Definition prelogin_decode (src : bytes) : Res PreloginMessage :=
  fst (prelogin_options (S (length src)) src prelogin_new src).

(** ** Encryption of the connection

    [tls] is the build: with a TLS backend or without. *)

(** [PreloginMessage::negotiated_encryption]; the message is the server's. *)
Definition negotiated_encryption (tls : bool) (m : PreloginMessage) (expected : EncryptionLevel) : Res EncryptionLevel :=
  if tls then
    match expected, pl_encryption m with
    | EncryptionLevel.NotSupported, EncryptionLevel.NotSupported => Ok EncryptionLevel.NotSupported
    | EncryptionLevel.Off, EncryptionLevel.Off => Ok EncryptionLevel.Off
    | EncryptionLevel.On, (EncryptionLevel.Off | EncryptionLevel.NotSupported) =>
        Err (Protocol "Server does not allow the requested encryption level.")
    | EncryptionLevel.Required, (EncryptionLevel.Off | EncryptionLevel.NotSupported) =>
        Err (Protocol "Server does not allow the requested encryption level.")
    | EncryptionLevel.Strict, _ => Ok EncryptionLevel.Strict
    | _, _ => Ok EncryptionLevel.On
    end
  else Ok EncryptionLevel.NotSupported.

(** [MaybeTlsStream], by its kind. *)
Inductive MaybeTlsStream := Raw | TlsStream.

(** [check_tls_backend_available], of the build without a backend. *)
Definition check_tls_backend_available (e : EncryptionLevel) : Res unit :=
  match e with
  | EncryptionLevel.On | EncryptionLevel.Required | EncryptionLevel.Strict =>
      Err (Tls "TLS encryption was requested but the crate was compiled without a TLS backend.")
  | _ => Ok tt
  end.

(** The transport [establish] starts with; [handshake] is the result of
    [create_tls_stream], the backend's. *)
Definition initial_transport (tls : bool) (config : EncryptionLevel) (handshake : Res unit) : Res MaybeTlsStream :=
  match tls, config with
  | true, EncryptionLevel.Strict => res_map (fun _ => TlsStream) handshake
  | _, _ => Ok Raw
  end.

(** [Connection::tls_handshake] *)
Definition tls_handshake (tls : bool) (config encryption : EncryptionLevel) (handshake : Res unit) (t : MaybeTlsStream)
    : Res MaybeTlsStream :=
  if tls then
    match encryption with
    | EncryptionLevel.NotSupported | EncryptionLevel.Strict => Ok t
    | EncryptionLevel.Off | EncryptionLevel.On | EncryptionLevel.Required =>
        match t with
        | Raw => res_map (fun _ => TlsStream) handshake
        | TlsStream => Panic
        end
    end
  else res_map (fun _ => t) (check_tls_backend_available config).

(** [Connection::post_login_encryption] *)
Definition post_login_encryption (tls : bool) (encryption : EncryptionLevel) (t : MaybeTlsStream) : MaybeTlsStream :=
  match tls, encryption with true, EncryptionLevel.Off => Raw | _, _ => t end.

(** The encryption of [establish]: the transports that carry the PRELOGIN, the
    LOGIN7 and what follows it. *)
Definition establish_encryption (tls : bool) (config : EncryptionLevel) (handshake : Res unit) (server : PreloginMessage)
    : Res (MaybeTlsStream * MaybeTlsStream * MaybeTlsStream) :=
  res_bind (initial_transport tls config handshake) (fun t0 =>
  res_bind (negotiated_encryption tls server config) (fun encryption =>
  res_bind (tls_handshake tls config encryption handshake t0) (fun t1 =>
  Ok (t0, t1, post_login_encryption tls encryption t1)))).

(** ** Lemmas *)

Lemma decodes_be n v : in_unsigned (8 * Z.of_nat n) v -> decodes (read_uint_be n) (be_bytes n v) v.
Proof. apply decodes_uint_be. Qed.

(** The table of options whose data starts at [off]. *)
Fixpoint table_bytes (fields : list (Z * Z * bytes)) (off : Z) : bytes :=
  match fields with
  | [] => []
  | (token, length, _) :: fields => le_bytes 1 token ++ be_bytes 2 off ++ be_bytes 2 length ++ table_bytes fields (off + length)
  end.

(** Options that declare the length of their data. *)
Definition declared (fields : list (Z * Z * bytes)) : Prop := Forall (fun '(_, length, data) => length = len data) fields.

Lemma appends_put_u16_be v : appends (put_u16 v) (be_bytes 2 v).
Proof. apply appends_put_slice. Qed.

Lemma appends_table oc fields : forall off, declared fields -> 0 <= off ->
  off + len (concat (map snd fields)) < 2 ^ 16 -> appends (put_table oc fields off) (table_bytes fields off).
Proof.
  induction fields as [|[[t l] d] fields IH]; intros off H Ho Hl; [apply appends_ret|].
  inversion_clear H as [|? ? Hd H']. cbn [map concat snd] in Hl. rewrite length_app in Hl. subst l.
  cbn [put_table table_bytes]. eapply appends_bind; [apply appends_put_u8|]. eapply appends_bind; [apply appends_put_u16_be|].
  eapply appends_bind; [apply appends_put_u16_be|]. eapply (appends_lift _ (off + len d)); [|apply IH; auto; lia].
  unfold arith_u. rewrite (proj2 (Z.leb_le _ _)), (proj2 (Z.ltb_lt _ _)) by lia. reflexivity.
Qed.

(** What reading the options one after the other makes of a message. *)
Fixpoint runs (fields : list (Z * Z * bytes)) (m m' : PreloginMessage) : Prop :=
  match fields with
  | [] => m = m'
  | (t, l, d) :: fields =>
      exists m1, 0 <= t < 255 /\ (forall rest, fst (prelogin_option t l m (d ++ rest)) = Ok m1) /\ runs fields m1 m'
  end.

Lemma options_run fields : forall fuel src pre post rest m m' off, declared fields -> runs fields m m' ->
  src = pre ++ concat (map snd fields) ++ post -> off = len pre -> off + len (concat (map snd fields)) < 2 ^ 16 ->
  (length fields < fuel)%nat ->
  prelogin_options fuel src m (table_bytes fields off ++ PRELOGIN_TERMINATOR :: rest) = (Ok m', rest).
Proof.
  induction fields as [|[[t l] d] fields IH]; intros fuel src pre post rest m m' off H R Hs -> Hl Hf;
    (destruct fuel as [|fuel]; [cbn in Hf; lia|]); cbn [prelogin_options table_bytes].
  - cbn in R. subst m'. reflexivity.
  - inversion_clear H as [|? ? Hd H']. destruct R as (m1 & Ht & Ho & R). cbn [map concat snd] in *.
    rewrite length_app in Hl. subst l. rewrite <- !app_assoc.
    rewrite (bind_ok _ _ _ _ _ (decodes_u8 t ltac:(unfold in_unsigned; lia) _)).
    rewrite (proj2 (Z.eqb_neq t PRELOGIN_TERMINATOR)) by (unfold PRELOGIN_TERMINATOR; lia).
    rewrite (bind_ok _ _ _ _ _ (decodes_be 2 (len pre) ltac:(unfold in_unsigned; cbn; lia) _)).
    rewrite (bind_ok _ _ _ _ _ (decodes_be 2 (len d) ltac:(unfold in_unsigned; cbn; lia) _)).
    assert (Hd : drop (length pre) src = d ++ concat (map snd fields) ++ post)
      by (rewrite Hs, drop_app_length, <- app_assoc; reflexivity).
    rewrite Nat2Z.id, Hd, Ho, (bind_ok (lift _) _ _ m1 _ eq_refl).
    apply (IH fuel src (pre ++ d) post); auto; [rewrite Hs, <- !app_assoc; reflexivity|rewrite length_app; lia|lia|cbn in Hf; lia].
Qed.

(** ** The round trip *)

(** A message that fits its fields. *)
Record wf_prelogin (m : PreloginMessage) : Prop := {
  wf_pl_version : in_unsigned 32 (pl_version m) /\ in_unsigned 16 (pl_sub_build m) /\ in_unsigned 32 (pl_thread_id m);
  wf_pl_instance : match pl_instance_name m with
                   | Some s => wf_str s /\ s <> [] /\ Forall (fun c => c <> 0) s /\ str_len s <= 65000
                   | None => True
                   end;
  wf_pl_activity : match pl_activity_id m with
                   | Some a => wf_guid (act_id a) /\ in_unsigned 32 (act_sequence a)
                   | None => True
                   end;
}.

(** What a server reads of a client's message: the level as it is sent, and no
    nonce, which only a server sends. *)
Definition received (m : PreloginMessage) : PreloginMessage :=
  mkPreloginMessage (pl_version m) (pl_sub_build m) (wire_level (pl_encryption m)) (pl_instance_name m) (pl_thread_id m)
    (pl_mars m) (pl_activity_id m) (pl_fed_auth_required m) None.

Lemma read_cstr_app b rest : Forall (fun x => x <> 0) b -> read_cstr (b ++ 0 :: rest) = Ok b.
Proof.
  intros H. induction H as [|x b Hx _ IH]; [reflexivity|]. cbn [app read_cstr].
  rewrite (proj2 (Z.eqb_neq _ _)) by exact Hx. rewrite IH. reflexivity.
Qed.

Lemma parts_declared m : wf_prelogin m -> declared (prelogin_parts m).
Proof.
  intros [_ Hi Ha]. unfold prelogin_parts, declared. rewrite !Forall_app. split; [|split].
  - assert (E : forall s, str_len s <= 65000 -> wrap 16 (len (encode_utf8 s) + 1) = len (encode_utf8 s ++ [0])).
    { intros s Hs. rewrite length_app, <- length_encode_utf8 in *. cbn [length].
      rewrite wrap_small by (unfold in_unsigned; lia). lia. }
    repeat constructor. destruct (pl_instance_name m) as [s|]; apply E; [apply Hi|cbn; lia].
  - destruct (pl_activity_id m) as [a|]; [|constructor]. destruct Ha as [[_ L] _].
    constructor; [|constructor]. rewrite length_app, length_reorder, length_le_bytes, L. reflexivity.
  - destruct (pl_fed_auth_required m); repeat constructor.
Qed.

Lemma parts_size m : wf_prelogin m -> len (prelogin_parts m) * 5 + 1 + len (concat (map snd (prelogin_parts m))) < 2 ^ 16.
Proof.
  intros [_ Hi Ha]. unfold prelogin_parts. set (inst := match pl_instance_name m with Some s => s | None => [] end).
  assert (L : len (encode_utf8 inst) <= 65000).
  { rewrite length_encode_utf8. unfold inst. destruct (pl_instance_name m); [apply Hi|cbn; lia]. }
  cbn [app map concat snd length]. rewrite !map_app, !concat_app, !length_app. cbn [length].
  rewrite !length_be_bytes, !length_le_bytes.
  assert (A : len (concat (map snd (match pl_activity_id m with Some a => [(PRELOGIN_TRACEID, 0x14, reorder_bytes (act_id a) ++ le_bytes 4 (act_sequence a))] | None => [] end))) <= 20).
  { destruct (pl_activity_id m) as [a|]; [|cbn; lia]. destruct Ha as [[_ L'] _]. cbn [map concat snd].
    rewrite app_nil_r, length_app, length_reorder, length_le_bytes, L'. lia. }
  destruct (pl_activity_id m) as [a|]; destruct (pl_fed_auth_required m); cbn [length map concat snd app] in *; lia.
Qed.

(** An option read from its own data. *)
Lemma option_run (c : M bytes PreloginMessage) d m' : decodes c d m' -> forall rest, fst (c (d ++ rest)) = Ok m'.
Proof. intros H rest. rewrite H. reflexivity. Qed.

Lemma fed_run (fed : bool) v s e i t mars a n (m' : PreloginMessage) :
  m' = mkPreloginMessage v s e i t mars a (if fed then true else false) n ->
  runs (if fed then [(PRELOGIN_FEDAUTHREQUIRED, 1, [1])] else []) (mkPreloginMessage v s e i t mars a false n) m'.
Proof.
  intros ->. destruct fed; [|reflexivity]. eexists. split; [unfold PRELOGIN_FEDAUTHREQUIRED; lia|]. split; [|reflexivity].
  intros rest. reflexivity.
Qed.

Lemma instance_read s (def : option str) : wf_str s /\ s <> [] /\ Forall (fun c => c <> 0) s /\ str_len s <= 65000 ->
  match encode_utf8 s with [] => def | _ => Some (from_utf8_lossy (encode_utf8 s)) end = Some s.
Proof.
  intros (Hs & Hn & _). destruct (encode_utf8 s) eqn:E; [elim Hn; apply encode_utf8_nil, E|].
  rewrite <- E, <- (app_nil_r (encode_utf8 s)), from_encode_utf8 by exact Hs. rewrite app_nil_r. reflexivity.
Qed.

Lemma parts_run m : wf_prelogin m -> runs (prelogin_parts m) prelogin_new (received m).
Proof.
  intros [(Hv & Hs & Ht) Hi Ha]. destruct (encryption_wire (pl_encryption m)) as [We Wr].
  unfold prelogin_parts. cbn [app runs].
  eexists. split; [unfold PRELOGIN_VERSION; lia|]. split.
  { apply option_run. unfold prelogin_new, prelogin_option. cbn [Z.eqb PRELOGIN_VERSION].
    eapply decodes_bind; [apply decodes_be, Hv|]. eapply decodes_bind_ret, decodes_be, Hs. }
  eexists. split; [unfold PRELOGIN_ENCRYPTION; lia|]. split.
  { apply option_run. cbn [prelogin_option Z.eqb PRELOGIN_VERSION PRELOGIN_ENCRYPTION].
    eapply decodes_bind_last; [apply decodes_u8, Wr|]. rewrite We. eapply decodes_bind_nil; [apply decodes_lift; reflexivity|apply decodes_ret]. }
  eexists. split; [unfold PRELOGIN_INSTOPT; lia|]. split.
  { intros rest. cbn [prelogin_option Z.eqb PRELOGIN_VERSION PRELOGIN_ENCRYPTION PRELOGIN_INSTOPT Pos.eqb fst].
    rewrite <- app_assoc. cbn [app]. rewrite read_cstr_app; [reflexivity|].
    destruct (pl_instance_name m) as [s|]; [apply encode_utf8_no_nul; apply Hi|constructor]. }
  eexists. split; [unfold PRELOGIN_THREADID; lia|]. split.
  { apply option_run. cbn [prelogin_option Z.eqb PRELOGIN_VERSION PRELOGIN_ENCRYPTION PRELOGIN_INSTOPT PRELOGIN_THREADID Pos.eqb].
    eapply decodes_bind_ret, decodes_be, Ht. }
  eexists. split; [unfold PRELOGIN_MARS; lia|]. split.
  { apply option_run. cbn [prelogin_option Z.eqb PRELOGIN_VERSION PRELOGIN_ENCRYPTION PRELOGIN_INSTOPT PRELOGIN_THREADID PRELOGIN_MARS Pos.eqb].
    eapply decodes_bind_ret, decodes_u8. destruct (pl_mars m); unfold in_unsigned; cbn; lia. }
  destruct (pl_activity_id m) as [a|] eqn:Ea; cbn [app runs].
  - destruct Ha as [Hg Hq]. eexists. split; [unfold PRELOGIN_TRACEID; lia|]. split.
    { apply option_run. cbn [prelogin_option]. cbn [Z.eqb Pos.eqb PRELOGIN_VERSION PRELOGIN_ENCRYPTION PRELOGIN_INSTOPT PRELOGIN_THREADID
        PRELOGIN_MARS PRELOGIN_TRACEID].
      eapply decodes_bind; [apply decodes_read_n; rewrite length_reorder; apply Hg|].
      rewrite reorder_involutive by apply Hg. eapply decodes_bind_ret, decodes_u32_le, Hq. }
    apply fed_run. cbn. unfold received. rewrite Ea.
    f_equal; first [destruct a; reflexivity | destruct (pl_mars m); reflexivity | destruct (pl_fed_auth_required m); reflexivity | idtac].
    destruct (pl_instance_name m) as [s|]; [|reflexivity]. symmetry. apply instance_read, Hi.
  - apply fed_run. cbn. unfold received. rewrite Ea. f_equal; first [destruct (pl_mars m); reflexivity | destruct (pl_fed_auth_required m); reflexivity | idtac].
    destruct (pl_instance_name m) as [s|]; [|reflexivity]. symmetry. apply instance_read, Hi.
Qed.

(** Every option reader ends in a message or an error. *)
Lemma option_safe token length m l : res_safe (fun _ => True) (fst (prelogin_option token length m l)).
Proof.
  assert (N : forall n (k : bytes -> M bytes PreloginMessage), (forall b l, res_safe (fun _ => True) (fst (k b l))) ->
    forall l, res_safe (fun _ => True) (fst (bind (read_n n) k l))).
  { intros n k Hk l0. rewrite bind_run, read_n_bytes. destruct (_ <=? _)%nat; [apply Hk|exact I]. }
  assert (U : forall n (k : Z -> M bytes PreloginMessage), (forall v l, res_safe (fun _ => True) (fst (k v l))) ->
    forall l, res_safe (fun _ => True) (fst (bind (read_uint_be n) k l)) /\ res_safe (fun _ => True) (fst (bind (read_uint_le n) k l))).
  { intros n k Hk l0. unfold read_uint_be, read_uint_le. rewrite !bind_assoc. split; apply N; intros b l1; apply Hk. }
  destruct m as [v sb e i t mars a f n]. unfold prelogin_option.
  repeat match goal with |- context [if token =? ?x then _ else _] => destruct (token =? x) end.
  - apply U. intros ? ?. apply U. intros ? ?. exact I.
  - apply U. intros x l0. rewrite bind_run. unfold lift. destruct (encryption_try_from x); exact I.
  - cbn. assert (C : forall b, res_safe (fun _ => True) (read_cstr b)).
    { induction b as [|x b IH]; [exact I|]. cbn. destruct (x =? 0); [exact I|]. destruct (read_cstr b); exact IH. }
    specialize (C l). destruct (read_cstr l); exact C.
  - destruct (length =? 0); [exact I|]. destruct (length =? 4); [apply U; intros ? ?; exact I|exact I].
  - apply U. intros ? ?. exact I.
  - apply N. intros b l0. apply U. intros ? ?. exact I.
  - apply U. intros ? ?. exact I.
  - apply N. intros ? ?. exact I.
  - exact I.
Qed.

Lemma options_safe fuel : forall src m l, (length l < fuel)%nat ->
  res_safe (fun _ => True) (fst (prelogin_options fuel src m l)).
Proof.
  induction fuel as [|fuel IH]; intros src m l Hf; [lia|]. cbn [prelogin_options].
  unfold read_u8, read_uint_le, read_uint_be. rewrite !bind_assoc, bind_run, read_n_bytes.
  destruct (Nat.leb_spec 1 (length l)); [|exact I]. rewrite bind_ret_l. destruct (_ =? _); [exact I|].
  rewrite bind_assoc, bind_run, read_n_bytes. destruct (Nat.leb_spec 2 (length (drop 1 l))); [|exact I].
  rewrite bind_ret_l, bind_assoc, bind_run, read_n_bytes. destruct (_ <=? _)%nat; [|exact I].
  rewrite bind_ret_l, bind_run. unfold lift.
  match goal with |- context [prelogin_option ?a ?b ?c ?d] => pose proof (option_safe a b c d) as S; destruct (prelogin_option a b c d) as [[m'|e| |] l'] end;
    try exact S. apply IH. rewrite !length_drop in *. lia.
Qed.

(** ** Properties *)

(** A PRELOGIN message whose values fit its options (an instance name
    without NUL, a table and data within 64 KiB) is encoded with a table whose
    offsets point at the data of each option, and the decoder reads it back:
    versions, instance, thread, MARS, trace id and federated authentication as
    they were, [Strict] as the [Required] it is sent as, no nonce; and on any
    bytes at all the decoder ends in a message or an error, wherever the
    offsets point. *)
Theorem prelogin_roundtrip (oc : bool) (m : PreloginMessage) (H : wf_prelogin m) :
  (exists out, appends (prelogin_encode oc m) out /\ prelogin_decode out = Ok (received m)) /\
  (forall src, exists r, prelogin_decode src = r /\ match r with Ok _ | Err _ => True | Panic | OutOfFuel => False end).
Proof.
  split.
  - pose proof (parts_declared m H) as D. pose proof (parts_size m H) as S.
    set (fs := prelogin_parts m) in *. set (off := len fs * 5 + 1) in *.
    exists (table_bytes fs off ++ [PRELOGIN_TERMINATOR] ++ concat (map snd fs)). split.
    { unfold prelogin_encode. fold fs off. rewrite wrap_small by (unfold in_unsigned; lia).
      eapply appends_bind; [apply appends_table; auto; lia|].
      eapply appends_bind; [apply appends_put_u8|apply appends_put_slice]. }
    unfold prelogin_decode. set (src := table_bytes _ _ ++ _) at 2 3.
    assert (L : forall l o, length (table_bytes l o) = (5 * length l)%nat).
    { induction l as [|[[t x] d] l IH]; intros o; [reflexivity|]. cbn [table_bytes length].
      rewrite !length_app, !length_be_bytes, length_le_bytes, IH. lia. }
    rewrite (options_run fs _ src (table_bytes fs off ++ [PRELOGIN_TERMINATOR]) [] (concat (map snd fs)) _ (received m) off D
      (parts_run m H)); [reflexivity| | |lia|].
    + unfold src. rewrite app_nil_r, <- app_assoc. reflexivity.
    + rewrite length_app, L. cbn [length]. unfold off. lia.
    + unfold src. rewrite !length_app, L. lia.
  - intros src. eexists. split; [reflexivity|]. unfold prelogin_decode.
    pose proof (options_safe (S (length src)) src prelogin_new src ltac:(lia)) as R.
    destruct (fst _); exact R.
Qed.

Definition sample_prelogin : PreloginMessage :=
  mkPreloginMessage 0x000d0000 0 EncryptionLevel.Strict (Some (ascii_str "SQLEXPRESS")) 0 false
    (Some (mkActivityId (repeat 7 16) 3)) true None.

Lemma prelogin_roundtrip_witness : wf_prelogin sample_prelogin /\
  exists out, appends (prelogin_encode true sample_prelogin) out /\ prelogin_decode out = Ok (received sample_prelogin).
Proof.
  assert (W : wf_prelogin sample_prelogin).
  { split; cbn; [unfold in_unsigned; lia| |].
    - repeat split; try (repeat constructor; discriminate); discriminate.
    - unfold wf_guid, in_unsigned. cbn. repeat split; try lia. repeat constructor; unfold is_byte; lia. }
  split; [exact W|]. apply (prelogin_roundtrip true sample_prelogin W).
Defined.

Lemma never_downgraded (tls : bool) (config : EncryptionLevel) (handshake : Res unit) (server : PreloginMessage)
  (Hh : handshake <> Panic) :
  match establish_encryption tls config handshake server with
  | Ok (prelogin, login, session) =>
      (match config with
       | EncryptionLevel.Strict => prelogin = TlsStream /\ login = TlsStream /\ session = TlsStream
       | EncryptionLevel.On | EncryptionLevel.Required => login = TlsStream /\ session = TlsStream
       | _ => True
       end) /\
      (login = Raw -> if tls then config = EncryptionLevel.NotSupported /\ pl_encryption server = EncryptionLevel.NotSupported
                      else config = EncryptionLevel.NotSupported \/ config = EncryptionLevel.Off) /\
      (login = TlsStream -> session = Raw -> config = EncryptionLevel.Off /\ pl_encryption server = EncryptionLevel.Off)
  | Panic => False
  | _ => True
  end.
Proof.
  unfold establish_encryption, initial_transport, negotiated_encryption, tls_handshake, post_login_encryption, check_tls_backend_available.
  destruct tls, config, handshake; try congruence; destruct (pl_encryption server); cbn; try exact I;
    repeat split; try congruence; auto.
Qed.

(** C22: a connection that goes on past the handshake is encrypted the way its
    configuration asks: with [On], [Required] or [Strict] the login and all
    that follows it travel inside TLS, and [Strict] the PRELOGIN too, whatever
    the server answers and whether or not a TLS backend was compiled in (a
    build without one refuses them); a login goes in the clear only if both
    sides said they do not support encryption or, in a build without a TLS
    backend, if the configuration does not ask for encryption ([Off] or
    [NotSupported]); TLS is dropped after the login only if both sides said
    [Off]; and the state the source calls unreachable is, unless the TLS
    library itself panics. *)
Theorem encryption_never_downgraded (tls : bool) (config : EncryptionLevel) (handshake : Res unit) (server : PreloginMessage)
  (Hh : handshake <> Panic) :
  match establish_encryption tls config handshake server with
  | Ok (prelogin, login, session) =>
      (match config with
       | EncryptionLevel.Strict => prelogin = TlsStream /\ login = TlsStream /\ session = TlsStream
       | EncryptionLevel.On | EncryptionLevel.Required => login = TlsStream /\ session = TlsStream
       | _ => True
       end) /\
      (login = Raw -> if tls then config = EncryptionLevel.NotSupported /\ pl_encryption server = EncryptionLevel.NotSupported
                      else config = EncryptionLevel.NotSupported \/ config = EncryptionLevel.Off) /\
      (login = TlsStream -> session = Raw -> config = EncryptionLevel.Off /\ pl_encryption server = EncryptionLevel.Off)
  | Panic => False
  | _ => True
  end.
Proof. exact (never_downgraded tls config handshake server Hh). Qed.

Lemma encryption_never_downgraded_witness :
  establish_encryption true EncryptionLevel.Required (Ok tt) (received sample_prelogin) = Ok (Raw, TlsStream, TlsStream) /\
  (match EncryptionLevel.Required with
   | EncryptionLevel.Strict => Raw = TlsStream /\ TlsStream = TlsStream /\ TlsStream = TlsStream
   | EncryptionLevel.On | EncryptionLevel.Required => TlsStream = TlsStream /\ TlsStream = TlsStream
   | _ => True
   end).
Proof.
  split; [reflexivity|].
  exact (proj1 (encryption_never_downgraded true EncryptionLevel.Required (Ok tt) (received sample_prelogin) ltac:(discriminate))).
Defined.
