(* ===== verification/VariantRoundtrip.v ===== *)
(** * VariantRoundtrip: [sql_variant] values read back

    [sql_variant::encode] against [sql_variant::decode]: the base type
    written for a value is the one the decoder maps back onto it. *)

From S2P Require Import Prelude Unicode Collation SqlRead SqlWrite Types TypeInfoCodec NumericCodec Temporal Money Context ColumnDecode ColumnEncode ColumnRoundtrip.

Section Variant.
Context {ER : EncodingRs} (ctx : Context).

(** The bytes of a variant: total length, base type, property count,
    properties, value. *)
Definition variant_bytes (bt : Z) (props val : bytes) : bytes :=
  le_bytes 4 (2 + len props + len val) ++ le_bytes 1 bt ++ le_bytes 1 (len props) ++ props ++ val.

Lemma decodes_variant bt props val d : in_unsigned 8 bt -> len props < 256 -> len val <= MAX_VARIANT_PAYLOAD ->
  decodes (match fixed_try_from bt with
           | Some fixed =>
               if negb (len props =? 0)
               then fail (Protocol "sql_variant: fixed base type must not carry property bytes")
               else fixed_len_decode fixed
           | None => match var_try_from bt with
                     | None => fail (Protocol "sql_variant: unknown base type")
                     | Some var => variant_var ctx var (len props) (len val)
                     end
           end) (props ++ val) d ->
  decodes (sql_variant_decode ctx) (variant_bytes bt props val) d.
Proof.
  intros Hb Hp Hv Hd. unfold sql_variant_decode, variant_bytes, MAX_VARIANT_PAYLOAD in *.
  eapply decodes_bind; [apply decodes_u32_le; unfold in_unsigned; lia|].
  rewrite (proj2 (Z.eqb_neq _ _)), (proj2 (Z.ltb_ge _ 2)) by lia.
  eapply decodes_bind; [apply decodes_u8, Hb|].
  eapply decodes_bind; [apply decodes_u8; unfold in_unsigned; lia|].
  rewrite (proj2 (Z.ltb_ge _ (2 + len props))) by lia. cbn zeta.
  replace (2 + len props + len val - 2 - len props) with (len val) by lia.
  rewrite (proj2 (Z.ltb_ge _ _)) by lia. exact Hd.
Qed.

Lemma decodes_check_prop a : decodes (check_prop_bytes a a) [] tt.
Proof. unfold check_prop_bytes. rewrite Z.eqb_refl. apply decodes_ret. Qed.
Lemma decodes_check_len a : decodes (check_data_len a a) [] tt.
Proof. unfold check_data_len. rewrite Z.eqb_refl. apply decodes_ret. Qed.

(** What goes before the value, and the value. *)
Definition variant_parts (d : ColumnData) : option (Z * bytes * bytes) :=
  match d with
  | ColumnData.Bit (Some v) => Some (fixed_as_u8 FixedLenType.Bit, [], le_bytes 1 (bit_u8 v))
  | ColumnData.U8 (Some v) => Some (fixed_as_u8 FixedLenType.Int1, [], le_bytes 1 v)
  | ColumnData.I16 (Some v) => Some (fixed_as_u8 FixedLenType.Int2, [], le_bytes 2 v)
  | ColumnData.I32 (Some v) => Some (fixed_as_u8 FixedLenType.Int4, [], le_bytes 4 v)
  | ColumnData.I64 (Some v) => Some (fixed_as_u8 FixedLenType.Int8, [], le_bytes 8 v)
  | ColumnData.F32 (Some v) => Some (fixed_as_u8 FixedLenType.Float4, [], le_bytes 4 v)
  | ColumnData.F64 (Some v) => Some (fixed_as_u8 FixedLenType.Float8, [], le_bytes 8 v)
  | ColumnData.DateTime (Some v) => Some (fixed_as_u8 FixedLenType.Datetime, [], datetime_bytes v)
  | ColumnData.SmallDateTime (Some v) => Some (fixed_as_u8 FixedLenType.Datetime4, [], smalldatetime_bytes v)
  | ColumnData.Guid (Some g) => Some (var_as_u8 VarLenType.Guid, [], reorder_bytes g)
  | ColumnData.Numeric (Some n) =>
      Some (var_as_u8 VarLenType.Numericn, le_bytes 1 (precision n) ++ le_bytes 1 (scale n), drop 1 (numeric_bytes n))
  | ColumnData.String (Some s) =>
      Some (var_as_u8 VarLenType.NVarchar, repeat 0 5 ++ le_bytes 2 MAX_VARIANT_PAYLOAD, units_bytes (encode_utf16 s))
  | ColumnData.Binary (Some b) => Some (var_as_u8 VarLenType.BigVarBin, le_bytes 2 MAX_VARIANT_PAYLOAD, b)
  | ColumnData.Date (Some v) => Some (var_as_u8 VarLenType.Daten, [], date_bytes v)
  | ColumnData.Time (Some v) => Some (var_as_u8 VarLenType.Timen, le_bytes 1 (time_scale v), time_bytes v)
  | ColumnData.DateTime2 (Some v) =>
      Some (var_as_u8 VarLenType.Datetime2, le_bytes 1 (time_scale (dt2_time v)), datetime2_bytes v)
  | ColumnData.DateTimeOffset (Some v) =>
      Some (var_as_u8 VarLenType.DatetimeOffsetn, le_bytes 1 (time_scale (dt2_time (datetime2 v))), datetimeoffset_bytes v)
  | _ => None
  end.

(** The values a [sql_variant] can carry exactly. *)
Definition fits_variant (d : ColumnData) : Prop :=
  match d with
  | ColumnData.Bit (Some _) => True
  | ColumnData.U8 (Some v) => in_unsigned 8 v
  | ColumnData.I16 (Some v) => in_signed 16 v
  | ColumnData.I32 (Some v) => in_signed 32 v
  | ColumnData.I64 (Some v) => in_signed 64 v
  | ColumnData.F32 (Some v) => in_unsigned 32 v
  | ColumnData.F64 (Some v) => in_unsigned 64 v
  | ColumnData.DateTime (Some v) => wf_datetime v
  | ColumnData.SmallDateTime (Some v) => wf_smalldatetime v
  | ColumnData.Guid (Some g) => wf_guid g
  | ColumnData.Numeric (Some n) => wf_numeric n /\ value n <> - 2 ^ 127
  | ColumnData.String (Some s) => wf_str s /\ len (units_bytes (encode_utf16 s)) <= MAX_VARIANT_PAYLOAD
  | ColumnData.Binary (Some b) => len b <= MAX_VARIANT_PAYLOAD
  | ColumnData.Date (Some v) => wf_date v
  | ColumnData.Time (Some v) => fits_time v
  | ColumnData.DateTime2 (Some v) => fits_datetime2 v
  | ColumnData.DateTimeOffset (Some v) => fits_datetimeoffset v
  | _ => False
  end.

(** Running a body writer that ends in [ret true]. *)
Lemma body_run (w : M bytes unit) out : appends w out ->
  forall k : M bytes bool, forall dst, (w ;; k) dst = k (dst ++ out).
Proof. intros H k dst. apply (bind_ok w (fun _ => k) dst tt _ (H dst)). Qed.

Lemma time_len_wire t : fits_time t -> len (time_bytes t) = Z.of_nat (time_width (time_scale t)).
Proof. intros _. unfold time_bytes. rewrite length_le_bytes. reflexivity. Qed.

Lemma datetime2_len_wire d : fits_datetime2 d ->
  len (datetime2_bytes d) = Z.of_nat (time_width (time_scale (dt2_time d))) + 3.
Proof.
  intros Hf. unfold datetime2_bytes. rewrite length_app, Nat2Z.inj_add, time_len_wire by apply Hf. reflexivity.
Qed.

Lemma datetimeoffset_len_wire d : fits_datetimeoffset d ->
  len (datetimeoffset_bytes d) = Z.of_nat (time_width (time_scale (dt2_time (datetime2 d)))) + 5.
Proof.
  intros Hf. unfold datetimeoffset_bytes. rewrite length_app, Nat2Z.inj_add, datetime2_len_wire by apply Hf.
  rewrite length_le_bytes. lia.
Qed.

Lemma variant_body_spec d bt props val : fits_variant d -> variant_parts d = Some (bt, props, val) ->
  variant_body d [] = (Ok true, le_bytes 1 bt ++ le_bytes 1 (len props) ++ props ++ val).
Proof.
  intros Hf Hp. destruct d as [o|o|o|o|o|o|o|o|o|o|o|o|o|o|o|o|o|o]; destruct o as [v|]; try discriminate;
    cbn [variant_parts] in Hp; injection Hp as <- <- <-; cbn [variant_body fits_variant] in *;
    unfold put_i16_le, put_i32_le, put_i64_le, put_f32_le, put_f64_le, put_u8, put_u16_le, put_u32_le, put_u64_le.
  all: try (rewrite !(body_run _ _ (appends_put_slice _)); reflexivity).
  - destruct Hf as [Hw Hl]. cbn zeta. rewrite (proj2 (Z.ltb_ge _ _)) by lia.
    rewrite !(body_run _ _ (appends_put_slice _)). cbn [app]. rewrite <- ?app_assoc. reflexivity.
  - rewrite (proj2 (Z.ltb_ge _ _)) by lia.
    rewrite !(body_run _ _ (appends_put_slice _)). cbn [app]. rewrite <- ?app_assoc. reflexivity.
  - destruct Hf as [Hw Hm]. pose proof (appends_numeric v Hw Hm []) as N. cbn [app] in N.
    rewrite !(body_run _ _ (appends_put_slice _)). rewrite bind_run, N. unfold put_slice, ret. cbn [app].
    rewrite <- ?app_assoc. reflexivity.
  - rewrite !(body_run _ _ (appends_put_slice _)), (body_run _ _ (appends_time v Hf)).
    cbn [app]. rewrite <- ?app_assoc. reflexivity.
  - rewrite !(body_run _ _ (appends_put_slice _)), (body_run _ _ (appends_date v Hf)).
    cbn [app]. rewrite <- ?app_assoc. reflexivity.
  - rewrite !(body_run _ _ (appends_put_slice _)), (body_run _ _ (appends_datetime2 v Hf)).
    cbn [app]. rewrite <- ?app_assoc. reflexivity.
  - rewrite !(body_run _ _ (appends_put_slice _)), (body_run _ _ (appends_datetimeoffset v Hf)).
    cbn [app]. rewrite <- ?app_assoc. reflexivity.
Qed.

Lemma decodes_variant_fixed f val d : len val <= MAX_VARIANT_PAYLOAD -> decodes (fixed_len_decode f) val d ->
  decodes (sql_variant_decode ctx) (variant_bytes (fixed_as_u8 f) [] val) d.
Proof.
  intros Hv Hd. apply decodes_variant; [destruct f; split; vm_compute; congruence|reflexivity|exact Hv|].
  rewrite FixedLenType.fixed_try_from_as_u8. exact Hd.
Qed.

Lemma decodes_variant_var v props val d : len props < 256 -> len val <= MAX_VARIANT_PAYLOAD ->
  decodes (variant_var ctx v (len props) (len val)) (props ++ val) d ->
  decodes (sql_variant_decode ctx) (variant_bytes (var_as_u8 v) props val) d.
Proof.
  intros Hp Hv Hd. apply decodes_variant; [apply VarLenType.var_as_u8_range|exact Hp|exact Hv|].
  rewrite VarLenType.fixed_try_from_var, VarLenType.var_try_from_as_u8. exact Hd.
Qed.

(** A decimal inside a variant: no length byte, checked words. *)
Lemma checked_in w v : in_signed w v -> checked w v = Some v.
Proof. intros H. unfold checked. rewrite (proj2 (is_signed_spec w v) H). reflexivity. Qed.

Lemma words_ok l w : (8 <= length l)%nat -> le_val l = w -> 0 <= w < 2 ^ 127 -> wf_bytes l ->
  match checked 128 (le_val (drop 8 l) * 2 ^ 64) with
  | Some hi => ok_or (checked 128 (hi + le_val (take 8 l))) (Protocol "sql_variant: numeric magnitude out of range")
  | None => Err (Protocol "sql_variant: numeric magnitude out of range")
  end = Ok w.
Proof.
  intros Hl E Hw Hb. rewrite <- (take_drop 8 l), le_val_app, length_take, Nat.min_l in E by lia.
  change (2 ^ (8 * Z.of_nat 8)) with (2 ^ 64) in E.
  pose proof (le_val_range _ (Forall_take _ 8 _ Hb)) as [L0 _].
  pose proof (le_val_range _ (Forall_drop _ 8 _ Hb)) as [H0 _].
  rewrite checked_in by (unfold in_signed; change (128 - 1) with 127; lia).
  rewrite checked_in by (unfold in_signed; change (128 - 1) with 127; lia). cbn. f_equal. lia.
Qed.

Lemma decodes_variant_numeric n : wf_numeric n -> value n <> - 2 ^ 127 ->
  decodes (variant_numeric (len (drop 1 (numeric_bytes n))) (scale n)) (drop 1 (numeric_bytes n))
    (ColumnData.Numeric (Some n)).
Proof.
  intros H Hm. set (sg := if value n <? 0 then 0 else 1).
  set (k := (Z.to_nat (numeric_len n) - 1)%nat). set (mag := le_bytes k (Z.abs (value n))).
  change (drop 1 (numeric_bytes n)) with (le_bytes 1 sg ++ mag).
  assert (Hlen : len (le_bytes 1 sg ++ mag) = 1 + Z.of_nat k)
    by (rewrite length_app; unfold mag; rewrite !length_le_bytes; lia).
  assert (Hk : k = 4%nat \/ k = 8%nat \/ k = 12%nat \/ k = 16%nat)
    by (unfold k; destruct (numeric_len_spec n H Hm) as [[-> _]|[[-> _]|[[-> _]|[-> _]]]]; auto).
  assert (Hval : le_val mag = Z.abs (value n) /\ Z.abs (value n) < 2 ^ 127).
  { unfold mag, k. rewrite le_val_bytes.
    destruct (numeric_len_spec n H Hm) as [[-> L]|[[-> L]|[[-> L]|[-> L]]]];
      (split; [apply wrap_small; split; [apply Z.abs_nonneg|eapply Z.lt_le_trans; [exact L|vm_compute; discriminate]]
              |eapply Z.lt_le_trans; [exact L|vm_compute; discriminate]]). }
  destruct Hval as [Hval Hmax]. rewrite Hlen. unfold variant_numeric. cbn zeta.
  rewrite (proj2 (Z.eqb_neq _ _)), (proj2 (Z.ltb_ge _ _)) by (destruct H as [_ Hs]; lia).
  eapply decodes_bind; [apply decodes_u8; unfold sg; destruct (value n <? 0); split; vm_compute; congruence|].
  eapply decodes_bind_nil with (a := if value n <? 0 then -1 else 1).
  { unfold sg. destruct (value n <? 0); eval_tests; apply decodes_ret. }
  replace (1 + Z.of_nat k - 1) with (Z.of_nat k) by lia.
  eapply decodes_bind_last; [apply decodes_read_bytes; unfold mag; rewrite length_le_bytes; reflexivity|].
  assert (Lm : length mag = k) by (unfold mag; apply length_le_bytes).
  eapply decodes_bind_nil with (a := Z.abs (value n)).
  { apply decodes_lift. rewrite Lm, <- Hval.
    pose proof (words_ok mag (Z.abs (value n))) as W. rewrite Lm in W.
    destruct Hk as [-> |[-> |[-> | ->]]]; eval_tests; try reflexivity;
      rewrite Hval; apply W; auto using le_bytes_wf; try lia; unfold mag; apply le_bytes_wf. }
  assert (Sv : Z.abs (value n) * (if value n <? 0 then -1 else 1) = value n)
    by (destruct (Z.ltb_spec (value n) 0); lia).
  eapply decodes_bind_nil; [apply decodes_lift; rewrite Sv, checked_in by apply H; reflexivity|].
  eapply decodes_bind_ret_eq; [apply decodes_lift, new_with_scale_ok, H|reflexivity].
Qed.

(** Each variable-length base type, against what was written for it. *)
Lemma decodes_variant_guid g : wf_guid g ->
  decodes (variant_var ctx VarLenType.Guid 0 (len (reorder_bytes g))) (reorder_bytes g) (ColumnData.Guid (Some g)).
Proof.
  intros [_ L]. rewrite length_reorder, L. cbn [variant_var].
  do 2 (eapply decodes_bind_nil; [apply decodes_ret|]).
  eapply decodes_bind_ret_eq; [apply decodes_read_bytes; rewrite length_reorder, L; reflexivity|].
  rewrite reorder_involutive by exact L. reflexivity.
Qed.

Lemma decodes_variant_string s : wf_str s ->
  decodes (variant_var ctx VarLenType.NVarchar 7 (len (units_bytes (encode_utf16 s))))
    (repeat 0 5 ++ le_bytes 2 MAX_VARIANT_PAYLOAD ++ units_bytes (encode_utf16 s)) (ColumnData.String (Some s)).
Proof.
  intros Hw. cbn [variant_var]. eapply decodes_bind_nil; [apply decodes_ret|].
  eapply decodes_bind; [apply (decodes_collation (mkCollation 0 0)); split; split; vm_compute; congruence|].
  eapply decodes_bind; [apply decodes_u16_le; split; vm_compute; congruence|].
  eapply decodes_bind_last; [apply decodes_read_bytes; reflexivity|].
  rewrite units_bytes_even. eval_tests.
  eapply decodes_bind_ret_eq; [apply decodes_lift; rewrite utf16_strict by exact Hw; reflexivity|reflexivity].
Qed.

Lemma short_payload n v : (n <= 16)%nat -> len (le_bytes n v) <= MAX_VARIANT_PAYLOAD.
Proof. intros H. rewrite length_le_bytes. unfold MAX_VARIANT_PAYLOAD. lia. Qed.

Lemma temporal_payload n m v w : (n <= 5)%nat -> (m <= 5)%nat ->
  len (le_bytes n v ++ le_bytes m w) <= MAX_VARIANT_PAYLOAD.
Proof. intros. rewrite length_app, !length_le_bytes. unfold MAX_VARIANT_PAYLOAD. lia. Qed.

Lemma scale_byte s : 0 <= s <= 7 -> in_unsigned 8 s.
Proof. unfold in_unsigned. lia. Qed.

Lemma decodes_variant_time t : fits_time t ->
  decodes (sql_variant_decode ctx) (variant_bytes (var_as_u8 VarLenType.Timen) (le_bytes 1 (time_scale t)) (time_bytes t))
    (ColumnData.Time (Some t)).
Proof.
  intros Hf. pose proof (time_width_range _ (proj1 Hf)) as Hw.
  apply decodes_variant_var; [reflexivity|apply short_payload; lia|].
  rewrite time_len_wire by exact Hf. cbn [variant_var]. eapply decodes_bind_nil; [apply decodes_check_prop|].
  eapply decodes_bind; [apply decodes_u8, scale_byte, Hf|].
  eapply decodes_bind_ret_eq; [apply decodes_time, Hf|reflexivity].
Qed.

Lemma decodes_variant_datetime2 d : fits_datetime2 d ->
  decodes (sql_variant_decode ctx)
    (variant_bytes (var_as_u8 VarLenType.Datetime2) (le_bytes 1 (time_scale (dt2_time d))) (datetime2_bytes d))
    (ColumnData.DateTime2 (Some d)).
Proof.
  intros Hf. pose proof (time_width_range _ (proj1 (proj1 Hf))) as Hw.
  pose proof (datetime2_len_wire d Hf) as L.
  apply decodes_variant_var; [reflexivity|unfold MAX_VARIANT_PAYLOAD; lia|].
  rewrite L. cbn [variant_var]. eapply decodes_bind_nil; [apply decodes_check_prop|].
  eapply decodes_bind; [apply decodes_u8, scale_byte, Hf|].
  rewrite (proj2 (Z.ltb_ge _ _)), Z.add_simpl_r by lia.
  eapply decodes_bind_ret_eq; [apply decodes_datetime2, Hf|reflexivity].
Qed.

Lemma decodes_variant_datetimeoffset d : fits_datetimeoffset d ->
  decodes (sql_variant_decode ctx)
    (variant_bytes (var_as_u8 VarLenType.DatetimeOffsetn) (le_bytes 1 (time_scale (dt2_time (datetime2 d))))
       (datetimeoffset_bytes d)) (ColumnData.DateTimeOffset (Some d)).
Proof.
  intros Hf. pose proof (time_width_range _ (proj1 (proj1 (proj1 Hf)))) as Hw.
  pose proof (datetimeoffset_len_wire d Hf) as L.
  apply decodes_variant_var; [reflexivity|unfold MAX_VARIANT_PAYLOAD; lia|].
  rewrite L. cbn [variant_var]. eapply decodes_bind_nil; [apply decodes_check_prop|].
  eapply decodes_bind; [apply decodes_u8, scale_byte, Hf|].
  rewrite (proj2 (Z.ltb_ge _ 5)), Z.add_simpl_r, (proj2 (Z.ltb_ge _ _)) by lia.
  eapply decodes_bind_ret_eq; [apply decodes_datetimeoffset, Hf|reflexivity].
Qed.

Lemma decimal_payload n : wf_numeric n -> value n <> - 2 ^ 127 -> len (drop 1 (numeric_bytes n)) <= MAX_VARIANT_PAYLOAD.
Proof.
  intros Hw Hm. change (drop 1 (numeric_bytes n)) with
    (le_bytes 1 (if value n <? 0 then 0 else 1) ++ le_bytes (Z.to_nat (numeric_len n) - 1) (Z.abs (value n))).
  rewrite length_app, !length_le_bytes. unfold MAX_VARIANT_PAYLOAD.
  destruct (numeric_len_spec n Hw Hm) as [[-> _]|[[-> _]|[[-> _]|[-> _]]]]; vm_compute; discriminate.
Qed.

Lemma decodes_variant_decimal n : wf_numeric n -> value n <> - 2 ^ 127 ->
  decodes (sql_variant_decode ctx)
    (variant_bytes (var_as_u8 VarLenType.Numericn) (le_bytes 1 (precision n) ++ le_bytes 1 (scale n))
       (drop 1 (numeric_bytes n))) (ColumnData.Numeric (Some n)).
Proof.
  intros Hw Hm. apply decodes_variant_var; [reflexivity|apply decimal_payload; assumption|].
  cbn [variant_var]. rewrite <- app_assoc. eapply decodes_bind_nil; [apply decodes_check_prop|].
  eapply decodes_bind; [apply decodes_uint_le_wrap|].
  eapply decodes_bind; [apply decodes_u8; destruct Hw; unfold in_unsigned; lia|].
  apply decodes_variant_numeric; assumption.
Qed.

Lemma decodes_variant_parts d bt props val : fits_variant d -> variant_parts d = Some (bt, props, val) ->
  decodes (sql_variant_decode ctx) (variant_bytes bt props val) d.
Proof.
  intros Hf Hp. destruct d as [o|o|o|o|o|o|o|o|o|o|o|o|o|o|o|o|o|o]; destruct o as [v|]; try discriminate;
    cbv beta iota delta [variant_parts] in Hp; injection Hp as <- <- <-; cbn [fits_variant] in Hf.
  - apply (decodes_variant_fixed FixedLenType.Int1); [apply short_payload; lia|]. decodes_step.
  - apply (decodes_variant_fixed FixedLenType.Int2); [apply short_payload; lia|]. decodes_step.
  - apply (decodes_variant_fixed FixedLenType.Int4); [apply short_payload; lia|]. decodes_step.
  - apply (decodes_variant_fixed FixedLenType.Int8); [apply short_payload; lia|]. decodes_step.
  - apply (decodes_variant_fixed FixedLenType.Float4); [apply short_payload; lia|]. decodes_step.
  - apply (decodes_variant_fixed FixedLenType.Float8); [apply short_payload; lia|]. decodes_step.
  - apply (decodes_variant_fixed FixedLenType.Bit); [apply short_payload; lia|].
    destruct v; (eapply decodes_bind_ret_eq; [apply decodes_u8; split; vm_compute; congruence|reflexivity]).
  - apply (decodes_variant_var VarLenType.NVarchar); [reflexivity|apply Hf|].
    exact (decodes_variant_string v (proj1 Hf)).
  - apply (decodes_variant_var VarLenType.Guid); [reflexivity| |apply decodes_variant_guid, Hf].
    rewrite length_reorder, (proj2 Hf). vm_compute. discriminate.
  - apply (decodes_variant_var VarLenType.BigVarBin); [reflexivity|apply Hf|]. cbn [variant_var].
    eapply decodes_bind_nil; [apply decodes_ret|].
    eapply decodes_bind; [apply decodes_u16_le; split; vm_compute; congruence|].
    eapply decodes_bind_ret_eq; [apply decodes_read_bytes; reflexivity|reflexivity].
  - apply decodes_variant_decimal; apply Hf.
  - apply (decodes_variant_fixed FixedLenType.Datetime); [apply temporal_payload; lia|].
    eapply decodes_bind_ret_eq; [apply decodes_datetime, Hf|reflexivity].
  - apply (decodes_variant_fixed FixedLenType.Datetime4); [apply temporal_payload; lia|].
    eapply decodes_bind_ret_eq; [apply decodes_smalldatetime, Hf|reflexivity].
  - apply decodes_variant_time, Hf.
  - apply (decodes_variant_var VarLenType.Daten); [reflexivity|apply short_payload; lia|]. cbn [variant_var].
    do 2 (eapply decodes_bind_nil; [apply decodes_ret|]).
    eapply decodes_bind_ret_eq; [apply decodes_date, Hf|reflexivity].
  - apply decodes_variant_datetime2, Hf.
  - apply decodes_variant_datetimeoffset, Hf.
Qed.

Lemma fits_variant_parts d : fits_variant d -> exists bt props val, variant_parts d = Some (bt, props, val).
Proof.
  destruct d as [o|o|o|o|o|o|o|o|o|o|o|o|o|o|o|o|o|o]; destruct o; cbn; try tauto; eauto.
Qed.

Lemma variant_sizes d bt props val : fits_variant d -> variant_parts d = Some (bt, props, val) ->
  len props <= 7 /\ len val <= MAX_VARIANT_PAYLOAD.
Proof.
  intros Hf Hp. destruct d as [o|o|o|o|o|o|o|o|o|o|o|o|o|o|o|o|o|o]; destruct o as [v|]; try discriminate;
    cbv beta iota delta [variant_parts] in Hp; injection Hp as <- <- <-; cbn [fits_variant] in Hf;
    (split; [rewrite ?length_app, ?length_le_bytes; vm_compute; discriminate|]);
    try (apply short_payload; lia); try (apply temporal_payload; lia); try apply Hf.
  - rewrite length_reorder, (proj2 Hf). vm_compute. discriminate.
  - apply decimal_payload; apply Hf.
  - rewrite time_len_wire by exact Hf. pose proof (time_width_range _ (proj1 Hf)). unfold MAX_VARIANT_PAYLOAD. lia.
  - rewrite datetime2_len_wire by exact Hf. pose proof (time_width_range _ (proj1 (proj1 Hf))).
    unfold MAX_VARIANT_PAYLOAD. lia.
  - rewrite datetimeoffset_len_wire by exact Hf. pose proof (time_width_range _ (proj1 (proj1 (proj1 Hf)))).
    unfold MAX_VARIANT_PAYLOAD. lia.
Qed.

(** C34: a value that fits a [sql_variant] (any integer, float, bit, datetime,
    GUID, decimal, and strings and binaries of at most 8000 bytes) is written
    by [sql_variant::encode] as one variant, whose leading length is the
    number of bytes that follow, and [sql_variant::decode] reads exactly
    those bytes and returns the same value with the same type. *)
Theorem sql_variant_roundtrip (d : ColumnData) (H : fits_variant d) :
  exists out, appends (sql_variant_encode d) out /\ le_val (take 4 out) = len out - 4 /\
    decodes (sql_variant_decode ctx) out d.
Proof.
  destruct (fits_variant_parts d H) as (bt & props & val & E).
  exists (variant_bytes bt props val). repeat split.
  - intros dst. unfold sql_variant_encode. rewrite (variant_body_spec d bt props val H E).
    cbn [put_u32_le]. unfold put_u32_le, put_slice, bind, variant_bytes. rewrite <- app_assoc.
    do 4 f_equal. rewrite !length_app, !length_le_bytes. lia.
  - unfold variant_bytes. rewrite take_app_length' by reflexivity.
    rewrite le_val_bytes, wrap_small.
    + rewrite !length_app, !length_le_bytes. lia.
    + pose proof (variant_sizes d bt props val H E). unfold in_unsigned, MAX_VARIANT_PAYLOAD in *. change (8 * Z.of_nat 4) with 32. lia.
  - apply decodes_variant_parts; assumption.
Qed.
End Variant.

Lemma sql_variant_roundtrip_witness :
  exists out, appends (sql_variant_encode (ColumnData.Numeric (Some (mkNumeric (-12345) 2)))) out /\
    (le_val (take 4 out) = len out - 4)%Z /\
    decodes (sql_variant_decode (ER := ascii_encoding_rs) context_new) out
      (ColumnData.Numeric (Some (mkNumeric (-12345) 2))).
Proof.
  apply (sql_variant_roundtrip (ER := ascii_encoding_rs) context_new).
  split; [split; [split; vm_compute; congruence|split; vm_compute; congruence]|vm_compute; congruence].
Defined.

(** A null of any type, written into a [sql_variant] column, is the four
    zero bytes of a null variant, which decode as a null string: the variant
    keeps no base type for null. *)
Lemma sql_variant_null {ER : EncodingRs} (ctx : Context) :
  Forall (fun d => appends (sql_variant_encode d) (le_bytes 4 0))
    [ColumnData.U8 None; ColumnData.I16 None; ColumnData.I32 None; ColumnData.I64 None; ColumnData.F32 None;
     ColumnData.F64 None; ColumnData.Bit None; ColumnData.String None; ColumnData.Guid None;
     ColumnData.Binary None; ColumnData.Numeric None; ColumnData.Xml None; ColumnData.DateTime None;
     ColumnData.SmallDateTime None; ColumnData.Time None; ColumnData.Date None; ColumnData.DateTime2 None;
     ColumnData.DateTimeOffset None] /\
  decodes (sql_variant_decode ctx) (le_bytes 4 0) (ColumnData.String None).
Proof.
  split; [|intros rest; reflexivity]. repeat constructor; intros dst; reflexivity.
Qed.
