(* ===== verification/ParamRoundtrip.v ===== *)
(** * ParamRoundtrip: RPC parameters carry their own type

    [ColumnData::encode] without a column type writes the [TYPE_INFO] of the
    parameter and its value.  What is written is what [TypeInfo::decode]
    followed by [ColumnData::decode] accepts. *)

From S2P Require Import Prelude Unicode Collation SqlRead SqlWrite Types TypeInfoCodec NumericCodec Temporal Money Context ColumnDecode ColumnEncode ColumnRoundtrip.
From Stdlib Require Import Floats.SpecFloat.

Section Param.
Context {ER : EncodingRs} (oc : bool) (powi10 : Z -> spec_float) (ctx : Context).

(** A type and a value of that type, as the peer reads a parameter. *)
Definition param_decode : M bytes ColumnData := t <- typeinfo_decode ;; column_decode ctx t.

Definition param_roundtrips (d : ColumnData) : Prop :=
  exists out, appends (column_encode oc powi10 d None) out /\ decodes param_decode out d.

Lemma put_slice_app a b (k : M bytes unit) dst : (put_slice (a ++ b) ;; k) dst = (put_slice a ;; put_slice b ;; k) dst.
Proof. unfold bind, put_slice. rewrite app_assoc. reflexivity. Qed.

(** Most parameters are a type header and the row encoding at that type. *)
Lemma param_of_row d t : wire_typeinfo t ->
  (forall dst, column_encode oc powi10 d None dst =
               (put_slice (typeinfo_bytes t) ;; column_encode oc powi10 d (Some t)) dst) ->
  roundtrips oc powi10 ctx d t -> param_roundtrips d.
Proof.
  intros Hw He (out & A & D). exists (typeinfo_bytes t ++ out). split.
  - intros dst. rewrite He. apply appends_bind; [apply appends_put_slice|exact A].
  - eapply decodes_bind; [apply decodes_typeinfo, Hw|exact D].
Qed.

Ltac wire := repeat split; try reflexivity; try (vm_compute; congruence).

Lemma param_scalar d :
  match d with
  | ColumnData.Bit _ => True
  | ColumnData.U8 o => opt_wf (in_unsigned 8) o
  | ColumnData.I16 o => opt_wf (in_signed 16) o
  | ColumnData.I32 o => opt_wf (in_signed 32) o
  | ColumnData.I64 o => opt_wf (in_signed 64) o
  | ColumnData.F32 o => opt_wf (in_unsigned 32) o
  | ColumnData.F64 o => opt_wf (in_unsigned 64) o
  | ColumnData.Guid o => opt_wf wf_guid o
  | ColumnData.DateTime (Some v) => wf_datetime v
  | ColumnData.SmallDateTime (Some v) => wf_smalldatetime v
  | ColumnData.Date (Some v) => wf_date v
  | _ => False
  end -> param_roundtrips d.
Proof.
  destruct d as [o|o|o|o|o|o|o|o|o|o|o|o|o|o|o|o|o|o]; try contradiction; intros H.
  - apply (param_of_row _ (vls VarLenType.Intn 1 None)); [wire|reflexivity|apply rt_intn; auto].
  - apply (param_of_row _ (vls VarLenType.Intn 2 None)); [wire|reflexivity|apply rt_intn; auto].
  - apply (param_of_row _ (vls VarLenType.Intn 4 None)); [wire|reflexivity|apply rt_intn; auto].
  - apply (param_of_row _ (vls VarLenType.Intn 8 None)); [wire|reflexivity|apply rt_intn; auto].
  - apply (param_of_row _ (vls VarLenType.Floatn 4 None)); [wire|reflexivity|apply rt_floatn; auto].
  - apply (param_of_row _ (vls VarLenType.Floatn 8 None)); [wire|reflexivity|apply rt_floatn; auto].
  - apply (param_of_row _ (vls VarLenType.Bitn 1 None)); [wire|reflexivity|apply rt_bitn; auto].
  - apply (param_of_row _ (vls VarLenType.Guid 16 None)); [wire|reflexivity|apply rt_guid; auto].
  - destruct o as [v|]; [|contradiction].
    apply (param_of_row _ (vls VarLenType.Datetimen 8 None)); [wire| |apply rt_datetime; auto; discriminate].
    exact (put_slice_app (typeinfo_bytes (vls VarLenType.Datetimen 8 None)) (le_bytes 1 8) (datetime_encode v)).
  - destruct o as [v|]; [|contradiction].
    apply (param_of_row _ (vls VarLenType.Datetimen 4 None)); [wire| |apply rt_smalldatetime; auto; discriminate].
    exact (put_slice_app (typeinfo_bytes (vls VarLenType.Datetimen 4 None)) (le_bytes 1 4) (smalldatetime_encode v)).
  - destruct o as [v|]; [|contradiction].
    apply (param_of_row _ (vls VarLenType.Daten 3 None)); [wire| |apply rt_date; auto].
    exact (put_slice_app (typeinfo_bytes (vls VarLenType.Daten 3 None)) (le_bytes 1 3) (date_encode v)).
Qed.

(** The scaled types: the scale is the length field of their type. *)
Lemma scale_wire v s : match v with VarLenType.Timen | VarLenType.Datetime2 | VarLenType.DatetimeOffsetn => True | _ => False end ->
  0 <= s <= 7 -> wire_typeinfo (vls v s None).
Proof.
  intros Hv Hs. destruct v; try contradiction; cbn; repeat split;
    unfold fits_len; cbn [encode_len_field]; rewrite (proj2 (Z.leb_le _ _)), (proj2 (Z.ltb_lt _ _)) by lia; reflexivity.
Qed.

Lemma scale_header v s n : in_unsigned 8 s -> in_unsigned 8 n ->
  [var_as_u8 v; s; n] = (le_bytes 1 (var_as_u8 v) ++ le_bytes 1 s ++ []) ++ le_bytes 1 n.
Proof. intros Hs Hn. rewrite !le_bytes_1 by (assumption || apply VarLenType.var_as_u8_range). reflexivity. Qed.

Lemma width_byte s : 0 <= s <= 7 -> in_unsigned 8 s /\ in_unsigned 8 (Z.of_nat (time_width s) + 5) /\
  in_unsigned 8 (Z.of_nat (time_width s) + 3) /\ in_unsigned 8 (Z.of_nat (time_width s)).
Proof. intros Hs. pose proof (time_width_range s Hs). unfold in_unsigned. lia. Qed.

Lemma param_time t : fits_time t -> param_roundtrips (ColumnData.Time (Some t)).
Proof.
  intros Hf. pose proof (width_byte _ (proj1 Hf)) as (B1 & _ & _ & B2).
  apply (param_of_row _ (vls VarLenType.Timen (time_scale t) None));
    [apply scale_wire; [exact I|apply Hf]| |apply rt_time; split; auto].
  intros dst. cbn [column_encode encode_time vls vlc_type]. rewrite time_len_ok by apply Hf.
  rewrite (bind_ok (lift (Ok _)) _ dst _ dst eq_refl), scale_header, put_slice_app by assumption. reflexivity.
Qed.

Lemma param_datetime2 d : fits_datetime2 d -> param_roundtrips (ColumnData.DateTime2 (Some d)).
Proof.
  intros Hf. pose proof (width_byte _ (proj1 (proj1 Hf))) as (B1 & _ & B2 & _).
  apply (param_of_row _ (vls VarLenType.Datetime2 (time_scale (dt2_time d)) None));
    [apply scale_wire; [exact I|apply Hf]| |apply rt_datetime2; split; auto].
  intros dst. cbn [column_encode encode_datetime2 vls vlc_type vlc_len]. rewrite time_len_ok by apply Hf.
  rewrite (bind_ok (lift (Ok _)) _ dst _ dst eq_refl), scale_header, put_slice_app by assumption.
  unfold rescale_datetime2. rewrite wrap_small, Z.eqb_refl by assumption. rewrite time_len_ok by apply Hf. reflexivity.
Qed.

Lemma param_datetimeoffset d : fits_datetimeoffset d -> param_roundtrips (ColumnData.DateTimeOffset (Some d)).
Proof.
  intros Hf. pose proof (width_byte _ (proj1 (proj1 (proj1 Hf)))) as (B1 & B2 & _).
  apply (param_of_row _ (vls VarLenType.DatetimeOffsetn (time_scale (dt2_time (datetime2 d))) None));
    [apply scale_wire; [exact I|apply Hf]| |apply rt_datetimeoffset; split; auto].
  intros dst. cbn [column_encode encode_datetimeoffset vls vlc_type]. rewrite time_len_ok by apply Hf.
  rewrite (bind_ok (lift (Ok _)) _ dst _ dst eq_refl), scale_header, put_slice_app by assumption. reflexivity.
Qed.

(** ** Strings *)

Lemma units_le_utf8 s : wf_str s -> len (encode_utf16 s) <= str_len s.
Proof.
  induction 1 as [|c s Hc _ IH]; [vm_compute; discriminate|]. change (str_len (c :: s)) with (char_len_utf8 c + str_len s).
  change (encode_utf16 (c :: s)) with (char_utf16 c ++ encode_utf16 s). rewrite length_app, Nat2Z.inj_add. unfold char_utf16, char_len_utf8.
  destruct (Z.ltb_spec c 0x10000); cbn [length];
    repeat match goal with |- context [?a <? ?b] => destruct (Z.ltb_spec a b) end; lia.
Qed.

(** The type of a string parameter. *)
Definition string_type (s : str) : TypeInfo :=
  vls VarLenType.NVarchar (if str_len s <=? 4000 then 8000 else 0xffff) (Some (mkCollation 0 0)).

Definition string_param_bytes (s : str) : bytes :=
  let b := units_bytes (encode_utf16 s) in
  typeinfo_bytes (string_type s) ++
  if str_len s <=? 4000 then le_bytes 2 (len b) ++ b
  else le_bytes 8 PLP_UNKNOWN ++ le_bytes 4 (len b) ++ b ++ (if len b =? 0 then [] else le_bytes 4 0).

(** [appends_patch], when the patched bytes are computed after the body. *)
Lemma appends_patched (old l out : bytes) (body : M bytes unit) (k : Z -> M bytes unit) :
  length old = length l -> (forall pos dst, k pos dst = (body ;; patch pos l) dst) -> appends body out ->
  appends (pos <- buf_len ;; put_slice old ;; k pos) (l ++ out).
Proof.
  intros Hl Hk Hb dst. rewrite <- (appends_patch old l out body Hl Hb dst).
  unfold bind at 1 3, buf_len. rewrite !(bind_ok _ _ _ _ _ (appends_put_slice old dst)). apply Hk.
Qed.

Lemma appends_string_param s : wf_str s -> 2 * len (encode_utf16 s) <= MAX_PLP_SIZE ->
  appends (encode_string_param oc s) (string_param_bytes s).
Proof.
  intros Hw Hm. pose proof (units_le_utf8 s Hw) as Hu. unfold encode_string_param, string_param_bytes, string_type.
  unfold MAX_PLP_SIZE in Hm. destruct (Z.leb_spec (str_len s) 4000) as [Hs|Hs].
  - apply (appends_bind _ _ (le_bytes 1 _)); [apply appends_put_u8|].
    apply (appends_bind _ _ (le_bytes 2 8000)); [apply appends_put_slice|].
    apply (appends_bind _ _ (repeat 0 5)); [apply appends_put_slice|].
    eapply appends_patched with (body := put_units (encode_utf16 s)); [reflexivity| |apply appends_put_units].
    intros pos dst. rewrite !bind_run. destruct (put_units _ dst) as [[] l]; try reflexivity.
    rewrite arith_u_in, (bind_ok (lift (Ok _)) _ l _ l eq_refl), arith_u_in by (unfold in_unsigned; lia).
    rewrite length_units_bytes.
    replace (Z.of_nat (2 * length (encode_utf16 s))) with (len (encode_utf16 s) * 2) by lia. reflexivity.
  - apply (appends_bind _ _ (le_bytes 1 _)); [apply appends_put_u8|].
    apply (appends_bind _ _ (le_bytes 2 0xffff)); [apply appends_put_slice|].
    apply (appends_bind _ _ (repeat 0 5)); [apply appends_put_slice|].
    apply (appends_bind _ _ (le_bytes 8 PLP_UNKNOWN)); [apply appends_put_slice|].
    eapply appends_patched with
      (body := put_units (encode_utf16 s) ;; if 0 <? len (encode_utf16 s) then put_u32_le 0 else ret tt);
      [reflexivity| |].
    + intros pos dst. rewrite bind_assoc, !bind_run. destruct (put_units _ dst) as [[] l]; try reflexivity.
      rewrite arith_u_in, (bind_ok (lift (Ok _)) _ l _ l eq_refl), !bind_run by (unfold in_unsigned; lia).
      destruct ((if 0 <? len (encode_utf16 s) then put_u32_le 0 else ret tt) l) as [[] l']; try reflexivity.
      rewrite arith_u_in, length_units_bytes by (unfold in_unsigned; lia).
      replace (Z.of_nat (2 * length (encode_utf16 s))) with (len (encode_utf16 s) * 2) by lia. reflexivity.
    + apply appends_bind; [apply appends_put_units|]. rewrite length_units_bytes.
      destruct (Z.ltb_spec 0 (len (encode_utf16 s))).
      * rewrite (proj2 (Z.eqb_neq _ _)) by lia. apply appends_put_slice.
      * rewrite (proj2 (Z.eqb_eq _ _)) by lia. apply appends_ret.
Qed.

Lemma param_string s : wf_str s -> 2 * len (encode_utf16 s) <= MAX_PLP_SIZE ->
  param_roundtrips (ColumnData.String (Some s)).
Proof.
  intros Hw Hm. exists (string_param_bytes s). split; [apply appends_string_param; assumption|].
  eapply decodes_bind; [apply decodes_typeinfo|].
  { cbn. repeat split; try (vm_compute; congruence); destruct (str_len s <=? 4000); reflexivity. }
  eapply decodes_bind_ret_eq; [apply (decodes_string_utf16 ctx VarLenType.NVarchar); [exact Hw|exact I|]|reflexivity].
  cbn [string_type vls vlc_len]. pose proof (units_le_utf8 s Hw).
  assert (L : len (units_bytes (encode_utf16 s)) = 2 * len (encode_utf16 s)) by (rewrite length_units_bytes; lia).
  destruct (Z.leb_spec (str_len s) 4000).
  - apply (decodes_sized 8000); [vm_compute; intuition discriminate|lia].
  - apply (plp_one_chunk 0xffff); lia.
Qed.

(** ** Binaries, XML, decimals *)

Lemma param_binary b : len b <= MAX_PLP_SIZE -> param_roundtrips (ColumnData.Binary (Some b)).
Proof.
  intros Hb. unfold MAX_PLP_SIZE in *. unfold param_roundtrips, param_decode. cbn [column_encode encode_binary].
  destruct (Z.leb_spec (len b) 8000).
  - exists (typeinfo_bytes (vls VarLenType.BigVarBin 8000 None) ++ le_bytes 2 (len b) ++ b). split.
    + change (typeinfo_bytes (vls VarLenType.BigVarBin 8000 None)) with
        (le_bytes 1 (var_as_u8 VarLenType.BigVarBin) ++ le_bytes 2 8000). rewrite <- app_assoc. appends_steps.
    + eapply decodes_bind; [apply decodes_typeinfo; wire|].
      eapply decodes_bind_ret_eq; [apply (decodes_sized 8000); [vm_compute; intuition discriminate|lia]|reflexivity].
  - exists (typeinfo_bytes (vls VarLenType.BigVarBin 0xffff None) ++ le_bytes 8 PLP_UNKNOWN ++ le_bytes 4 (len b) ++ b
            ++ (if len b =? 0 then [] else le_bytes 4 0)). split.
    + change (typeinfo_bytes (vls VarLenType.BigVarBin 0xffff None)) with
        (le_bytes 1 (var_as_u8 VarLenType.BigVarBin) ++ le_bytes 2 0xffff). rewrite <- app_assoc.
      rewrite (proj2 (Z.eqb_neq _ _)) by lia. appends_steps.
    + eapply decodes_bind; [apply decodes_typeinfo; wire|].
      eapply decodes_bind_ret_eq; [apply (plp_one_chunk 0xffff); unfold MAX_PLP_SIZE; lia|reflexivity].
Qed.

Lemma param_xml x : wf_str (xml_data x) -> xml_data x <> [] -> xml_schema x = None ->
  2 * len (encode_utf16 (xml_data x)) <= MAX_PLP_SIZE -> param_roundtrips (ColumnData.Xml (Some x)).
Proof.
  intros. apply (param_of_row _ (TypeInfo.Xml None XML_SIZE)); [wire| |apply rt_xml; [unfold XML_SIZE; lia|split; auto]].
  intros dst. symmetry. apply (put_slice_app (le_bytes 1 (var_as_u8 VarLenType.Xml)) (le_bytes 1 0)).
Qed.

Lemma numeric_header n : wf_numeric n -> value n <> - 2 ^ 127 -> precision n <= 38 ->
  [var_as_u8 VarLenType.Numericn; numeric_len n; precision n; scale n] =
  typeinfo_bytes (TypeInfo.VarLenSizedPrecision VarLenType.Numericn (numeric_len n) (precision n) (scale n)).
Proof.
  intros Hw Hm Hp. pose proof (proj2 Hw). cbn [typeinfo_bytes]. pose proof (precision_spec n Hw) as [Hpr _].
  rewrite !le_bytes_1; [reflexivity| | | |apply VarLenType.var_as_u8_range]; unfold in_unsigned; try lia.
  destruct (numeric_len_spec n Hw Hm) as [[-> _]|[[-> _]|[[-> _]|[-> _]]]]; lia.
Qed.

Lemma param_numeric n : wf_numeric n -> value n <> - 2 ^ 127 -> precision n <= 38 ->
  param_roundtrips (ColumnData.Numeric (Some n)).
Proof.
  intros Hw Hm Hp. pose proof (precision_spec n Hw) as [Hpr _].
  apply (param_of_row _ (TypeInfo.VarLenSizedPrecision VarLenType.Numericn (numeric_len n) (precision n) (scale n))).
  - cbn. destruct Hw. repeat split; try lia;
      destruct (numeric_len_spec n ltac:(split; assumption) Hm) as [[-> _]|[[-> _]|[[-> _]|[-> _]]]]; lia.
  - intros dst. cbn [column_encode encode_numeric]. rewrite numeric_header, rescale_same by assumption. reflexivity.
  - apply rt_numeric; [auto|split; auto].
Qed.
(** The parameters that are written exactly. *)
Definition fits_param (d : ColumnData) : Prop :=
  match d with
  | ColumnData.Bit _ => True
  | ColumnData.U8 o => opt_wf (in_unsigned 8) o
  | ColumnData.I16 o => opt_wf (in_signed 16) o
  | ColumnData.I32 o => opt_wf (in_signed 32) o
  | ColumnData.I64 o => opt_wf (in_signed 64) o
  | ColumnData.F32 o => opt_wf (in_unsigned 32) o
  | ColumnData.F64 o => opt_wf (in_unsigned 64) o
  | ColumnData.Guid o => opt_wf wf_guid o
  | ColumnData.DateTime (Some v) => wf_datetime v
  | ColumnData.SmallDateTime (Some v) => wf_smalldatetime v
  | ColumnData.Date (Some v) => wf_date v
  | ColumnData.Time (Some t) => fits_time t
  | ColumnData.DateTime2 (Some v) => fits_datetime2 v
  | ColumnData.DateTimeOffset (Some v) => fits_datetimeoffset v
  | ColumnData.String (Some s) => wf_str s /\ 2 * len (encode_utf16 s) <= MAX_PLP_SIZE
  | ColumnData.Binary (Some b) => len b <= MAX_PLP_SIZE
  | ColumnData.Numeric (Some n) => wf_numeric n /\ value n <> - 2 ^ 127 /\ precision n <= 38
  | ColumnData.Xml (Some x) =>
      wf_str (xml_data x) /\ xml_data x <> [] /\ xml_schema x = None /\
      2 * len (encode_utf16 (xml_data x)) <= MAX_PLP_SIZE
  | _ => False
  end.

(** An RPC parameter is self-describing: what [ColumnData::encode] writes
    without a column type is a [TYPE_INFO] that [TypeInfo::decode] accepts,
    followed by a value that [ColumnData::decode] reads back at that type. *)
Lemma param_roundtrip (d : ColumnData) (H : fits_param d) :
  exists out, appends (column_encode oc powi10 d None) out /\
    decodes (t <- typeinfo_decode ;; column_decode ctx t) out d.
Proof.
  destruct d as [o|o|o|o|o|o|o|o|o|o|o|o|o|o|o|o|o|o]; cbn [fits_param] in H;
    try (apply param_scalar; exact H); destruct o as [v|]; try contradiction.
  - apply param_string; apply H.
  - apply param_binary, H.
  - apply param_numeric; apply H.
  - apply param_xml; apply H.
  - apply param_time, H.
  - apply param_datetime2, H.
  - apply param_datetimeoffset, H.
Qed.

(** A null parameter of a type that has no header of its own (string,
    binary, decimal, XML, dates and times) goes out as the untyped NULL
    [0x1F], which reads back as a null integer: the type of the null is lost,
    the null is kept. *)
Lemma param_null_untyped :
  Forall (fun d => appends (column_encode oc powi10 d None) [0x1F] /\
                   decodes (t <- typeinfo_decode ;; column_decode ctx t) [0x1F] (ColumnData.I32 None))
    [ColumnData.String None; ColumnData.Binary None; ColumnData.Numeric None; ColumnData.Xml None;
     ColumnData.DateTime None; ColumnData.SmallDateTime None; ColumnData.Time None; ColumnData.Date None;
     ColumnData.DateTime2 None; ColumnData.DateTimeOffset None].
Proof. repeat (constructor; [split; intros ?; reflexivity|]). constructor. Qed.

(** The nulls that have no type of their own. *)
Definition untyped_null (d : ColumnData) : bool :=
  match d with
  | ColumnData.String None | ColumnData.Binary None | ColumnData.Numeric None | ColumnData.Xml None
  | ColumnData.DateTime None | ColumnData.SmallDateTime None | ColumnData.Time None | ColumnData.Date None
  | ColumnData.DateTime2 None | ColumnData.DateTimeOffset None => true
  | _ => false
  end.
(** The parameters a peer can read, and what it reads. *)
Definition sent_param (d : ColumnData) : Prop := fits_param d \/ untyped_null d = true.
Definition as_seen (d : ColumnData) : ColumnData := if untyped_null d then ColumnData.I32 None else d.

Lemma fits_as_seen d : fits_param d -> as_seen d = d.
Proof. destruct d as [o|o|o|o|o|o|o|o|o|o|o|o|o|o|o|o|o|o]; try reflexivity; destruct o; try reflexivity; intros []. Qed.

Lemma sent_param_roundtrip (d : ColumnData) (H : sent_param d) :
  exists out, appends (column_encode oc powi10 d None) out /\
    decodes (t <- typeinfo_decode ;; column_decode ctx t) out (as_seen d).
Proof.
  destruct H as [H|H]; [rewrite (fits_as_seen d H); exact (param_roundtrip d H)|]. exists [0x1F]. unfold as_seen. rewrite H.
  pose proof param_null_untyped as F. rewrite List.Forall_forall in F. apply F.
  destruct d as [o|o|o|o|o|o|o|o|o|o|o|o|o|o|o|o|o|o]; try discriminate; destruct o; try discriminate; cbn; tauto.
Qed.
End Param.
