(* ===== verification/Metadata.v ===== *)
(** * Metadata: COLMETADATA and ALTMETADATA

    [token_col_metadata.rs] and [token_alt_meta_data.rs]: the decoders that
    build the metadata the row decoders run on, the encoder of the bulk-load
    metadata, the null of a column, and the T-SQL column definition that
    [INSERT BULK] is built from. *)

From S2P Require Import Prelude Unicode Collation SqlRead SqlWrite Types TypeInfoCodec NumericCodec Temporal Money Context ColumnDecode.

(** The types that carry a TableName in COLMETADATA. *)
Definition has_table_name (t : TypeInfo) : bool :=
  match t with
  | TypeInfo.VarLenSized cx =>
      match vlc_type cx with VarLenType.Text | VarLenType.NText | VarLenType.Image => true | _ => false end
  | _ => false
  end.

(** [BaseMetaDataColumn::decode] *)
Definition base_decode {R} `{SqlReadBytes R} : M R BaseMetaDataColumn :=
  read_u32_le ;;
  f <- read_u16_le ;;
  t <- typeinfo_decode ;;
  (if has_table_name t then
     num_of_parts <- read_u8 ;;
     repeat_m (Z.to_nat num_of_parts) read_us_varchar ;;
     ret tt
   else ret tt) ;;
  ret (mkBaseMetaDataColumn (truncate_flags COLUMN_FLAGS f) t None).

Definition column_meta_decode {R} `{SqlReadBytes R} : M R MetaDataColumn :=
  b <- base_decode ;; n <- read_b_varchar ;; ret (mkMetaDataColumn b n).

(** [TokenColMetaData::decode]: the count 0xffff is "no metadata". *)
Definition col_metadata_decode {R} `{SqlReadBytes R} : M R TokenColMetaData :=
  column_count <- read_u16_le ;;
  if column_count <? 0xffff then
    cs <- repeat_m (Z.to_nat column_count) column_meta_decode ;; ret (mkTokenColMetaData cs)
  else ret (mkTokenColMetaData []).

(** [TokenAltMetaData::decode] *)
Definition alt_column_decode {R} `{SqlReadBytes R} : M R AltMetaDataColumn :=
  op <- read_u8 ;;
  operand <- read_u16_le ;;
  b <- base_decode ;;
  n <- read_b_varchar ;;
  ret (mkAltMetaDataColumn op operand b n).

Definition alt_metadata_decode {R} `{SqlReadBytes R} : M R TokenAltMetaData :=
  column_count <- read_u16_le ;;
  id <- read_u16_le ;;
  by_cols <- read_u8 ;;
  by_ <- repeat_m (Z.to_nat by_cols) read_u16_le ;;
  cs <- repeat_m (Z.to_nat column_count) alt_column_decode ;;
  ret (mkTokenAltMetaData id by_ cs).

(** ** The encoder of the bulk-load metadata *)

(** The [encode_us_varchar] of this file: its own error. *)
Definition encode_table_name (s : str) : M bytes unit :=
  let units := len (encode_utf16 s) in
  if 65535 <? units then fail (BulkInput "table name is too long")
  else put_u16_le units ;; put_units (encode_utf16 s).

(** [impl Encode for BaseMetaDataColumn] *)
Definition base_encode (c : BaseMetaDataColumn) : M bytes unit :=
  put_u16_le (flags c) ;;
  typeinfo_encode (ty c) ;;
  if has_table_name (ty c)
  then encode_table_name (match table_name c with Some s => s | None => [] end)
  else ret tt.

(** [impl Encode for MetaDataColumn] *)
Definition column_meta_encode (c : MetaDataColumn) : M bytes unit :=
  put_u32_le 0 ;; base_encode (base c) ;; encode_b_varchar (col_name c).

Definition TOKEN_COL_METADATA : Z := 0x81.

(** [impl Encode for TokenColMetaData] *)
Definition col_metadata_encode (m : TokenColMetaData) : M bytes unit :=
  put_u8 TOKEN_COL_METADATA ;;
  put_u16_le (wrap 16 (len (columns m))) ;;
  iter_m column_meta_encode (columns m).

(** ** [BaseMetaDataColumn::null_value] *)

Definition fixed_null (t : FixedLenType) : ColumnData :=
  match t with
  | FixedLenType.Null => ColumnData.I32 None
  | FixedLenType.Int1 => ColumnData.U8 None
  | FixedLenType.Bit => ColumnData.Bit None
  | FixedLenType.Int2 => ColumnData.I16 None
  | FixedLenType.Int4 => ColumnData.I32 None
  | FixedLenType.Datetime4 => ColumnData.SmallDateTime None
  | FixedLenType.Float4 => ColumnData.F32 None
  | FixedLenType.Money => ColumnData.F64 None
  | FixedLenType.Datetime => ColumnData.DateTime None
  | FixedLenType.Float8 => ColumnData.F64 None
  | FixedLenType.Money4 => ColumnData.F32 None
  | FixedLenType.Int8 => ColumnData.I64 None
  end.

(** The arms shared by the sized and the precision types. *)
Definition var_null (t : VarLenType) (intn floatn : ColumnData) : ColumnData :=
  match t with
  | VarLenType.Guid => ColumnData.Guid None
  | VarLenType.Intn => intn
  | VarLenType.Bitn => ColumnData.Bit None
  | VarLenType.Decimaln | VarLenType.Numericn => ColumnData.Numeric None
  | VarLenType.Floatn => floatn
  | VarLenType.Money => ColumnData.F64 None
  | VarLenType.Datetimen => ColumnData.DateTime None
  | VarLenType.Daten => ColumnData.Date None
  | VarLenType.Timen => ColumnData.Time None
  | VarLenType.Datetime2 => ColumnData.DateTime2 None
  | VarLenType.DatetimeOffsetn => ColumnData.DateTimeOffset None
  | VarLenType.BigVarBin | VarLenType.BigBinary => ColumnData.Binary None
  | VarLenType.BigVarChar | VarLenType.BigChar => ColumnData.String None
  | VarLenType.NVarchar | VarLenType.NChar => ColumnData.String None
  | VarLenType.Xml => ColumnData.Xml None
  | VarLenType.Udt => ColumnData.Binary None
  | VarLenType.Text | VarLenType.NText => ColumnData.String None
  | VarLenType.Image => ColumnData.Binary None
  | VarLenType.SSVariant => ColumnData.String None
  end.

Definition null_value (c : BaseMetaDataColumn) : ColumnData :=
  match ty c with
  | TypeInfo.FixedLen t => fixed_null t
  | TypeInfo.VarLenSized cx =>
      let n := vlc_len cx in
      var_null (vlc_type cx)
        (if n =? 1 then ColumnData.U8 None else if n =? 2 then ColumnData.I16 None
         else if n =? 4 then ColumnData.I32 None else ColumnData.I64 None)
        (if n =? 4 then ColumnData.F32 None else ColumnData.F64 None)
  | TypeInfo.VarLenSizedPrecision t _ _ _ => var_null t (ColumnData.I32 None) (ColumnData.F32 None)
  | TypeInfo.Xml _ _ => ColumnData.Xml None
  | TypeInfo.Udt _ => ColumnData.Binary None
  end.

(** ** [Display for MetaDataColumn]

    The column definition of an [INSERT BULK] statement; [None] is
    [fmt::Error]. *)

Definition BRACKET : Z := 93.

(** [name.replace(']', "]]")] *)
Definition escape_bracket (s : str) : str := flat_map (fun c => if c =? BRACKET then [BRACKET; BRACKET] else [c]) s.

Definition quote_ident (s : str) : str := [91] ++ escape_bracket s ++ [BRACKET].

Definition fixed_name (t : FixedLenType) : string :=
  match t with
  | FixedLenType.Int1 => "tinyint"
  | FixedLenType.Bit => "bit"
  | FixedLenType.Int2 => "smallint"
  | FixedLenType.Int4 => "int"
  | FixedLenType.Datetime4 => "smalldatetime"
  | FixedLenType.Float4 => "real"
  | FixedLenType.Money => "money"
  | FixedLenType.Datetime => "datetime"
  | FixedLenType.Float8 => "float"
  | FixedLenType.Money4 => "smallmoney"
  | FixedLenType.Int8 => "bigint"
  | FixedLenType.Null => "int"
  end.

(** [name(len)] *)
Definition sized_name (name : string) (n : Z) : str :=
  ascii_str name ++ ascii_str "(" ++ show_Z n ++ ascii_str ")".

Definition var_name (t : VarLenType) (n : Z) : option str :=
  match t with
  | VarLenType.Bitn => Some (ascii_str "bit")
  | VarLenType.Guid => Some (ascii_str "uniqueidentifier")
  | VarLenType.Daten => Some (ascii_str "date")
  | VarLenType.Timen => Some (ascii_str "time")
  | VarLenType.Datetime2 => Some (sized_name "datetime2" n)
  | VarLenType.Datetimen => Some (ascii_str "datetime")
  | VarLenType.Money => Some (ascii_str (if n =? 4 then "smallmoney" else "money"))
  | VarLenType.DatetimeOffsetn => Some (ascii_str "datetimeoffset")
  | VarLenType.BigVarBin => Some (if n <=? 8000 then sized_name "varbinary" n else ascii_str "varbinary(max)")
  | VarLenType.BigVarChar => Some (if n <=? 8000 then sized_name "varchar" n else ascii_str "varchar(max)")
  | VarLenType.BigBinary => Some (sized_name "binary" n)
  | VarLenType.BigChar => Some (sized_name "char" n)
  | VarLenType.NVarchar => Some (if n <=? 4000 then sized_name "nvarchar" n else ascii_str "nvarchar(max)")
  | VarLenType.NChar => Some (sized_name "nchar" n)
  | VarLenType.Text => Some (ascii_str "text")
  | VarLenType.Image => Some (ascii_str "image")
  | VarLenType.NText => Some (ascii_str "ntext")
  | VarLenType.Intn =>
      Some (ascii_str (if n =? 1 then "tinyint" else if n =? 2 then "smallint" else if n =? 4 then "int" else "bigint"))
  | VarLenType.Floatn => Some (ascii_str (if n =? 4 then "real" else "float"))
  | VarLenType.SSVariant => Some (ascii_str "sql_variant")
  | _ => None
  end.

Definition type_name (t : TypeInfo) : option str :=
  match t with
  | TypeInfo.FixedLen f => Some (ascii_str (fixed_name f))
  | TypeInfo.VarLenSized cx => var_name (vlc_type cx) (vlc_len cx)
  | TypeInfo.VarLenSizedPrecision t _ p s =>
      Some (ascii_str (match t with VarLenType.Numericn => "numeric(" | _ => "decimal(" end)
            ++ show_Z p ++ ascii_str "," ++ show_Z s ++ ascii_str ")")
  | TypeInfo.Xml _ _ => Some (ascii_str "xml")
  | TypeInfo.Udt i => Some (schema_name i ++ ascii_str "." ++ udt_type_name i)
  end.

Definition display_column (c : MetaDataColumn) : option str :=
  match type_name (ty (base c)) with
  | Some n => Some (quote_ident (col_name c) ++ ascii_str " " ++ n)
  | None => None
  end.

(** ** Lemmas: decoding *)

Lemma safe_parts n : safe (repeat_m n read_us_varchar) (fun _ => True).
Proof. eapply safe_weaken; [apply safe_repeat_m, safe_us_varchar|auto]. Qed.

Lemma safe_base : safe base_decode (fun c => wf_typeinfo (ty c) /\ in_unsigned 16 (flags c)).
Proof.
  unfold base_decode. do 3 safe_step. eapply safe_bind with (Q := fun _ => True).
  - safe_step; [|apply safe_ret; exact I]. safe_step. eapply safe_bind; [apply safe_parts|intros _ _].
    apply safe_ret; exact I.
  - intros _ _. apply safe_ret. split; [assumption|]. cbn [flags]. unfold truncate_flags.
    unfold in_unsigned in *. split; [apply Z.land_nonneg; lia|].
    destruct (Z.eq_dec (Z.land a0 COLUMN_FLAGS) 0) as [->|Hn]; [reflexivity|].
    apply Z.log2_lt_pow2; [pose proof (proj2 (Z.land_nonneg a0 COLUMN_FLAGS) (or_introl (proj1 H0))); lia|].
    eapply Z.le_lt_trans; [apply Z.log2_land; [lia|vm_compute; discriminate]|]. apply Z.min_lt_iff. right. reflexivity.
Qed.
#[export] Hint Resolve safe_base : tds_safe.

Lemma safe_column_meta : safe column_meta_decode (fun c => wf_typeinfo (ty (base c)) /\ wf_str (col_name c)).
Proof. unfold column_meta_decode. safe_steps. destruct H. split; assumption. Qed.

Lemma safe_col_metadata : safe col_metadata_decode wf_meta.
Proof.
  unfold col_metadata_decode. do 2 safe_step; [|apply safe_ret; constructor].
  eapply safe_bind; [apply safe_repeat_m, safe_column_meta|intros cs [Hc _]].
  apply safe_ret. eapply Forall_impl; [exact Hc|]. cbn. tauto.
Qed.

Lemma safe_alt_column : safe alt_column_decode (fun c => wf_typeinfo (ty (amc_base c))).
Proof. unfold alt_column_decode. safe_steps. destruct H1. assumption. Qed.

Lemma safe_alt_metadata : safe alt_metadata_decode wf_alt_meta.
Proof.
  unfold alt_metadata_decode. do 3 safe_step. eapply safe_bind; [apply safe_repeat_m, safe_u16_le|intros by_ _].
  eapply safe_bind; [apply safe_repeat_m, safe_alt_column|intros cs [Hc _]]. apply safe_ret. exact Hc.
Qed.
#[export] Hint Resolve safe_col_metadata safe_alt_metadata : tds_safe.

(** ** Lemmas: the bulk-load metadata reads back *)

(** A column description that can go over the wire and back. *)
Definition wire_column (c : MetaDataColumn) : Prop :=
  wire_typeinfo (ty (base c)) /\ has_table_name (ty (base c)) = false /\
  in_unsigned 16 (flags (base c)) /\ truncate_flags COLUMN_FLAGS (flags (base c)) = flags (base c) /\
  table_name (base c) = None /\ short_str 255 (col_name c).

Definition column_meta_bytes (c : MetaDataColumn) : bytes :=
  le_bytes 4 0 ++ le_bytes 2 (flags (base c)) ++ typeinfo_bytes (ty (base c)) ++ b_varchar (col_name c).

Lemma appends_column_meta c : wire_column c -> appends (column_meta_encode c) (column_meta_bytes c).
Proof.
  intros (Ht & Hn & _ & _ & _ & [_ Hc]). unfold column_meta_encode, base_encode, column_meta_bytes. rewrite Hn.
  apply appends_bind; [apply appends_put_slice|]. rewrite app_assoc.
  apply appends_bind; [|apply appends_b_varchar, Hc]. apply appends_bind; [apply appends_put_slice|].
  rewrite <- (app_nil_r (typeinfo_bytes _)). apply appends_bind; [apply appends_typeinfo, Ht|apply appends_ret].
Qed.

Lemma decodes_column_meta c : wire_column c -> decodes column_meta_decode (column_meta_bytes c) c.
Proof.
  intros (Ht & Hn & Hf & Htr & Htab & [Hw Hc]). unfold column_meta_decode, column_meta_bytes.
  replace (le_bytes 4 0 ++ _) with ((le_bytes 4 0 ++ le_bytes 2 (flags (base c)) ++ typeinfo_bytes (ty (base c)))
    ++ b_varchar (col_name c)) by (rewrite <- !app_assoc; reflexivity).
  eapply decodes_bind with (a := base c).
  - unfold base_decode. eapply decodes_bind; [apply decodes_u32_le; unfold in_unsigned; lia|].
    eapply decodes_bind; [apply decodes_u16_le, Hf|]. eapply decodes_bind_last; [apply decodes_typeinfo, Ht|].
    rewrite Hn, Htr. eapply decodes_bind_nil; [apply decodes_ret|].
    destruct (base c) as [f t n]; cbn in *. rewrite Htab. apply decodes_ret.
  - eapply decodes_bind_ret_eq; [apply decodes_b_varchar; assumption|destruct c; reflexivity].
Qed.

(** The metadata the bulk loader sends (any number of columns below the
    sentinel 0xffff, none of them [text]/[ntext]/[image], whose table name has
    a different form in each direction) is a COLMETADATA token that the
    driver's own decoder reads back column by column: flags, type and name. *)
Theorem col_metadata_roundtrip (m : TokenColMetaData) (H : Forall wire_column (columns m))
  (Hn : len (columns m) < 0xffff) :
  exists out, appends (col_metadata_encode m) (le_bytes 1 TOKEN_COL_METADATA ++ out) /\
    decodes col_metadata_decode out m.
Proof.
  exists (le_bytes 2 (len (columns m)) ++ concat (map column_meta_bytes (columns m))). split.
  - unfold col_metadata_encode. apply appends_bind; [apply appends_put_slice|].
    rewrite wrap_small by (unfold in_unsigned; lia). apply appends_bind; [apply appends_put_slice|].
    apply appends_iter_m. eapply Forall_impl; [exact H|]. apply appends_column_meta.
  - unfold col_metadata_decode. eapply decodes_bind; [apply decodes_u16_le; unfold in_unsigned; lia|].
    rewrite (proj2 (Z.ltb_lt _ _)), Nat2Z.id by lia.
    eapply decodes_bind_ret_eq; [apply decodes_repeat_m|destruct m; reflexivity].
    eapply Forall_impl; [exact H|]. apply decodes_column_meta.
Qed.

Definition sample_column : MetaDataColumn :=
  mkMetaDataColumn (mkBaseMetaDataColumn (Nullable + Updateable) (TypeInfo.FixedLen FixedLenType.Int4) None)
    (ascii_str "id").

Lemma col_metadata_roundtrip_witness :
  exists out, appends (col_metadata_encode (mkTokenColMetaData [sample_column])) (le_bytes 1 TOKEN_COL_METADATA ++ out) /\
    decodes col_metadata_decode out (mkTokenColMetaData [sample_column]).
Proof.
  apply col_metadata_roundtrip; [|vm_compute; reflexivity].
  repeat constructor; vm_compute; congruence.
Defined.

(** ** Lemmas: nulls *)

(** The null of a nullable column in a ROW token. *)
Definition null_bytes (t : TypeInfo) : option bytes :=
  let plp n := if n <? 0xffff then le_bytes 2 0xffff else le_bytes 8 PLP_NULL in
  match t with
  | TypeInfo.FixedLen FixedLenType.Null => Some []
  | TypeInfo.FixedLen _ => None
  | TypeInfo.VarLenSized cx =>
      match vlc_type cx with
      | VarLenType.BigVarBin | VarLenType.BigBinary | VarLenType.BigVarChar | VarLenType.BigChar
      | VarLenType.NVarchar | VarLenType.NChar => Some (plp (vlc_len cx))
      | VarLenType.SSVariant => Some (le_bytes 4 0)
      | VarLenType.Decimaln | VarLenType.Numericn | VarLenType.Xml | VarLenType.Udt => None
      | _ => Some (le_bytes 1 0)
      end
  | TypeInfo.VarLenSizedPrecision (VarLenType.Decimaln | VarLenType.Numericn) _ _ _ => Some (le_bytes 1 0)
  | TypeInfo.VarLenSizedPrecision _ _ _ _ => None
  | TypeInfo.Xml _ size => Some (plp size)
  | TypeInfo.Udt _ => Some (le_bytes 8 PLP_NULL)
  end.

Section Nulls.
Context {ER : EncodingRs} (ctx : Context).

Lemma decodes_plp_null n :
  decodes (plp_decode n) (if n <? 0xffff then le_bytes 2 0xffff else le_bytes 8 PLP_NULL) None.
Proof.
  unfold plp_decode. destruct (n <? 0xffff);
    (eapply decodes_bind_last; [first [apply decodes_u16_le|apply decodes_u64_le]; split; vm_compute; congruence|]);
    eval_tests; apply decodes_ret.
Qed.

Lemma decodes_null (t : TypeInfo) out :
  null_bytes t = Some out ->
  match t with TypeInfo.VarLenSized cx => vlc_type cx = VarLenType.Datetimen -> vlc_len cx = 8 | _ => True end ->
  forall f n, decodes (column_decode ctx t) out (null_value (mkBaseMetaDataColumn f t n)).
Proof.
  intros Hb Hd f n. destruct t as [[]|[[] k co]|[] ? ? ?|schema size|i]; try discriminate Hb;
    cbn [null_bytes vlc_type vlc_len] in *; injection Hb as <-; cbn [null_value ty vlc_type vlc_len var_null fixed_null].
  all: try (intros rest; reflexivity).
  all: try (eapply decodes_bind_ret_eq with (a := None); [apply decodes_plp_null|reflexivity]).
  all: try (eapply decodes_bind_ret_eq with (a := None);
            [unfold string_decode; eapply decodes_bind_last; [apply decodes_plp_null|apply decodes_ret]|reflexivity]).
  all: rewrite (Hd eq_refl); intros rest; reflexivity.
Qed.
End Nulls.

(** ** Lemmas: identifiers *)

(** Reads a bracketed identifier back: a doubled bracket is a bracket, a
    single one ends the identifier. *)
Fixpoint unquote (s : str) : option (str * str) :=
  match s with
  | [] => None
  | c :: s' =>
      if c =? BRACKET then
        match s' with
        | d :: s'' => if d =? BRACKET then option_map (fun '(n, r) => (BRACKET :: n, r)) (unquote s'') else Some ([], s')
        | [] => Some ([], [])
        end
      else option_map (fun '(n, r) => (c :: n, r)) (unquote s')
  end.

Lemma unquote_escape s rest : match rest with c :: _ => c <> BRACKET | [] => True end ->
  unquote (escape_bracket s ++ BRACKET :: rest) = Some (s, rest).
Proof.
  intros Hr. induction s as [|c s IH].
  - cbn. destruct rest as [|d r]; [reflexivity|]. rewrite (proj2 (Z.eqb_neq _ _)) by assumption. reflexivity.
  - cbn [escape_bracket flat_map]. destruct (Z.eqb_spec c BRACKET) as [->|Hc]; cbn [app unquote].
    + rewrite Z.eqb_refl. unfold escape_bracket in IH. rewrite IH. reflexivity.
    + rewrite (proj2 (Z.eqb_neq _ _)) by assumption. unfold escape_bracket in IH. rewrite IH. reflexivity.
Qed.

(** Whatever the column is called, the identifier written into an
    [INSERT BULK] statement is one bracketed identifier: reading it by the
    T-SQL rule (a doubled bracket is a literal one, a single one ends the
    name) gives the column's name and stops right before the type name, so a
    name cannot break out of its brackets; and a definition is produced for
    every type a server can describe. *)
Theorem display_column_quotes (c : MetaDataColumn) (H : wire_typeinfo (ty (base c))) :
  exists name, type_name (ty (base c)) = Some name /\
    display_column c = Some (91 :: escape_bracket (col_name c) ++ BRACKET :: 32 :: name) /\
    unquote (escape_bracket (col_name c) ++ BRACKET :: 32 :: name) = Some (col_name c, 32 :: name).
Proof.
  assert (N : exists name, type_name (ty (base c)) = Some name).
  { destruct (ty (base c)) as [f|[v n co]|v ? ? ?|schema size|i]; cbn [type_name]; eauto.
    destruct H as [Hs _]. destruct v; try discriminate; cbn [vlc_type var_name]; eauto. }
  destruct N as [name N]. exists name. split; [exact N|]. split.
  - unfold display_column, quote_ident. rewrite N. rewrite <- !app_assoc. reflexivity.
  - apply unquote_escape. discriminate.
Qed.

(** [[a]b]] of type [int] *)
Lemma display_column_quotes_witness :
  let c := mkMetaDataColumn (mkBaseMetaDataColumn 0 (TypeInfo.FixedLen FixedLenType.Int4) None) (ascii_str "a]b") in
  display_column c = Some (ascii_str "[a]]b] int").
Proof.
  cbn zeta.
  destruct (display_column_quotes (mkMetaDataColumn (mkBaseMetaDataColumn 0 (TypeInfo.FixedLen FixedLenType.Int4) None)
    (ascii_str "a]b")) I) as (name & N & D & _).
  rewrite D. injection N as <-. reflexivity.
Defined.

(** For every nullable column type a server can describe, the null that
    [null_value] puts for an NBCROW is the value [ColumnData::decode] returns
    for the null form of that type in a ROW, [smalldatetime] excepted: there
    the row decoder returns a null [SmallDateTime] and [null_value] a null
    [DateTime]. *)
Theorem null_value_agrees {ER : EncodingRs} (ctx : Context) (c : BaseMetaDataColumn) (out : bytes)
  (H : null_bytes (ty c) = Some out) :
  (match ty c with TypeInfo.VarLenSized cx => vlc_type cx = VarLenType.Datetimen -> vlc_len cx = 8 | _ => True end ->
   decodes (column_decode ctx (ty c)) out (null_value c)) /\
  (forall co, ty c = vls VarLenType.Datetimen 4 co ->
   decodes (column_decode ctx (ty c)) out (ColumnData.SmallDateTime None) /\ null_value c = ColumnData.DateTime None).
Proof.
  destruct c as [f t n]. cbn [ty] in *. split.
  - intros Hd. apply decodes_null; assumption.
  - intros co ->. injection H as <-. split; [intros rest; reflexivity|reflexivity].
Qed.

Lemma null_value_agrees_witness :
  decodes (column_decode (ER := ascii_encoding_rs) context_new (vls VarLenType.NVarchar 0xffff None))
    (le_bytes 8 PLP_NULL) (ColumnData.String None).
Proof.
  apply (proj1 (null_value_agrees (ER := ascii_encoding_rs) context_new
    (mkBaseMetaDataColumn 0 (vls VarLenType.NVarchar 0xffff None) None) (le_bytes 8 PLP_NULL) eq_refl)).
  discriminate.
Defined.
