(* ===== verification/Rows.v ===== *)
(** * Rows: ROW, NBCROW, ALTROW and RETURNVALUE

    [token_row.rs], [token_alt_row.rs], [token_return_value.rs]: values read
    by the metadata of the context, and the rows of a bulk load. *)

From S2P Require Import Prelude Unicode Collation SqlRead SqlWrite Types TypeInfoCodec NumericCodec Temporal Money Context ColumnDecode ColumnEncode ColumnRoundtrip Metadata.
From Stdlib Require Import Floats.SpecFloat.

(** ** [RowBitmap] *)

(** [RowBitmap::is_null]: an index out of the bitmap is a panic. *)
Definition bitmap_is_null (data : bytes) (i : nat) : Res bool :=
  match data !! (i / 8)%nat with
  | Some b => Ok (0 <? Z.land b (Z.shiftl 1 (Z.of_nat (i mod 8))))
  | None => Panic
  end.

(** [RowBitmap::decode] *)
Definition bitmap_decode {R} `{SqlReadBytes R} (cols : nat) : M R bytes := read_n ((cols + 7) / 8).

(** [TokenRow]: the values of a row. *)
Definition TokenRow := list ColumnData.

Section Rows.
Context {ER : EncodingRs} (ctx : Context).

(** [TokenRow::decode] *)
Definition row_decode {R} `{SqlReadBytes R} : M R TokenRow :=
  match last_meta ctx with
  | None => fail (Protocol "ROW token arrived before any COLMETADATA")
  | Some m => map_m (fun c => column_decode ctx (ty (base c))) (columns m)
  end.

(** The loop of [TokenRow::decode_nbc], from column [i]. *)
Fixpoint nbc_columns {R} `{SqlReadBytes R} (bitmap : bytes) (i : nat) (cols : list MetaDataColumn) : M R TokenRow :=
  match cols with
  | [] => ret []
  | c :: cols =>
      is_null <- lift (bitmap_is_null bitmap i) ;;
      d <- (if is_null : bool then ret (null_value (base c)) else column_decode ctx (ty (base c))) ;;
      l <- nbc_columns bitmap (S i) cols ;;
      ret (d :: l)
  end.

(** [TokenRow::decode_nbc] *)
Definition nbc_row_decode {R} `{SqlReadBytes R} : M R TokenRow :=
  match last_meta ctx with
  | None => fail (Protocol "NBCROW token arrived before any COLMETADATA")
  | Some m => bitmap <- bitmap_decode (length (columns m)) ;; nbc_columns bitmap 0 (columns m)
  end.

Record TokenAltRow := mkTokenAltRow { ar_id : Z; ar_data : list ColumnData }.

(** [TokenAltRow::decode] *)
Definition alt_row_decode {R} `{SqlReadBytes R} (id : Z) (m : TokenAltMetaData) : M R TokenAltRow :=
  data <- map_m (fun c => column_decode ctx (ty (amc_base c))) (alt_columns m) ;; ret (mkTokenAltRow id data).

Record TokenReturnValue := mkTokenReturnValue {
  param_ordinal : Z;
  param_name : str;
  udf : bool;
  rv_meta : BaseMetaDataColumn;
  rv_value : ColumnData;
}.

(** [TokenReturnValue::decode] *)
Definition return_value_decode {R} `{SqlReadBytes R} : M R TokenReturnValue :=
  param_ordinal <- read_u16_le ;;
  param_name <- read_b_varchar ;;
  status <- read_u8 ;;
  udf <- (if status =? 1 then ret false else if status =? 2 then ret true
          else fail (Protocol "ReturnValue: invalid status")) ;;
  meta <- base_decode ;;
  value <- column_decode ctx (ty meta) ;;
  ret (mkTokenReturnValue param_ordinal param_name udf meta value).

(** ** Writing a row of a bulk load *)

Context (oc : bool) (powi10 : Z -> spec_float).

Definition TOKEN_ROW : Z := 0xD1.

Fixpoint encode_values (row : TokenRow) (cols : list MetaDataColumn) : M bytes unit :=
  match row, cols with
  | v :: row, c :: cols => column_encode oc powi10 v (Some (ty (base c))) ;; encode_values row cols
  | _, _ => ret tt
  end.

(** [impl Encode<BytesMutWithDataColumns> for TokenRow]: the token byte is
    written before the arity is checked. *)
Definition row_encode (row : TokenRow) (cols : list MetaDataColumn) : M bytes unit :=
  put_u8 TOKEN_ROW ;;
  if negb (len row =? len cols) then fail (BulkInput "wrong number of columns")
  else encode_values row cols.

(** ** Lemmas: the bitmap *)

(** The bitmap of a list of null flags, least significant bit first. *)
Fixpoint bits_val (l : list bool) : Z :=
  match l with [] => 0 | b :: l => Z.b2z b + 2 * bits_val l end.

Fixpoint pack (fuel : nat) (l : list bool) : bytes :=
  match fuel with
  | O => []
  | S fuel => match l with [] => [] | _ => bits_val (take 8 l) :: pack fuel (drop 8 l) end
  end.
Definition bitmap (l : list bool) : bytes := pack (length l) l.

Lemma bits_val_testbit l i : Z.testbit (bits_val l) (Z.of_nat i) = nth i l false.
Proof.
  revert i. induction l as [|b l IH]; intros i; cbn [bits_val].
  - rewrite Z.bits_0. destruct i; reflexivity.
  - rewrite Z.add_comm. destruct i as [|i]; cbn [nth].
    + apply Z.testbit_0_r.
    + rewrite Nat2Z.inj_succ, Z.testbit_succ_r by lia. apply IH.
Qed.

Lemma land_pow2_pos b k : 0 <= k -> 0 <= b -> (0 <? Z.land b (Z.shiftl 1 k)) = Z.testbit b k.
Proof.
  intros Hk Hb. rewrite Z.shiftl_1_l.
  destruct (Z.testbit b k) eqn:E.
  - apply Z.ltb_lt. assert (0 <= Z.land b (2 ^ k)) by (apply Z.land_nonneg; auto).
    assert (Z.land b (2 ^ k) <> 0); [|lia]. intros Hz.
    assert (T : Z.testbit (Z.land b (2 ^ k)) k = true) by (rewrite Z.land_spec, E, Z.pow2_bits_true by lia; reflexivity).
    rewrite Hz, Z.bits_0 in T. discriminate.
  - apply Z.ltb_ge. replace (Z.land b (2 ^ k)) with 0; [lia|]. symmetry. apply Z.bits_inj'. intros j Hj.
    rewrite Z.land_spec, Z.bits_0. destruct (Z.eq_dec j k) as [->|Hn]; [rewrite E; reflexivity|].
    rewrite Z.pow2_bits_false by lia. apply andb_false_r.
Qed.

Lemma bits_val_nonneg l : 0 <= bits_val l.
Proof. induction l as [|[] l IH]; cbn [bits_val Z.b2z]; lia. Qed.

Lemma bits_val_byte l : (length l <= 8)%nat -> is_byte (bits_val l).
Proof.
  intros H. assert (B : forall l, bits_val l < 2 ^ len l).
  { clear. induction l as [|b l IH]; cbn [bits_val length]; [reflexivity|].
    rewrite Nat2Z.inj_succ, Z.pow_succ_r by lia. destruct b; cbn [Z.b2z]; lia. }
  specialize (B l). pose proof (bits_val_nonneg l). assert (2 ^ len l <= 2 ^ 8) by (apply Z.pow_le_mono_r; lia).
  unfold is_byte. lia.
Qed.

Lemma pack_lookup fuel : forall l k, (length l <= fuel)%nat -> (8 * k < length l)%nat ->
  pack fuel l !! k = Some (bits_val (take 8 (drop (8 * k) l))).
Proof.
  induction fuel as [|fuel IH]; intros l k Hf Hk; [lia|]. cbn [pack].
  destruct l as [|b l']; [cbn in Hk; lia|]. set (l := b :: l') in *.
  destruct k as [|k]; [reflexivity|]. cbn [lookup list_lookup].
  assert (L : length (drop 8 l) = (length l - 8)%nat) by apply length_drop.
  assert (1 <= length l)%nat by (unfold l; cbn; lia).
  rewrite IH by lia. rewrite drop_drop. do 3 f_equal. f_equal. lia.
Qed.

Lemma length_pack fuel : forall l, (length l <= fuel)%nat -> length (pack fuel l) = ((length l + 7) / 8)%nat.
Proof.
  induction fuel as [|fuel IH]; intros l Hf; cbn [pack].
  - destruct l; [reflexivity|cbn in Hf; lia].
  - destruct l as [|b l']; [reflexivity|]. set (l := b :: l') in *. cbn [length].
    assert (1 <= length l)%nat by (unfold l; cbn; lia).
    rewrite IH by (rewrite length_drop; lia). rewrite length_drop.
    destruct (le_lt_dec 8 (length l)).
    + replace (length l + 7)%nat with ((length l - 8 + 7) + 1 * 8)%nat by lia. rewrite Nat.div_add by lia. lia.
    + replace (length l - 8)%nat with 0%nat by lia. cbn [Nat.add].
      rewrite (Nat.div_small 7 8) by lia. apply (Nat.div_unique (length l + 7) 8 1 (length l - 1)); lia.
Qed.

(** Bit [i] of the bitmap is the null flag of column [i]. *)
Lemma bitmap_spec l i : (i < length l)%nat -> bitmap_is_null (bitmap l) i = Ok (nth i l false).
Proof.
  intros Hi. unfold bitmap_is_null, bitmap. pose proof (Nat.div_mod_eq i 8) as E.
  pose proof (Nat.mod_upper_bound i 8 ltac:(lia)) as M.
  rewrite pack_lookup by lia. f_equal.
  rewrite land_pow2_pos by (try apply bits_val_nonneg; lia). rewrite bits_val_testbit.
  rewrite nth_lookup, lookup_take_lt, lookup_drop, <- E by lia. rewrite <- nth_lookup. reflexivity.
Qed.

Lemma decodes_bitmap l : decodes (bitmap_decode (length l)) (bitmap l) (bitmap l).
Proof. apply decodes_read_n, length_pack. lia. Qed.

(** ** Lemmas: safety *)

Lemma bitmap_in_range (b : bytes) i n : length b = ((n + 7) / 8)%nat -> (i < n)%nat ->
  res_safe (fun _ => True) (bitmap_is_null b i).
Proof.
  intros Hl Hi. unfold bitmap_is_null. destruct (lookup_lt_is_Some_2 b (i / 8)) as [x ->]; [|exact I].
  rewrite Hl. apply Nat.Div0.div_lt_upper_bound.
  pose proof (Nat.div_mod_eq (n + 7) 8). pose proof (Nat.mod_upper_bound (n + 7) 8 ltac:(lia)). lia.
Qed.

Lemma null_value_wf c : wf_column (null_value c).
Proof.
  destruct c as [f t n]. unfold null_value. cbn [ty].
  destruct t as [[]|[[] k co]|[] ? ? ?|? ?|?]; cbn; try exact I;
    repeat match goal with |- context [if ?b then _ else _] => destruct b end; exact I.
Qed.

Lemma safe_row : wf_context ctx -> safe row_decode (Forall wf_column).
Proof.
  intros W. unfold row_decode. pose proof (wf_last_meta _ W) as Hm. destruct (last_meta ctx) as [m|]; [|apply safe_fail].
  eapply safe_weaken; [apply (safe_map_m _ (fun c => wf_typeinfo (ty (base c))))|intros l [Hl _]; exact Hl].
  - intros c Hc. apply safe_column, Hc.
  - exact Hm.
Qed.

Lemma safe_nbc_columns b n : length b = ((n + 7) / 8)%nat ->
  forall cols i, Forall (fun c => wf_typeinfo (ty (base c))) cols -> (i + length cols = n)%nat ->
  safe (nbc_columns b i cols) (Forall wf_column).
Proof.
  intros Hb cols. induction cols as [|c cols IH]; intros i Hc Hi; cbn [nbc_columns length] in *.
  - apply safe_ret. constructor.
  - inversion_clear Hc. eapply safe_bind; [apply safe_lift, (bitmap_in_range b i n Hb); lia|intros is_null _].
    eapply safe_bind with (Q := wf_column).
    + destruct is_null; [apply safe_ret, null_value_wf|apply safe_column; assumption].
    + intros d Hd. eapply safe_bind; [apply IH; [assumption|lia]|intros l Hl]. apply safe_ret. constructor; assumption.
Qed.

Lemma safe_nbc_row : wf_context ctx -> safe nbc_row_decode (Forall wf_column).
Proof.
  intros W. unfold nbc_row_decode. pose proof (wf_last_meta _ W) as Hm. destruct (last_meta ctx) as [m|]; [|apply safe_fail].
  eapply safe_bind; [apply safe_read_n|intros b [_ Hb]]. apply (safe_nbc_columns b _ Hb); [exact Hm|lia].
Qed.

Lemma safe_alt_row id m : wf_alt_meta m -> safe (alt_row_decode id m) (fun r => Forall wf_column (ar_data r)).
Proof.
  intros Hm. eapply safe_bind; [apply (safe_map_m _ (fun c => wf_typeinfo (ty (amc_base c))))|intros l [Hl _]].
  - intros c Hc. apply safe_column, Hc.
  - exact Hm.
  - apply safe_ret, Hl.
Qed.

Lemma safe_return_value : safe return_value_decode (fun r => wf_column (rv_value r)).
Proof.
  unfold return_value_decode. do 3 safe_step. eapply safe_bind with (Q := fun _ => True); [safe_steps; exact I|intros u _].
  eapply safe_bind; [apply safe_base|intros b [Hb _]].
  eapply safe_bind; [apply safe_column, Hb|intros v Hv]. apply safe_ret, Hv.
Qed.

(** ** Lemmas: round trips *)

Lemma row_values row cols : Forall2 (fun d c => fits_column d (ty (base c))) row cols ->
  exists out, appends (encode_values row cols) out /\
    decodes (map_m (fun c => column_decode ctx (ty (base c))) cols) out row.
Proof.
  induction 1 as [|d c row cols H _ (out & A & D)]; cbn [encode_values map_m].
  - exists []. split; [apply appends_ret|apply decodes_ret].
  - destruct (fits_roundtrips oc powi10 ctx d _ H) as (o & A1 & D1). exists (o ++ out). split.
    + apply appends_bind; assumption.
    + eapply decodes_bind; [exact D1|]. eapply decodes_bind_ret_eq; [exact D|reflexivity].
Qed.

(** Columns, null flags, the forms of the values in a ROW, and the values a ROW
    decoder reads there; what is flagged is the null form of its type. *)
Inductive row_wire : list MetaDataColumn -> list bool -> list bytes -> TokenRow -> Prop :=
| row_wire_nil : row_wire [] [] [] []
| row_wire_cons c b o d cols nulls outs row :
    decodes (column_decode ctx (ty (base c))) o d ->
    (b = true -> null_bytes (ty (base c)) = Some o) ->
    row_wire cols nulls outs row ->
    row_wire (c :: cols) (b :: nulls) (o :: outs) (d :: row).

(** What an NBCROW shows of a row: the same values, except that a null of a
    four-byte [datetimen] column is a null [DateTime]. *)
Definition is_smalldatetime (t : TypeInfo) : bool :=
  match t with
  | TypeInfo.VarLenSized cx => match vlc_type cx with VarLenType.Datetimen => wrap 8 (vlc_len cx) =? 4 | _ => false end
  | _ => false
  end.
Fixpoint nbc_view (cols : list MetaDataColumn) (nulls : list bool) (row : TokenRow) : TokenRow :=
  match cols, nulls, row with
  | c :: cols, b :: nulls, d :: row => (if b && is_smalldatetime (ty (base c)) then ColumnData.DateTime None else d) :: nbc_view cols nulls row
  | _, _, _ => []
  end.

(** The null of the metadata is what the ROW form of the null is read as, but
    for [smalldatetime]. *)
Lemma null_value_viewed c o d : decodes (column_decode ctx (ty (base c))) o d -> null_bytes (ty (base c)) = Some o ->
  null_value (base c) = if is_smalldatetime (ty (base c)) then ColumnData.DateTime None else d.
Proof.
  destruct c as [[f t n] name]. cbn [base ty]. intros D N.
  assert (X : (match t with TypeInfo.VarLenSized cx => vlc_type cx = VarLenType.Datetimen -> vlc_len cx = 8 | _ => True end) ->
    is_smalldatetime t = false -> null_value (mkBaseMetaDataColumn f t n) = d).
  { intros H _. pose proof (decodes_null ctx t o N H f n []) as E. rewrite (D []) in E. congruence. }
  destruct t as [t|[v k co]|v k p s|sc sz|u]; try (apply X; [exact I|reflexivity]). destruct v; try (apply X; [discriminate|reflexivity]).
  cbn [is_smalldatetime vlc_type vlc_len]. destruct (Z.eqb_spec (wrap 8 k) 4) as [_|K]; [reflexivity|]. injection N as <-.
  assert (F : datetimen_decode 0 (wrap 8 k) [] = (Ok d, [])) by exact (D []). unfold datetimen_decode in F.
  rewrite (proj2 (Z.eqb_neq _ 4) K) in F. destruct (wrap 8 k =? 8); [|discriminate F]. injection F as <-. reflexivity.
Qed.

(** The wire forms an NBCROW keeps. *)
Fixpoint present (nulls : list bool) (outs : list bytes) : list bytes :=
  match nulls, outs with
  | b :: nulls, o :: outs => if b : bool then present nulls outs else o :: present nulls outs
  | _, _ => []
  end.

Lemma row_wire_row cols nulls outs row : row_wire cols nulls outs row ->
  decodes (map_m (fun c => column_decode ctx (ty (base c))) cols) (concat outs) row /\ length nulls = length cols.
Proof.
  induction 1 as [|c b o d cols nulls outs row D N _ [IH L]]; cbn [map_m concat length].
  - split; [apply decodes_ret|reflexivity].
  - split; [|congruence]. eapply decodes_bind; [exact D|]. eapply decodes_bind_ret_eq; [exact IH|reflexivity].
Qed.

Lemma row_wire_nbc all pre cols nulls outs row : row_wire cols nulls outs row ->
  all = pre ++ nulls ->
  decodes (nbc_columns (bitmap all) (length pre) cols) (concat (present nulls outs)) (nbc_view cols nulls row).
Proof.
  intros H. revert pre. induction H as [|c b o d cols nulls outs row D N _ IH]; intros pre E; cbn [nbc_columns present nbc_view].
  - apply decodes_ret.
  - eapply decodes_bind_nil with (a := b).
    { apply decodes_lift. rewrite bitmap_spec by (rewrite E, length_app; cbn; lia). f_equal.
      rewrite E, app_nth2, Nat.sub_diag by lia. reflexivity. }
    assert (R : forall out l (x : ColumnData), decodes (nbc_columns (bitmap all) (S (length pre)) cols) out l ->
              decodes (l <- nbc_columns (bitmap all) (S (length pre)) cols ;; ret (x :: l)) out (x :: l))
      by (intros out l x X; eapply decodes_bind_ret_eq; [exact X|reflexivity]).
    specialize (IH (pre ++ [b])). rewrite length_app in IH. cbn [length] in IH. rewrite Nat.add_1_r in IH.
    specialize (IH ltac:(rewrite E, <- app_assoc; reflexivity)).
    destruct b; cbn [nth concat].
    + cbn [andb]. rewrite <- (null_value_viewed c o d D (N eq_refl)). eapply decodes_bind_nil; [apply decodes_ret|apply R, IH].
    + eapply decodes_bind; [exact D|apply R, IH].
Qed.
End Rows.

(** The connection's context once a COLMETADATA has been read. *)
Definition with_columns (cols : list MetaDataColumn) (ctx : Context) : Context :=
  set_last_meta (mkTokenColMetaData cols) ctx.

(** A row whose values fit the columns of the target table is written by
    the bulk loader as one ROW token, and a row decoder that holds the same
    columns reads exactly that token body and returns the same row. *)
Theorem row_roundtrip {ER : EncodingRs} (oc : bool) (powi10 : Z -> spec_float) (ctx : Context)
  (cols : list MetaDataColumn) (row : TokenRow)
  (H : Forall2 (fun d c => fits_column d (ty (base c))) row cols) :
  exists out, appends (row_encode oc powi10 row cols) (le_bytes 1 TOKEN_ROW ++ out) /\
    decodes (row_decode (with_columns cols ctx)) out row.
Proof.
  destruct (row_values (with_columns cols ctx) oc powi10 row cols H) as (out & A & D). exists out. split; [|exact D].
  unfold row_encode. apply appends_bind; [apply appends_put_slice|].
  rewrite (Forall2_length _ _ _ H), Z.eqb_refl. exact A.
Qed.

Definition int_column (name : string) : MetaDataColumn :=
  mkMetaDataColumn (mkBaseMetaDataColumn (Nullable + Updateable) (vls VarLenType.Intn 4 None) None) (ascii_str name).

Lemma row_roundtrip_witness :
  let cols := [int_column "a"; int_column "b"] in
  let row := [ColumnData.I32 (Some (-7)); ColumnData.I32 None] in
  exists out, appends (row_encode (ER := ascii_encoding_rs) true (fun _ => S754_nan) row cols) (le_bytes 1 TOKEN_ROW ++ out) /\
    decodes (row_decode (ER := ascii_encoding_rs) (with_columns cols context_new)) out row.
Proof.
  apply (row_roundtrip (ER := ascii_encoding_rs)).
  constructor; [|constructor; [|constructor]]; cbn; split; try reflexivity; try discriminate; try exact I.
  split; vm_compute; congruence.
Defined.

(** C33: an NBCROW is a ROW with its nulls moved to a bitmap: take any row on
    the wire, drop the columns whose flag is set, each of them the null of its
    type as a ROW writes it, and put the flags in front as a bitmap, least
    significant bit first; [decode_nbc] reads the result as the row that
    [decode] reads from the original, for any number of columns, any types and
    any pattern of nulls, with one exception: a null [smalldatetime] (a
    [datetimen] of four bytes) is a null [SmallDateTime] in a ROW and a null
    [DateTime] in an NBCROW. *)
Theorem nbc_row_equiv {ER : EncodingRs} (ctx : Context) (cols : list MetaDataColumn)
  (nulls : list bool) (outs : list bytes) (row : TokenRow)
  (H : row_wire (with_columns cols ctx) cols nulls outs row) :
  decodes (row_decode (with_columns cols ctx)) (concat outs) row /\
  decodes (nbc_row_decode (with_columns cols ctx)) (bitmap nulls ++ concat (present nulls outs)) (nbc_view cols nulls row) /\
  (Forall (fun c => is_smalldatetime (ty (base c)) = false) cols -> nbc_view cols nulls row = row).
Proof.
  destruct (row_wire_row _ _ _ _ _ H) as [D L]. split; [exact D|]. split.
  - unfold nbc_row_decode, with_columns. cbn [last_meta set_last_meta columns]. rewrite <- L.
    eapply decodes_bind; [apply decodes_bitmap|]. apply (row_wire_nbc _ nulls [] cols nulls outs row H eq_refl).
  - clear D L. induction H as [|c b o d cs ns os r _ _ _ IH]; intros F; [reflexivity|]. inversion_clear F as [|? ? Hc F']. cbn [nbc_view].
    rewrite Hc, andb_false_r, IH by exact F'. reflexivity.
Qed.

(** Nine integers of which the first, the third and the last are null. *)
Definition nine_columns : list MetaDataColumn := repeat (int_column "c") 9.
Definition nine_values : list (option Z) :=
  [None; Some 1; None; Some 3; Some 4; Some 5; Some 6; Some 7; None].

Lemma nbc_row_equiv_witness :
  decodes (nbc_row_decode (ER := ascii_encoding_rs) (with_columns nine_columns context_new))
    ([5; 1] ++ concat (map (fun v => le_bytes 1 4 ++ le_bytes 4 v) [1; 3; 4; 5; 6; 7]))
    (map ColumnData.I32 nine_values).
Proof.
  refine (proj1 (proj2 (nbc_row_equiv (ER := ascii_encoding_rs) context_new nine_columns
    (map (fun o => match o with None => true | Some _ => false end) nine_values)
    (map (fun o => match o with None => le_bytes 1 0 | Some v => le_bytes 1 4 ++ le_bytes 4 v end) nine_values)
    (map ColumnData.I32 nine_values) _))).
  unfold nine_columns, nine_values; cbn [map repeat].
  repeat (apply row_wire_cons; [intros rest; reflexivity|first [reflexivity|discriminate]|]). apply row_wire_nil.
Defined.
