(* ===== verification/Identifiers.v ===== *)
(** * Identifiers: names that are spliced into SQL text, the identifier
    functions of [client.rs]

    T-SQL takes no parameters for the names of tables, columns and types, so
    the driver checks what it interpolates and quotes what it writes itself.
    [char::is_alphanumeric] of the standard library is Unicode data and a
    parameter here. *)

From S2P Require Import Prelude Unicode Collation SqlRead SqlWrite Types TypeInfoCodec Context ColumnDecode Metadata.

Definition LBRACKET : Z := 91.
Definition LPAREN : Z := 40.
Definition RPAREN : Z := 41.
Definition QUOTE : Z := 39.

(** [char::is_ascii_control] *)
Definition is_ascii_control (c : Z) : bool := (c <? 32) || (c =? 127).

Definition bad_ident (m : string) : Res unit := Err (BulkInput m).

(** Characters that are allowed outside brackets: [is_alphanumeric] and a few
    more. *)
Definition is_plain (alnum : Z -> bool) (c : Z) : bool :=
  alnum c || existsb (Z.eqb c) (ascii_str "_.@#, *").

(** The loop of [validate_sql_identifier]; [paren_depth] is a [u32]. *)
Fixpoint validate_loop (oc : bool) (alnum : Z -> bool) (s : str) (in_bracket : bool) (paren_depth : Z) : Res unit :=
  match s with
  | [] =>
      if in_bracket then bad_ident "identifier has an unterminated `[` bracket-quoted segment"
      else if negb (paren_depth =? 0) then bad_ident "identifier contains an unbalanced `(`"
      else Ok tt
  | c :: s =>
      if in_bracket then
        if c =? BRACKET then
          match s with
          | [] => validate_loop oc alnum s false paren_depth
          | d :: s' =>
              if d =? BRACKET then validate_loop oc alnum s' true paren_depth
              else if d =? DOT then validate_loop oc alnum s false paren_depth
              else bad_ident "identifier has trailing characters after a bracket-quoted segment"
          end
        else validate_loop oc alnum s true paren_depth
      else if c =? LBRACKET then validate_loop oc alnum s true paren_depth
      else if c =? BRACKET then bad_ident "identifier contains an unbalanced `]` bracket"
      else if c =? LPAREN then res_bind (arith_u oc 32 (paren_depth + 1)) (validate_loop oc alnum s false)
      else if c =? RPAREN then
        if paren_depth =? 0 then bad_ident "identifier contains an unbalanced `)`"
        else if (paren_depth - 1 =? 0) && negb (bool_decide (s = [])) then
          bad_ident "identifier has trailing characters after a closing `)`"
        else validate_loop oc alnum s false (paren_depth - 1)
      else if (c =? SPACE) && (paren_depth =? 0) then bad_ident "identifier contains a disallowed character"
      else if (c =? COMMA) && (paren_depth =? 0) then bad_ident "identifier contains a disallowed character"
      else if is_plain alnum c then validate_loop oc alnum s false paren_depth
      else bad_ident "identifier contains a disallowed character"
  end.

(** [validate_sql_identifier] *)
Definition validate_sql_identifier (oc : bool) (alnum : Z -> bool) (ident : str) : Res unit :=
  if existsb is_ascii_control ident then bad_ident "identifier must not contain NUL or control characters"
  else validate_loop oc alnum ident false 0.

(** [quote_identifier] *)
Definition quote_identifier (name : str) : str := quote_ident name.

(** The loop of [split_multipart_identifier]; [part] is the last part so
    far. *)
Fixpoint split_loop (s : str) (in_bracket : bool) (part : str) : list str :=
  match s with
  | [] => [part]
  | c :: s =>
      if in_bracket then
        if c =? BRACKET then
          match s with
          | d :: s' => if d =? BRACKET then split_loop s' true (part ++ [BRACKET]) else split_loop s false part
          | [] => split_loop s false part
          end
        else split_loop s true (part ++ [c])
      else if c =? LBRACKET then split_loop s true part
      else if c =? DOT then part :: split_loop s false []
      else split_loop s false (part ++ [c])
  end.
(** [split_multipart_identifier] *)
Definition split_multipart_identifier (ident : str) : list str := split_loop ident false [].

(** [slice::join] *)
Fixpoint join (sep : str) (l : list str) : str :=
  match l with [] => [] | [a] => a | a :: l => a ++ sep ++ join sep l end.

(** [IteratorJoin::join]: the first item, then a separator and an item each *)
Definition iterator_join (sep : str) (l : list str) : str :=
  match l with
  | [] => []
  | first :: l => fold_left (fun out item => out ++ sep ++ item) l first
  end.
Lemma iterator_join_eq sep l : iterator_join sep l = join sep l.
Proof.
  destruct l as [|a l]; [reflexivity|]. cbn [iterator_join]. revert a. induction l as [|b l IH]; intros a; [reflexivity|]. cbn [fold_left].
  rewrite IH. cbn [join]. destruct l; rewrite <- ?app_assoc; reflexivity.
Qed.

(** [str::replace] of one character by two of it *)
Definition double_char (q : Z) (s : str) : str := flat_map (fun c => if c =? q then [q; q] else [c]) s.

(** The text of an identifier, doubled quotes included, or nothing. *)
Definition literal (part : str) : str := match part with [] => [] | _ => quote_identifier (double_char QUOTE part) end.

(** [part(from_end)] *)
Definition part_from_end (parts : list str) (k : nat) : str := default [] (rev parts !! k).

(** [table_collations_sql] *)
Definition table_collations_sql (table : str) (version : FeatureLevel) : str :=
  let parts := split_multipart_identifier table in
  let table_name := part_from_end parts 0 in
  let schema := part_from_end parts 1 in
  let catalog := part_from_end parts 2 in
  let catalog :=
    match catalog with
    | [] => match table_name with c :: _ => if c =? 35 then ascii_str "tempdb" else [] | [] => [] end
    | _ => quote_identifier catalog
    end in
  let procedure :=
    if feature_geb version SqlServer2008 then ascii_str "sp_tablecollations_100"
    else ascii_str "sp_tablecollations_90" in
  ascii_str "EXEC " ++ catalog ++ ascii_str ".." ++ procedure ++ ascii_str " N'" ++ literal schema ++ [DOT] ++ literal table_name ++ [QUOTE].

(** [validate_collation_name]; [bytes] of a string are ASCII where its
    characters are. *)
Definition is_ascii_alphanumeric (c : Z) : bool :=
  is_digit c || ((65 <=? c) && (c <=? 90)) || ((97 <=? c) && (c <=? 122)).
Definition validate_collation_name (name : str) : Res unit :=
  if negb (bool_decide (name = [])) && forallb (fun c => is_ascii_alphanumeric c || (c =? 95)) name then Ok tt
  else Err (Protocol "invalid collation name for a bulk insert column").

(** ** The grammar of what is accepted *)

Section Grammar.
Context (alnum : Z -> bool).

(** A character of an unquoted name. *)
Definition name_char (c : Z) : Prop :=
  is_plain alnum c = true /\ ~ In c [LBRACKET; BRACKET; LPAREN; RPAREN; SPACE; COMMA].
(** A character between the parentheses of a parameterised type. *)
Definition arg_char (c : Z) : Prop := is_plain alnum c = true /\ ~ In c [LBRACKET; BRACKET; LPAREN; RPAREN].
Definition no_control (s : str) : Prop := Forall (fun c => is_ascii_control c = false) s.

(** What follows [d] open parentheses, through the one that closes the first
    of them, which ends the text. *)
Inductive args : nat -> str -> Prop :=
| args_end : args 1 [RPAREN]
| args_close d s : args (S d) s -> args (S (S d)) (RPAREN :: s)
| args_open d s : args (S (S d)) s -> args (S d) (LPAREN :: s)
| args_char d c s : arg_char c -> args d s -> args d (c :: s)
| args_quoted d body s : args d (DOT :: s) -> args d (LBRACKET :: escape_bracket body ++ BRACKET :: DOT :: s).

(** A name: unquoted characters and bracketed parts, a bracketed part at the
    end or before a dot, and at most one parenthesised part, at the end. *)
Inductive name : str -> Prop :=
| name_end : name []
| name_cons c s : name_char c -> name s -> name (c :: s)
| name_quoted_end body : name (LBRACKET :: escape_bracket body ++ [BRACKET])
| name_quoted body s : name (DOT :: s) -> name (LBRACKET :: escape_bracket body ++ BRACKET :: DOT :: s)
| name_args s : args 1 s -> name (LPAREN :: s).

(** The text at depth [d]. *)
Definition at_depth (d : nat) (s : str) : Prop := match d with O => name s | _ => args d s end.

Lemma escape_cons c s : escape_bracket (c :: s) = (if c =? BRACKET then [BRACKET; BRACKET] else [c]) ++ escape_bracket s.
Proof. reflexivity. Qed.

(** A bracketed part is left only at its own closing bracket. *)
Lemma validate_bracket oc d body : forall rest, rest = [] \/ (exists t, rest = DOT :: t) ->
  validate_loop oc alnum (escape_bracket body ++ BRACKET :: rest) true d = validate_loop oc alnum rest false d.
Proof.
  induction body as [|c body IH]; intros rest Hr.
  - cbn [escape_bracket flat_map app validate_loop]. rewrite Z.eqb_refl. destruct Hr as [->|(t & ->)]; reflexivity.
  - rewrite escape_cons. destruct (Z.eqb_spec c BRACKET) as [->|Hc]; cbn [app validate_loop].
    + rewrite Z.eqb_refl. cbn. apply IH, Hr.
    + rewrite (proj2 (Z.eqb_neq _ _)) by exact Hc. apply IH, Hr.
Qed.

Lemma validate_bracket_inv oc d : forall n s, (length s <= n)%nat -> validate_loop oc alnum s true d = Ok tt ->
  exists body rest, s = escape_bracket body ++ BRACKET :: rest /\ (rest = [] \/ exists t, rest = DOT :: t) /\
    validate_loop oc alnum rest false d = Ok tt.
Proof.
  induction n as [|n IH]; intros s Hn H; destruct s as [|c s]; try (cbn in Hn; lia); try discriminate H.
  cbn [validate_loop] in H. destruct (Z.eqb_spec c BRACKET) as [->|Hc].
  - destruct s as [|x s]; [exists [], []; auto|]. destruct (Z.eqb_spec x BRACKET) as [->|Hx].
    + destruct (IH s ltac:(cbn in Hn; lia) H) as (body & rest & -> & R & V). exists (BRACKET :: body), rest. auto.
    + destruct (Z.eqb_spec x DOT) as [->|]; [|discriminate]. exists [], (DOT :: s). eauto.
  - destruct (IH s ltac:(cbn in Hn; lia) H) as (body & rest & -> & R & V). exists (c :: body), rest.
    rewrite escape_cons, (proj2 (Z.eqb_neq _ _)) by exact Hc. auto.
Qed.

(** The branches of the loop outside brackets, for a depth that fits. *)
Lemma validate_plain oc c s d : arg_char c -> (d = 0 -> c <> SPACE /\ c <> COMMA) ->
  validate_loop oc alnum (c :: s) false d = validate_loop oc alnum s false d.
Proof.
  intros [P N] Hd. cbn [validate_loop]. rewrite P.
  rewrite !(proj2 (Z.eqb_neq c _)) by (intros ->; apply N; cbn; auto).
  destruct (Z.eqb_spec d 0) as [E|E]; [|rewrite !andb_false_r; reflexivity].
  destruct (Hd E). rewrite !(proj2 (Z.eqb_neq c _)) by assumption. reflexivity.
Qed.

Lemma name_arg c : name_char c -> arg_char c /\ c <> SPACE /\ c <> COMMA.
Proof. intros [P N]. split; [split; [exact P|]|split]; [intros H|intros ->|intros ->]; apply N; cbn in *; intuition. Qed.

Lemma validate_complete oc s : (forall d, args d s -> forall k, Z.of_nat d = k -> k + len s < 2 ^ 32 -> validate_loop oc alnum s false k = Ok tt) /\
  (name s -> len s < 2 ^ 32 -> validate_loop oc alnum s false 0 = Ok tt).
Proof.
  assert (A : forall d t, args d t -> forall k, Z.of_nat d = k -> k + len t < 2 ^ 32 -> validate_loop oc alnum t false k = Ok tt).
  { induction 1 as [|d t H IH|d t H IH|d c t Hc H IH|d body t H IH]; intros k <- L; cbn [length] in L.
    - reflexivity.
    - cbn [validate_loop]. change (RPAREN =? LBRACKET) with false. change (RPAREN =? BRACKET) with false.
      change (RPAREN =? LPAREN) with false. change (RPAREN =? RPAREN) with true. cbv iota.
      rewrite !(proj2 (Z.eqb_neq _ 0)) by lia. cbn [andb]. apply IH; lia.
    - cbn [validate_loop]. change (LPAREN =? LBRACKET) with false. change (LPAREN =? BRACKET) with false.
      change (LPAREN =? LPAREN) with true. cbv iota. rewrite arith_u_in by (unfold in_unsigned; lia). cbn [res_bind]. apply IH; lia.
    - assert (d <> 0%nat) by (clear - H; induction H; lia).
      rewrite validate_plain; [apply IH; lia|exact Hc|lia].
    - cbn [validate_loop]. change (LBRACKET =? LBRACKET) with true. cbv iota. rewrite validate_bracket by eauto.
      apply IH; [lia|]. rewrite length_app in L. cbn [length] in *. lia. }
  split; [intros d H; exact (A d s H)|]. intros H. induction H as [|c t Hc H IH|body|body t H IH|t H]; intros L.
  - reflexivity.
  - destruct (name_arg c Hc) as (Ha & Hs & Hm). rewrite validate_plain; [apply IH; cbn [length] in L; lia|exact Ha|auto].
  - cbn [validate_loop]. change (LBRACKET =? LBRACKET) with true. cbv iota. rewrite validate_bracket by auto. reflexivity.
  - cbn [validate_loop]. change (LBRACKET =? LBRACKET) with true. cbv iota. rewrite validate_bracket by eauto. apply IH.
    cbn [length] in L. rewrite length_app in L. cbn [length] in *. lia.
  - cbn [validate_loop]. change (LPAREN =? LBRACKET) with false. change (LPAREN =? BRACKET) with false.
    change (LPAREN =? LPAREN) with true. cbv iota. rewrite arith_u_in by (unfold in_unsigned; cbn [length] in L; lia). cbn [res_bind].
    apply (A 1%nat t H 1); [reflexivity|cbn [length] in L; lia].
Qed.

Lemma at_depth_char d c s : arg_char c -> (d = 0%nat -> c <> SPACE /\ c <> COMMA) -> at_depth d s -> at_depth d (c :: s).
Proof.
  intros [P N] Hd H. destruct d as [|d]; [|apply args_char; [split; assumption|exact H]].
  apply name_cons; [|exact H]. split; [exact P|]. destruct (Hd eq_refl) as [H1 H2]. cbn in *. intuition congruence.
Qed.

Lemma at_depth_quoted d body rest : rest = [] \/ (exists t, rest = DOT :: t) -> at_depth d rest ->
  at_depth d (LBRACKET :: escape_bracket body ++ BRACKET :: rest).
Proof.
  intros [->|(t & ->)] H; destruct d as [|d]; cbn [at_depth] in *.
  - apply name_quoted_end.
  - inversion H.
  - apply name_quoted, H.
  - apply args_quoted, H.
Qed.

Lemma validate_sound oc : forall n s d, (length s <= n)%nat -> Z.of_nat d + len s < 2 ^ 32 ->
  validate_loop oc alnum s false (Z.of_nat d) = Ok tt -> at_depth d s.
Proof.
  induction n as [|n IH]; intros s d Hn L H; (destruct s as [|c s]; [|cbn [length] in *]); try lia;
    try (destruct d; [apply name_end|discriminate H]).
  cbn [validate_loop] in H.
  destruct (Z.eqb_spec c LBRACKET) as [->|N1].
  { destruct (validate_bracket_inv oc (Z.of_nat d) (length s) s (le_n _) H) as (body & rest & -> & R & V).
    apply at_depth_quoted; [exact R|]. rewrite length_app in *. cbn [length] in *. apply IH; [lia|lia|exact V]. }
  destruct (Z.eqb_spec c BRACKET) as [->|N2]; [discriminate|].
  destruct (Z.eqb_spec c LPAREN) as [->|N3].
  { rewrite arith_u_in in H by (unfold in_unsigned; lia). cbn [res_bind] in H.
    replace (Z.of_nat d + 1) with (Z.of_nat (S d)) in H by lia. specialize (IH s (S d) ltac:(lia) ltac:(lia) H).
    destruct d; [apply name_args, IH|apply args_open, IH]. }
  destruct (Z.eqb_spec c RPAREN) as [->|N4].
  { destruct d as [|d]; [discriminate|]. rewrite (proj2 (Z.eqb_neq _ 0)) in H by lia.
    replace (Z.of_nat (S d) - 1) with (Z.of_nat d) in H by lia. destruct d as [|d].
    - cbn [Z.of_nat Z.eqb andb] in H. destruct s as [|x s]; [apply args_end|discriminate H].
    - rewrite (proj2 (Z.eqb_neq _ 0)) in H by lia. cbn [andb] in H. apply args_close. exact (IH s (S d) ltac:(lia) ltac:(lia) H). }
  assert (E : validate_loop oc alnum s false (Z.of_nat d) = Ok tt /\ is_plain alnum c = true /\ (d = 0%nat -> c <> SPACE /\ c <> COMMA)).
  { destruct ((c =? SPACE) && (Z.of_nat d =? 0)) eqn:E1; [discriminate|]. destruct ((c =? COMMA) && (Z.of_nat d =? 0)) eqn:E2; [discriminate|].
    destruct (is_plain alnum c); [|discriminate]. split; [exact H|]. split; [reflexivity|]. intros ->. cbn in E1, E2.
    rewrite andb_true_r in E1, E2. apply Z.eqb_neq in E1, E2. auto. }
  destruct E as (V & P & Hd). apply at_depth_char; [|exact Hd|apply IH; [lia|lia|exact V]].
  split; [exact P|]. cbn. intuition congruence.
Qed.
End Grammar.

(** ** Lemmas: splitting what was quoted *)

Lemma split_bracket body : forall rest part, match rest with c :: _ => c <> BRACKET | [] => True end ->
  split_loop (escape_bracket body ++ BRACKET :: rest) true part = split_loop rest false (part ++ body).
Proof.
  induction body as [|c body IH]; intros rest part Hr.
  - cbn [escape_bracket flat_map app split_loop]. rewrite Z.eqb_refl, app_nil_r. destruct rest as [|d rest]; [reflexivity|].
    rewrite (proj2 (Z.eqb_neq _ _)) by exact Hr. reflexivity.
  - rewrite escape_cons. destruct (Z.eqb_spec c BRACKET) as [->|Hc]; cbn [app split_loop].
    + rewrite !Z.eqb_refl. rewrite IH by exact Hr. rewrite <- app_assoc. reflexivity.
    + rewrite (proj2 (Z.eqb_neq _ _)) by exact Hc. rewrite IH by exact Hr. rewrite <- app_assoc. reflexivity.
Qed.

Lemma split_quoted name rest part : match rest with c :: _ => c <> BRACKET | [] => True end ->
  split_loop (quote_identifier name ++ rest) false part = split_loop rest false (part ++ name).
Proof.
  intros H. unfold quote_identifier, quote_ident. cbn [app split_loop]. change (91 =? LBRACKET) with true. cbv iota.
  rewrite <- app_assoc. apply split_bracket, H.
Qed.

Lemma split_join names : names <> [] -> split_multipart_identifier (join [DOT] (map quote_identifier names)) = names.
Proof.
  unfold split_multipart_identifier. induction names as [|a [|b names] IH]; intros Hn; [congruence| |].
  - cbn [map join]. rewrite <- (app_nil_r (quote_identifier a)), split_quoted by exact I. reflexivity.
  - change (join [DOT] (map quote_identifier (a :: b :: names)))
      with (quote_identifier a ++ DOT :: join [DOT] (map quote_identifier (b :: names))).
    rewrite split_quoted by discriminate. cbn [split_loop]. change (DOT =? LBRACKET) with false. change (DOT =? DOT) with true. cbv iota.
    f_equal. apply IH. discriminate.
Qed.

(** A string literal by the T-SQL rule, behind its opening quote: a doubled
    quote is a literal one, a single one ends it. *)
Fixpoint read_literal (s : str) : option (str * str) :=
  match s with
  | [] => None
  | c :: s =>
      if c =? QUOTE then
        match s with
        | d :: s' => if d =? QUOTE then option_map (fun '(a, b) => (QUOTE :: a, b)) (read_literal s') else Some ([], s)
        | [] => Some ([], [])
        end
      else option_map (fun '(a, b) => (c :: a, b)) (read_literal s)
  end.

Lemma read_literal_double s : forall rest t r, read_literal rest = Some (t, r) -> read_literal (double_char QUOTE s ++ rest) = Some (s ++ t, r).
Proof.
  induction s as [|c s IH]; intros rest t r H; [exact H|]. unfold double_char in *. cbn [flat_map].
  destruct (Z.eqb_spec c QUOTE) as [->|Hc]; cbn [app read_literal].
  - rewrite !Z.eqb_refl, (IH _ _ _ H). reflexivity.
  - rewrite (proj2 (Z.eqb_neq _ _)) by exact Hc. rewrite (IH _ _ _ H). reflexivity.
Qed.

(** Quoting and doubling commute: brackets are not quotes. *)
Lemma quote_double s : quote_identifier (double_char QUOTE s) = double_char QUOTE (quote_identifier s).
Proof.
  unfold quote_identifier, quote_ident, double_char. cbn [app flat_map]. change (91 =? QUOTE) with false. cbv iota. cbn [app]. f_equal.
  rewrite flat_map_app. f_equal. unfold escape_bracket. induction s as [|c s IH]; [reflexivity|]. cbn [flat_map].
  rewrite !flat_map_app, IH. f_equal. destruct (Z.eqb_spec c QUOTE) as [->|Hq].
  - reflexivity.
  - cbn [flat_map]. destruct (Z.eqb_spec c BRACKET) as [->|Hb]; [reflexivity|]. cbn [app flat_map].
    rewrite (proj2 (Z.eqb_neq c QUOTE)) by exact Hq. reflexivity.
Qed.

Lemma validate_total oc alnum : forall n s b d, (length s <= n)%nat -> 0 <= d -> d + len s < 2 ^ 32 ->
  validate_loop oc alnum s b d = Ok tt \/ exists m, validate_loop oc alnum s b d = Err (BulkInput m).
Proof.
  induction n as [|n IH]; intros s b d Hn Hd L; (destruct s as [|c s]; [|cbn [length] in *]); try lia;
    try (cbn; destruct b; [right; eexists; reflexivity|]; destruct (d =? 0); [left|right; eexists]; reflexivity).
  assert (Rec : forall b d', 0 <= d' <= d + 1 -> validate_loop oc alnum s b d' = Ok tt \/ exists m, validate_loop oc alnum s b d' = Err (BulkInput m))
    by (intros; apply IH; lia).
  cbn [validate_loop]. unfold bad_ident. destruct b.
  - destruct (c =? BRACKET); [|apply Rec; lia]. destruct s as [|x s]; [apply Rec; lia|].
    destruct (x =? BRACKET); [apply IH; cbn [length] in *; lia|]. destruct (x =? DOT); [apply Rec; lia|eauto].
  - destruct (c =? LBRACKET); [apply Rec; lia|]. destruct (c =? BRACKET); [eauto|].
    destruct (c =? LPAREN); [rewrite arith_u_in by (unfold in_unsigned; lia); apply Rec; lia|].
    destruct (c =? RPAREN); [destruct (Z.eqb_spec d 0); [eauto|]; destruct (_ && _); [eauto|apply Rec; lia]|].
    destruct (_ && _); [eauto|]. destruct (_ && _); [eauto|]. destruct (is_plain alnum c); [apply Rec; lia|eauto].
Qed.

(** ** Properties *)

(** C28: the guard on interpolated names accepts exactly a grammar: a name is
    accepted if and only if it has no control character and is made of
    unquoted characters and bracketed parts (brackets inside doubled), a
    bracketed part at the end or before a dot, spaces and commas only between
    the parentheses of one parameterised suffix that ends the text; so nothing
    follows a bracket or a parenthesis that closes, and nothing is left open.
    Everything else is a [BulkInput] error, and no name makes it panic. *)
Theorem identifier_guard_grammar (oc : bool) (alnum : Z -> bool) (ident : str) (H : len ident < 2 ^ 32) :
  (validate_sql_identifier oc alnum ident = Ok tt <-> no_control ident /\ name alnum ident) /\
  (validate_sql_identifier oc alnum ident = Ok tt \/ exists m, validate_sql_identifier oc alnum ident = Err (BulkInput m)).
Proof.
  assert (C : existsb is_ascii_control ident = false <-> no_control ident).
  { unfold no_control. clear H. induction ident as [|c s IH]; [split; [constructor|reflexivity]|]. cbn [existsb]. rewrite orb_false_iff, IH.
    split; [intros [? ?]; constructor; assumption|intros X; inversion_clear X; auto]. }
  unfold validate_sql_identifier. split.
  - destruct (existsb is_ascii_control ident) eqn:E.
    + split; [discriminate|]. intros [X _]. apply C in X. discriminate.
    + split.
      * intros V. split; [apply C; reflexivity|]. exact (validate_sound alnum oc (length ident) ident 0 (le_n _) ltac:(lia) V).
      * intros [_ N]. apply (validate_complete alnum oc ident); [exact N|exact H].
  - destruct (existsb is_ascii_control ident); [right; eexists; reflexivity|].
    apply (validate_total oc alnum (length ident)); lia.
Qed.

(** Names survive the quoting: splitting the dotted text of quoted names
    gives back the names, whatever characters they have; and the query for
    the collations of a table carries its three parts: the string literal in
    it ends where the statement ends, and what the server reads out of it, by
    the rule of doubled quotes, splits into the schema and the table. *)
Theorem collation_query_names (catalog schema table : str) (version : FeatureLevel)
  (Hc : catalog <> []) (Hs : schema <> []) (Ht : table <> []) :
  split_multipart_identifier (join [DOT] (map quote_identifier [catalog; schema; table])) = [catalog; schema; table] /\
  exists procedure body text,
    table_collations_sql (join [DOT] (map quote_identifier [catalog; schema; table])) version =
      ascii_str "EXEC " ++ quote_identifier catalog ++ ascii_str ".." ++ procedure ++ ascii_str " N'" ++ body /\
    read_literal body = Some (text, []) /\ split_multipart_identifier text = [schema; table].
Proof.
  assert (S : split_multipart_identifier (join [DOT] (map quote_identifier [catalog; schema; table])) = [catalog; schema; table])
    by (apply split_join; discriminate).
  split; [exact S|]. unfold table_collations_sql. rewrite S. cbn [part_from_end rev app lookup list_lookup default].
  destruct catalog as [|c0 catalog]; [congruence|]. set (procedure := if feature_geb _ _ then _ else _).
  exists procedure, (literal schema ++ [DOT] ++ literal table ++ [QUOTE]), (join [DOT] (map quote_identifier [schema; table])).
  split; [reflexivity|]. split; [|apply split_join; discriminate].
  destruct schema as [|c1 schema]; [congruence|]. destruct table as [|c2 table]; [congruence|]. unfold literal. rewrite !quote_double.
  cbn [map join]. apply read_literal_double.
  assert (E : read_literal (double_char QUOTE (quote_identifier (c2 :: table)) ++ [QUOTE]) = Some (quote_identifier (c2 :: table) ++ [], [])).
  { apply read_literal_double. reflexivity. }
  rewrite app_nil_r in E. cbn [app read_literal]. change (DOT =? QUOTE) with false. cbv iota. rewrite E. reflexivity.
Qed.

(** ** Witnesses *)

Definition ascii_alnum (c : Z) : bool := is_ascii_alphanumeric c.

Lemma identifier_guard_grammar_witness :
  validate_sql_identifier true ascii_alnum (ascii_str "[dbo].[a]]b; c]") = Ok tt /\ name ascii_alnum (ascii_str "[dbo].[a]]b; c]") /\
  ~ name ascii_alnum (ascii_str "t;DROP").
Proof.
  destruct (identifier_guard_grammar true ascii_alnum (ascii_str "[dbo].[a]]b; c]") ltac:(vm_compute; reflexivity)) as [[G _] _].
  destruct (identifier_guard_grammar true ascii_alnum (ascii_str "t;DROP") ltac:(vm_compute; reflexivity)) as [[_ N] _].
  assert (V : validate_sql_identifier true ascii_alnum (ascii_str "[dbo].[a]]b; c]") = Ok tt) by (vm_compute; reflexivity).
  split; [exact V|]. split; [apply G, V|]. intros X. discriminate N. split; [|exact X]. repeat constructor.
Defined.

Lemma collation_query_names_witness :
  split_multipart_identifier (ascii_str "[my]]db].[it's].[a.b]") = [ascii_str "my]db"; ascii_str "it's"; ascii_str "a.b"] /\
  table_collations_sql (ascii_str "[my]]db].[it's].[a.b]") SqlServerN = ascii_str "EXEC [my]]db]..sp_tablecollations_100 N'[it''s].[a.b]'".
Proof.
  destruct (collation_query_names (ascii_str "my]db") (ascii_str "it's") (ascii_str "a.b") SqlServerN) as [S _]; [discriminate..|].
  split; [exact S|vm_compute; reflexivity].
Defined.
