(* ===== verification/Config.v ===== *)
(** * Config: [client/config.rs], [client/config/*.rs] and [client/auth.rs]

    The connection options, the builder with its guards on the trust settings,
    the tokenizer of ADO.NET connection strings, and the conversion of a parsed
    string to options.  The JDBC tokenizer is the [connection_string] crate: a
    [ConfigString] whose fields it fills.  [str::to_lowercase] is Unicode data
    and a parameter. *)

From S2P Require Import Prelude Unicode Identifiers PreLogin.

Definition SEMI : Z := 59.
Definition EQUALS : Z := 61.
Definition SQUOTE : Z := 39.
Definition DQUOTE : Z := 34.
Definition LBRACE : Z := 123.
Definition RBRACE : Z := 125.
Definition BACKSLASH : Z := 92.

(** ** Text of the standard library *)

(** [u8::is_ascii_whitespace], [char::is_whitespace], [to_ascii_lowercase] *)
Definition is_ascii_whitespace (c : Z) : bool := existsb (Z.eqb c) [32; 9; 10; 12; 13].
Definition is_whitespace (c : Z) : bool :=
  ((9 <=? c) && (c <=? 13)) || ((0x2000 <=? c) && (c <=? 0x200A)) ||
  existsb (Z.eqb c) [32; 0x85; 0xA0; 0x1680; 0x2028; 0x2029; 0x202F; 0x205F; 0x3000].
Definition lower_char (c : Z) : Z := if (65 <=? c) && (c <=? 90) then c + 32 else c.
Definition to_ascii_lowercase (s : str) : str := map lower_char s.
Definition eq_ignore_ascii_case (a b : str) : bool := bool_decide (to_ascii_lowercase a = to_ascii_lowercase b).

Fixpoint trim_start (f : Z -> bool) (s : str) : str :=
  match s with c :: s' => if f c then trim_start f s' else s | [] => [] end.
Definition trim_end (f : Z -> bool) (s : str) : str := rev (trim_start f (rev s)).
Definition trim_matches (f : Z -> bool) (s : str) : str := trim_end f (trim_start f s).
Definition trim : str -> str := trim_matches is_whitespace.

(** [str::split] at a character: never empty *)
Fixpoint split_on (d : Z) (s : str) : list str :=
  match s with
  | [] => [[]]
  | c :: s =>
      if c =? d then [] :: split_on d s
      else match split_on d s with p :: ps => (c :: p) :: ps | [] => [[c]] end
  end.

(** [str::replace] of a non-empty pattern; [skip] counts what is left of a
    match. *)
Fixpoint replace (pat by_ : str) (skip : nat) (s : str) : str :=
  match s with
  | [] => []
  | c :: s' =>
      match skip with
      | S k => replace pat by_ k s'
      | O => match strip_prefix pat s with
             | Some _ => by_ ++ replace pat by_ (pred (length pat)) s'
             | None => c :: replace pat by_ 0 s'
             end
      end
  end.

(** ** [ado_parser.rs] *)

(** The key of a pair, up to the first single [=]. *)
Fixpoint ado_key (s key : str) : Res (str * str) :=
  match s with
  | [] => Err (Conversion "key-value pairs must be joined by a `=`")
  | c :: s' =>
      if c =? SEMI then Err (Conversion "key-value pairs must be joined by a `=`")
      else if c =? EQUALS then
        match s' with
        | d :: s'' => if d =? EQUALS then ado_key s'' (key ++ [EQUALS]) else Ok (key, s')
        | [] => Ok (key, s')
        end
      else ado_key s' (key ++ [c])
  end.

(** A quoted value, behind its opening quote. *)
Fixpoint ado_quoted (quote : Z) (s v : str) : Res (str * str) :=
  match s with
  | [] => Err (Conversion (if quote =? SQUOTE then "the connection string has an unclosed single quote" else "the connection string has an unclosed double quote"))
  | c :: s' =>
      if c =? quote then
        match s' with
        | d :: s'' => if d =? quote then ado_quoted quote s'' (v ++ [quote]) else Ok (v, s')
        | [] => Ok (v, s')
        end
      else ado_quoted quote s' (v ++ [c])
  end.

(** A braced value, behind its opening brace. *)
Fixpoint ado_braced (s v : str) : Res (str * str) :=
  match s with
  | [] => Err (Conversion "the connection string has an unclosed brace `{`")
  | c :: s' => if c =? RBRACE then Ok (v, s') else ado_braced s' (v ++ [c])
  end.

(** [skip_trailing] *)
Fixpoint skip_trailing (err : string) (s : str) : Res str :=
  match s with
  | [] => Ok []
  | c :: s' => if c =? SEMI then Ok s else if is_ascii_whitespace c then skip_trailing err s' else Err (Conversion err)
  end.

(** An unquoted value: what is before the next [;]. *)
Fixpoint ado_bare (s : str) : str * str :=
  match s with
  | [] => ([], [])
  | c :: s' => if c =? SEMI then ([], s) else let (v, rest) := ado_bare s' in (c :: v, rest)
  end.

Definition ado_value (s : str) : Res (str * str) :=
  let s := trim_start is_ascii_whitespace s in
  let closed err r := res_bind r (fun '(v, rest) => res_map (fun rest => (v, rest)) (skip_trailing err rest)) in
  match s with
  | c :: s' =>
      if (c =? SQUOTE) || (c =? DQUOTE) then closed "unexpected characters after a quoted value"%string (ado_quoted c s' [])
      else if c =? LBRACE then closed "unexpected characters after a braced value"%string (ado_braced s' [])
      else let (v, rest) := ado_bare s in Ok (trim_end is_ascii_whitespace v, rest)
  | [] => Ok ([], [])
  end.

(** The loop of [parse]; every round takes a character at least. *)
Fixpoint ado_loop (fuel : nat) (s : str) (pairs : gmap str str) : Res (gmap str str) :=
  match fuel with
  | O => OutOfFuel
  | S fuel =>
      match trim_start (fun c => (c =? SEMI) || is_ascii_whitespace c) s with
      | [] => Ok pairs
      | s =>
          res_bind (ado_key s []) (fun '(key, s) =>
          let key := to_ascii_lowercase (trim_matches is_ascii_whitespace key) in
          if bool_decide (key = []) then Err (Conversion "a key in the connection string is empty")
          else res_bind (ado_value s) (fun '(value, s) =>
          let s := match s with c :: s' => if c =? SEMI then s' else s | [] => [] end in
          ado_loop fuel s (<[key := value]> pairs)))
      end
  end.

(** [ado_parser::parse] *)
Definition is_ascii (s : str) : bool := forallb (fun c => c <? 128) s.
Definition ado_parse (input : str) : Res (gmap str str) :=
  if negb (is_ascii input) then Err (Conversion "the connection string contains non-ASCII characters")
  else ado_loop (S (length input)) input ∅.

(** ** [auth.rs] *)

Inductive AuthMethod :=
| SqlServer (user password : str)
| Windows (user password : str) (domain : option str)
| Integrated
| AADToken (token : str)
| NoAuth.

(** [AuthMethod::windows] *)
Fixpoint split_once (d : Z) (s : str) : option (str * str) :=
  match s with
  | [] => None
  | c :: s => if c =? d then Some ([], s) else match split_once d s with Some (a, b) => Some (c :: a, b) | None => None end
  end.
Definition auth_windows (user password : str) : AuthMethod :=
  match split_once BACKSLASH user with
  | Some (domain, user) => Windows user password (Some domain)
  | None => Windows user password None
  end.

(** The features of the build that the conversion depends on. *)
Inductive IntegratedAuth := NoIntegratedAuth | WinAuth | SspiRs (gssapi : bool) | GssApi.
Record Build := mkBuild { b_tls : bool; b_tds80 : bool; b_integrated : IntegratedAuth }.

(** ** [Config] *)

Inductive RootSource := Native | WebpkiRoots.
Inductive ExtraCa := CaFile (path : str) | CaBundle (pem : bytes).
Record TrustConfig := mkTrustConfig { t_source : RootSource; t_extra_cas : list ExtraCa; t_bypass : bool }.

(** Durations are in milliseconds. *)
Definition DEFAULT_HANDSHAKE_TIMEOUT : Z := 15000.
Definition DEFAULT_COMMAND_TIMEOUT : Z := 30000.

Inductive ClientCertSource := CertAndKey (cert key : str) | Pkcs12 (path password : str).

Record Config := mkConfig {
  cf_host : option str; cf_port : option Z; cf_database : option str; cf_instance_name : option str; cf_application_name : option str;
  cf_encryption : EncryptionLevel; cf_trust : TrustConfig; cf_auth : AuthMethod; cf_readonly : bool; cf_packet_size : option Z;
  cf_hostname_in_certificate : option str; cf_client_name : option str; cf_multi_subnet_failover : bool;
  cf_handshake_timeout : option Z; cf_command_timeout : option Z; cf_lossy_utf16 : bool; cf_lossy_codepage : bool;
  cf_client_cert : option ClientCertSource }.

(** [Config::default] *)
Definition config_new (b : Build) : Config :=
  mkConfig None None None None None (if b_tls b then EncryptionLevel.Required else EncryptionLevel.NotSupported)
    (mkTrustConfig Native [] false) NoAuth false None None None false (Some DEFAULT_HANDSHAKE_TIMEOUT) (Some DEFAULT_COMMAND_TIMEOUT)
    false false None.

(** The setters of [Config] (and of [ConfigBuilder], which forwards to the
    same fields). *)
Definition with_host (v : str) (c : Config) : Config :=
  mkConfig (Some v) (cf_port c) (cf_database c) (cf_instance_name c) (cf_application_name c) (cf_encryption c) (cf_trust c) (cf_auth c) (cf_readonly c) (cf_packet_size c) (cf_hostname_in_certificate c) (cf_client_name c) (cf_multi_subnet_failover c) (cf_handshake_timeout c) (cf_command_timeout c) (cf_lossy_utf16 c) (cf_lossy_codepage c) (cf_client_cert c).
Definition with_port (v : Z) (c : Config) : Config :=
  mkConfig (cf_host c) (Some v) (cf_database c) (cf_instance_name c) (cf_application_name c) (cf_encryption c) (cf_trust c) (cf_auth c) (cf_readonly c) (cf_packet_size c) (cf_hostname_in_certificate c) (cf_client_name c) (cf_multi_subnet_failover c) (cf_handshake_timeout c) (cf_command_timeout c) (cf_lossy_utf16 c) (cf_lossy_codepage c) (cf_client_cert c).
Definition with_database (v : str) (c : Config) : Config :=
  mkConfig (cf_host c) (cf_port c) (Some v) (cf_instance_name c) (cf_application_name c) (cf_encryption c) (cf_trust c) (cf_auth c) (cf_readonly c) (cf_packet_size c) (cf_hostname_in_certificate c) (cf_client_name c) (cf_multi_subnet_failover c) (cf_handshake_timeout c) (cf_command_timeout c) (cf_lossy_utf16 c) (cf_lossy_codepage c) (cf_client_cert c).
Definition with_instance_name (v : str) (c : Config) : Config :=
  mkConfig (cf_host c) (cf_port c) (cf_database c) (Some v) (cf_application_name c) (cf_encryption c) (cf_trust c) (cf_auth c) (cf_readonly c) (cf_packet_size c) (cf_hostname_in_certificate c) (cf_client_name c) (cf_multi_subnet_failover c) (cf_handshake_timeout c) (cf_command_timeout c) (cf_lossy_utf16 c) (cf_lossy_codepage c) (cf_client_cert c).
Definition with_application_name (v : str) (c : Config) : Config :=
  mkConfig (cf_host c) (cf_port c) (cf_database c) (cf_instance_name c) (Some v) (cf_encryption c) (cf_trust c) (cf_auth c) (cf_readonly c) (cf_packet_size c) (cf_hostname_in_certificate c) (cf_client_name c) (cf_multi_subnet_failover c) (cf_handshake_timeout c) (cf_command_timeout c) (cf_lossy_utf16 c) (cf_lossy_codepage c) (cf_client_cert c).
Definition with_encryption (v : EncryptionLevel) (c : Config) : Config :=
  mkConfig (cf_host c) (cf_port c) (cf_database c) (cf_instance_name c) (cf_application_name c) v (cf_trust c) (cf_auth c) (cf_readonly c) (cf_packet_size c) (cf_hostname_in_certificate c) (cf_client_name c) (cf_multi_subnet_failover c) (cf_handshake_timeout c) (cf_command_timeout c) (cf_lossy_utf16 c) (cf_lossy_codepage c) (cf_client_cert c).
Definition with_trust (v : TrustConfig) (c : Config) : Config :=
  mkConfig (cf_host c) (cf_port c) (cf_database c) (cf_instance_name c) (cf_application_name c) (cf_encryption c) v (cf_auth c) (cf_readonly c) (cf_packet_size c) (cf_hostname_in_certificate c) (cf_client_name c) (cf_multi_subnet_failover c) (cf_handshake_timeout c) (cf_command_timeout c) (cf_lossy_utf16 c) (cf_lossy_codepage c) (cf_client_cert c).
Definition with_auth (v : AuthMethod) (c : Config) : Config :=
  mkConfig (cf_host c) (cf_port c) (cf_database c) (cf_instance_name c) (cf_application_name c) (cf_encryption c) (cf_trust c) v (cf_readonly c) (cf_packet_size c) (cf_hostname_in_certificate c) (cf_client_name c) (cf_multi_subnet_failover c) (cf_handshake_timeout c) (cf_command_timeout c) (cf_lossy_utf16 c) (cf_lossy_codepage c) (cf_client_cert c).
Definition with_readonly (v : bool) (c : Config) : Config :=
  mkConfig (cf_host c) (cf_port c) (cf_database c) (cf_instance_name c) (cf_application_name c) (cf_encryption c) (cf_trust c) (cf_auth c) v (cf_packet_size c) (cf_hostname_in_certificate c) (cf_client_name c) (cf_multi_subnet_failover c) (cf_handshake_timeout c) (cf_command_timeout c) (cf_lossy_utf16 c) (cf_lossy_codepage c) (cf_client_cert c).
Definition with_packet_size (v : Z) (c : Config) : Config :=
  mkConfig (cf_host c) (cf_port c) (cf_database c) (cf_instance_name c) (cf_application_name c) (cf_encryption c) (cf_trust c) (cf_auth c) (cf_readonly c) (Some v) (cf_hostname_in_certificate c) (cf_client_name c) (cf_multi_subnet_failover c) (cf_handshake_timeout c) (cf_command_timeout c) (cf_lossy_utf16 c) (cf_lossy_codepage c) (cf_client_cert c).
Definition with_hostname_in_certificate (v : str) (c : Config) : Config :=
  mkConfig (cf_host c) (cf_port c) (cf_database c) (cf_instance_name c) (cf_application_name c) (cf_encryption c) (cf_trust c) (cf_auth c) (cf_readonly c) (cf_packet_size c) (Some v) (cf_client_name c) (cf_multi_subnet_failover c) (cf_handshake_timeout c) (cf_command_timeout c) (cf_lossy_utf16 c) (cf_lossy_codepage c) (cf_client_cert c).
Definition with_client_name (v : str) (c : Config) : Config :=
  mkConfig (cf_host c) (cf_port c) (cf_database c) (cf_instance_name c) (cf_application_name c) (cf_encryption c) (cf_trust c) (cf_auth c) (cf_readonly c) (cf_packet_size c) (cf_hostname_in_certificate c) (Some v) (cf_multi_subnet_failover c) (cf_handshake_timeout c) (cf_command_timeout c) (cf_lossy_utf16 c) (cf_lossy_codepage c) (cf_client_cert c).
Definition with_multi_subnet_failover (v : bool) (c : Config) : Config :=
  mkConfig (cf_host c) (cf_port c) (cf_database c) (cf_instance_name c) (cf_application_name c) (cf_encryption c) (cf_trust c) (cf_auth c) (cf_readonly c) (cf_packet_size c) (cf_hostname_in_certificate c) (cf_client_name c) v (cf_handshake_timeout c) (cf_command_timeout c) (cf_lossy_utf16 c) (cf_lossy_codepage c) (cf_client_cert c).
Definition with_handshake_timeout (v : option Z) (c : Config) : Config :=
  mkConfig (cf_host c) (cf_port c) (cf_database c) (cf_instance_name c) (cf_application_name c) (cf_encryption c) (cf_trust c) (cf_auth c) (cf_readonly c) (cf_packet_size c) (cf_hostname_in_certificate c) (cf_client_name c) (cf_multi_subnet_failover c) v (cf_command_timeout c) (cf_lossy_utf16 c) (cf_lossy_codepage c) (cf_client_cert c).
Definition with_command_timeout (v : option Z) (c : Config) : Config :=
  mkConfig (cf_host c) (cf_port c) (cf_database c) (cf_instance_name c) (cf_application_name c) (cf_encryption c) (cf_trust c) (cf_auth c) (cf_readonly c) (cf_packet_size c) (cf_hostname_in_certificate c) (cf_client_name c) (cf_multi_subnet_failover c) (cf_handshake_timeout c) v (cf_lossy_utf16 c) (cf_lossy_codepage c) (cf_client_cert c).
Definition with_lossy_utf16_decoding (v : bool) (c : Config) : Config :=
  mkConfig (cf_host c) (cf_port c) (cf_database c) (cf_instance_name c) (cf_application_name c) (cf_encryption c) (cf_trust c) (cf_auth c) (cf_readonly c) (cf_packet_size c) (cf_hostname_in_certificate c) (cf_client_name c) (cf_multi_subnet_failover c) (cf_handshake_timeout c) (cf_command_timeout c) v (cf_lossy_codepage c) (cf_client_cert c).
Definition with_lossy_codepage_decoding (v : bool) (c : Config) : Config :=
  mkConfig (cf_host c) (cf_port c) (cf_database c) (cf_instance_name c) (cf_application_name c) (cf_encryption c) (cf_trust c) (cf_auth c) (cf_readonly c) (cf_packet_size c) (cf_hostname_in_certificate c) (cf_client_name c) (cf_multi_subnet_failover c) (cf_handshake_timeout c) (cf_command_timeout c) (cf_lossy_utf16 c) v (cf_client_cert c).
Definition with_client_cert (v : ClientCertSource) (c : Config) : Config :=
  mkConfig (cf_host c) (cf_port c) (cf_database c) (cf_instance_name c) (cf_application_name c) (cf_encryption c) (cf_trust c) (cf_auth c) (cf_readonly c) (cf_packet_size c) (cf_hostname_in_certificate c) (cf_client_name c) (cf_multi_subnet_failover c) (cf_handshake_timeout c) (cf_command_timeout c) (cf_lossy_utf16 c) (cf_lossy_codepage c) (Some v).

(** [trust_cert], [trust_cert_ca], [trust_cert_ca_bundle], [trust_webpki_roots]:
    the settings that exclude each other panic. *)
Definition trust_cert (c : Config) : Res Config :=
  let t := cf_trust c in
  match t_extra_cas t, t_source t with
  | [], Native => Ok (with_trust (mkTrustConfig (t_source t) (t_extra_cas t) true) c)
  | _, _ => Panic
  end.
Definition push_ca (ca : ExtraCa) (c : Config) : Res Config :=
  let t := cf_trust c in
  if t_bypass t then Panic else Ok (with_trust (mkTrustConfig (t_source t) (t_extra_cas t ++ [ca]) (t_bypass t)) c).
Definition trust_cert_ca (path : str) : Config -> Res Config := push_ca (CaFile path).
Definition trust_cert_ca_bundle (pem : bytes) : Config -> Res Config := push_ca (CaBundle pem).
Definition trust_webpki_roots (c : Config) : Res Config :=
  let t := cf_trust c in
  if t_bypass t then Panic else Ok (with_trust (mkTrustConfig WebpkiRoots (t_extra_cas t) (t_bypass t)) c).

(** [get_host], [get_hostname_in_certificate], [get_port], [get_addr] *)
Definition get_host (c : Config) : str :=
  match cf_host c with Some h => if bool_decide (h = [DOT]) then ascii_str "localhost" else h | None => ascii_str "localhost" end.
Definition get_hostname_in_certificate (c : Config) : str := default (get_host c) (cf_hostname_in_certificate c).
Definition get_port (c : Config) : Z :=
  match cf_port c, cf_instance_name c with
  | Some port, _ => port
  | None, Some _ => 1434
  | None, None => 1433
  end.
Definition get_addr (c : Config) : str := get_host c ++ [58] ++ show_Z (get_port c).

(** ** [ConfigString] *)

Record ServerDefinition := mkServerDefinition { sd_host : option str; sd_port : option Z; sd_instance : option str }.

(** What a parsed connection string offers: its properties and its server. *)
Class ConfigString (S : Type) := { cs_dict : S -> gmap str str; cs_server : S -> Res ServerDefinition }.

Section ConfigString.
Context (to_lowercase : str -> str) (b : Build) {S : Type} {CS : ConfigString S}.

Definition key (s : S) (k : string) : option str := cs_dict s !! ascii_str k.
Definition or_else {A} (a c : option A) : option A := match a with Some _ => a | None => c end.

(** [ConfigString::parse_bool], [is_sspi_or_truthy] *)
Definition parse_bool (v : str) : Res bool :=
  let w := to_lowercase (trim v) in
  if bool_decide (w = ascii_str "true") || bool_decide (w = ascii_str "yes") then Ok true
  else if bool_decide (w = ascii_str "false") || bool_decide (w = ascii_str "no") then Ok false
  else Err (Conversion "Connection string: Not a valid boolean").
Definition is_sspi_or_truthy (v : str) : Res bool :=
  if eq_ignore_ascii_case v (ascii_str "sspi") then Ok true else parse_bool v.

(** [ConfigString::authentication] *)
Definition authentication (s : S) : Res AuthMethod :=
  let user := or_else (key s "uid") (or_else (key s "username") (or_else (key s "user") (key s "user id"))) in
  let pw := or_else (key s "password") (key s "pwd") in
  let sql_server := SqlServer (default [] user) (default [] pw) in
  let windows := auth_windows (default [] user) (default [] pw) in
  match or_else (key s "integratedsecurity") (key s "integrated security"), b_integrated b with
  | None, _ | _, NoIntegratedAuth => Ok sql_server
  | Some val, build =>
      res_map (fun truthy : bool =>
        if truthy then
          match build, user, pw with
          | WinAuth, None, None | SspiRs true, None, None => Integrated
          | WinAuth, _, _ | SspiRs _, _, _ => windows
          | _, _, _ => Integrated
          end
        else sql_server) (is_sspi_or_truthy val)
  end.

Definition cs_database (s : S) : option str := or_else (key s "database") (or_else (key s "initial catalog") (key s "databasename")).
Definition cs_application_name (s : S) : option str := or_else (key s "application name") (key s "applicationname").
Definition cs_trust_cert (s : S) : Res bool := match key s "trustservercertificate" with Some v => parse_bool v | None => Ok false end.
Definition cs_trust_cert_ca (s : S) : option str := key s "trustservercertificateca".
Definition cs_hostname_in_certificate (s : S) : option str := or_else (key s "hostnameincertificate") (key s "hostname in certificate").
Definition cs_client_name (s : S) : option str := or_else (key s "workstationid") (key s "workstation id").

(** [ConfigString::encrypt], of the builds with and without a TLS backend *)
Definition tls_backend_missing : Error := Tls "encryption was requested (`encrypt=...`) but the crate was compiled without a TLS backend".
Definition cs_encrypt (s : S) : Res EncryptionLevel :=
  let strict val := eq_ignore_ascii_case val (ascii_str "strict") in
  let plain val := bool_decide (val = ascii_str "DANGER_PLAINTEXT") in
  match key s "encrypt" with
  | None => Ok (if b_tls b then EncryptionLevel.Required else EncryptionLevel.NotSupported)
  | Some val =>
      if b_tls b then
        match parse_bool val with
        | Ok true => Ok EncryptionLevel.Required
        | Ok false => Ok EncryptionLevel.Off
        | Err e =>
            if plain val then Ok EncryptionLevel.NotSupported
            else if strict val && b_tds80 b then Ok EncryptionLevel.Strict
            else if strict val then Err (Conversion "encrypt=strict requires the crate's `tds80` feature to be enabled")
            else Err e
        | Panic => Panic
        | OutOfFuel => OutOfFuel
        end
      else
        match parse_bool val with
        | Ok false => Ok EncryptionLevel.NotSupported
        | Ok true => Err tls_backend_missing
        | Err e =>
            if plain val then Ok EncryptionLevel.NotSupported
            else if strict val then Err tls_backend_missing
            else Err e
        | Panic => Panic
        | OutOfFuel => OutOfFuel
        end
  end.

Definition cs_readonly (s : S) : bool :=
  match key s "applicationintent" with Some v => eq_ignore_ascii_case (trim v) (ascii_str "ReadOnly") | None => false end.
Definition cs_multi_subnet_failover (s : S) : Res bool := match key s "multisubnetfailover" with Some v => parse_bool v | None => Ok false end.

(** [Config::from_config_string], in the order of its early returns *)
Definition when_some {A} (o : option A) (f : A -> Config -> Config) (c : Config) : Config := match o with Some a => f a c | None => c end.
Definition from_config_string (s : S) : Res Config :=
  let builder := config_new b in
  res_bind (cs_server s) (fun server =>
  let builder := when_some (sd_host server) with_host builder in
  let builder := when_some (sd_port server) with_port builder in
  let builder := when_some (sd_instance server) with_instance_name builder in
  res_bind (authentication s) (fun auth =>
  let builder := with_auth auth builder in
  let builder := when_some (cs_database s) with_database builder in
  let builder := when_some (cs_application_name s) with_application_name builder in
  res_bind (cs_trust_cert s) (fun trust =>
  let ca := cs_trust_cert_ca s in
  if trust && (match ca with Some _ => true | None => false end)
  then Err (Conversion "'TrustServerCertificate' and 'TrustServerCertificateCA' are mutually exclusive; specify only one")
  else
  res_bind (if trust then trust_cert builder else Ok builder) (fun builder =>
  res_bind (match ca with Some ca => trust_cert_ca ca builder | None => Ok builder end) (fun builder =>
  let builder := when_some (cs_hostname_in_certificate s) with_hostname_in_certificate builder in
  res_bind (cs_encrypt s) (fun encryption =>
  let builder := with_readonly (cs_readonly s) (with_encryption encryption builder) in
  let builder := when_some (cs_client_name s) with_client_name builder in
  res_map (fun failover => with_multi_subnet_failover failover builder) (cs_multi_subnet_failover s))))))).
End ConfigString.

(** ** [ado_net.rs] *)

(** [parse_port], [parse_server] *)
Definition parse_port (parts : list str) : Res (option Z) :=
  match parts with s :: _ => res_map Some (parse_unsigned 16 s) | [] => Ok None end.
Definition local_host (s : str) : str := replace (ascii_str "(local)") (ascii_str "localhost") 0 s.
Definition parse_server (parts : list str) : Res ServerDefinition :=
  match parts with
  | [] | _ :: _ :: _ :: _ => Err (Conversion "Server value faulty.")
  | first :: ports =>
      if existsb (Z.eqb BACKSLASH) first then
        res_bind (parse_port ports) (fun port =>
        match split_on BACKSLASH first with
        | host :: instance :: _ => Ok (mkServerDefinition (Some (local_host host)) port (Some instance))
        | _ => Panic
        end)
      else res_map (fun port => mkServerDefinition (Some (local_host first)) port None) (parse_port ports)
  end.

(** [AdoNetConfig::server]: the parsed string is its dictionary *)
Definition ado_server (dict : gmap str str) : Res ServerDefinition :=
  match or_else (dict !! ascii_str "server") (dict !! ascii_str "data source") with
  | Some value =>
      match strip_prefix (ascii_str "tcp:") value with
      | Some value => parse_server (split_on COMMA value)
      | None => parse_server (split_on COMMA value)
      end
  | None => Ok (mkServerDefinition None None None)
  end.

(** ** [jdbc.rs]: the fields the [connection_string] crate parsed *)

Record JdbcString := mkJdbcString { j_properties : gmap str str; j_server_name : option str; j_port : option Z; j_instance_name : option str }.

#[global] Instance AdoNetConfig : ConfigString (gmap str str) := {| cs_dict := fun d => d; cs_server := ado_server |}.
#[global] Instance JdbcConfig : ConfigString JdbcString :=
  {| cs_dict := j_properties; cs_server := fun j => Ok (mkServerDefinition (j_server_name j) (j_port j) (j_instance_name j)) |}.

(** [Config::from_ado_string], [Config::from_jdbc_string] *)
Definition from_ado_string (to_lowercase : str -> str) (b : Build) (s : str) : Res Config :=
  res_bind (ado_parse s) (from_config_string to_lowercase b).
Definition from_jdbc_string (jdbc_parse : str -> Res JdbcString) (to_lowercase : str -> str) (b : Build) (s : str) : Res Config :=
  res_bind (jdbc_parse s) (from_config_string to_lowercase b).

(** ** Lemmas: text *)

Definition ws : Z -> bool := is_ascii_whitespace.

Definition trimmed (s : str) : Prop :=
  (forall c, head s = Some c -> ws c = false) /\ (forall c, last s = Some c -> ws c = false).

Lemma trim_start_length f s : (length (trim_start f s) <= length s)%nat.
Proof. induction s as [|c s IH]; cbn; [lia|]. destruct (f c); cbn; lia. Qed.

Lemma trim_start_id f s : (forall c, head s = Some c -> f c = false) -> trim_start f s = s.
Proof. intros H. destruct s as [|c s]; [reflexivity|]. cbn. rewrite (H c eq_refl). reflexivity. Qed.

Lemma trim_end_id f s : (forall c, last s = Some c -> f c = false) -> trim_end f s = s.
Proof.
  intros H. unfold trim_end. rewrite trim_start_id; [apply rev_involutive|]. intros c Hc. apply H.
  rewrite <- (rev_involutive s). destruct (rev s) as [|d l]; [discriminate|]. injection Hc as ->. cbn. apply last_snoc.
Qed.

Lemma trim_matches_id s : trimmed s -> trim_matches ws s = s.
Proof. intros [H1 H2]. unfold trim_matches. rewrite trim_start_id by exact H1. apply trim_end_id, H2. Qed.

(** What follows a pair: nothing, or the next one. *)
Definition ends_pair (s : str) : Prop := match s with [] => True | c :: _ => c = SEMI end.

Lemma ends_pair_ne s q : ends_pair s -> q <> SEMI -> forall d s', s = d :: s' -> (d =? q) = false.
Proof. intros E N d s' ->. cbn in E. apply Z.eqb_neq. congruence. Qed.

(** ** Lemmas: the tokenizer takes what is written *)

Lemma ado_key_written k : forall acc rest, ~ In SEMI k -> head rest <> Some EQUALS ->
  ado_key (double_char EQUALS k ++ EQUALS :: rest) acc = Ok (acc ++ k, rest).
Proof.
  induction k as [|c k IH]; intros acc rest Hk Hr.
  - rewrite app_nil_r. cbn. destruct rest as [|d rest]; [reflexivity|]. destruct (Z.eqb_spec d EQUALS) as [->|]; [cbn in Hr; congruence|reflexivity].
  - assert (Hc : c <> SEMI) by (intros ->; apply Hk; left; reflexivity). assert (Hk' : ~ In SEMI k) by (intros X; apply Hk; right; exact X).
    cbn [double_char flat_map]. destruct (Z.eqb_spec c EQUALS) as [->|Ne].
    + cbn. rewrite IH by assumption. rewrite <- app_assoc. reflexivity.
    + cbn [app ado_key]. rewrite (proj2 (Z.eqb_neq _ _) Hc), (proj2 (Z.eqb_neq _ _) Ne). fold (double_char EQUALS k). rewrite IH by assumption.
      rewrite <- app_assoc. reflexivity.
Qed.

Lemma ado_quoted_written q v : forall acc rest, (forall d s, rest = d :: s -> (d =? q) = false) ->
  ado_quoted q (double_char q v ++ q :: rest) acc = Ok (acc ++ v, rest).
Proof.
  induction v as [|c v IH]; intros acc rest Hr.
  - rewrite app_nil_r. cbn. rewrite Z.eqb_refl. destruct rest as [|d rest]; [reflexivity|]. rewrite (Hr d rest eq_refl). reflexivity.
  - cbn [double_char flat_map]. fold (double_char q v). destruct (Z.eqb_spec c q) as [->|Ne].
    + cbn [app ado_quoted]. rewrite !Z.eqb_refl, IH by exact Hr. rewrite <- app_assoc. reflexivity.
    + cbn [app ado_quoted]. rewrite (proj2 (Z.eqb_neq _ _) Ne), IH by exact Hr. rewrite <- app_assoc. reflexivity.
Qed.

Lemma ado_braced_written v : forall acc rest, ~ In RBRACE v -> ado_braced (v ++ RBRACE :: rest) acc = Ok (acc ++ v, rest).
Proof.
  induction v as [|c v IH]; intros acc rest Hv; [rewrite app_nil_r; reflexivity|]. cbn [app ado_braced].
  destruct (Z.eqb_spec c RBRACE) as [->|]; [exfalso; apply Hv; left; reflexivity|]. rewrite IH by (intros X; apply Hv; right; exact X).
  rewrite <- app_assoc. reflexivity.
Qed.

Lemma ado_bare_written v : forall rest, ~ In SEMI v -> ends_pair rest -> ado_bare (v ++ rest) = (v, rest).
Proof.
  induction v as [|c v IH]; intros rest Hv Hr.
  - destruct rest as [|d rest]; [reflexivity|]. cbn in Hr. subst d. reflexivity.
  - cbn [app ado_bare]. destruct (Z.eqb_spec c SEMI) as [->|]; [exfalso; apply Hv; left; reflexivity|].
    rewrite IH by (try assumption; intros X; apply Hv; right; exact X). reflexivity.
Qed.

Lemma skip_trailing_ends err rest : ends_pair rest -> skip_trailing err rest = Ok rest.
Proof. destruct rest as [|d rest]; [reflexivity|]. intros E. cbn in E. subst d. reflexivity. Qed.

(** The ways to write a value, and the values that can be written that way. *)
Inductive style := Bare | Single | Double | Brace.
Definition write_value (st : style) (v : str) : str :=
  match st with
  | Bare => v
  | Single => SQUOTE :: double_char SQUOTE v ++ [SQUOTE]
  | Double => DQUOTE :: double_char DQUOTE v ++ [DQUOTE]
  | Brace => LBRACE :: v ++ [RBRACE]
  end.
Definition fits_style (st : style) (v : str) : Prop :=
  match st with
  | Bare => ~ In SEMI v /\ trimmed v /\ forall c, head v = Some c -> ~ In c [SQUOTE; DQUOTE; LBRACE; EQUALS]
  | Single | Double => True
  | Brace => ~ In RBRACE v
  end.

Lemma ado_value_written st v rest : fits_style st v -> ends_pair rest -> ado_value (write_value st v ++ rest) = Ok (v, rest).
Proof.
  intros F E. unfold ado_value. destruct st; cbn [write_value].
  - destruct F as (Hs & [T1 T2] & Hh). rewrite trim_start_id.
    2:{ intros c. destruct v as [|d v]; [|apply T1]. destruct rest as [|d rest]; [discriminate|]. cbn in E. subst d. intros X. injection X as <-. reflexivity. }
    destruct (v ++ rest) as [|c l] eqn:El; [apply app_eq_nil in El as [-> ->]; reflexivity|].
    assert (Q : (c =? SQUOTE) || (c =? DQUOTE) = false /\ (c =? LBRACE) = false).
    { destruct v as [|d v]; [cbn in El; subst rest; cbn in E; subst c; split; reflexivity|]. injection El as -> _. specialize (Hh c eq_refl). cbn in Hh.
      rewrite orb_false_iff, !Z.eqb_neq. intuition congruence. }
    destruct Q as [-> ->]. rewrite <- El, ado_bare_written by assumption. rewrite trim_end_id by exact T2. reflexivity.
  - cbn [app trim_start]. rewrite <- app_assoc. cbn. rewrite ado_quoted_written by (intros d s ->; cbn in E; subst d; reflexivity).
    cbn. rewrite skip_trailing_ends by exact E. reflexivity.
  - cbn [app trim_start]. rewrite <- app_assoc. cbn. rewrite ado_quoted_written by (intros d s ->; cbn in E; subst d; reflexivity).
    cbn. rewrite skip_trailing_ends by exact E. reflexivity.
  - cbn [app trim_start]. rewrite <- app_assoc. cbn. rewrite ado_braced_written by exact F.
    cbn. rewrite skip_trailing_ends by exact E. reflexivity.
Qed.

(** A pair, and a connection string. *)
Record pair := mkPair { p_key : str; p_style : style; p_value : str }.
Definition write_pair (p : pair) : str := double_char EQUALS (p_key p) ++ EQUALS :: write_value (p_style p) (p_value p).
Definition write_pairs (ps : list pair) : str := join [SEMI] (map write_pair ps).
Definition pair_ok (p : pair) : Prop :=
  ascii (p_key p) /\ p_key p <> [] /\ trimmed (p_key p) /\ ~ In SEMI (p_key p) /\ ascii (p_value p) /\ fits_style (p_style p) (p_value p).
Definition insert_pair (m : gmap str str) (p : pair) : gmap str str := <[to_ascii_lowercase (p_key p) := p_value p]> m.

Lemma ado_pair_written p rest fuel m : pair_ok p -> ends_pair rest ->
  ado_loop (S fuel) (write_pair p ++ rest) m =
  ado_loop fuel (match rest with [] => [] | _ :: s => s end) (insert_pair m p).
Proof.
  intros (_ & Ne & T & Hk & _ & F) E. destruct p as [k st v]. cbn [p_key p_style p_value] in *. cbn [ado_loop].
  assert (V : head (write_value st v ++ rest) <> Some EQUALS).
  { destruct st; try discriminate. destruct v as [|c v]; [destruct rest as [|d rest]; [discriminate|]; cbn in E; subst d; discriminate|].
    destruct F as (_ & _ & Hh). specialize (Hh c eq_refl). cbn in Hh |- *. intros X. injection X as ->. intuition congruence. }
  assert (W : write_pair (mkPair k st v) ++ rest = double_char EQUALS k ++ EQUALS :: (write_value st v ++ rest)).
  { unfold write_pair. cbn. rewrite <- app_assoc. reflexivity. }
  rewrite W. rewrite trim_start_id.
  - destruct (double_char EQUALS k ++ EQUALS :: (write_value st v ++ rest)) as [|c l] eqn:El; [destruct (double_char EQUALS k); discriminate|].
    rewrite <- El, ado_key_written by assumption. cbn [res_bind app]. rewrite trim_matches_id by exact T.
    rewrite bool_decide_false by (destruct k; [congruence|discriminate]). rewrite ado_value_written by assumption. cbn [res_bind]. unfold insert_pair. cbn [p_key p_value].
    destruct rest as [|d rest]; [reflexivity|]. cbn in E. subst d. reflexivity.
  - intros c Hc. destruct k as [|d k]; [congruence|]. assert (d = c) as ->.
    { cbn [double_char flat_map] in Hc. destruct (Z.eqb_spec d EQUALS) as [->|]; cbn in Hc; congruence. }
    destruct T as [T _]. specialize (T c eq_refl). unfold ws in T. rewrite T, orb_false_r. apply Z.eqb_neq. intros ->. apply Hk. left. reflexivity.
Qed.

Lemma ado_pairs_written ps : forall fuel m, Forall pair_ok ps -> (length ps <= fuel)%nat ->
  ado_loop (S fuel) (write_pairs ps) m = Ok (fold_left insert_pair ps m).
Proof.
  unfold write_pairs. induction ps as [|p ps IH]; intros fuel m F L; [reflexivity|]. apply Forall_cons in F as [Hp F]. cbn [map length fold_left] in *.
  destruct ps as [|q ps].
  - cbn [map join]. rewrite <- (app_nil_r (write_pair p)), ado_pair_written by (assumption || exact I). destruct fuel as [|fuel]; [lia|]. reflexivity.
  - change (join [SEMI] (write_pair p :: map write_pair (q :: ps))) with (write_pair p ++ SEMI :: join [SEMI] (map write_pair (q :: ps))).
    rewrite ado_pair_written by (assumption || reflexivity). destruct fuel as [|fuel]; [cbn in L; lia|]. apply IH; [exact F|cbn [length] in *; lia].
Qed.

Lemma length_write_pairs ps : (length ps <= length (write_pairs ps))%nat.
Proof.
  unfold write_pairs. induction ps as [|p ps IH]; [reflexivity|]. assert (P : (1 <= length (write_pair p))%nat) by (unfold write_pair; rewrite length_app; cbn; lia).
  cbn [map]. destruct ps as [|q ps]; [exact P|]. change (join [SEMI] (write_pair p :: map write_pair (q :: ps))) with (write_pair p ++ SEMI :: join [SEMI] (map write_pair (q :: ps))).
  rewrite length_app. cbn [length] in *. lia.
Qed.

Lemma is_ascii_spec s : ascii s -> is_ascii s = true.
Proof. intros H. apply forallb_forall. intros c Hc. unfold ascii in H. rewrite List.Forall_forall in H. specialize (H c Hc). cbv beta in H. apply Z.ltb_lt. lia. Qed.

Lemma double_char_ascii q s : ascii s -> ascii (double_char q s).
Proof.
  induction 1 as [|c s Hc _ IH]; [constructor|]. cbn [double_char flat_map]. destruct (Z.eqb_spec c q) as [<-|]; repeat (constructor; [exact Hc|]); exact IH.
Qed.

Lemma write_pairs_ascii ps : Forall pair_ok ps -> ascii (write_pairs ps).
Proof.
  assert (V : forall st v, ascii v -> ascii (write_value st v)).
  { intros st v Hv. pose proof (double_char_ascii SQUOTE v Hv). pose proof (double_char_ascii DQUOTE v Hv).
    destruct st; cbn [write_value]; [exact Hv|constructor; [unfold SQUOTE; lia|]|constructor; [unfold DQUOTE; lia|]|constructor; [unfold LBRACE; lia|]];
      apply ascii_app; (assumption || ascii_lit). }
  unfold write_pairs. induction 1 as [|p ps (A & _ & _ & _ & B & _) _ IH]; [constructor|].
  assert (P : ascii (write_pair p)) by (apply ascii_app; [apply double_char_ascii, A|constructor; [unfold EQUALS; lia|apply V, B]]).
  cbn [map join]. destruct (map write_pair ps) as [|q qs]; [exact P|]. apply ascii_app; [exact P|]. apply ascii_app; [ascii_lit|exact IH].
Qed.

Lemma ado_written ps : Forall pair_ok ps -> ado_parse (write_pairs ps) = Ok (fold_left insert_pair ps ∅).
Proof.
  intros H. unfold ado_parse. rewrite is_ascii_spec by (apply write_pairs_ascii, H). apply ado_pairs_written; [exact H|apply length_write_pairs].
Qed.

(** ** Lemmas: the tokenizer ends *)

Definition shorter (s : str) (r : Res (str * str)) : Prop :=
  match r with Ok (_, s') => (length s' < length s)%nat | Err _ => True | Panic | OutOfFuel => False end.
Definition no_longer (s : str) (r : Res (str * str)) : Prop :=
  match r with Ok (_, s') => (length s' <= length s)%nat | Err _ => True | Panic | OutOfFuel => False end.

Lemma ado_key_shorter n : forall s k, (length s <= n)%nat -> shorter s (ado_key s k).
Proof.
  induction n as [|n IH]; intros s k L; destruct s as [|c s]; cbn [length] in L; try exact I; try lia. cbn [ado_key].
  destruct (c =? SEMI); [exact I|]. destruct (c =? EQUALS).
  - destruct s as [|d s]; [cbn; lia|]. destruct (d =? EQUALS); [|cbn; lia]. cbn [length] in *. specialize (IH s (k ++ [EQUALS]) ltac:(lia)).
    unfold shorter in *. destruct (ado_key _ _) as [[]| | |]; cbn [length]; try exact IH. lia.
  - specialize (IH s (k ++ [c]) ltac:(lia)). unfold shorter in *. destruct (ado_key _ _) as [[]| | |]; cbn [length]; try exact IH. lia.
Qed.

Lemma ado_quoted_no_longer q n : forall s v, (length s <= n)%nat -> no_longer s (ado_quoted q s v).
Proof.
  induction n as [|n IH]; intros s v L; destruct s as [|c s]; cbn [length] in L; try exact I; try lia. cbn [ado_quoted].
  destruct (c =? q).
  - destruct s as [|d s]; [cbn; lia|]. destruct (d =? q); [|cbn; lia]. cbn [length] in *. specialize (IH s (v ++ [q]) ltac:(lia)).
    unfold no_longer in *. destruct (ado_quoted _ _ _) as [[]| | |]; cbn [length]; try exact IH. lia.
  - specialize (IH s (v ++ [c]) ltac:(lia)). unfold no_longer in *. destruct (ado_quoted _ _ _) as [[]| | |]; cbn [length]; try exact IH. lia.
Qed.

Lemma ado_braced_no_longer s : forall v, no_longer s (ado_braced s v).
Proof.
  induction s as [|c s IH]; intros v; [exact I|]. cbn [ado_braced]. destruct (c =? RBRACE); [cbn; lia|]. specialize (IH (v ++ [c])).
  unfold no_longer in *. destruct (ado_braced _ _) as [[]| | |]; cbn [length]; try exact IH. lia.
Qed.

Lemma skip_trailing_no_longer err s :
  match skip_trailing err s with Ok s' => (length s' <= length s)%nat | Err _ => True | Panic | OutOfFuel => False end.
Proof.
  induction s as [|c s IH]; [cbn; lia|]. cbn [skip_trailing]. destruct (c =? SEMI); [cbn; lia|]. destruct (is_ascii_whitespace c); [|exact I].
  destruct (skip_trailing err s); cbn [length]; try exact IH. lia.
Qed.

Lemma ado_bare_no_longer s : (length (snd (ado_bare s)) <= length s)%nat.
Proof. induction s as [|c s IH]; [cbn; lia|]. cbn [ado_bare]. destruct (c =? SEMI); [cbn; lia|]. destruct (ado_bare s). cbn in *. lia. Qed.

Lemma ado_value_no_longer s : no_longer s (ado_value s).
Proof.
  assert (C : forall err t r, (length t <= length s)%nat -> no_longer t r ->
    no_longer s (res_bind r (fun '(v, rest) => res_map (fun rest => (v, rest)) (skip_trailing err rest)))).
  { intros err t [[v rest]| | |] Lt N; cbn in N |- *; try exact N. pose proof (skip_trailing_no_longer err rest) as T.
    destruct (skip_trailing err rest); cbn in T |- *; try exact T. lia. }
  unfold ado_value. pose proof (trim_start_length is_ascii_whitespace s) as L. destruct (trim_start is_ascii_whitespace s) as [|c t]; [cbn; lia|].
  cbn [length] in L. destruct (_ || _); [apply (C _ t); [lia|apply (ado_quoted_no_longer c (length t)); lia]|].
  destruct (c =? LBRACE); [apply (C _ t); [lia|apply ado_braced_no_longer]|]. pose proof (ado_bare_no_longer (c :: t)) as B.
  destruct (ado_bare (c :: t)) as [v rest]. cbn in B |- *. lia.
Qed.

Lemma ado_loop_total fuel : forall s m, (length s < fuel)%nat -> match ado_loop fuel s m with Ok _ | Err _ => True | Panic | OutOfFuel => False end.
Proof.
  induction fuel as [|fuel IH]; intros s m L; [lia|]. cbn [ado_loop]. set (f := fun c => _). pose proof (trim_start_length f s) as T.
  destruct (trim_start f s) as [|c t]; [exact I|]. pose proof (ado_key_shorter (length (c :: t)) (c :: t) [] (le_n _)) as K.
  destruct (ado_key (c :: t) []) as [[k s1]| | |]; cbn [shorter res_bind] in K |- *; try exact K. case_bool_decide; [exact I|].
  pose proof (ado_value_no_longer s1) as V. destruct (ado_value s1) as [[v s2]| | |]; cbn [no_longer res_bind] in V |- *; try exact V.
  apply IH. destruct s2 as [|d s2]; cbn [length] in *; [lia|]. destruct (d =? SEMI); cbn [length]; lia.
Qed.

Lemma ado_parse_total s : match ado_parse s with Ok _ | Err _ => True | Panic | OutOfFuel => False end.
Proof. unfold ado_parse. destruct (is_ascii s); cbn [negb]; [|exact I]. apply ado_loop_total. lia. Qed.

(** ** Lemmas: what a string configures *)

Lemma when_some_trust {A} (o : option A) f c : (forall a c, cf_trust (f a c) = cf_trust c) -> cf_trust (when_some o f c) = cf_trust c.
Proof. intros H. destruct o; cbn; auto. Qed.
Lemma when_some_encryption {A} (o : option A) f c : (forall a c, cf_encryption (f a c) = cf_encryption c) -> cf_encryption (when_some o f c) = cf_encryption c.
Proof. intros H. destruct o; cbn; auto. Qed.

Section FromConfigString.
Context (to_lowercase : str -> str) (b : Build) {S : Type} {CS : ConfigString S}.

Lemma parse_bool_total v : match parse_bool to_lowercase v with Ok _ | Err (Conversion _) => True | _ => False end.
Proof. unfold parse_bool. destruct (_ || _); [exact I|]. destruct (_ || _); exact I. Qed.

Definition ends {A} (r : Res A) : Prop := match r with Ok _ | Err _ => True | Panic | OutOfFuel => False end.
Lemma ends_map {A B} (f : A -> B) r : ends r -> ends (res_map f r).
Proof. destruct r; auto. Qed.
Lemma ends_bind {A B} (r : Res A) (k : A -> Res B) : ends r -> (forall a, r = Ok a -> ends (k a)) -> ends (res_bind r k).
Proof. destruct r; cbn; auto. Qed.
Lemma parse_bool_ends v : ends (parse_bool to_lowercase v).
Proof. unfold ends. pose proof (parse_bool_total v). destruct (parse_bool to_lowercase v) as [|[]| |]; tauto. Qed.

Lemma authentication_ends (s : S) : ends (authentication to_lowercase b s).
Proof.
  unfold authentication. destruct (or_else (key s "integratedsecurity") _) as [v|]; [|exact I].
  destruct (b_integrated b); try exact I; apply ends_map; unfold is_sspi_or_truthy; destruct (eq_ignore_ascii_case v _); (exact I || apply parse_bool_ends).
Qed.
Lemma cs_encrypt_ends (s : S) : ends (cs_encrypt to_lowercase b s).
Proof.
  unfold cs_encrypt. destruct (key s "encrypt") as [v|]; [|exact I]. pose proof (parse_bool_ends v) as P.
  destruct (b_tls b), (parse_bool to_lowercase v) as [[]|e| |]; try exact I; try exact P;
    repeat (match goal with |- ends (if ?c then _ else _) => destruct c end; try exact I).
Qed.

(** The trust settings and the encryption level come from their keys alone,
    and nothing panics. *)
Lemma from_config_inv (s : S) : ends (cs_server s) ->
  match from_config_string to_lowercase b s with
  | Ok c => cs_encrypt to_lowercase b s = Ok (cf_encryption c) /\ cs_trust_cert to_lowercase s = Ok (t_bypass (cf_trust c)) /\
      t_source (cf_trust c) = Native /\
      t_extra_cas (cf_trust c) = match cs_trust_cert_ca s with Some ca => [CaFile ca] | None => [] end /\
      (t_bypass (cf_trust c) = true -> t_extra_cas (cf_trust c) = [])
  | Err _ => True
  | Panic | OutOfFuel => False
  end.
Proof.
  intros Hs. unfold from_config_string. destruct (cs_server s) as [sd| | |]; cbn [res_bind]; try exact Hs; try exact I.
  pose proof (authentication_ends s) as A. destruct (authentication to_lowercase b s) as [au| | |]; cbn [res_bind]; try exact A; try exact I.
  set (builder := when_some (cs_application_name s) _ _).
  assert (T : cf_trust builder = mkTrustConfig Native [] false) by (subst builder; rewrite !when_some_trust by reflexivity; cbn; rewrite !when_some_trust by reflexivity; reflexivity).
  assert (B : ends (cs_trust_cert to_lowercase s)) by (unfold cs_trust_cert; destruct (key s _); [apply parse_bool_ends|exact I]).
  destruct (cs_trust_cert to_lowercase s) as [trust| | |]; cbn [res_bind]; try exact B; try exact I.
  assert (Fin : forall c, match res_bind (cs_encrypt to_lowercase b s) (fun encryption =>
      res_map (fun failover => with_multi_subnet_failover failover (when_some (cs_client_name s) with_client_name
        (with_readonly (cs_readonly s) (with_encryption encryption (when_some (cs_hostname_in_certificate s) with_hostname_in_certificate c)))))
      (cs_multi_subnet_failover to_lowercase s)) with
    | Ok c' => cs_encrypt to_lowercase b s = Ok (cf_encryption c') /\ cf_trust c' = cf_trust c
    | Err _ => True | Panic | OutOfFuel => False end).
  { intros c. pose proof (cs_encrypt_ends s) as E. destruct (cs_encrypt to_lowercase b s) as [e| | |]; cbn [res_bind]; try exact E; try exact I.
    assert (M : ends (cs_multi_subnet_failover to_lowercase s)) by (unfold cs_multi_subnet_failover; destruct (key s _); [apply parse_bool_ends|exact I]).
    destruct (cs_multi_subnet_failover to_lowercase s); cbn [res_map]; try exact M; try exact I. cbn.
    rewrite when_some_encryption, when_some_trust by reflexivity. cbn. rewrite when_some_trust by reflexivity. auto. }
  destruct trust, (cs_trust_cert_ca s) as [ca|]; cbn [andb]; try exact I.
  - unfold trust_cert. rewrite T. cbn [t_extra_cas t_source res_bind]. specialize (Fin (with_trust (mkTrustConfig Native [] true) builder)).
    destruct (res_bind _ _); try exact Fin. destruct Fin as [E ->]. cbn. auto 10.
  - unfold trust_cert_ca, push_ca. cbn [res_bind]. rewrite T. cbn [t_bypass t_source t_extra_cas app res_bind].
    specialize (Fin (with_trust (mkTrustConfig Native [CaFile ca] false) builder)). destruct (res_bind _ _); try exact Fin. destruct Fin as [E ->]. cbn.
    repeat split; auto; discriminate.
  - cbn [res_bind]. specialize (Fin builder). destruct (res_bind _ _); try exact Fin. destruct Fin as [E ->]. rewrite T. cbn. auto 10.
Qed.

(** Encryption is given up only where the string says so. *)
Lemma cs_encrypt_optout (s : S) e : cs_encrypt to_lowercase b s = Ok e ->
  match key s "encrypt" with
  | None => e = if b_tls b then EncryptionLevel.Required else EncryptionLevel.NotSupported
  | Some v =>
      if b_tls b then
        e = EncryptionLevel.Required \/ e = EncryptionLevel.Strict \/
        e = EncryptionLevel.Off /\ parse_bool to_lowercase v = Ok false \/ e = EncryptionLevel.NotSupported /\ v = ascii_str "DANGER_PLAINTEXT"
      else e = EncryptionLevel.NotSupported /\ (parse_bool to_lowercase v = Ok false \/ v = ascii_str "DANGER_PLAINTEXT")
  end.
Proof.
  unfold cs_encrypt. destruct (key s "encrypt") as [v|]; [|congruence].
  destruct (b_tls b); destruct (parse_bool to_lowercase v) as [[]|x| |]; try discriminate; try (intros H; injection H as <-; auto 10);
    case_bool_decide as D; try (intros H; injection H as <-; auto 10); destruct (eq_ignore_ascii_case _ _); try discriminate; cbn [andb];
    destruct (b_tds80 b); try discriminate; intros H; injection H as <-; auto.
Qed.
End FromConfigString.

Lemma split_on_cons d s : exists p ps, split_on d s = p :: ps.
Proof. induction s as [|c s (p & ps & E)]; cbn; [eauto|]. destruct (c =? d); [eauto|]. rewrite E. eauto. Qed.

Lemma split_on_two d s : existsb (Z.eqb d) s = true -> exists p q ps, split_on d s = p :: q :: ps.
Proof.
  induction s as [|c s IH]; [discriminate|]. cbn [existsb split_on]. rewrite (Z.eqb_sym d c). destruct (c =? d); cbn [orb].
  - intros _. destruct (split_on_cons d s) as (p & ps & ->). eauto.
  - intros H. destruct (IH H) as (p & q & ps & ->). eauto.
Qed.

Lemma split_on_app d a s : ~ In d a -> split_on d (a ++ d :: s) = a :: split_on d s.
Proof.
  induction a as [|c a IH]; intros H; cbn [app split_on]; [rewrite Z.eqb_refl; reflexivity|].
  destruct (Z.eqb_spec c d) as [->|]; [exfalso; apply H; left; reflexivity|]. rewrite IH by (intros X; apply H; right; exact X). reflexivity.
Qed.
Lemma split_on_none d a : ~ In d a -> split_on d a = [a].
Proof.
  induction a as [|c a IH]; intros H; [reflexivity|]. cbn [split_on]. destruct (Z.eqb_spec c d) as [->|]; [exfalso; apply H; left; reflexivity|].
  rewrite IH by (intros X; apply H; right; exact X). reflexivity.
Qed.

Lemma parse_port_ends ps : ends (parse_port ps).
Proof. destruct ps as [|s ps]; [exact I|]. apply ends_map. unfold parse_unsigned. destruct (match s with [] => s | _ => _ end) as [|c l]; [exact I|]. destruct (parse_digits _ _ _); exact I. Qed.

Lemma ado_server_ends d : ends (ado_server d).
Proof.
  assert (P : forall ps, ends (parse_server ps)).
  { intros [|f [|p [|]]]; try exact I; cbn [parse_server]; (destruct (existsb (Z.eqb BACKSLASH) f) eqn:X; [|apply ends_map, parse_port_ends]);
      (apply ends_bind; [apply parse_port_ends|]; intros port _; destruct (split_on_two _ _ X) as (a & c & l & ->); exact I). }
  unfold ado_server. destruct (or_else _ _) as [v|]; [|exact I]. destruct (strip_prefix _ v); apply P.
Qed.

(** Texts without the first character of a pattern are replaced by
    themselves. *)
Lemma replace_id pc pat by_ s : ~ In pc s -> replace (pc :: pat) by_ 0 s = s.
Proof.
  induction s as [|c s IH]; intros H; [reflexivity|]. cbn [replace strip_prefix].
  destruct (Z.eqb_spec pc c) as [->|]; [exfalso; apply H; left; reflexivity|]. rewrite IH by (intros X; apply H; right; exact X). reflexivity.
Qed.

Lemma show_Z_digits n : 0 <= n < 2 ^ 16 -> forall c, In c (show_Z n) -> is_digit c = true.
Proof.
  intros Hn c. unfold show_Z. destruct (show_fuel_spec 16 40 n []) as (ds & -> & _ & _ & D).
  - split; [lia|]. eapply Z.lt_trans; [apply Hn|reflexivity].
  - lia.
  - lia.
  - rewrite app_nil_r. apply D.
Qed.

(** ** Properties *)

(** C38: the tokenizer reads back what its rules let one write: a connection
    string made of pairs, each key with its equal signs doubled, each value
    bare (without separators, quotes or spaces around it), in single or double
    quotes with the quote doubled, or in braces without a closing one, parses
    to the dictionary of the lower-cased keys and the exact values, the last
    of equal keys winning.  A quoted value can be any ASCII text. *)
Theorem ado_string_roundtrip (ps : list pair) (H : Forall pair_ok ps) :
  ado_parse (write_pairs ps) = Ok (fold_left insert_pair ps ∅).
Proof. exact (ado_written ps H). Qed.

(** C25: no connection string is a way around the guards.  On any text
    [from_ado_string] ends in an error or a configuration, without a panic
    (the mutual exclusion of the trust settings is an error here); with a TLS
    backend the configuration requires encryption unless the string has an
    [encrypt] key that says [false], [no] or [DANGER_PLAINTEXT]; without one
    it is plain text, and a string that asks for encryption is refused;
    certificates go unchecked only if [TrustServerCertificate] says so, and
    then no CA is configured. *)
Theorem ado_string_secure (to_lowercase : str -> str) (b : Build) (text : str) :
  match from_ado_string to_lowercase b text with
  | Ok c => exists dict, ado_parse text = Ok dict /\
      (if b_tls b then
         cf_encryption c = EncryptionLevel.Required \/ cf_encryption c = EncryptionLevel.Strict \/
         exists v, dict !! ascii_str "encrypt" = Some v /\ (parse_bool to_lowercase v = Ok false \/ v = ascii_str "DANGER_PLAINTEXT")
       else
         cf_encryption c = EncryptionLevel.NotSupported /\
         forall v, dict !! ascii_str "encrypt" = Some v -> parse_bool to_lowercase v = Ok false \/ v = ascii_str "DANGER_PLAINTEXT") /\
      (t_bypass (cf_trust c) = true ->
         (exists v, dict !! ascii_str "trustservercertificate" = Some v /\ parse_bool to_lowercase v = Ok true) /\
         t_extra_cas (cf_trust c) = [] /\ t_source (cf_trust c) = Native)
  | Err _ => True
  | Panic | OutOfFuel => False
  end.
Proof.
  unfold from_ado_string. pose proof (ado_parse_total text) as P. destruct (ado_parse text) as [dict| | |]; cbn [res_bind]; try exact P; try exact I.
  pose proof (from_config_inv to_lowercase b dict (ado_server_ends dict)) as F.
  destruct (from_config_string to_lowercase b dict) as [c| | |]; try exact F. destruct F as (E & T & N & _ & X). exists dict. split; [reflexivity|]. split.
  - apply cs_encrypt_optout in E. unfold key in E. cbn [cs_dict AdoNetConfig] in E.
    destruct (b_tls b); destruct (dict !! ascii_str "encrypt") as [v|] eqn:Ev; cbn in E.
    + destruct E as [E|[E|[[E E']|[E E']]]]; eauto 6.
    + auto.
    + destruct E as [E E']. split; [exact E|]. intros w Hw. injection Hw as <-. exact E'.
    + split; [exact E|discriminate].
  - intros By. rewrite By in T. split; [|auto]. unfold cs_trust_cert, key in T. cbn [cs_dict AdoNetConfig] in T.
    destruct (dict !! ascii_str "trustservercertificate") as [v|]; [eauto|discriminate].
Qed.

(** The dictionary of a server and its credentials. *)
Definition connection_pairs (server user password : str) : list pair :=
  [mkPair (ascii_str "Server") Double server; mkPair (ascii_str "User ID") Double user; mkPair (ascii_str "Password") Double password].

Lemma connection_pairs_ok server user password : ascii server -> ascii user -> ascii password -> Forall pair_ok (connection_pairs server user password).
Proof.
  assert (K : forall k v, ascii k -> bool_decide (k = []) = false -> bool_decide (SEMI ∈ k) = false -> trim_matches ws k = k ->
    trimmed k -> ascii v -> pair_ok (mkPair k Double v)).
  { intros k v A N S _ T V. repeat split; try assumption; try (apply T); cbn.
    - apply bool_decide_eq_false in N. exact N.
    - apply bool_decide_eq_false in S. rewrite <- list_elem_of_In. exact S. }
  intros H1 H2 H3. unfold connection_pairs.
  repeat (constructor; [apply K; [ascii_lit|reflexivity|reflexivity|reflexivity|split; intros c Hc; injection Hc as <-; reflexivity|assumption]|]). constructor.
Qed.

Lemma tcp_server host instance port : ~ In COMMA host -> ~ In BACKSLASH host -> ~ In 40 host -> ~ In COMMA instance -> ~ In BACKSLASH instance ->
  0 <= port < 2 ^ 16 ->
  parse_server (split_on COMMA (host ++ [BACKSLASH] ++ instance ++ [COMMA] ++ show_Z port)) =
  Ok (mkServerDefinition (Some host) (Some port) (Some instance)).
Proof.
  intros H1 H2 H3 H4 H5 Hp.
  assert (D : forall c, is_digit c = false -> ~ In c (show_Z port)) by (intros c Hc X; rewrite (show_Z_digits port Hp c X) in Hc; discriminate).
  replace (host ++ [BACKSLASH] ++ instance ++ [COMMA] ++ show_Z port) with ((host ++ BACKSLASH :: instance) ++ COMMA :: show_Z port) by (rewrite <- !app_assoc; reflexivity).
  rewrite split_on_app.
  2:{ rewrite in_app_iff. intros [X|[X|X]]; [auto|discriminate|auto]. }
  rewrite split_on_none by (apply D; reflexivity). cbn [parse_server].
  assert (E : existsb (Z.eqb BACKSLASH) (host ++ BACKSLASH :: instance) = true) by (rewrite existsb_app; apply orb_true_iff; right; reflexivity).
  rewrite E, split_on_app, split_on_none by assumption. unfold parse_port. rewrite parse_show by lia. cbn [res_map res_bind].
  unfold local_host. change (ascii_str "(local)") with (40 :: ascii_str "local)"). rewrite replace_id by exact H3. reflexivity.
Qed.

Lemma strip_prefix_app p s : strip_prefix p (p ++ s) = Some s.
Proof. induction p as [|c p IH]; [reflexivity|]. cbn. rewrite Z.eqb_refl. exact IH. Qed.

Lemma connection_lookup server user password :
  let m := fold_left insert_pair (connection_pairs server user password) ∅ in
  m !! ascii_str "server" = Some server /\ m !! ascii_str "user id" = Some user /\ m !! ascii_str "password" = Some password /\
  forall k, ascii_str k <> ascii_str "server" -> ascii_str k <> ascii_str "user id" -> ascii_str k <> ascii_str "password" -> m !! ascii_str k = None.
Proof.
  assert (E : fold_left insert_pair (connection_pairs server user password) ∅ =
    <[ascii_str "password" := password]> (<[ascii_str "user id" := user]> (<[ascii_str "server" := server]> (∅ : gmap str str)))) by reflexivity.
  cbv zeta. rewrite E. split; [|split; [|split]].
  - rewrite !lookup_insert_ne by (intros X; vm_compute in X; discriminate). apply lookup_insert_eq.
  - rewrite lookup_insert_ne by (intros X; vm_compute in X; discriminate). apply lookup_insert_eq.
  - apply lookup_insert_eq.
  - intros k N1 N2 N3. rewrite !lookup_insert_ne by congruence. apply lookup_empty.
Qed.

Lemma ascii_sep : ascii [BACKSLASH] /\ ascii [COMMA].
Proof. split; ascii_lit. Qed.

(** The server, the instance, the port and the credentials of a connection
    string arrive: with the server written [tcp:host\instance,port] and every
    value in double quotes with its quotes doubled, whatever ASCII text the
    user and the password are, [from_ado_string] gives the default options
    with exactly them; and the address to dial is that host and port. *)
Theorem ado_string_connects (to_lowercase : str -> str) (b : Build) (host instance user password : str) (port : Z)
  (Ah : ascii host) (Ai : ascii instance) (Au : ascii user) (Ap : ascii password) (Hp : 0 <= port < 2 ^ 16)
  (Hh : ~ In COMMA host /\ ~ In BACKSLASH host /\ ~ In 40 host /\ host <> [DOT]) (Hi : ~ In COMMA instance /\ ~ In BACKSLASH instance) :
  let server := ascii_str "tcp:" ++ host ++ [BACKSLASH] ++ instance ++ [COMMA] ++ show_Z port in
  let c := with_auth (SqlServer user password) (with_instance_name instance (with_port port (with_host host (config_new b)))) in
  from_ado_string to_lowercase b (write_pairs (connection_pairs server user password)) = Ok c /\
  get_addr c = host ++ [58] ++ show_Z port.
Proof.
  intros server c. destruct Hh as (H1 & H2 & H3 & H4), Hi as (H5 & H6). split; [|unfold get_addr, get_host; cbn; rewrite bool_decide_false by exact H4; reflexivity].
  assert (As : ascii server) by (pose proof (show_Z_ascii port ltac:(lia)) as [Z _]; apply ascii_app; [ascii_lit|]; destruct ascii_sep; auto 10 using ascii_app).
  unfold from_ado_string. rewrite ado_written by (apply connection_pairs_ok; assumption). cbn [res_bind].
  destruct (connection_lookup server user password) as (Ls & Lu & Lp & Ln). set (m := fold_left _ _ _) in *. clearbody m.
  assert (Ad : ado_server m = Ok (mkServerDefinition (Some host) (Some port) (Some instance))).
  { unfold ado_server. rewrite Ls. cbn [or_else]. unfold server. rewrite strip_prefix_app. apply tcp_server; assumption. }
  assert (K : forall k, key m k = m !! ascii_str k) by reflexivity.
  unfold from_config_string. cbn [cs_server AdoNetConfig]. rewrite Ad. cbn [res_bind sd_host sd_port sd_instance].
  unfold authentication, cs_database, cs_application_name, cs_trust_cert, cs_trust_cert_ca, cs_hostname_in_certificate, cs_encrypt, cs_client_name,
    cs_readonly, cs_multi_subnet_failover. rewrite !K, Lu, Lp, !Ln by (intros X; vm_compute in X; discriminate). destruct b as [[] ? ?]; reflexivity.
Qed.

(** The options a program can build: from the defaults, by the trust settings
    and by anything that changes other options. *)
Inductive built (b : Build) : Config -> Prop :=
| built_new : built b (config_new b)
| built_trust_cert c c' : built b c -> trust_cert c = Ok c' -> built b c'
| built_trust_ca path c c' : built b c -> trust_cert_ca path c = Ok c' -> built b c'
| built_trust_bundle pem c c' : built b c -> trust_cert_ca_bundle pem c = Ok c' -> built b c'
| built_webpki c c' : built b c -> trust_webpki_roots c = Ok c' -> built b c'
| built_other c c' : built b c -> cf_trust c' = cf_trust c -> built b c'.

(** The trust settings exclude each other: however the options are built,
    if certificates go unchecked then no CA and no other root store is
    configured, so a CA that was asked for is never silently ignored; and the
    guards refuse nothing else: switching the checks off is refused exactly
    when there is a CA or another root store, adding one exactly when the
    checks are off. *)
Theorem trust_exclusive (b : Build) (c : Config) (H : built b c) :
  (t_bypass (cf_trust c) = true -> t_extra_cas (cf_trust c) = [] /\ t_source (cf_trust c) = Native) /\
  (trust_cert c = Panic <-> ~ (t_extra_cas (cf_trust c) = [] /\ t_source (cf_trust c) = Native)) /\
  (forall path, trust_cert_ca path c = Panic <-> t_bypass (cf_trust c) = true) /\
  (trust_webpki_roots c = Panic <-> t_bypass (cf_trust c) = true).
Proof.
  split.
  - induction H as [|c c' _ IH E|path c c' _ IH E|pem c c' _ IH E|c c' _ IH E|c c' _ IH E]; [discriminate| | | | |rewrite E; exact IH].
    1: unfold trust_cert in E; destruct (t_extra_cas (cf_trust c)) eqn:X, (t_source (cf_trust c)) eqn:Y; try discriminate; injection E as <-; cbn; auto.
    all: unfold trust_cert_ca, trust_cert_ca_bundle, push_ca, trust_webpki_roots in E; destruct (t_bypass (cf_trust c)) eqn:X; [discriminate|];
      injection E as <-; cbn; congruence.
  - unfold trust_cert, trust_cert_ca, push_ca, trust_webpki_roots. split; [|split; [intros path|]].
    + destruct (t_extra_cas (cf_trust c)), (t_source (cf_trust c)); (split; [try discriminate; intros _ [? ?]; discriminate|]); intros N; try reflexivity.
      exfalso. apply N. auto.
    + destruct (t_bypass (cf_trust c)); split; congruence.
    + destruct (t_bypass (cf_trust c)); split; congruence.
Qed.

(** ** Witnesses *)

Definition full_build : Build := mkBuild true true NoIntegratedAuth.

Lemma ado_string_roundtrip_witness :
  write_pairs [mkPair (ascii_str "User=ID") Bare (ascii_str "a=b"); mkPair (ascii_str "pwd") Double (ascii_str " p;'x ")] = ascii_str "User==ID=a=b;pwd=" ++ [34] ++ ascii_str " p;'x " ++ [34] /\
  ado_parse (write_pairs [mkPair (ascii_str "User=ID") Bare (ascii_str "a=b"); mkPair (ascii_str "pwd") Double (ascii_str " p;'x ")]) =
    Ok (<[ascii_str "pwd" := ascii_str " p;'x "]> (<[ascii_str "user=id" := ascii_str "a=b"]> ∅)).
Proof.
  split; [reflexivity|]. apply (ado_string_roundtrip [mkPair (ascii_str "User=ID") Bare (ascii_str "a=b"); mkPair (ascii_str "pwd") Double (ascii_str " p;'x ")]).
  repeat constructor; cbn; try ascii_lit; try discriminate; try (intros c Hc; injection Hc as <-; reflexivity); intuition discriminate || (intros c Hc; injection Hc as <-; cbn; intuition discriminate).
Defined.

Lemma ado_string_connects_witness :
  from_ado_string id full_build (write_pairs (connection_pairs (ascii_str "tcp:db\SQL1,1444") (ascii_str "sa") (ascii_str "p;ss"))) =
    Ok (with_auth (SqlServer (ascii_str "sa") (ascii_str "p;ss")) (with_instance_name (ascii_str "SQL1") (with_port 1444 (with_host (ascii_str "db") (config_new full_build))))).
Proof.
  apply (ado_string_connects id full_build (ascii_str "db") (ascii_str "SQL1") (ascii_str "sa") (ascii_str "p;ss") 1444);
    first [ascii_lit|lia|repeat split; cbn; intuition discriminate].
Defined.

Lemma trust_exclusive_witness : exists c, built full_build c /\ t_bypass (cf_trust c) = true /\ t_extra_cas (cf_trust c) = [] /\
  trust_cert_ca (ascii_str "ca.pem") c = Panic.
Proof.
  exists (with_trust (mkTrustConfig Native [] true) (config_new full_build)).
  assert (B : built full_build (with_trust (mkTrustConfig Native [] true) (config_new full_build))).
  { eapply built_trust_cert; [apply built_new|reflexivity]. }
  split; [exact B|]. split; [reflexivity|]. destruct (trust_exclusive full_build _ B) as (T & _ & C & _).
  split; [apply T; reflexivity|]. apply C. reflexivity.
Defined.
