(* ===== verification/Builder.v ===== *)
(** * Builder: [ConfigBuilder] and the accessors of [Config], [client/config.rs]

    The fluent builder, method by method, as steps on the configuration it
    holds, and the order in which they may be called. *)

From S2P Require Import Prelude Unicode Identifiers PreLogin Config.

(** ** Accessors of [Config] *)

(** [TrustConfig::default] and [TrustConfig::is_default] *)
Definition trust_default : TrustConfig := mkTrustConfig Native [] false.
Definition trust_is_default (t : TrustConfig) : bool :=
  match t_source t, t_extra_cas t with Native, [] => negb (t_bypass t) | _, _ => false end.
(** [Config::client_certificate], [Config::client_certificate_pkcs12] and
    [Config::get_client_certificate] *)
Definition client_certificate (cert key : str) : Config -> Config := with_client_cert (CertAndKey cert key).
Definition client_certificate_pkcs12 (path password : str) : Config -> Config := with_client_cert (Pkcs12 path password).
Definition get_client_certificate (c : Config) : option ClientCertSource := cf_client_cert c.
Definition get_packet_size (c : Config) : option Z := cf_packet_size c.
Definition get_multi_subnet_failover (c : Config) : bool := cf_multi_subnet_failover c.
Definition get_handshake_timeout (c : Config) : option Z := cf_handshake_timeout c.
Definition get_command_timeout (c : Config) : option Z := cf_command_timeout c.
Definition get_lossy_utf16_decoding (c : Config) : bool := cf_lossy_utf16 c.
Definition get_lossy_codepage_decoding (c : Config) : bool := cf_lossy_codepage c.

(** ** [client/auth.rs]: constructors and the equality of secrets *)

Definition auth_sql_server (user password : str) : AuthMethod := SqlServer user password.
Definition auth_aad_token (token : str) : AuthMethod := AADToken token.
(** [PartialEq for SqlServerAuth], [for WindowsAuth] and [for AuthMethod]: the
    secrets are compared exposed *)
Definition sql_auth_eq (a b : str * str) : bool := bool_decide (fst a = fst b) && bool_decide (snd a = snd b).
Definition windows_auth_eq (a b : str * str * option str) : bool :=
  bool_decide (fst (fst a) = fst (fst b)) && bool_decide (snd a = snd b) && bool_decide (snd (fst a) = snd (fst b)).
Definition auth_eq (a b : AuthMethod) : bool :=
  match a, b with
  | SqlServer u p, SqlServer u' p' => sql_auth_eq (u, p) (u', p')
  | Windows u p d, Windows u' p' d' => windows_auth_eq (u, p, d) (u', p', d')
  | Integrated, Integrated => true
  | AADToken t, AADToken t' => bool_decide (t = t')
  | NoAuth, NoAuth => true
  | _, _ => false
  end.

(** ** [ConfigBuilder] *)

Record ConfigBuilder := mkConfigBuilder { inner : Config }.
Definition config_builder (b : Build) : ConfigBuilder := mkConfigBuilder (config_new b).
Definition builder_from (c : Config) : ConfigBuilder := mkConfigBuilder c.

Definition builder_host (v : str) (b : ConfigBuilder) : Res ConfigBuilder := Ok (mkConfigBuilder (with_host v (inner b))).
Definition builder_port (v : Z) (b : ConfigBuilder) : Res ConfigBuilder := Ok (mkConfigBuilder (with_port v (inner b))).
Definition builder_database (v : str) (b : ConfigBuilder) : Res ConfigBuilder := Ok (mkConfigBuilder (with_database v (inner b))).
Definition builder_instance_name (v : str) (b : ConfigBuilder) : Res ConfigBuilder := Ok (mkConfigBuilder (with_instance_name v (inner b))).
Definition builder_application_name (v : str) (b : ConfigBuilder) : Res ConfigBuilder := Ok (mkConfigBuilder (with_application_name v (inner b))).
Definition builder_encryption (v : EncryptionLevel) (b : ConfigBuilder) : Res ConfigBuilder := Ok (mkConfigBuilder (with_encryption v (inner b))).
Definition builder_readonly (v : bool) (b : ConfigBuilder) : Res ConfigBuilder := Ok (mkConfigBuilder (with_readonly v (inner b))).
Definition builder_handshake_timeout (v : option Z) (b : ConfigBuilder) : Res ConfigBuilder := Ok (mkConfigBuilder (with_handshake_timeout v (inner b))).
Definition builder_command_timeout (v : option Z) (b : ConfigBuilder) : Res ConfigBuilder := Ok (mkConfigBuilder (with_command_timeout v (inner b))).
Definition builder_lossy_utf16_decoding (v : bool) (b : ConfigBuilder) : Res ConfigBuilder := Ok (mkConfigBuilder (with_lossy_utf16_decoding v (inner b))).
Definition builder_lossy_codepage_decoding (v : bool) (b : ConfigBuilder) : Res ConfigBuilder := Ok (mkConfigBuilder (with_lossy_codepage_decoding v (inner b))).
Definition builder_authentication (v : AuthMethod) (b : ConfigBuilder) : Res ConfigBuilder := Ok (mkConfigBuilder (with_auth v (inner b))).
Definition builder_trust_cert (b : ConfigBuilder) : Res ConfigBuilder := res_map mkConfigBuilder (trust_cert (inner b)).
Definition builder_trust_cert_ca (path : str) (b : ConfigBuilder) : Res ConfigBuilder := res_map mkConfigBuilder (trust_cert_ca path (inner b)).
Definition builder_trust_cert_ca_bundle (pem : bytes) (b : ConfigBuilder) : Res ConfigBuilder :=
  res_map mkConfigBuilder (trust_cert_ca_bundle pem (inner b)).
Definition builder_trust_webpki_roots (b : ConfigBuilder) : Res ConfigBuilder := res_map mkConfigBuilder (trust_webpki_roots (inner b)).
Definition builder_client_certificate (cert key : str) (b : ConfigBuilder) : Res ConfigBuilder :=
  Ok (mkConfigBuilder (client_certificate cert key (inner b))).
Definition builder_client_certificate_pkcs12 (path password : str) (b : ConfigBuilder) : Res ConfigBuilder :=
  Ok (mkConfigBuilder (client_certificate_pkcs12 path password (inner b))).
Definition config_build (b : ConfigBuilder) : Config := inner b.

(** A call of the chain. *)
Inductive Setting :=
  | SHost (v : str) | SPort (v : Z) | SDatabase (v : str) | SInstance (v : str) | SApplication (v : str) | SEncryption (v : EncryptionLevel)
  | SReadonly (v : bool) | SHandshakeTimeout (v : option Z) | SCommandTimeout (v : option Z) | SLossyUtf16 (v : bool) | SLossyCodepage (v : bool)
  | SAuthentication (v : AuthMethod) | STrustCert | STrustCa (path : str) | STrustBundle (pem : bytes) | SWebpki
  | SCertificate (cert key : str) | SPkcs12 (path password : str).
Definition set (s : Setting) : ConfigBuilder -> Res ConfigBuilder :=
  match s with
  | SHost v => builder_host v | SPort v => builder_port v | SDatabase v => builder_database v | SInstance v => builder_instance_name v
  | SApplication v => builder_application_name v | SEncryption v => builder_encryption v | SReadonly v => builder_readonly v
  | SHandshakeTimeout v => builder_handshake_timeout v | SCommandTimeout v => builder_command_timeout v
  | SLossyUtf16 v => builder_lossy_utf16_decoding v | SLossyCodepage v => builder_lossy_codepage_decoding v
  | SAuthentication v => builder_authentication v | STrustCert => builder_trust_cert | STrustCa p => builder_trust_cert_ca p
  | STrustBundle p => builder_trust_cert_ca_bundle p | SWebpki => builder_trust_webpki_roots
  | SCertificate c k => builder_client_certificate c k | SPkcs12 p w => builder_client_certificate_pkcs12 p w
  end.
Fixpoint chain (ss : list Setting) (b : ConfigBuilder) : Res ConfigBuilder :=
  match ss with [] => Ok b | s :: ss => res_bind (set s b) (chain ss) end.

(** What a setting sets; the certificate authorities are one list. *)
Definition subject (s : Setting) : Z :=
  match s with
  | SHost _ => 0 | SPort _ => 1 | SDatabase _ => 2 | SInstance _ => 3 | SApplication _ => 4 | SEncryption _ => 5 | SReadonly _ => 6
  | SHandshakeTimeout _ => 7 | SCommandTimeout _ => 8 | SLossyUtf16 _ => 9 | SLossyCodepage _ => 10 | SAuthentication _ => 11
  | STrustCert => 12 | STrustCa _ | STrustBundle _ => 13 | SWebpki => 14 | SCertificate _ _ | SPkcs12 _ _ => 15
  end.

(** ** Lemmas *)

Lemma auth_eq_spec a b : auth_eq a b = true <-> a = b.
Proof.
  destruct a, b; cbn; unfold sql_auth_eq, windows_auth_eq; cbn; rewrite ?andb_true_iff, ?bool_decide_eq_true; split; intros H; try discriminate; intuition congruence.
Qed.

Lemma set_commutes s1 s2 b : subject s1 <> subject s2 -> res_bind (set s1 b) (set s2) = res_bind (set s2 b) (set s1).
Proof.
  destruct b as [[h p d i a e [src cas byp] au ro ps hn cn ms ht ct lu lc cc]]. intros N.
  destruct s1, s2; try (exfalso; apply N; reflexivity); try reflexivity;
    unfold set, builder_trust_cert, builder_trust_cert_ca, builder_trust_cert_ca_bundle, builder_trust_webpki_roots, trust_cert, trust_cert_ca, trust_cert_ca_bundle, push_ca, trust_webpki_roots;
    destruct src, cas, byp; reflexivity.
Qed.

Lemma chain_app xs ys b : chain (xs ++ ys) b = res_bind (chain xs b) (chain ys).
Proof. revert b. induction xs as [|x xs IH]; intros b; [reflexivity|]. cbn [app chain]. destruct (set x b); cbn; [apply IH|reflexivity..]. Qed.

Lemma chain_permutes xs ys : Permutation xs ys -> NoDup (map subject xs) -> forall b, chain xs b = chain ys b.
Proof.
  induction 1 as [|x xs ys P IH|x y l|xs ys zs P1 IH1 P2 IH2]; intros N b; [reflexivity| | |].
  - cbn [map chain] in *. apply NoDup_cons in N as [_ N]. destruct (set x b); cbn; [apply IH, N|reflexivity..].
  - cbn [map chain] in *. apply NoDup_cons in N as [N _]. pose proof (set_commutes y x b ltac:(intros E; apply N; rewrite E; left)) as C.
    assert (Two : forall s t, res_bind (set s b) (fun b' => res_bind (set t b') (chain l)) = res_bind (res_bind (set s b) (set t)) (chain l))
      by (intros s t; destruct (set s b); reflexivity).
    rewrite !Two, C. reflexivity.
  - rewrite IH1 by exact N. apply IH2. rewrite <- P1. exact N.
Qed.

(** ** Theorems *)

(** The order of a builder's chain does not matter: two chains of the
    same settings, each subject set once (the added certificate authorities
    are one subject), end in the same configuration, or both panic because
    they mix [trust_cert] with a setting it excludes; and a chain that sets a
    host and a port builds a configuration with that address. *)
Theorem builder_order (xs ys : list Setting) (b : ConfigBuilder) (P : Permutation xs ys) (N : NoDup (map subject xs)) :
  res_map config_build (chain xs b) = res_map config_build (chain ys b) /\
  forall h p, In (SHost h) xs -> In (SPort p) xs -> h <> [DOT] ->
    match chain xs b with Ok b' => get_addr (config_build b') = h ++ [58] ++ show_Z p | _ => True end.
Proof.
  split; [rewrite (chain_permutes xs ys P N b); reflexivity|]. intros h p Hh Hp Hd.
  apply list_elem_of_In, elem_of_Permutation in Hh as [xs1 P1].
  assert (Hp1 : In (SPort p) xs1).
  { apply list_elem_of_In. apply list_elem_of_In in Hp. rewrite P1 in Hp. apply elem_of_cons in Hp as [[=]|Hp]. exact Hp. }
  apply list_elem_of_In, elem_of_Permutation in Hp1 as [xs2 P2].
  assert (Q : Permutation xs (xs2 ++ [SHost h; SPort p])) by (rewrite P1, P2; solve_Permutation).
  rewrite (chain_permutes xs _ Q N), chain_app. destruct (chain xs2 b) as [b'| | |]; cbn; try exact I.
  unfold get_addr, get_host, get_port. cbn. rewrite bool_decide_false by exact Hd. reflexivity.
Qed.

Lemma builder_order_witness :
  get_addr (config_build (mkConfigBuilder (with_port 1433 (with_host (ascii_str "db") (config_new full_build))))) = ascii_str "db:1433" /\
  res_map config_build (chain [SHost (ascii_str "db"); SPort 1433] (config_builder full_build)) =
  res_map config_build (chain [SPort 1433; SHost (ascii_str "db")] (config_builder full_build)).
Proof.
  destruct (builder_order [SHost (ascii_str "db"); SPort 1433] [SPort 1433; SHost (ascii_str "db")] (config_builder full_build)) as [E A].
  - apply perm_swap.
  - apply (bool_decide_unpack _). vm_compute. exact I.
  - split; [|exact E]. exact (A (ascii_str "db") 1433 ltac:(left; reflexivity) ltac:(right; left; reflexivity) ltac:(discriminate)).
Defined.
