(* ===== verification/Trust.v ===== *)
(** * Trust: [client/tls_stream/*.rs]

    What the three TLS backends are set up with before their handshake: the
    certificate loader they share ([certs.rs]), the root store and the client
    authentication of rustls, and the connectors of native-tls and opentls.
    The file system, the parsers of PEM blocks, keys and identities, what a
    backend takes for a certificate, the root stores that come with the system
    and with [webpki_roots], and what a [ServerName] is belong to the system
    and to other crates: they are the fields of [Outside].  A path is its
    text. *)

From S2P Require Import Prelude Unicode Identifiers PreLogin Config.

(** ** Errors with their messages *)

Inductive TrustError := IoError (kind : IoErrorKind) (message : str) | TlsError (message : str).
Definition Loaded (A : Type) : Type := TrustError + A.
Definition loaded_bind {A B} (m : Loaded A) (k : A -> Loaded B) : Loaded B := match m with inr a => k a | inl e => inl e end.
Definition map_err {A E} (f : E -> TrustError) (r : E + A) : Loaded A := match r with inr a => inr a | inl e => inl (f e) end.

Declare Scope trust_scope.
Delimit Scope trust_scope with trust.
Notation "x <~ m ;; k" := (loaded_bind m (fun x => k)) (at level 100, m at next level, right associativity) : trust_scope.
#[local] Open Scope trust_scope.

(** ** [std::path] *)

Definition SLASH : Z := 47.
(** The names of a path: no empty ones and no [.] but a leading one. *)
Definition path_names (p : str) : list str :=
  match split_on SLASH p with
  | first :: rest => List.filter (fun n => negb (bool_decide (n = []))) [first] ++ List.filter (fun n => negb (bool_decide (n = []) || bool_decide (n = [DOT]))) rest
  | [] => []
  end.
(** [Path::file_name] *)
Definition file_name (p : str) : option str :=
  match rev (path_names p) with
  | n :: _ => if bool_decide (n = [DOT]) || bool_decide (n = [DOT; DOT]) then None else Some n
  | [] => None
  end.
(** [Path::extension]: behind the last dot, if something is before it. *)
Definition path_extension (p : str) : option str :=
  match file_name p with
  | None => None
  | Some n =>
      match rev (split_on DOT n) with
      | after :: before :: more => match more, before with [], [] => None | _, _ => Some after end
      | _ => None
      end
  end.
Definition has_ext (p : str) (exts : list string) : bool :=
  match path_extension p with Some ext => existsb (fun e => eq_ignore_ascii_case ext (ascii_str e)) exts | None => false end.

(** ** The outside *)

Class Outside := {
  (** a certificate as a backend stores it, its client identity, and the name
      of a server *)
  Anchor : Type; Identity : Type; ServerName : Type; Provider : Type;
  (** [fs::read], with the text of its error *)
  fs_read : str -> str + bytes;
  (** [CertificateDer::pem_slice_iter(..).collect()] *)
  pem_certs : bytes -> str + list bytes;
  (** [RootCertStore::add] and [Certificate::from_der] on one certificate *)
  anchor_of : bytes -> str + Anchor;
  (** [rustls_native_certs::load_native_certs]: certificates and errors *)
  native_certs : list bytes; native_errors : list str;
  (** [webpki_roots::TLS_SERVER_ROOTS] *)
  webpki_roots : list Anchor;
  (** [PrivateKeyDer::from_pem_slice] and [PrivateKeyDer::try_from] *)
  key_from_pem : bytes -> str + bytes; key_from_der : bytes -> str + bytes;
  (** [with_client_auth_cert], [Identity::from_pkcs8], [Identity::from_pkcs12] *)
  client_auth : list bytes -> bytes -> str + Identity;
  from_pkcs8 : bytes -> bytes -> str + Identity; from_pkcs12 : bytes -> str -> str + Identity;
  (** [ServerName::try_from] *)
  server_name : str -> str + ServerName;
  placeholder_name : ServerName;
  (** the providers of cryptography: the installed one, aws-lc-rs, and whether
      one has the default protocol versions *)
  installed_provider : option Provider; aws_lc_rs : Provider;
  safe_versions : Provider -> str + unit
}.

(** ** [certs.rs] *)

Section Certs.
Context {O : Outside}.

Definition strip_bom (b : bytes) : bytes := default b (strip_prefix [0xEF; 0xBB; 0xBF] b).

Definition MARKER : bytes := ascii_str "-----BEGIN".
(** [slice::windows] *)
Fixpoint byte_windows (n : nat) (b : bytes) : list bytes :=
  match b with
  | [] => []
  | _ :: b' => if (n <=? length b)%nat then take n b :: byte_windows n b' else []
  end.
Definition starts_with (p b : bytes) : bool := match strip_prefix p b with Some _ => true | None => false end.
Definition looks_like_pem (b : bytes) : bool :=
  starts_with MARKER b ||
  existsb (fun w => match w with c :: rest => ((c =? 10) || (c =? 13)) && bool_decide (rest = MARKER) | [] => false end)
    (byte_windows (S (length MARKER)) b).

Definition source_name (extra : ExtraCa) : str :=
  match extra with
  | CaFile path => path
  | CaBundle b => ascii_str "in-memory CA bundle (" ++ show_Z (len b) ++ ascii_str " bytes)"
  end.

Definition invalid_cert_error (extra : ExtraCa) (err : str) : TrustError :=
  IoError InvalidData (ascii_str "the CA source `" ++ source_name extra ++ ascii_str "` contains an invalid certificate: " ++ err).

Definition certs_from_file (path : str) : Loaded (list bytes) :=
  buf <~ map_err (fun e => IoError InvalidData (ascii_str "Could not read certificate " ++ path ++ ascii_str ": " ++ e)) (fs_read path) ;;
  if has_ext path ["pem"; "crt"]%string then
    map_err (fun e => IoError InvalidData (ascii_str "Failed to parse PEM certificate " ++ path ++ ascii_str ": " ++ e)) (pem_certs (strip_bom buf))
  else if has_ext path ["der"]%string then
    match buf with [] => inr [] | _ => inr [buf] end
  else inl (IoError InvalidInput (ascii_str "Certificate " ++ path ++ ascii_str " has an unsupported file-extension! Supported types are pem, crt and der.")).

Definition certs_from_bundle (b : bytes) : Loaded (list bytes) :=
  let b := strip_bom b in
  if looks_like_pem b then map_err (fun e => IoError InvalidData (ascii_str "Failed to parse PEM CA bundle: " ++ e)) (pem_certs b)
  else match b with [] => inr [] | _ => inr [b] end.

Definition trust_anchors (extra : ExtraCa) : Loaded (list bytes) :=
  certs <~ match extra with CaFile path => certs_from_file path | CaBundle b => certs_from_bundle b end ;;
  match certs with
  | [] => inl (IoError InvalidData (ascii_str "the CA source `" ++ source_name extra ++ ascii_str "` contained no usable certificates"))
  | _ => inr certs
  end.

(** The loops over the certificates of one source and over the sources, the
    same in the three backends ([build_trust_store] and the two
    [load_extra_cas]). *)
Fixpoint add_certs (extra : ExtraCa) (certs : list bytes) (store : list Anchor) : Loaded (list Anchor) :=
  match certs with
  | [] => inr store
  | cert :: certs => a <~ map_err (invalid_cert_error extra) (anchor_of cert) ;; add_certs extra certs (store ++ [a])
  end.
Fixpoint add_extras (extras : list ExtraCa) (store : list Anchor) : Loaded (list Anchor) :=
  match extras with
  | [] => inr store
  | extra :: extras => certs <~ trust_anchors extra ;; store <~ add_certs extra certs store ;; add_extras extras store
  end.

(** ** What a connection is set up with *)

(** The check of the server's certificate: none, or against anchors, with the
    store of the system consulted by the backend itself ([platform]) or
    not. *)
Inductive Verification := Unchecked | Against (platform : bool) (anchors : list Anchor).
(** The name the handshake is for: a string the backend checks, or a parsed
    name. *)
Inductive Peer := HostName (name : str) | Name (name : ServerName).
Record Setup := mkSetup {
  su_verification : Verification; su_identity : option Identity; su_alpn : list str; su_peer : Peer; su_hostname_checked : bool; su_sni : bool }.

(** The features [rustls], [native-tls] and [vendored-openssl]. *)
Inductive Backend := Rustls | NativeTls | OpenTls.

Definition TDS_ALPN_PROTOCOL_NAME : str := ascii_str "tds/8.0".

(** ** [rustls_tls_stream.rs] *)

Definition get_server_name (c : Config) : Loaded ServerName :=
  match server_name (get_hostname_in_certificate c), t_bypass (cf_trust c) with
  | inr sn, _ => inr sn
  | inl _, true => inr placeholder_name
  | inl e, false => inl (TlsError e)
  end.

Definition resolve_crypto_provider (installed : option Provider) : Provider :=
  match installed with Some p => p | None => aws_lc_rs end.

(** The store, how many certificates it took and whether there were errors. *)
Definition load_native_roots_into (store : list Anchor) : list Anchor * nat * bool :=
  let '(store, added) :=
    fold_left (fun '(store, added) cert => match anchor_of cert with inr a => (store ++ [a], S added) | inl _ => (store, added) end)
      native_certs (store, 0%nat) in
  (store, added, negb (bool_decide (native_errors = []))).

Definition ensure_base_or_extra (base_added : nat) (base_had_errors has_extras : bool) : Loaded unit :=
  if (base_added =? 0)%nat && negb has_extras
  then inl (IoError NotFound (ascii_str (if base_had_errors then "could not load platform certificates" else "no usable CA certificates found in the platform trust store")))
  else inr tt.

Definition build_trust_store (t : TrustConfig) : Loaded (list Anchor) :=
  let '(store, base_added, base_had_errors) :=
    match t_source t with
    | Native => load_native_roots_into []
    | WebpkiRoots => ([] ++ webpki_roots, length webpki_roots, false)
    end in
  store <~ add_extras (t_extra_cas t) store ;;
  _ <~ ensure_base_or_extra base_added base_had_errors (negb (bool_decide (length (t_extra_cas t) = 0%nat))) ;;
  inr store.

Definition read_private_key (path : str) : Loaded bytes :=
  buf <~ map_err (fun e => IoError InvalidData (ascii_str "Could not read private key " ++ path ++ ascii_str ": " ++ e)) (fs_read path) ;;
  if has_ext path ["pem"; "key"]%string then
    map_err (fun e => IoError InvalidData (ascii_str "Failed to parse PEM private key " ++ path ++ ascii_str ": " ++ e)) (key_from_pem buf)
  else if has_ext path ["der"]%string then
    map_err (fun e => IoError InvalidData (ascii_str "Failed to parse DER private key " ++ path ++ ascii_str ": " ++ e)) (key_from_der buf)
  else inl (IoError InvalidInput (ascii_str "Private key " ++ path ++ ascii_str " has an unsupported file-extension! Supported types are pem, key and der.")).

Definition load_client_auth (cert : ClientCertSource) : Loaded (list bytes * bytes) :=
  match cert with
  | CertAndKey cert key =>
      chain <~ certs_from_file cert ;;
      match chain with
      | [] => inl (IoError InvalidInput (ascii_str "Client certificate file " ++ cert ++ ascii_str " contains no certificates"))
      | _ => key <~ read_private_key key ;; inr (chain, key)
      end
  | Pkcs12 _ _ => inl (TlsError (ascii_str "The rustls backend does not support PKCS#12 client certificates; supply separate PEM/DER certificate and key files via `Config::client_certificate` instead."))
  end.

Definition alpn_of (c : Config) : list str :=
  match cf_encryption c with EncryptionLevel.Strict => [TDS_ALPN_PROTOCOL_NAME] | _ => [] end.

(** [TlsStream::new] up to the handshake *)
Definition rustls_setup (c : Config) : Loaded Setup :=
  let provider := resolve_crypto_provider installed_provider in
  _ <~ map_err TlsError (safe_versions provider) ;;
  verification <~ (if t_bypass (cf_trust c) then inr Unchecked
                   else store <~ build_trust_store (cf_trust c) ;; inr (Against false store)) ;;
  identity <~ match cf_client_cert c with
              | Some cert =>
                  ck <~ load_client_auth cert ;;
                  id <~ map_err TlsError (client_auth (fst ck) (snd ck)) ;; inr (Some id)
              | None => inr None
              end ;;
  name <~ get_server_name c ;;
  inr (mkSetup verification identity (alpn_of c) (Name name) (negb (t_bypass (cf_trust c))) true).

(** ** [native_tls_stream.rs] *)

Definition native_load_identity (cert : ClientCertSource) : Loaded Identity :=
  match cert with
  | CertAndKey cert key =>
      if negb (has_ext cert ["pem"; "crt"]%string) || negb (has_ext key ["pem"; "key"]%string)
      then inl (TlsError (ascii_str "The native-tls backend requires PEM certificate and key files; for a DER-bundled identity use `Config::client_certificate_pkcs12`."))
      else
        cert_buf <~ map_err (fun e => IoError InvalidData (ascii_str "Could not read client certificate " ++ cert ++ ascii_str ": " ++ e)) (fs_read cert) ;;
        key_buf <~ map_err (fun e => IoError InvalidData (ascii_str "Could not read client private key " ++ key ++ ascii_str ": " ++ e)) (fs_read key) ;;
        map_err TlsError (from_pkcs8 cert_buf key_buf)
  | Pkcs12 path password =>
      buf <~ map_err (fun e => IoError InvalidData (ascii_str "Could not read PKCS#12 identity " ++ path ++ ascii_str ": " ++ e)) (fs_read path) ;;
      map_err TlsError (from_pkcs12 buf password)
  end.

Definition load_extra_cas (extras : list ExtraCa) : Loaded (list Anchor) := add_extras extras [].

(** [create_tls_stream] up to the handshake *)
Definition native_tls_setup (c : Config) : Loaded Setup :=
  let alpn := alpn_of c in
  identity <~ match cf_client_cert c with Some cert => id <~ native_load_identity cert ;; inr (Some id) | None => inr None end ;;
  if t_bypass (cf_trust c) then
    inr (mkSetup Unchecked identity alpn (HostName (get_hostname_in_certificate c)) false false)
  else
    certs <~ load_extra_cas (t_extra_cas (cf_trust c)) ;;
    inr (mkSetup (Against true certs) identity alpn (HostName (get_hostname_in_certificate c)) true true).

(** ** [opentls_tls_stream.rs] *)

Definition opentls_load_identity (cert : ClientCertSource) : Loaded Identity :=
  match cert with
  | Pkcs12 path password =>
      buf <~ map_err (fun e => IoError InvalidData (ascii_str "Could not read PKCS#12 identity " ++ path ++ ascii_str ": " ++ e)) (fs_read path) ;;
      map_err TlsError (from_pkcs12 buf password)
  | CertAndKey _ _ => inl (TlsError (ascii_str "The vendored-openssl (opentls) backend does not support separate certificate/key files for client authentication; supply a PKCS#12 bundle via `Config::client_certificate_pkcs12` instead."))
  end.
(** [create_tls_stream] up to the handshake; no ALPN *)
Definition opentls_setup (c : Config) : Loaded Setup :=
  identity <~ match cf_client_cert c with Some cert => id <~ opentls_load_identity cert ;; inr (Some id) | None => inr None end ;;
  if t_bypass (cf_trust c) then
    inr (mkSetup Unchecked identity [] (HostName (get_hostname_in_certificate c)) false false)
  else
    certs <~ load_extra_cas (t_extra_cas (cf_trust c)) ;;
    inr (mkSetup (Against true certs) identity [] (HostName (get_hostname_in_certificate c)) true true).

(** ** [tls_stream.rs]: the backend the crate is built with *)

Definition backend_setup (backend : Backend) (c : Config) : Loaded Setup :=
  match backend with
  | Rustls => rustls_setup c
  | NativeTls => native_tls_setup c
  | OpenTls => opentls_setup c
  end.
End Certs.

(** The error of a handshake: its kind and text, and the text of the
    certificate error when that is what it wraps. *)
Record HandshakeError := mkHandshakeError { he_kind : IoErrorKind; he_text : str; he_certificate : option str }.

(** [str::contains] *)
Fixpoint contains_text (needle s : str) : bool :=
  starts_with needle s || match s with [] => false | _ :: s => contains_text needle s end.

Definition map_handshake_error (err : HandshakeError) (t : TrustConfig) : TrustError :=
  match t_bypass t, he_certificate err with
  | false, Some rendered =>
      let hint := if contains_text (ascii_str "UnsupportedCertVersion") rendered
        then ascii_str " The SQL Server presented a certificate rustls considers too old (an outdated X.509 version), which frequently happens with the self-signed certificate SQL Server auto-generates."
        else [] in
      TlsError (ascii_str "the server's certificate was rejected during the TLS handshake: " ++ rendered ++ [DOT] ++ hint ++
        ascii_str " To connect anyway you can: (1) trust a specific CA certificate with `Config::trust_cert_ca(path)`, or an in-memory CA bundle with `Config::trust_cert_ca_bundle(bytes)`; (2) if the OS trust store is unusable, base trust on the bundled Mozilla roots with `Config::trust_webpki_roots()` (requires the `rustls-webpki-roots` feature); (3) skip certificate validation entirely with `Config::trust_cert()` (accepts any certificate and also disables hostname verification " ++ [0x2014] ++
        ascii_str " only safe on a trusted network); or (4) build tiberius with the `native-tls` backend, which is more lenient toward legacy certificates. Note: SQL Server always performs a TLS handshake during login even when `Encrypt=false`, so this can occur regardless of the encryption setting.")
  | _, _ => IoError (he_kind err) (he_text err)
  end.

(** ** Lemmas *)

Section Lemmas.
Context {O : Outside}.

Lemma loaded_bind_inr {A B} (m : Loaded A) (k : A -> Loaded B) b : loaded_bind m k = inr b -> exists a, m = inr a /\ k a = inr b.
Proof. destruct m as [e|a]; [discriminate|]. eauto. Qed.
Lemma map_err_inr {A E} (f : E -> TrustError) (r : E + A) a : map_err f r = inr a -> r = inr a.
Proof. destruct r; [discriminate|]. intros [= ->]. reflexivity. Qed.

(** The base of a store: every certificate of the system the backend takes,
    or the bundled roots. *)
Definition base_roots (t : TrustConfig) : list Anchor :=
  match t_source t with
  | Native => omap (fun cert => match anchor_of cert with inr a => Some a | inl _ => None end) native_certs
  | WebpkiRoots => webpki_roots
  end.

Lemma native_roots_spec certs : forall store added,
  fold_left (fun '(store, added) cert => match anchor_of cert with inr a => (store ++ [a], S added) | inl _ => (store, added) end) certs (store, added) =
  (let l := omap (fun cert => match anchor_of cert with inr a => Some a | inl _ => None end) certs in (store ++ l, (added + length l)%nat)).
Proof.
  induction certs as [|c certs IH]; intros store added; [cbn; rewrite app_nil_r, Nat.add_0_r; reflexivity|].
  cbn [fold_left omap list_omap]. destruct (anchor_of c) as [e|a]; cbn zeta in *; rewrite IH; [reflexivity|]. cbn. rewrite <- app_assoc. cbn.
  do 2 f_equal. lia.
Qed.

(** One source: every certificate of it. *)
Definition holds_source (extra : ExtraCa) (anchors : list Anchor) : Prop :=
  exists ders, trust_anchors extra = inr ders /\ ders <> [] /\ Forall2 (fun der a => anchor_of der = inr a) ders anchors.

Lemma trust_anchors_some extra ders : trust_anchors extra = inr ders -> ders <> [].
Proof. intros H. apply loaded_bind_inr in H as (cs & _ & H). destruct cs; [discriminate|]. injection H as <-. discriminate. Qed.

Lemma add_certs_inr extra certs : forall store store', add_certs extra certs store = inr store' <->
  exists l, store' = store ++ l /\ Forall2 (fun der a => anchor_of der = inr a) certs l.
Proof.
  induction certs as [|c certs IH]; intros store store'; cbn [add_certs].
  - split; [intros [= <-]; exists []; rewrite app_nil_r; auto|]. intros (l & -> & F). inversion_clear F. rewrite app_nil_r. reflexivity.
  - destruct (anchor_of c) as [e|a] eqn:E; cbn.
    + split; [discriminate|]. intros (l & _ & F). inversion_clear F. congruence.
    + rewrite IH. split.
      * intros (l & -> & F). exists (a :: l). rewrite <- app_assoc. auto.
      * intros (l & -> & F). inversion F as [|? a' ? l' E' F']; subst. exists l'. rewrite E in E'. injection E' as <-. rewrite <- app_assoc. auto.
Qed.

Lemma add_extras_inr extras : forall store store', add_extras extras store = inr store' <->
  exists ls, store' = store ++ concat ls /\ Forall2 holds_source extras ls.
Proof.
  induction extras as [|x extras IH]; intros store store'; cbn [add_extras].
  - split; [intros [= <-]; exists []; cbn; rewrite app_nil_r; auto|]. intros (ls & -> & F). inversion_clear F. cbn. rewrite app_nil_r. reflexivity.
  - split.
    + intros H. apply loaded_bind_inr in H as (ders & E & H). apply loaded_bind_inr in H as (s1 & E1 & H). apply add_certs_inr in E1 as (l & -> & F).
      apply IH in H as (ls & -> & Fs). exists (l :: ls). cbn. rewrite app_assoc. split; [reflexivity|]. constructor; [|exact Fs].
      exists ders. split; [exact E|]. split; [exact (trust_anchors_some _ _ E)|exact F].
    + intros (ls & -> & F). inversion F as [|? l ? ls' (ders & E & _ & Fd) F']; subst. rewrite E. cbn.
      rewrite (proj2 (add_certs_inr x ders store (store ++ l))) by eauto. cbn. apply IH. exists ls'. rewrite app_assoc. auto.
Qed.

(** A failure does not depend on what is in the store. *)
Lemma add_certs_inl extra certs e : forall store store', add_certs extra certs store = inl e -> add_certs extra certs store' = inl e.
Proof.
  induction certs as [|c certs IH]; intros store store'; cbn [add_certs]; [discriminate|]. destruct (anchor_of c); cbn; [auto|]. apply IH.
Qed.
Lemma add_extras_inl extras e : forall store store', add_extras extras store = inl e -> add_extras extras store' = inl e.
Proof.
  induction extras as [|x extras IH]; intros store store'; cbn [add_extras]; [discriminate|]. destruct (trust_anchors x) as [e1|ders]; cbn; [auto|].
  destruct (add_certs x ders store) as [e2|s1] eqn:E; cbn.
  - intros [= ->]. rewrite (add_certs_inl _ _ _ _ _ E). reflexivity.
  - apply add_certs_inr in E as (l & -> & F). rewrite (proj2 (add_certs_inr x ders store' (store' ++ l))) by eauto. apply IH.
Qed.

(** A base and extras, or an error. *)
Lemma build_trust_store_eq t : build_trust_store t =
  loaded_bind (load_extra_cas (t_extra_cas t)) (fun l =>
    match t_extra_cas t, base_roots t with
    | [], [] => inl (IoError NotFound (ascii_str (match t_source t with Native => if bool_decide (native_errors = []) then "no usable CA certificates found in the platform trust store"
        else "could not load platform certificates" | WebpkiRoots => "no usable CA certificates found in the platform trust store" end)))
    | _, _ => inr (base_roots t ++ l)
    end).
Proof.
  unfold build_trust_store, load_extra_cas, base_roots, load_native_roots_into. rewrite native_roots_spec. cbn zeta.
  destruct (add_extras (t_extra_cas t) []) as [e|l] eqn:E; cbn [loaded_bind].
  - destruct (t_source t); rewrite (add_extras_inl _ _ _ _ E); reflexivity.
  - apply add_extras_inr in E as (ls & -> & F). cbn [app].
    assert (X : forall store, add_extras (t_extra_cas t) store = inr (store ++ concat ls)) by (intros; apply add_extras_inr; eauto).
    destruct (t_source t); rewrite X; cbn [loaded_bind app]; unfold ensure_base_or_extra; cbn [Nat.add].
    + destruct (omap _ native_certs), (t_extra_cas t), (bool_decide (native_errors = [])); reflexivity.
    + destruct webpki_roots, (t_extra_cas t); reflexivity.
Qed.
End Lemmas.

(** ** What a backend that gets as far as its handshake is set up with *)

Section Backends.
Context {O : Outside}.

(** The base the backend loads itself, and whether it consults the store of
    the system besides. *)
Definition own_roots (backend : Backend) (t : TrustConfig) : list Anchor := match backend with Rustls => base_roots t | _ => [] end.
Definition consults_system (backend : Backend) : bool := match backend with Rustls => false | _ => true end.

(** The name the handshake is for is the configured one; rustls has it
    parsed. *)
Definition names_server (c : Config) (s : Setup) : Prop :=
  match su_peer s with
  | HostName n => n = get_hostname_in_certificate c
  | Name n => server_name (get_hostname_in_certificate c) = inr n
  end.

(** The check of the server: none at all, or of the name against the base and
    every certificate of every configured source. *)
Definition checks_server (backend : Backend) (c : Config) (s : Setup) : Prop :=
  if t_bypass (cf_trust c) then su_verification s = Unchecked /\ su_hostname_checked s = false
  else su_hostname_checked s = true /\ su_sni s = true /\ names_server c s /\
    exists ls, su_verification s = Against (consults_system backend) (own_roots backend (cf_trust c) ++ concat ls) /\
      Forall2 holds_source (t_extra_cas (cf_trust c)) ls /\
      (consults_system backend = false -> own_roots backend (cf_trust c) ++ concat ls <> []).

Lemma get_server_name_checked c n : t_bypass (cf_trust c) = false -> get_server_name c = inr n ->
  server_name (get_hostname_in_certificate c) = inr n.
Proof. intros B. unfold get_server_name. rewrite B. destruct (server_name _); [discriminate|]. intros [= ->]. reflexivity. Qed.

Lemma built_store_spec t store : build_trust_store t = inr store ->
  exists ls, store = base_roots t ++ concat ls /\ Forall2 holds_source (t_extra_cas t) ls /\ store <> [].
Proof.
  rewrite build_trust_store_eq. intros E. apply loaded_bind_inr in E as (l & El & E). apply add_extras_inr in El as (ls & -> & F). exists ls.
  assert (X : store = base_roots t ++ concat ls) by (destruct (t_extra_cas t), (base_roots t); try discriminate; injection E as <-; reflexivity).
  split; [exact X|]. split; [exact F|]. subst store. destruct (base_roots t); [|discriminate].
  destruct F as [|x l xs ls (ders & _ & N & Fd) F]; [discriminate|]. inversion Fd; subst; [congruence|discriminate].
Qed.

Lemma rustls_checks c s : rustls_setup c = inr s -> checks_server Rustls c s.
Proof.
  unfold rustls_setup, checks_server, names_server. cbn zeta. intros H. apply loaded_bind_inr in H as (_ & _ & H).
  apply loaded_bind_inr in H as (v & Ev & H). apply loaded_bind_inr in H as (id & _ & H). apply loaded_bind_inr in H as (n & En & H).
  injection H as <-. cbn. destruct (t_bypass (cf_trust c)) eqn:B; [injection Ev as <-; auto|].
  apply loaded_bind_inr in Ev as (store & Es & [= <-]). apply built_store_spec in Es as (ls & -> & F & Ne).
  split; [reflexivity|]. split; [reflexivity|]. split; [exact (get_server_name_checked c n B En)|]. exists ls. auto.
Qed.

(** The connectors of the other two differ in their identities and in ALPN
    only. *)
Lemma connector_checks (backend : Backend) (identity : Loaded (option Identity)) alpn c s (N : backend <> Rustls)
  (H : (id <~ identity ;;
        if t_bypass (cf_trust c) then inr (mkSetup Unchecked id alpn (HostName (get_hostname_in_certificate c)) false false)
        else certs <~ load_extra_cas (t_extra_cas (cf_trust c)) ;;
          inr (mkSetup (Against true certs) id alpn (HostName (get_hostname_in_certificate c)) true true)) = inr s) :
  checks_server backend c s.
Proof.
  apply loaded_bind_inr in H as (id & _ & H). unfold checks_server, names_server. destruct (t_bypass (cf_trust c)); [injection H as <-; auto|].
  apply loaded_bind_inr in H as (certs & E & H). apply add_extras_inr in E as (ls & -> & F). injection H as <-. cbn.
  do 3 (split; [reflexivity|]). exists ls. destruct backend; [congruence| |]; (split; [reflexivity|]; split; [exact F|discriminate]).
Qed.

Lemma backend_checks backend c s : backend_setup backend c = inr s -> checks_server backend c s.
Proof.
  destruct backend; cbn [backend_setup]; intros H; [exact (rustls_checks c s H)| |];
    refine (connector_checks _ _ _ c s _ H); discriminate.
Qed.

(** ** Properties *)

(** C13: a connection string cannot weaken the check of the server's
    certificate in rustls, native-tls or opentls: when the string leads to a
    configuration and the backend gets as far as its handshake, certificate
    and host name go unchecked exactly if [TrustServerCertificate] says so.
    Otherwise the name in the certificate is checked and is the configured
    one, and the certificate is checked with rustls against exactly the usable
    roots of the system, and with the other two against the store of the
    system they consult themselves, in each case with exactly the certificates
    of the file [TrustServerCertificateCA] names, which is not empty; the
    store of rustls is never empty. *)
Theorem backend_checks_certificate (backend : Backend) (to_lowercase : str -> str) (b : Build)
  (text : str) (c : Config) (s : Setup) (dict : gmap str str) (P : ado_parse text = Ok dict)
  (C : from_ado_string to_lowercase b text = Ok c) (S : backend_setup backend c = inr s) :
  match cs_trust_cert to_lowercase dict with
  | Ok true => su_verification s = Unchecked /\ su_hostname_checked s = false
  | _ => su_hostname_checked s = true /\ su_sni s = true /\
      match su_peer s with
      | HostName n => n = get_hostname_in_certificate c
      | Name n => server_name (get_hostname_in_certificate c) = inr n
      end /\
      exists extra,
        match backend with
        | Rustls =>
            let roots := omap (fun cert => match anchor_of cert with inr a => Some a | inl _ => None end) native_certs in
            su_verification s = Against false (roots ++ extra) /\ roots ++ extra <> []
        | NativeTls | OpenTls => su_verification s = Against true extra
        end /\
        match cs_trust_cert_ca dict with
        | Some ca => exists ders, certs_from_file ca = inr ders /\ ders <> [] /\ Forall2 (fun der a => anchor_of der = inr a) ders extra
        | None => extra = []
        end
  end.
Proof.
  unfold from_ado_string in C. rewrite P in C. cbn [res_bind] in C. pose proof (from_config_inv to_lowercase b dict (ado_server_ends dict)) as F.
  rewrite C in F. destruct F as (_ & T & N & X & _). rewrite T. pose proof (backend_checks backend c s S) as K. unfold checks_server in K.
  destruct (t_bypass (cf_trust c)); [exact K|]. destruct K as (Hn & Sn & Pn & ls & V & Fs & Ne). do 3 (split; [assumption|]).
  exists (concat ls). split.
  { destruct backend; cbn in V, Ne; [|exact V|exact V]. unfold base_roots in V, Ne. rewrite N in V, Ne. split; [exact V|exact (Ne eq_refl)]. }
  rewrite X in Fs. destruct (cs_trust_cert_ca dict) as [ca|]; [|inversion Fs; subst; reflexivity].
  inversion Fs as [|? l ? ls' (ders & E & Nd & Fd) F']; subst. inversion F'; subst. cbn. rewrite app_nil_r. exists ders. split; [|auto].
  apply loaded_bind_inr in E as (cs & E & E'). destruct cs; [discriminate|]. injection E' as <-. exact E.
Qed.

(** The backends trust the same extra certificates and fail for the same
    reason: the store of rustls is its base followed by exactly the
    certificates the other two add to theirs, a source one of them cannot
    load stops all three with the same error, and only rustls has an error
    of its own, for a base without certificates and no source besides. *)
Theorem backends_agree (t : TrustConfig) :
  match load_extra_cas (t_extra_cas t) with
  | inl e => build_trust_store t = inl e
  | inr l => build_trust_store t = inr (base_roots t ++ l) \/
             t_extra_cas t = [] /\ base_roots t = [] /\ exists m, build_trust_store t = inl (IoError NotFound m)
  end.
Proof.
  rewrite build_trust_store_eq. destruct (load_extra_cas (t_extra_cas t)); [reflexivity|]. cbn.
  destruct (t_extra_cas t), (base_roots t); eauto.
Qed.
(** A message that has the name of a source in it. *)
Definition names_source (extra : ExtraCa) (e : TrustError) : Prop :=
  exists k before after, e = IoError k (before ++ source_name extra ++ after).
(** The message for a bundle whose PEM does not parse. *)
Definition bundle_unparsed (extra : ExtraCa) (e : TrustError) : Prop :=
  exists b err, extra = CaBundle b /\ pem_certs (strip_bom b) = inl err /\ e = IoError InvalidData (ascii_str "Failed to parse PEM CA bundle: " ++ err).

Lemma named_file k before path after : names_source (CaFile path) (IoError k (before ++ path ++ after)).
Proof. exists k, before, after. reflexivity. Qed.
Lemma named_empty extra :
  names_source extra (IoError InvalidData (ascii_str "the CA source `" ++ source_name extra ++ ascii_str "` contained no usable certificates")).
Proof. eexists _, _, _. reflexivity. Qed.

Lemma certs_from_file_named path e : certs_from_file path = inl e -> names_source (CaFile path) e.
Proof.
  unfold certs_from_file. destruct (fs_read path) as [err|buf]; cbn [map_err loaded_bind]; [intros H; apply inl_inj in H as <-; apply named_file|].
  destruct (has_ext path ["pem"; "crt"]%string).
  - destruct (pem_certs _); cbn [map_err]; [|discriminate]. intros H. apply inl_inj in H as <-. apply named_file.
  - destruct (has_ext path ["der"]%string); [destruct buf; discriminate|]. intros H. apply inl_inj in H as <-. apply named_file.
Qed.

Lemma trust_anchors_named extra e : trust_anchors extra = inl e -> names_source extra e \/ bundle_unparsed extra e.
Proof.
  unfold trust_anchors. set (r := match extra with CaFile path => certs_from_file path | CaBundle b => certs_from_bundle b end).
  destruct r as [e1|[|d ds]] eqn:E; cbn [loaded_bind]; intros H; try discriminate; apply inl_inj in H as <-; [|left; apply named_empty].
  subst r. destruct extra as [path|b]; [left; exact (certs_from_file_named path e1 E)|]. right. unfold certs_from_bundle in E. cbn zeta in E.
  destruct (looks_like_pem (strip_bom b)); [|destruct (strip_bom b); discriminate].
  destruct (pem_certs (strip_bom b)) as [err|] eqn:Ep; cbn [map_err] in E; [|discriminate]. apply inl_inj in E as <-. exists b, err. auto.
Qed.

(** A failure to load the extra certificates says which source is at
    fault: a file that cannot be read, has another extension, does not parse,
    holds no certificate or holds one the backend rejects is named in the
    message, and so is a bundle, except that a bundle whose PEM does not
    parse is reported without a name. *)
Theorem ca_errors_named (extras : list ExtraCa) (e : TrustError) (F : load_extra_cas extras = inl e) :
  exists extra, In extra extras /\ (names_source extra e \/ bundle_unparsed extra e).
Proof.
  revert F. unfold load_extra_cas. generalize (@nil Anchor). induction extras as [|x extras IH]; intros store; cbn [add_extras]; [discriminate|].
  destruct (trust_anchors x) as [e1|ders] eqn:E; cbn [loaded_bind].
  - intros [= ->]. exists x. split; [left; reflexivity|]. exact (trust_anchors_named x e E).
  - destruct (add_certs x ders store) as [e2|s1] eqn:E2; cbn [loaded_bind].
    + intros [= ->]. exists x. split; [left; reflexivity|]. left. revert store E2. clear. induction ders as [|d ders IH]; intros store; cbn [add_certs]; [discriminate|].
      destruct (anchor_of d) as [err|a]; cbn [map_err loaded_bind]; [|apply IH].
      intros H. apply inl_inj in H as <-. eexists _, _, _. reflexivity.
    + intros H. destruct (IH s1 H) as (y & Iy & N). exists y. split; [right; exact Iy|exact N].
Qed.
End Backends.

(** *** The sniffing of a bundle *)

Lemma starts_with_spec p b : starts_with p b = true <-> exists rest, b = p ++ rest.
Proof.
  unfold starts_with. revert b. induction p as [|x p IH]; intros b; [split; eauto|].
  destruct b as [|y b]; cbn; [split; [discriminate|intros (r & H); discriminate]|].
  destruct (Z.eqb_spec x y) as [->|N].
  - rewrite IH. split; intros (r & H); exists r; congruence.
  - split; [discriminate|]. intros (r & H). congruence.
Qed.

Lemma byte_windows_spec n b w : (0 < n)%nat -> In w (byte_windows n b) <-> length w = n /\ exists pre post, b = pre ++ w ++ post.
Proof.
  intros Hn. induction b as [|x b IH].
  - split; [intros []|]. intros (L & pre & post & E). symmetry in E. apply app_eq_nil in E as [_ E]. apply app_eq_nil in E as [-> _]. cbn in L. lia.
  - cbn [byte_windows]. destruct (Nat.leb_spec n (length (x :: b))) as [Hl|Hl].
    + cbn [In]. rewrite IH. split.
      * intros [<-|(L & pre & post & ->)]; [|split; [exact L|]; exists (x :: pre), post; reflexivity].
        split; [rewrite length_take; lia|]. exists [], (drop n (x :: b)). cbn [app]. symmetry. apply take_drop.
      * intros (L & pre & post & E). destruct pre as [|y pre]; cbn in E.
        -- left. rewrite E, take_app_le, take_ge by lia. reflexivity.
        -- right. injection E as -> ->. eauto.
    + split; [intros []|]. intros (L & pre & post & E). rewrite E, !length_app in Hl. lia.
Qed.

(** A bundle is taken for PEM exactly when the marker stands at the start of
    one of its lines; so a DER certificate that merely contains the marker
    within a line is not. *)
Theorem looks_like_pem_spec (b : bytes) : looks_like_pem b = true <->
  exists pre post, b = pre ++ MARKER ++ post /\ (pre = [] \/ exists pre' c, pre = pre' ++ [c] /\ (c = 10 \/ c = 13)).
Proof.
  unfold looks_like_pem. rewrite orb_true_iff, starts_with_spec, existsb_exists. split.
  - intros [(r & ->)|(w & Hw & Hm)]; [exists [], r; auto|]. apply byte_windows_spec in Hw as (L & pre & post & ->); [|lia].
    destruct w as [|c rest]; [discriminate|]. apply andb_true_iff in Hm as [Hc Hr]. apply bool_decide_eq_true in Hr as ->.
    exists (pre ++ [c]), post. rewrite <- app_assoc. split; [reflexivity|]. right. exists pre, c. split; [reflexivity|].
    apply orb_true_iff in Hc as [Hc|Hc]; apply Z.eqb_eq in Hc; auto.
  - intros (pre & post & -> & [->|(pre' & c & -> & Hc)]); [left; exists post; reflexivity|]. right.
    exists (c :: MARKER). split.
    + apply byte_windows_spec; [lia|]. split; [reflexivity|]. exists pre', post. rewrite <- app_assoc. reflexivity.
    + rewrite bool_decide_true by reflexivity. destruct Hc as [->| ->]; reflexivity.
Qed.

(** ** Witnesses *)

(** A system with one root, a CA file of one certificate, and a bundle parser
    that takes no PEM. *)
#[local] Instance toy_outside : Outside := {|
  Anchor := bytes; Identity := bytes; ServerName := str; Provider := unit;
  fs_read p := if bool_decide (p = ascii_str "ca.der") then inr [0x30; 1] else inl (ascii_str "No such file or directory");
  pem_certs _ := inl (ascii_str "missing section end marker");
  anchor_of d := match d with 0x30 :: _ => inr d | _ => inl (ascii_str "BadEncoding") end;
  native_certs := [[0x30; 7]; [1]]; native_errors := []; webpki_roots := [];
  key_from_pem b := inr b; key_from_der b := inr b; client_auth _ k := inr k; from_pkcs8 _ k := inr k; from_pkcs12 b _ := inr b;
  server_name n := inr n; placeholder_name := ascii_str "placeholder.domain.com";
  installed_provider := None; aws_lc_rs := tt; safe_versions _ := inr tt |}.

Definition trust_text : str := ascii_str "server=tcp:db;trustservercertificateca=ca.der".
Definition trust_config : Config :=
  match from_ado_string to_ascii_lowercase full_build trust_text with Ok c => c | _ => config_new full_build end.
Definition trust_dict : gmap str str := match ado_parse trust_text with Ok d => d | _ => ∅ end.
Definition trust_setup : Setup :=
  mkSetup (Against false [[0x30; 7]; [0x30; 1]]) None [] (Name (ascii_str "db")) true true.

(** With each backend; native-tls and opentls add the one certificate to what
    they have. *)
Definition trust_setup_of (backend : Backend) : Setup :=
  match backend with
  | Rustls => trust_setup
  | _ => mkSetup (Against true [[0x30; 1]]) None [] (HostName (ascii_str "db")) true true
  end.

Lemma backend_checks_certificate_witness :
  from_ado_string to_ascii_lowercase full_build trust_text = Ok trust_config /\
  (forall backend, backend_setup backend trust_config = inr (trust_setup_of backend)) /\
  forall backend, su_hostname_checked (trust_setup_of backend) = true /\
    exists extra, Forall2 (fun der a => anchor_of der = inr a) [[0x30; 1]] extra /\
      su_verification (trust_setup_of backend) = match backend with Rustls => Against false ([[0x30; 7]] ++ extra) | _ => Against true extra end.
Proof.
  assert (P : ado_parse trust_text = Ok trust_dict) by (vm_compute; reflexivity).
  assert (C : from_ado_string to_ascii_lowercase full_build trust_text = Ok trust_config) by (vm_compute; reflexivity).
  assert (S : forall backend, backend_setup backend trust_config = inr (trust_setup_of backend)) by (intros []; vm_compute; reflexivity).
  split; [exact C|]. split; [exact S|]. intros backend.
  pose proof (backend_checks_certificate backend to_ascii_lowercase full_build trust_text trust_config (trust_setup_of backend) trust_dict P C (S backend)) as H.
  replace (cs_trust_cert to_ascii_lowercase trust_dict) with (Ok (A := bool) false) in H by (vm_compute; reflexivity).
  replace (cs_trust_cert_ca trust_dict) with (Some (ascii_str "ca.der")) in H by (vm_compute; reflexivity).
  destruct H as (Hn & _ & _ & extra & V & ders & E & _ & F). split; [exact Hn|]. exists extra.
  assert (D : ders = [[0x30; 1]]) by (vm_compute in E; congruence). subst ders. split; [exact F|].
  destruct backend; [destruct V as [V _]|exact V|exact V]. exact V.
Defined.

Lemma ca_errors_named_witness : exists extra,
  In extra [CaFile (ascii_str "missing.pem")] /\
  (names_source extra (IoError InvalidData (ascii_str "Could not read certificate missing.pem: No such file or directory")) \/
   bundle_unparsed extra (IoError InvalidData (ascii_str "Could not read certificate missing.pem: No such file or directory"))).
Proof. apply (ca_errors_named [CaFile (ascii_str "missing.pem")]). vm_compute. reflexivity. Defined.
