(* ===== verification/Browser.v ===== *)
(** * Browser: [sql_browser.rs] and [sql_browser/*.rs]

    Finding the port of a named instance: the reply of the SQL Server Browser
    (an unauthenticated datagram) and the order in which addresses are tried.
    Name resolution and sockets are parameters. *)

From S2P Require Import Prelude Unicode Utf8 Identifiers PreLogin Config.

Definition SSRP_CLIENT_UNICAST : Z := 4.
Definition SSRP_REPLY_BUF_LEN : Z := 4096.
Definition DELIMITER : bytes := ascii_str "tcp;".

(** [slice::windows] *)
Fixpoint windows (k : nat) (s : bytes) : list bytes :=
  match s with
  | [] => []
  | _ :: s' => if (k <=? length s)%nat then take k s :: windows k s' else []
  end.

(** [std::str::from_utf8]: the bytes are the encoding of what they decode to. *)
Definition from_utf8 (b : bytes) : option str :=
  let s := from_utf8_lossy b in if bool_decide (encode_utf8 s = b) then Some s else None.

(** [slice::split] at a byte, the first piece *)
Fixpoint first_piece (d : Z) (s : bytes) : bytes :=
  match s with [] => [] | c :: s => if c =? d then [] else c :: first_piece d s end.

(** [get_port_from_sql_browser_reply]; the slice panics when [n] is beyond the
    buffer. *)
Definition get_port_from_sql_browser_reply (buf : bytes) (n : nat) : Res Z :=
  let err := Conversion "Could not resolve SQL browser instance" in
  let buf := take n buf in
  if (n <? 3)%nat then Err err
  else if (length buf <? n)%nat then Panic
  else
    let rsp := drop 3 buf in
    match position_of (fun w => bool_decide (w = DELIMITER)) (rev (windows (length DELIMITER) rsp)) with
    | None => Err err
    | Some pos =>
        match from_utf8 (first_piece SEMI (drop (length rsp - pos) rsp)) with
        | None => Err err
        | Some val => match parse_unsigned 16 val with Ok port => Ok port | _ => Err err end
        end
    end.

Section Connect.
Context {Ip Tcp : Type} (lookup_host : str -> Res (list (Ip * Z))) (udp_exchange : Ip * Z -> bytes -> Res (bytes * nat))
  (tcp_connect : Ip * Z -> Res Tcp).

(** [connect_addr] *)
Definition connect_addr (c : Config) (a : Ip * Z) : Res Tcp :=
  match cf_instance_name c with
  | Some instance_name =>
      res_bind (udp_exchange a (SSRP_CLIENT_UNICAST :: encode_utf8 instance_name)) (fun '(buf, n) =>
      res_bind (get_port_from_sql_browser_reply buf n) (fun port => tcp_connect (fst a, port)))
  | None => tcp_connect a
  end.

(** The loop of [connect_named] over attempts in the order they end: the order
    of the addresses, or, for multi-subnet failover, of completion. *)
Fixpoint first_connection (attempts : list (Res Tcp)) (first_error : option Error) : Res Tcp :=
  match attempts with
  | [] => Err (default (Io NotFound) first_error)
  | Ok connection :: _ => Ok connection
  | Err e :: attempts => first_connection attempts (match first_error with None => Some e | Some _ => first_error end)
  | Panic :: _ => Panic
  | OutOfFuel :: _ => OutOfFuel
  end.

(** [connect_named]; [order] is the order in which concurrent attempts end. *)
Definition connect_named (order : list (Res Tcp) -> list (Res Tcp)) (c : Config) : Res Tcp :=
  res_bind (lookup_host (get_addr c)) (fun addrs =>
  let attempts := map (connect_addr c) addrs in
  first_connection (if cf_multi_subnet_failover c then order attempts else attempts) None).
End Connect.

(** *** The two runtimes *)

(** What waiting [SSRP_TIMEOUT_MS] for a datagram gives. *)
Definition SSRP_TIMEOUT_MS : Z := 1000.
Inductive Waited := Elapsed | Received (r : Res (bytes * nat)).
Definition browser_timeout : Error := Conversion "SQL browser timeout during resolving instance".
(** [sql_browser/tokio.rs]: [time::timeout], whose [Elapsed] is mapped *)
Definition tokio_recv (w : Waited) : Res (bytes * nat) := match w with Elapsed => Err browser_timeout | Received r => r end.
(** [sql_browser/smol.rs]: the race against a timer that fails with
    [TimedOut]; the kind of the error is mapped, whoever raised it *)
Definition smol_recv (w : Waited) : Res (bytes * nat) :=
  match match w with Elapsed => Err (Io TimedOut) | Received r => r end with
  | Err (Io TimedOut) => Err browser_timeout
  | r => r
  end.

Section Runtimes.
Context {Ip Tcp : Type} (resolve : str -> Res (list (Ip * Z))) (udp : Ip * Z -> bytes -> Waited) (tcp_connect : Ip * Z -> Res Tcp)
  (order : list (Res Tcp) -> list (Res Tcp)).
Definition tokio_connect_named (c : Config) : Res Tcp := connect_named resolve (fun a m => tokio_recv (udp a m)) tcp_connect order c.
Definition smol_connect_named (c : Config) : Res Tcp := connect_named resolve (fun a m => smol_recv (udp a m)) tcp_connect order c.

(** The runtimes agree where a socket does not itself report [TimedOut]. *)
Lemma runtimes_agree c : (forall a m, udp a m <> Received (Err (Io TimedOut))) -> tokio_connect_named c = smol_connect_named c.
Proof.
  intros H. unfold tokio_connect_named, smol_connect_named, connect_named. destruct (resolve (get_addr c)) as [addrs| | |]; try reflexivity. cbn [res_bind].
  assert (E : map (connect_addr (fun a m => tokio_recv (udp a m)) tcp_connect c) addrs =
              map (connect_addr (fun a m => smol_recv (udp a m)) tcp_connect c) addrs); [|rewrite E; reflexivity].
  apply map_ext. intros a. unfold connect_addr. destruct (cf_instance_name c) as [i|]; [|reflexivity]. f_equal.
  specialize (H a (SSRP_CLIENT_UNICAST :: encode_utf8 i)). destruct (udp a (SSRP_CLIENT_UNICAST :: encode_utf8 i)) as [|r]; [reflexivity|].
  destruct r as [v|e| |]; try reflexivity. destruct e as [k| | | | | | | | | |]; try reflexivity. destruct k; try reflexivity. exfalso. apply H. reflexivity.
Qed.
End Runtimes.

(** ** Lemmas *)

Lemma windows_nth k s : forall i w, (0 < k)%nat -> windows k s !! i = Some w -> w = take k (drop i s) /\ (i + k <= length s)%nat.
Proof.
  induction s as [|c s IH]; intros i w Hk H; [discriminate|]. cbn [windows] in H. destruct (Nat.leb_spec k (length (c :: s))) as [L|L]; [|discriminate].
  destruct i as [|i]; cbn in H; [injection H as <-; split; [reflexivity|exact L]|]. destruct (IH i w Hk H) as [-> B]. split; [reflexivity|cbn; lia].
Qed.

Lemma windows_length k s : (0 < k)%nat -> length (windows k s) = (S (length s) - k)%nat.
Proof.
  intros Hk. induction s as [|c s IH]; [cbn; lia|]. cbn [windows]. destruct (Nat.leb_spec k (length (c :: s))); cbn [length] in *; [rewrite IH; lia|lia].
Qed.

Lemma windows_at k s i : (0 < k)%nat -> (i + k <= length s)%nat -> windows k s !! i = Some (take k (drop i s)).
Proof.
  intros Hk Hi. destruct (windows k s !! i) as [w|] eqn:E; [destruct (windows_nth k s i w Hk E) as [-> _]; reflexivity|].
  apply lookup_ge_None in E. rewrite windows_length in E by exact Hk. lia.
Qed.

Lemma rev_lookup {A} (l : list A) i : (i < length l)%nat -> rev l !! i = l !! (length l - S i)%nat.
Proof. intros H. rewrite rev_alt. change (rev_append l []) with (reverse l). apply reverse_lookup, H. Qed.

(** [DELIMITER] occurs at [i]. *)
Definition at_ (i : nat) (r : bytes) : Prop := take 4 (drop i r) = DELIMITER.

Lemma at_bound i r : at_ i r -> (i + 4 <= length r)%nat.
Proof. intros H. apply (f_equal length) in H. rewrite length_take, length_drop in H. change (length DELIMITER) with 4%nat in H. lia. Qed.

Lemma last_window r :
  match position_of (fun w => bool_decide (w = DELIMITER)) (rev (windows 4 r)) with
  | Some pos => (pos + 4 <= length r)%nat /\ at_ (length r - pos - 4) r /\ forall i, (length r - pos - 4 < i)%nat -> ~ at_ i r
  | None => forall i, ~ at_ i r
  end.
Proof.
  pose proof (windows_length 4 r ltac:(lia)) as L. destruct (position_of _ _) as [pos|] eqn:E.
  - apply position_of_Some in E as [(w & Hw & D) M]. apply bool_decide_eq_true in D as ->.
    assert (B : (pos < length (windows 4 r))%nat) by (rewrite <- length_rev; apply lookup_lt_is_Some; eauto).
    rewrite rev_lookup in Hw by exact B. apply windows_nth in Hw as [Hw _]; [|lia]. replace (length (windows 4 r) - S pos)%nat with (length r - pos - 4)%nat in Hw by lia.
    split; [lia|]. split; [unfold at_; symmetry; exact Hw|]. intros i Hi A. pose proof (at_bound i r A).
    assert (X : bool_decide (take 4 (drop i r) = DELIMITER) = false).
    { apply (M (length r - 4 - i)%nat); [lia|]. rewrite rev_lookup by lia. rewrite <- windows_at by lia. f_equal. lia. }
    apply bool_decide_eq_false in X. exact (X A).
  - intros i A. pose proof (at_bound i r A). pose proof (position_of_None _ _ E (take 4 (drop i r))) as N.
    assert (I : In (take 4 (drop i r)) (rev (windows 4 r))).
    { apply in_rev. rewrite rev_involutive. apply list_elem_of_In, list_elem_of_lookup. exists i. apply windows_at; lia. }
    specialize (N I). apply bool_decide_eq_false in N. exact (N A).
Qed.

Lemma first_piece_split d s : exists post, s = first_piece d s ++ post /\ ~ In d (first_piece d s) /\ match post with [] => True | c :: _ => c = d end.
Proof.
  induction s as [|c s (post & E & N & P)]; [exists []; cbn; auto|]. cbn. destruct (Z.eqb_spec c d) as [->|].
  - exists (d :: s). cbn. auto.
  - exists post. cbn. split; [congruence|]. split; [intros [X|X]; auto|exact P].
Qed.

Lemma first_piece_app d v post : ~ In d v -> match post with [] => True | c :: _ => c = d end -> first_piece d (v ++ post) = v.
Proof.
  induction v as [|c v IH]; intros N P; cbn.
  - destruct post as [|c post]; [reflexivity|]. subst c. cbn. rewrite Z.eqb_refl. reflexivity.
  - destruct (Z.eqb_spec c d) as [->|]; [exfalso; apply N; left; reflexivity|]. rewrite IH; [reflexivity|intros X; apply N; right; exact X|exact P].
Qed.

Lemma parse_unsigned_ascii w s n : parse_unsigned w s = Ok n -> ascii s.
Proof.
  assert (D : forall t acc m, parse_digits w t acc = Some m -> ascii t).
  { induction t as [|c t IH]; intros acc m H; [constructor|]. cbn in H. destruct (is_digit c) eqn:Dc; [|discriminate]. destruct (_ <? _); [|discriminate].
    constructor; [|eapply IH, H]. unfold is_digit in Dc. apply andb_prop in Dc as [A B]. apply Z.leb_le in A, B. lia. }
  unfold parse_unsigned. destruct s as [|c s]; [discriminate|]. destruct (Z.eqb_spec c 43) as [->|].
  - destruct s as [|d s]; [discriminate|]. destruct (parse_digits w (d :: s) 0) as [m|] eqn:E; [|discriminate]. intros _. constructor; [lia|]. eapply D, E.
  - destruct (parse_digits w (c :: s) 0) as [m|] eqn:E; [|discriminate]. intros _. eapply D, E.
Qed.

Lemma ascii_utf8 s : ascii s -> encode_utf8 s = s.
Proof.
  induction 1 as [|c s Hc _ IH]; [reflexivity|]. unfold encode_utf8 in *. cbn [map concat]. rewrite IH. unfold char_utf8.
  rewrite (proj2 (Z.ltb_lt c 0x80)) by lia. reflexivity.
Qed.

Lemma from_utf8_parse w v n :
  match from_utf8 v with Some val => match parse_unsigned w val with Ok p => Ok p | _ => Err ParseInt end | None => Err ParseInt end = Ok n <->
  parse_unsigned w v = Ok n.
Proof.
  unfold from_utf8. split.
  - case_bool_decide as E; [|discriminate]. destruct (parse_unsigned w (from_utf8_lossy v)) as [p| | |] eqn:P; try discriminate. intros H. injection H as ->.
    rewrite <- E, (ascii_utf8 _ (parse_unsigned_ascii _ _ _ P)). exact P.
  - intros P. pose proof (parse_unsigned_ascii _ _ _ P) as A. assert (L : from_utf8_lossy v = v).
    { pose proof (from_encode_utf8 v [] (ascii_wf _ A)) as F. rewrite app_nil_r, ascii_utf8, app_nil_r in F by exact A. exact F. }
    rewrite L, bool_decide_true by (apply ascii_utf8, A). rewrite P. reflexivity.
Qed.

(** ** Properties *)

(** C39: a reply of the browser, which anyone can forge, never makes the client
    panic; and the port it resolves to is [port] if and only if the reply is
    longer than its header and what stands between the last [tcp;] of its text
    and the next semicolon (or its end) is a decimal number of 16 bits, equal
    to [port]. *)
Theorem browser_reply_port (buf : bytes) (n : nat) (port : Z) (Hn : (n <= length buf)%nat) :
  ends (get_port_from_sql_browser_reply buf n) /\
  (get_port_from_sql_browser_reply buf n = Ok port <->
   (3 <= n)%nat /\ exists pre v post, drop 3 (take n buf) = pre ++ DELIMITER ++ v ++ post /\
     (forall i, (length pre < i)%nat -> ~ at_ i (drop 3 (take n buf))) /\
     ~ In SEMI v /\ match post with [] => True | c :: _ => c = SEMI end /\ parse_unsigned 16 v = Ok port).
Proof.
  unfold get_port_from_sql_browser_reply. destruct (Nat.ltb_spec n 3) as [L|L]; [split; [exact I|split; [discriminate|lia]]|].
  rewrite (proj2 (Nat.ltb_ge _ _)) by (rewrite length_take; lia). set (r := drop 3 (take n buf)). change (length DELIMITER) with 4%nat.
  pose proof (last_window r) as W. destruct (position_of _ _) as [pos|].
  - destruct W as (B & A & M). set (tail := drop (length r - pos) r).
    assert (E : r = take (length r - pos - 4) r ++ DELIMITER ++ tail).
    { rewrite <- A. subst tail. replace (length r - pos)%nat with (length r - pos - 4 + 4)%nat at 3 by lia. rewrite <- drop_drop, !take_drop. reflexivity. }
    pose proof (from_utf8_parse 16 (first_piece SEMI tail) port) as U. destruct (first_piece_split SEMI tail) as (post & Et & N & P). split.
    { destruct (from_utf8 _); [destruct (parse_unsigned _ _)|]; exact I. }
    assert (Q : match from_utf8 (first_piece SEMI tail) with
      | Some val => match parse_unsigned 16 val with Ok p => Ok p | _ => Err (Conversion "Could not resolve SQL browser instance") end
      | None => Err (Conversion "Could not resolve SQL browser instance") end = Ok port <-> parse_unsigned 16 (first_piece SEMI tail) = Ok port).
    { rewrite <- U. destruct (from_utf8 _) as [val|]; [|split; discriminate]. destruct (parse_unsigned 16 val); split; congruence. }
    rewrite Q. split.
    + intros H. split; [exact L|]. exists (take (length r - pos - 4) r), (first_piece SEMI tail), post. split; [rewrite <- Et; exact E|].
      split; [intros i Hi; apply M; rewrite length_take in Hi; lia|]. auto.
    + intros (_ & pre & v & post' & E' & M' & N' & P' & Hv). assert (Lp : length pre = (length r - pos - 4)%nat).
      { assert (A' : at_ (length pre) r) by (unfold at_; rewrite E', drop_app_length; reflexivity).
        destruct (Nat.lt_trichotomy (length pre) (length r - pos - 4)) as [X|[X|X]]; [exfalso; exact (M' _ X A)|exact X|exfalso; exact (M _ X A')]. }
      assert (T : tail = v ++ post').
      { subst tail. replace (length r - pos)%nat with (length (pre ++ DELIMITER)) by (rewrite length_app; cbn; lia).
        rewrite E' at 1. rewrite app_assoc. apply drop_app_length. }
      rewrite T, first_piece_app by assumption. exact Hv.
  - split; [exact I|]. split; [discriminate|]. intros (_ & pre & v & post & E & _). exfalso. apply (W (length pre)). unfold at_. rewrite E, drop_app_length. reflexivity.
Qed.

(** Attempts are tried in order: the first connection wins, and without one
    the first error is reported. *)
Lemma first_connection_spec {Tcp} (attempts : list (Res Tcp)) : Forall ends attempts ->
  first_connection attempts None =
  match List.find (fun r : Res Tcp => match r with Ok _ => true | _ => false end) attempts with
  | Some r => r
  | None => match attempts with Err e :: _ => Err e | _ => Err (Io NotFound) end
  end.
Proof.
  assert (G : forall rs e, Forall ends rs -> first_connection rs (Some e) =
    match List.find (fun r : Res Tcp => match r with Ok _ => true | _ => false end) rs with Some r => r | None => Err e end).
  { induction rs as [|[a|x| |] rs IH]; intros e F; apply Forall_cons in F as [Fr F] || clear F; cbn in *; try reflexivity; try contradiction. apply IH, F. }
  intros F. destruct attempts as [|[a|x| |] rs]; cbn; try reflexivity; apply Forall_cons in F as [Fr F]; try contradiction. apply G, F.
Qed.

Lemma browser_reply_port_witness :
  let reply := [5; 40; 0] ++ ascii_str "ServerName;tcp;9;InstanceName;SQL1;tcp;49172;;" in
  get_port_from_sql_browser_reply reply (length reply) = Ok 49172.
Proof.
  intros reply. apply (proj2 (browser_reply_port reply (length reply) 49172 (le_n _))). split; [cbn; lia|].
  exists (ascii_str "ServerName;tcp;9;InstanceName;SQL1;"), (ascii_str "49172"), (ascii_str ";;"). split; [reflexivity|]. split.
  - intros i Hi A. pose proof (at_bound _ _ A) as B. change (drop 3 (take (length reply) reply)) with (ascii_str "ServerName;tcp;9;InstanceName;SQL1;tcp;49172;;") in *.
    cbn in Hi, B. assert (X : forallb (fun k => negb (bool_decide (take 4 (drop k (ascii_str "ServerName;tcp;9;InstanceName;SQL1;tcp;49172;;")) = DELIMITER))) (seq 36 7) = true) by (vm_compute; reflexivity).
    rewrite forallb_forall in X. specialize (X i ltac:(apply in_seq; lia)). rewrite bool_decide_true in X by exact A. discriminate.
  - split; [cbn; intuition discriminate|]. split; reflexivity.
Defined.
