(* ===== verification/Requests.v ===== *)
(** * Requests: what the client asks, [tds/codec/batch_request.rs],
    [rpc_request.rs], [transaction_manager.rs], [type_info_tvp.rs], and
    [encode_all_headers_tx] of [encode.rs]

    The readers in this file are a server's side of [MS-TDS] 2.2.6.6, 2.2.6.7
    and 2.2.6.8, written with the decoders the driver has for types and
    values. *)

From S2P Require Import Prelude Unicode Collation SqlRead SqlWrite Types TypeInfoCodec NumericCodec Temporal Money Context ColumnDecode ColumnEncode ColumnRoundtrip ParamRoundtrip Metadata Rows.
From Stdlib Require Import Floats.SpecFloat.

Definition ALL_HEADERS_LEN_TX : Z := 22.
(** [AllHeaderTy::TransactionDescriptor] *)
Definition TransactionDescriptor : Z := 2.

(** [encode_all_headers_tx] *)
Definition encode_all_headers_tx (transaction_desc : bytes) : M bytes unit :=
  put_u32_le ALL_HEADERS_LEN_TX ;;
  put_u32_le (ALL_HEADERS_LEN_TX - 4) ;;
  put_u16_le TransactionDescriptor ;;
  put_slice transaction_desc ;;
  put_u32_le 1.

(** ** [BatchRequest] *)

Record BatchRequest := mkBatchRequest { queries : str; br_transaction_descriptor : bytes }.

(** [impl Encode for BatchRequest] *)
Definition batch_encode (r : BatchRequest) : M bytes unit :=
  encode_all_headers_tx (br_transaction_descriptor r) ;; put_units (encode_utf16 (queries r)).

(** ** [TransactionManagerRequest] *)

Module TransactionManagerRequestType.
Inductive TransactionManagerRequestType := GetDtcAddress | Propagate | Begin | Promote | Commit | Rollback | Save.
Definition tm_as_u16 (t : TransactionManagerRequestType) : Z :=
  match t with GetDtcAddress => 0 | Propagate => 1 | Begin => 5 | Promote => 6 | Commit => 7 | Rollback => 8 | Save => 9 end.
End TransactionManagerRequestType.

Module IsolationLevel.
Inductive IsolationLevel := Unspecified | ReadUncommitted | ReadCommitted | RepeatableRead | Serializable | Snapshot.
Definition isolation_as_u8 (l : IsolationLevel) : Z :=
  match l with Unspecified => 0 | ReadUncommitted => 1 | ReadCommitted => 2 | RepeatableRead => 3 | Serializable => 4 | Snapshot => 5 end.
Definition isolation_try_from (n : Z) : option IsolationLevel :=
  uint_try_from isolation_as_u8 [Unspecified; ReadUncommitted; ReadCommitted; RepeatableRead; Serializable; Snapshot] n.
Lemma isolation_try_from_as_u8 l : isolation_try_from (isolation_as_u8 l) = Some l.
Proof. destruct l; reflexivity. Qed.
End IsolationLevel.
Notation IsolationLevel := IsolationLevel.IsolationLevel.
Import IsolationLevel (isolation_as_u8, isolation_try_from, isolation_try_from_as_u8).

Inductive TransactionRequestBody :=
| BodyBegin (isolation_level : IsolationLevel) (name : str)
| BodyCommit (name : str)
| BodyRollback (name : str)
| BodySave (name : str).

Record TransactionManagerRequest := mkTransactionManagerRequest { tm_transaction_desc : bytes; tm_body : TransactionRequestBody }.

(** [TransactionManagerRequest::request_type] *)
Definition request_type (r : TransactionManagerRequest) : Z :=
  TransactionManagerRequestType.tm_as_u16
    match tm_body r with
    | BodyBegin _ _ => TransactionManagerRequestType.Begin
    | BodyCommit _ => TransactionManagerRequestType.Commit
    | BodyRollback _ => TransactionManagerRequestType.Rollback
    | BodySave _ => TransactionManagerRequestType.Save
    end.

(** [impl Encode for TransactionManagerRequest] *)
Definition transaction_encode (r : TransactionManagerRequest) : M bytes unit :=
  encode_all_headers_tx (tm_transaction_desc r) ;;
  put_u16_le (request_type r) ;;
  match tm_body r with
  | BodyBegin isolation_level name => put_u8 (isolation_as_u8 isolation_level) ;; encode_b_varchar name
  | BodyCommit name | BodyRollback name => encode_b_varchar name ;; put_u8 0
  | BodySave name => encode_b_varchar name
  end.

(** ** [TypeInfoTvp] *)

Definition TVPTYPE : Z := 0xF3.

Record TypeInfoTvp := mkTypeInfoTvp {
  schema_name : str;
  db_type_name : str;
  tvp_columns : option (list MetaDataColumn);
  tvp_data : list (list ColumnData);
}.

(** [fixed_to_var_len] *)
Definition fixed_to_var_len (t : FixedLenType) : option TypeInfo :=
  match t with
  | FixedLenType.Int1 => Some (vls VarLenType.Intn 1 None)
  | FixedLenType.Bit => Some (vls VarLenType.Bitn 1 None)
  | FixedLenType.Int2 => Some (vls VarLenType.Intn 2 None)
  | FixedLenType.Int4 => Some (vls VarLenType.Intn 4 None)
  | FixedLenType.Datetime4 => Some (vls VarLenType.Datetimen 4 None)
  | FixedLenType.Float4 => Some (vls VarLenType.Floatn 4 None)
  | FixedLenType.Money => Some (vls VarLenType.Money 8 None)
  | FixedLenType.Datetime => Some (vls VarLenType.Datetimen 8 None)
  | FixedLenType.Float8 => Some (vls VarLenType.Floatn 8 None)
  | FixedLenType.Money4 => Some (vls VarLenType.Money 4 None)
  | FixedLenType.Int8 => Some (vls VarLenType.Intn 8 None)
  | _ => None
  end.

(** [str::split_once] *)
Fixpoint split_once (sep : Z) (s : str) : option (str * str) :=
  match s with
  | [] => None
  | c :: s => if c =? sep then Some ([], s)
              else match split_once sep s with Some (a, b) => Some (c :: a, b) | None => None end
  end.

(** [TypeInfoTvp::new] *)
Definition tvp_new (type_name : str) (rows : list (list ColumnData)) : TypeInfoTvp :=
  match split_once DOT type_name with
  | Some (s, t) => mkTypeInfoTvp s t None rows
  | None => mkTypeInfoTvp [] type_name None rows
  end.

(** [TypeInfoTvp::with_metadata] *)
Definition nullable_column (c : MetaDataColumn) : MetaDataColumn :=
  match ty (base c) with
  | TypeInfo.FixedLen t =>
      match fixed_to_var_len t with
      | Some ty' => mkMetaDataColumn (mkBaseMetaDataColumn (flags (base c)) ty' (table_name (base c))) (col_name c)
      | None => c
      end
  | _ => c
  end.
Definition with_metadata (metadata : list MetaDataColumn) (t : TypeInfoTvp) : TypeInfoTvp :=
  mkTypeInfoTvp (schema_name t) (db_type_name t) (Some (map nullable_column metadata)) (tvp_data t).

Section Encode.
Context {ER : EncodingRs} (oc : bool) (powi10 : Z -> spec_float).

(** A row, from column [i]: [metadata[i]] panics beyond the last column. *)
Fixpoint tvp_values (cols : option (list MetaDataColumn)) (i : nat) (row : list ColumnData) : M bytes unit :=
  match row with
  | [] => ret tt
  | v :: row =>
      match cols with
      | Some metadata =>
          match metadata !! i with
          | Some c => column_encode oc powi10 v (Some (ty (base c)))
          | None => panic
          end
      | None => column_encode oc powi10 v None
      end ;;
      tvp_values cols (S i) row
  end.

(** [impl Encode for TypeInfoTvp] *)
Definition tvp_encode (t : TypeInfoTvp) : M bytes unit :=
  put_u8 TVPTYPE ;;
  encode_b_varchar [] ;;
  encode_b_varchar (schema_name t) ;;
  encode_b_varchar (db_type_name t) ;;
  match tvp_columns t with
  | Some cols =>
      put_u16_le (wrap 16 (len cols)) ;;
      iter_m (fun c => put_u32_le 0 ;; base_encode (base c) ;; encode_b_varchar []) cols
  | None => put_u16_le 0xFFFF
  end ;;
  put_u8 0 ;;
  iter_m (fun row => put_u8 1 ;; tvp_values (tvp_columns t) 0 row) (tvp_data t) ;;
  put_u8 0.

(** ** [TokenRpcRequest] *)

Inductive RpcValue := Scalar (v : ColumnData) | Table (t : TypeInfoTvp).

Definition ByRefValue : Z := 2 ^ 0.
Definition DefaultValue : Z := 2 ^ 1.

Record RpcParam := mkRpcParam { param_name : str; param_flags : Z; param_value : RpcValue }.

Inductive RpcProcId := CursorOpen | CursorFetch | CursorClose | ExecuteSQL | Prepare | Execute | PrepExec | Unprepare.
Definition proc_as_u16 (p : RpcProcId) : Z :=
  match p with
  | CursorOpen => 2 | CursorFetch => 7 | CursorClose => 9 | ExecuteSQL => 10 | Prepare => 11 | Execute => 12
  | PrepExec => 13 | Unprepare => 15
  end.

Inductive RpcProcIdValue := ProcName (name : str) | ProcId (id : RpcProcId).

Record TokenRpcRequest := mkTokenRpcRequest {
  proc_id : RpcProcIdValue;
  rpc_flags : Z;
  rpc_params : list RpcParam;
  rpc_transaction_desc : bytes;
}.

(** [TokenRpcRequest::new] *)
Definition rpc_new (id : RpcProcIdValue) (params : list RpcParam) (desc : bytes) : TokenRpcRequest :=
  mkTokenRpcRequest id 0 params desc.

(** [impl Encode for RpcParam] *)
Definition rpc_param_encode (p : RpcParam) : M bytes unit :=
  encode_b_varchar (param_name p) ;;
  put_u8 (param_flags p) ;;
  match param_value p with
  | Scalar v => column_encode oc powi10 v None
  | Table t => tvp_encode t
  end.

(** The procedure: an id behind 0xffff, or a counted name. *)
Definition proc_encode (p : RpcProcIdValue) : M bytes unit :=
  match p with
  | ProcId id => put_u32_le (Z.lor 0xffff (Z.shiftl (proc_as_u16 id) 16))
  | ProcName name =>
      let units := encode_utf16 name in
      if 65535 <? len units then fail (Protocol "RPC procedure name is too long")
      else len_pos <- buf_len ;; put_u16_le 0 ;; put_units units ;; patch len_pos (le_bytes 2 (len units))
  end.

(** [impl Encode for TokenRpcRequest] *)
Definition rpc_encode (r : TokenRpcRequest) : M bytes unit :=
  encode_all_headers_tx (rpc_transaction_desc r) ;;
  proc_encode (proc_id r) ;;
  put_u16_le (rpc_flags r) ;;
  iter_m rpc_param_encode (rpc_params r).
End Encode.

(** ** A server's readers *)

Definition bad_request {A} : M bytes A := fail (Protocol "request").

(** The ALL_HEADERS block with its transaction descriptor. *)
Definition read_tx_headers : M bytes bytes :=
  total <- read_u32_le ;; n <- read_u32_le ;; ty <- read_u16_le ;; desc <- read_n 8 ;; count <- read_u32_le ;;
  if (total =? 22) && (n =? 18) && (ty =? 2) && (count =? 1) then ret desc else bad_request.

(** The text of a batch: all that is left. *)
Definition read_batch : M bytes (bytes * str) :=
  desc <- read_tx_headers ;; buf <- (fun buf => (Ok buf, [])) ;;
  text <- lift (ok_or (from_utf16 (le_units buf)) Utf16) ;; ret (desc, text).

Definition read_transaction : M bytes (bytes * TransactionRequestBody) :=
  desc <- read_tx_headers ;;
  ty <- read_u16_le ;;
  body <- (if ty =? 5 then
             l <- read_u8 ;; name <- read_b_varchar ;;
             match isolation_try_from l with Some l => ret (BodyBegin l name) | None => bad_request end
           else if ty =? 7 then name <- read_b_varchar ;; f <- read_u8 ;; (if f =? 0 then ret (BodyCommit name) else bad_request)
           else if ty =? 8 then name <- read_b_varchar ;; f <- read_u8 ;; (if f =? 0 then ret (BodyRollback name) else bad_request)
           else if ty =? 9 then name <- read_b_varchar ;; ret (BodySave name)
           else bad_request) ;;
  ret (desc, body).

(** A table-valued parameter as the server sees it: its type's name, the
    columns and the rows. *)
Record SeenTable := mkSeenTable { seen_schema : str; seen_type : str; seen_columns : list (Z * TypeInfo); seen_rows : list (list ColumnData) }.
Inductive SeenValue := SeenScalar (v : ColumnData) | SeenTableValue (t : SeenTable).

Section Server.
Context {ER : EncodingRs} (ctx : Context).

Definition read_tvp_column : M bytes (Z * TypeInfo) :=
  _ <- read_u32_le ;; f <- read_u16_le ;; t <- typeinfo_decode ;; name <- read_b_varchar ;;
  match name with [] => ret (f, t) | _ => bad_request end.

Fixpoint read_tvp_rows (fuel : nat) (cols : list TypeInfo) : M bytes (list (list ColumnData)) :=
  match fuel with
  | O => out_of_fuel
  | S fuel =>
      token <- read_u8 ;;
      if token =? 0 then ret []
      else if token =? 1 then
        row <- map_m (column_decode ctx) cols ;; rows <- read_tvp_rows fuel cols ;; ret (row :: rows)
      else bad_request
  end.

Definition read_tvp : M bytes SeenTable :=
  tag <- read_u8 ;; db <- read_b_varchar ;; schema <- read_b_varchar ;; name <- read_b_varchar ;;
  n <- read_u16_le ;;
  cols <- repeat_m (Z.to_nat n) read_tvp_column ;;
  stop <- read_u8 ;;
  rows <- (fun buf => read_tvp_rows (S (length buf)) (map snd cols) buf) ;;
  if (tag =? TVPTYPE) && (stop =? 0) then ret (mkSeenTable schema name cols rows) else bad_request.

(** A value: a table behind its type byte, or a described scalar. *)
Definition read_value : M bytes SeenValue := fun buf =>
  if default 0 (head buf) =? TVPTYPE then (t <- read_tvp ;; ret (SeenTableValue t)) buf
  else (t <- typeinfo_decode ;; v <- column_decode ctx t ;; ret (SeenScalar v)) buf.

Definition read_param : M bytes (str * Z * SeenValue) :=
  name <- read_b_varchar ;; f <- read_u8 ;; v <- read_value ;; ret (name, f, v).

Definition read_proc : M bytes (str + Z) :=
  n <- read_u16_le ;;
  if n =? 0xffff then id <- read_u16_le ;; ret (inr id)
  else name <- read_varchar (ret n) ;; ret (inl name).

(** An RPC request of [n] parameters. *)
Definition read_rpc (n : nat) : M bytes (bytes * (str + Z) * Z * list (str * Z * SeenValue)) :=
  desc <- read_tx_headers ;; proc <- read_proc ;; f <- read_u16_le ;; params <- repeat_m n read_param ;;
  ret (desc, proc, f, params).
End Server.

(** ** Lemmas *)

Definition tx_headers (desc : bytes) : bytes := le_bytes 4 22 ++ le_bytes 4 18 ++ le_bytes 2 2 ++ desc ++ le_bytes 4 1.

Lemma appends_tx_headers desc : appends (encode_all_headers_tx desc) (tx_headers desc).
Proof. unfold encode_all_headers_tx, tx_headers. appends_steps. Qed.

Lemma decodes_tx_headers desc : length desc = 8%nat -> decodes read_tx_headers (tx_headers desc) desc.
Proof.
  intros H. unfold read_tx_headers, tx_headers.
  eapply decodes_bind; [apply decodes_u32_le; unfold in_unsigned; lia|].
  eapply decodes_bind; [apply decodes_u32_le; unfold in_unsigned; lia|].
  eapply decodes_bind; [apply decodes_u16_le; unfold in_unsigned; lia|].
  eapply decodes_bind; [apply decodes_read_n, H|].
  eapply decodes_bind_last; [apply decodes_u32_le; unfold in_unsigned; lia|]. apply decodes_ret.
Qed.

(** A name that fits a B_VARCHAR. *)
Definition short_name (s : str) : Prop := wf_str s /\ len (encode_utf16 s) <= 255.

Lemma name_roundtrip s : short_name s -> appends (encode_b_varchar s) (b_varchar s) /\ decodes read_b_varchar (b_varchar s) s.
Proof. intros [H L]. split; [apply appends_b_varchar, L|apply decodes_b_varchar; assumption]. Qed.

Lemma transaction_body r : match tm_body r with BodyBegin _ s | BodyCommit s | BodyRollback s | BodySave s => short_name s end ->
  length (tm_transaction_desc r) = 8%nat ->
  exists out, appends (transaction_encode r) out /\ decodes read_transaction out (tm_transaction_desc r, tm_body r).
Proof.
  intros Hn Hd. unfold transaction_encode, read_transaction. pose proof (appends_tx_headers (tm_transaction_desc r)) as A.
  pose proof (decodes_tx_headers _ Hd) as D. unfold request_type.
  destruct (tm_body r) as [l s|s|s|s]; cbn [TransactionManagerRequestType.tm_as_u16]; destruct (name_roundtrip s Hn) as [As Ds];
    (eexists; split; [eapply appends_bind; [exact A|]; eapply appends_bind; [apply appends_put_u16_le|]|
      eapply decodes_bind; [exact D|]; eapply decodes_bind; [apply decodes_u16_le; unfold in_unsigned; lia|]; cbn [Z.eqb Pos.eqb]]).
  - eapply appends_bind; [apply appends_put_u8|exact As].
  - eapply decodes_bind_ret. eapply decodes_bind; [apply decodes_u8; destruct l; unfold in_unsigned; cbn; lia|].
    eapply decodes_bind_last; [exact Ds|]. rewrite isolation_try_from_as_u8. apply decodes_ret.
  - eapply appends_bind; [exact As|apply appends_put_u8].
  - eapply decodes_bind_ret. eapply decodes_bind; [exact Ds|]. eapply decodes_bind_last; [apply decodes_u8; unfold in_unsigned; lia|].
    apply decodes_ret.
  - eapply appends_bind; [exact As|apply appends_put_u8].
  - eapply decodes_bind_ret. eapply decodes_bind; [exact Ds|]. eapply decodes_bind_last; [apply decodes_u8; unfold in_unsigned; lia|].
    apply decodes_ret.
  - exact As.
  - eapply decodes_bind_ret, decodes_bind_ret, Ds.
Qed.

Lemma proc_roundtrip p : match p with ProcName s => wf_str s /\ len (encode_utf16 s) < 65535 | ProcId _ => True end ->
  exists out, appends (proc_encode p) out /\
    decodes read_proc out (match p with ProcName s => inl s | ProcId id => inr (proc_as_u16 id) end).
Proof.
  destruct p as [s|id].
  - intros [Hs Hl]. exists (us_varchar s). unfold proc_encode. rewrite (proj2 (Z.ltb_ge _ _)) by lia. split.
    + apply (appends_patch (le_bytes 2 0) (le_bytes 2 (len (encode_utf16 s)))); [reflexivity|apply appends_put_units].
    + unfold read_proc, us_varchar. eapply decodes_bind; [apply decodes_u16_le; unfold in_unsigned; lia|].
      rewrite (proj2 (Z.eqb_neq _ _)) by lia. eapply decodes_bind_ret.
      rewrite <- (app_nil_l (units_bytes _)). apply decodes_varchar; [exact Hs|apply decodes_ret].
  - intros _. eexists. split; [apply appends_put_u32_le|]. destruct id; intros rest; reflexivity.
Qed.

Section Roundtrip.
Context {ER : EncodingRs} (oc : bool) (powi10 : Z -> spec_float) (ctx : Context).

(** A column description of a table type. *)
Definition tvp_column (c : MetaDataColumn) : Prop :=
  wire_typeinfo (ty (base c)) /\ has_table_name (ty (base c)) = false /\ in_unsigned 16 (flags (base c)).

(** A table that fits its columns. *)
Definition fits_table (t : TypeInfoTvp) (cols : list MetaDataColumn) : Prop :=
  tvp_columns t = Some cols /\ short_name (schema_name t) /\ short_name (db_type_name t) /\ Forall tvp_column cols /\
  len cols < 0xffff /\ Forall (fun row => Forall2 (fun d c => fits_column d (ty (base c))) row cols) (tvp_data t).

Definition seen_table (t : TypeInfoTvp) (cols : list MetaDataColumn) : SeenTable :=
  mkSeenTable (schema_name t) (db_type_name t) (map (fun c => (flags (base c), ty (base c))) cols) (tvp_data t).

Definition tvp_column_bytes (c : MetaDataColumn) : bytes :=
  le_bytes 4 0 ++ (le_bytes 2 (flags (base c)) ++ typeinfo_bytes (ty (base c)) ++ []) ++ b_varchar [].

Lemma appends_tvp_column c : tvp_column c ->
  appends (put_u32_le 0 ;; base_encode (base c) ;; encode_b_varchar []) (tvp_column_bytes c).
Proof.
  intros (Ht & Hn & Hf). unfold base_encode, tvp_column_bytes. rewrite Hn.
  eapply appends_bind; [apply appends_put_u32_le|]. eapply appends_bind; [|apply appends_b_varchar; vm_compute; discriminate].
  eapply appends_bind; [apply appends_put_u16_le|]. eapply appends_bind; [apply appends_typeinfo, Ht|apply appends_ret].
Qed.

Lemma decodes_tvp_column c : tvp_column c -> decodes read_tvp_column (tvp_column_bytes c) (flags (base c), ty (base c)).
Proof.
  intros (Ht & Hn & Hf). unfold read_tvp_column, tvp_column_bytes. rewrite app_nil_r, <- app_assoc.
  eapply decodes_bind; [apply decodes_u32_le; unfold in_unsigned; lia|].
  eapply decodes_bind; [apply decodes_u16_le, Hf|]. eapply decodes_bind; [apply decodes_typeinfo, Ht|].
  eapply decodes_bind_last; [apply decodes_b_varchar; [constructor|vm_compute; discriminate]|apply decodes_ret].
Qed.

(** The values of one row, at the columns from [i] on. *)
Lemma tvp_values_roundtrip all row : forall i cols, drop i all = cols ->
  Forall2 (fun d c => fits_column d (ty (base c))) row cols ->
  exists out, appends (tvp_values oc powi10 (Some all) i row) out /\
    decodes (map_m (column_decode ctx) (map (fun c => ty (base c)) cols)) out row.
Proof.
  induction row as [|v row IH]; intros i cols Hd H; inversion H as [|? c ? cols' Hv Hr]; subst.
  - exists []. split; [apply appends_ret|apply decodes_ret].
  - assert (Hi : all !! i = Some c) by (rewrite <- (Nat.add_0_r i), <- lookup_drop; rewrite <- H2; reflexivity).
    assert (Hd' : drop (S i) all = cols') by (rewrite <- Nat.add_1_r, <- drop_drop, <- H2; reflexivity).
    destruct (IH (S i) cols' Hd' Hr) as (out & A & D). destruct (fits_roundtrips oc powi10 ctx v _ Hv) as (o & Av & Dv).
    exists (o ++ out). cbn [tvp_values map map_m]. rewrite Hi. split; [eapply appends_bind; eassumption|].
    eapply decodes_bind; [exact Dv|]. eapply decodes_bind_ret_eq; [exact D|reflexivity].
Qed.

Lemma tvp_rows_roundtrip cols rows : Forall (fun row => Forall2 (fun d c => fits_column d (ty (base c))) row cols) rows ->
  exists out, appends (iter_m (fun row => put_u8 1 ;; tvp_values oc powi10 (Some cols) 0 row) rows) out /\
    (length rows <= length out)%nat /\
    forall fuel, (length rows < fuel)%nat ->
    decodes (read_tvp_rows ctx fuel (map (fun c => ty (base c)) cols)) (out ++ le_bytes 1 0) rows.
Proof.
  induction 1 as [|row rows H _ (out & A & L & D)].
  - exists []. repeat split; [apply appends_ret|cbn; lia|]. intros fuel Hf. destruct fuel; [cbn in Hf; lia|]. intros rest. reflexivity.
  - destruct (tvp_values_roundtrip cols row 0 cols eq_refl H) as (o & Ar & Dr). exists ((le_bytes 1 1 ++ o) ++ out). repeat split.
    + cbn [iter_m]. eapply appends_bind; [eapply appends_bind; [apply appends_put_u8|exact Ar]|exact A].
    + rewrite !length_app. change (length (le_bytes 1 1)) with 1%nat. cbn [length]. lia.
    + intros fuel Hf. destruct fuel as [|fuel]; [cbn in Hf; lia|]. cbn [read_tvp_rows]. rewrite <- !app_assoc.
      eapply decodes_bind; [apply decodes_u8; unfold in_unsigned; lia|]. cbn [Z.eqb Pos.eqb].
      eapply decodes_bind; [exact Dr|]. eapply decodes_bind_ret_eq; [apply D; cbn in Hf; lia|reflexivity].
Qed.

(** The rows are read with the bytes left as fuel, and a row takes at least
    one byte. *)
Lemma decodes_rows_sized cols rows out : (length rows <= length out)%nat ->
  (forall fuel, (length rows < fuel)%nat -> decodes (read_tvp_rows ctx fuel cols) (out ++ le_bytes 1 0) rows) ->
  decodes (fun buf => read_tvp_rows ctx (S (length buf)) cols buf) (out ++ le_bytes 1 0) rows.
Proof. intros L D rest. apply D. rewrite !length_app. lia. Qed.

Lemma tvp_columns_roundtrip cols : Forall tvp_column cols -> len cols < 0xffff ->
  let out := concat (map tvp_column_bytes cols) in
  appends (iter_m (fun c => put_u32_le 0 ;; base_encode (base c) ;; encode_b_varchar []) cols) out /\
  decodes (repeat_m (Z.to_nat (wrap 16 (len cols))) read_tvp_column) out (map (fun c => (flags (base c), ty (base c))) cols).
Proof.
  intros H L out. split.
  - apply appends_iter_m. eapply Forall_impl; [exact H|apply appends_tvp_column].
  - unfold wrap. rewrite Z.mod_small, Nat2Z.id by lia. subst out. clear L.
    induction H as [|c cols Hc _ IH]; [apply decodes_ret|]. cbn [length repeat_m map concat].
    eapply decodes_bind; [apply decodes_tvp_column, Hc|]. eapply decodes_bind_ret, IH.
Qed.

Lemma tvp_roundtrip t cols : fits_table t cols ->
  exists out, appends (tvp_encode oc powi10 t) (0xF3 :: out) /\ decodes (read_tvp ctx) (0xF3 :: out) (seen_table t cols).
Proof.
  intros (Hc & Hs & Ht & Hcols & Hl & Hrows). unfold tvp_encode, read_tvp. rewrite Hc.
  destruct (name_roundtrip [] ltac:(split; [constructor|vm_compute; discriminate])) as [A0 D0].
  destruct (name_roundtrip _ Hs) as [A1 D1], (name_roundtrip _ Ht) as [A2 D2].
  destruct (tvp_columns_roundtrip cols Hcols Hl) as [A3 D3].
  destruct (tvp_rows_roundtrip cols (tvp_data t) Hrows) as (orows & A4 & L4 & D4).
  eexists. change (0xF3 :: ?o) with (le_bytes 1 0xF3 ++ o). split.
  - eapply appends_bind; [apply appends_put_u8|]. eapply appends_bind; [exact A0|]. eapply appends_bind; [exact A1|].
    eapply appends_bind; [exact A2|]. eapply appends_bind; [eapply appends_bind; [apply appends_put_u16_le|exact A3]|].
    eapply appends_bind; [apply appends_put_u8|]. eapply appends_bind; [exact A4|apply appends_put_u8].
  - eapply decodes_bind; [apply decodes_u8; unfold in_unsigned; lia|].
    eapply decodes_bind; [exact D0|]. eapply decodes_bind; [exact D1|]. eapply decodes_bind; [exact D2|].
    rewrite <- app_assoc. eapply decodes_bind; [apply decodes_u16_le, (Z.mod_pos_bound _ (2 ^ 16)); lia|].
    eapply decodes_bind; [exact D3|]. eapply decodes_bind; [apply decodes_u8; unfold in_unsigned; lia|].
    rewrite map_map. eapply decodes_bind_last; [apply decodes_rows_sized; [exact L4|exact D4]|]. apply decodes_ret.
Qed.

(** What the server sees of a parameter: a scalar as it was given, except
    that a null without a type of its own is an integer null; a table with its
    columns and rows. *)
Definition fits_rpc_param (p : RpcParam) (v : SeenValue) : Prop :=
  short_name (param_name p) /\ in_unsigned 8 (param_flags p) /\
  match param_value p with
  | Scalar d => sent_param d /\ v = SeenScalar (as_seen d)
  | Table t => exists cols, fits_table t cols /\ v = SeenTableValue (seen_table t cols)
  end.

(** What is written for a scalar does not start with the table type. *)
Lemma scalar_not_table out d : decodes (t <- typeinfo_decode ;; column_decode ctx t) out d ->
  decodes (read_value ctx) out (SeenScalar d).
Proof.
  intros D rest. specialize (D rest). unfold read_value.
  assert (D' : (t <- typeinfo_decode ;; v <- column_decode ctx t ;; ret (SeenScalar v)) (out ++ rest) = (Ok (SeenScalar d), rest)).
  { unfold bind in *. destruct (typeinfo_decode (out ++ rest)) as [[t|e| |] b]; try discriminate.
    rewrite D. reflexivity. }
  destruct (default 0 (head (out ++ rest)) =? TVPTYPE) eqn:E; [|exact D'].
  exfalso. destruct (out ++ rest) as [|b l]; cbn in E; [discriminate|]. apply Z.eqb_eq in E. subst b. discriminate D.
Qed.

Lemma rpc_param_roundtrip p v : fits_rpc_param p v ->
  exists out, appends (rpc_param_encode oc powi10 p) out /\ decodes (read_param ctx) out (param_name p, param_flags p, v).
Proof.
  intros (Hn & Hf & Hv). destruct (name_roundtrip _ Hn) as [An Dn].
  assert (V : exists out, appends (match param_value p with Scalar v => column_encode oc powi10 v None | Table t => tvp_encode oc powi10 t end) out /\
                          decodes (read_value ctx) out v).
  { destruct (param_value p) as [d|t].
    - destruct Hv as [Hd ->]. destruct (sent_param_roundtrip oc powi10 ctx d Hd) as (out & A & D).
      exists out. split; [exact A|apply scalar_not_table, D].
    - destruct Hv as (cols & Ht & ->). destruct (tvp_roundtrip t cols Ht) as (out & A & D).
      exists (0xF3 :: out). split; [exact A|]. intros rest. unfold read_value. cbn [head default app Z.eqb TVPTYPE Pos.eqb].
      exact (bind_ok _ _ _ _ _ (D rest)). }
  destruct V as (out & A & D). eexists. unfold rpc_param_encode, read_param. split.
  - eapply appends_bind; [exact An|]. eapply appends_bind; [apply appends_put_u8|exact A].
  - eapply decodes_bind; [exact Dn|]. eapply decodes_bind; [apply decodes_u8, Hf|]. eapply decodes_bind_ret, D.
Qed.

Lemma rpc_params_roundtrip ps vs : Forall2 fits_rpc_param ps vs ->
  exists out, appends (iter_m (rpc_param_encode oc powi10) ps) out /\
    decodes (repeat_m (length ps) (read_param ctx)) out (zip_with (fun p v => (param_name p, param_flags p, v)) ps vs).
Proof.
  induction 1 as [|p v ps vs H _ (out & A & D)]; [exists []; split; [apply appends_ret|apply decodes_ret]|].
  destruct (rpc_param_roundtrip p v H) as (o & Ap & Dp). exists (o ++ out). cbn [iter_m length repeat_m zip_with].
  split; [eapply appends_bind; eassumption|]. eapply decodes_bind; [exact Dp|]. eapply decodes_bind_ret, D.
Qed.

Lemma rpc_roundtrip (r : TokenRpcRequest) (vs : list SeenValue)
  (Hd : length (rpc_transaction_desc r) = 8%nat) (Hf : in_unsigned 16 (rpc_flags r))
  (Hp : match proc_id r with ProcName s => wf_str s /\ len (encode_utf16 s) < 65535 | ProcId _ => True end)
  (Hv : Forall2 fits_rpc_param (rpc_params r) vs) :
  exists out, appends (rpc_encode oc powi10 r) out /\
    decodes (read_rpc ctx (length (rpc_params r))) out
      (rpc_transaction_desc r, match proc_id r with ProcName s => inl s | ProcId id => inr (proc_as_u16 id) end, rpc_flags r,
       zip_with (fun p v => (param_name p, param_flags p, v)) (rpc_params r) vs).
Proof.
  destruct (proc_roundtrip _ Hp) as (op & Ap & Dp), (rpc_params_roundtrip _ _ Hv) as (ov & Av & Dv).
  eexists. unfold rpc_encode, read_rpc. split.
  - eapply appends_bind; [apply appends_tx_headers|]. eapply appends_bind; [exact Ap|].
    eapply appends_bind; [apply appends_put_u16_le|exact Av].
  - eapply decodes_bind; [apply decodes_tx_headers, Hd|]. eapply decodes_bind; [exact Dp|].
    eapply decodes_bind; [apply decodes_u16_le, Hf|]. eapply decodes_bind_ret, Dv.
Qed.

(** C19: an RPC request as the client writes it (the transaction header, the
    procedure by name or by well-known id, the option flags and the
    parameters, scalar or table-valued) is read by a server's parser as the
    request it was built from, with nothing left over: the same descriptor,
    procedure, names, flags and values, the table's columns and rows included,
    except that a null string, binary, decimal, XML, date or time has no type
    on the wire and is read as a null integer.  The conditions are those of
    the format: a procedure name of fewer than 65535 units and parameter names
    of at most 255; scalars in the range of their type (no empty XML document
    and none with a schema, decimals of at most 38 digits, texts and binaries
    within a PLP chunk); tables whose columns the client has resolved, with
    one value per column that fits it. *)
Theorem rpc_request_roundtrip (r : TokenRpcRequest) (vs : list SeenValue)
  (Hd : length (rpc_transaction_desc r) = 8%nat) (Hf : in_unsigned 16 (rpc_flags r))
  (Hp : match proc_id r with ProcName s => wf_str s /\ len (encode_utf16 s) < 65535 | ProcId _ => True end)
  (Hv : Forall2 fits_rpc_param (rpc_params r) vs) :
  exists out, appends (rpc_encode oc powi10 r) out /\
    decodes (read_rpc ctx (length (rpc_params r))) out
      (rpc_transaction_desc r, match proc_id r with ProcName s => inl s | ProcId id => inr (proc_as_u16 id) end, rpc_flags r,
       zip_with (fun p v => (param_name p, param_flags p, v)) (rpc_params r) vs).
Proof. exact (rpc_roundtrip r vs Hd Hf Hp Hv). Qed.
End Roundtrip.

Definition ids_columns : list MetaDataColumn :=
  [mkMetaDataColumn (mkBaseMetaDataColumn Nullable (TypeInfo.FixedLen FixedLenType.Int4) None) (ascii_str "n")].

Lemma rpc_request_roundtrip_witness :
  let table := with_metadata ids_columns (tvp_new (ascii_str "dbo.Ids") [[ColumnData.I32 (Some 7)]; [ColumnData.I32 None]]) in
  let params := [mkRpcParam (ascii_str "@p1") ByRefValue (Scalar (ColumnData.I16 (Some (-2))));
                 mkRpcParam (ascii_str "@t") 0 (Table table); mkRpcParam (ascii_str "@s") 0 (Scalar (ColumnData.String None))] in
  exists out, appends (rpc_encode (ER := ascii_encoding_rs) true (fun _ => S754_nan) (rpc_new (ProcName (ascii_str "dbo.usp")) params (repeat 9 8))) out /\
    decodes (read_rpc (ER := ascii_encoding_rs) context_new 3) out
      (repeat 9 8, inl (ascii_str "dbo.usp"), 0,
       [(ascii_str "@p1", 1, SeenScalar (ColumnData.I16 (Some (-2))));
        (ascii_str "@t", 0, SeenTableValue (mkSeenTable (ascii_str "dbo") (ascii_str "Ids")
           [(Nullable, vls VarLenType.Intn 4 None)] [[ColumnData.I32 (Some 7)]; [ColumnData.I32 None]]));
        (ascii_str "@s", 0, SeenScalar (ColumnData.I32 None))]).
Proof.
  intros table params.
  apply (rpc_request_roundtrip (ER := ascii_encoding_rs) true (fun _ => S754_nan) context_new (rpc_new (ProcName (ascii_str "dbo.usp")) params (repeat 9 8))
    [SeenScalar (ColumnData.I16 (Some (-2))); SeenTableValue (mkSeenTable (ascii_str "dbo") (ascii_str "Ids")
           [(Nullable, vls VarLenType.Intn 4 None)] [[ColumnData.I32 (Some 7)]; [ColumnData.I32 None]]); SeenScalar (ColumnData.I32 None)]).
  - reflexivity.
  - split; vm_compute; congruence.
  - split; [apply ascii_str_wf|vm_compute; reflexivity].
  - constructor; [|constructor; [|constructor; [|constructor]]]; (split; [split; [apply ascii_str_wf|vm_compute; discriminate]|split; [split; vm_compute; congruence|]]).
    + split; [left; split; vm_compute; congruence|reflexivity].
    + exists (map nullable_column ids_columns). split; [|reflexivity]. unfold fits_table.
      repeat match goal with |- _ /\ _ => split end; try reflexivity.
      * split; [apply (ascii_str_wf "dbo")|vm_compute; discriminate].
      * split; [apply (ascii_str_wf "Ids")|vm_compute; discriminate].
      * constructor; [|constructor]. repeat split; vm_compute; congruence.
      * constructor; [|constructor; [|constructor]]; (constructor; [|constructor]); cbn; repeat split; try lia; vm_compute; congruence.
    + split; [right; reflexivity|reflexivity].
Defined.

Lemma batch_body text desc : length desc = 8%nat -> wf_str text ->
  exists out, appends (batch_encode (mkBatchRequest text desc)) out /\ read_batch out = (Ok (desc, text), []).
Proof.
  intros Hd Ht. exists (tx_headers desc ++ units_bytes (encode_utf16 text)). split.
  - eapply appends_bind; [apply appends_tx_headers|apply appends_put_units].
  - unfold read_batch. rewrite (bind_ok _ _ _ _ _ (decodes_tx_headers desc Hd _)). unfold bind, lift.
    rewrite utf16_strict by exact Ht. reflexivity.
Qed.

(** The requests that are not procedure calls reach the server as given.
    An SQL batch is read back as its descriptor and its text, for every text;
    a transaction-manager request is read back as its descriptor and its body
    (begin with the isolation level, commit, rollback, save) for every name
    of at most 255 units, and a longer name is an error, not a wrapped
    length byte. *)
Theorem batch_transaction_roundtrip (desc : bytes) (text : str) (body : TransactionRequestBody)
  (Hd : length desc = 8%nat) (Ht : wf_str text)
  (Hn : match body with BodyBegin _ s | BodyCommit s | BodyRollback s | BodySave s => wf_str s end) :
  (exists out, appends (batch_encode (mkBatchRequest text desc)) out /\ read_batch out = (Ok (desc, text), [])) /\
  let name := match body with BodyBegin _ s | BodyCommit s | BodyRollback s | BodySave s => s end in
  if len (encode_utf16 name) <=? 255
  then exists out, appends (transaction_encode (mkTransactionManagerRequest desc body)) out /\ decodes read_transaction out (desc, body)
  else forall dst, exists e, fst (transaction_encode (mkTransactionManagerRequest desc body) dst) = Err e.
Proof.
  split; [exact (batch_body text desc Hd Ht)|].
  - intros name. destruct (Z.leb_spec (len (encode_utf16 name)) 255).
    + apply (transaction_body (mkTransactionManagerRequest desc body)); [|exact Hd].
      subst name. destruct body; split; assumption.
    + intros dst. eexists. unfold transaction_encode. rewrite (bind_ok _ _ _ _ _ (appends_tx_headers desc dst)).
      cbn [tm_body tm_transaction_desc]. rewrite (bind_ok _ _ _ _ _ (appends_put_u16_le _ _)). subst name.
      destruct body; unfold encode_b_varchar, bind; cbn [put_u8]; rewrite (proj2 (Z.ltb_lt _ _)) by assumption; reflexivity.
Qed.

Lemma batch_transaction_roundtrip_witness :
  (exists out, appends (batch_encode (mkBatchRequest (ascii_str "SELECT 1") (repeat 0 8))) out /\
     read_batch out = (Ok (repeat 0 8, ascii_str "SELECT 1"), [])) /\
  exists out, appends (transaction_encode (mkTransactionManagerRequest (repeat 0 8) (BodyBegin IsolationLevel.Snapshot (ascii_str "tx")))) out /\
    decodes read_transaction out (repeat 0 8, BodyBegin IsolationLevel.Snapshot (ascii_str "tx")).
Proof.
  apply (batch_transaction_roundtrip (repeat 0 8) (ascii_str "SELECT 1") (BodyBegin IsolationLevel.Snapshot (ascii_str "tx")));
    [reflexivity|apply ascii_str_wf|apply ascii_str_wf].
Defined.

(** The guard on the procedure name lets 65535 units through, and their
    count is the marker of a well-known procedure: the server takes the first
    character for a procedure id. *)
Lemma proc_name_as_marker (s : str) : wf_str s -> len (encode_utf16 s) = 65535 ->
  exists out, appends (proc_encode (ProcName s)) (le_bytes 2 0xffff ++ out) /\
    forall rest, exists id tail, read_proc (le_bytes 2 0xffff ++ out ++ rest) = (Ok (inr id), tail).
Proof.
  intros Hs Hl. exists (units_bytes (encode_utf16 s)). split.
  - unfold proc_encode. rewrite Hl. cbn [Z.ltb Z.compare Pos.compare Pos.compare_cont].
    apply (appends_patch (le_bytes 2 0) (le_bytes 2 0xffff)); [reflexivity|apply appends_put_units].
  - intros rest. unfold read_proc.
    rewrite (bind_ok _ _ _ _ _ (decodes_u16_le 0xffff ltac:(unfold in_unsigned; lia) _)). cbn [Z.eqb Pos.eqb].
    pose proof (encode_utf16_units s Hs) as Hr. destruct (encode_utf16 s) as [|u us]; [discriminate Hl|].
    inversion Hr as [|? ? Hu _]; subst. rewrite units_bytes_concat. cbn [map concat]. rewrite <- app_assoc.
    eexists u, _. rewrite (bind_ok _ _ _ _ _ (decodes_u16_le u Hu _)). reflexivity.
Qed.

(** A row longer than the table type makes the encoder index past the
    columns: a panic rather than an error. *)
Lemma tvp_row_too_long {ER : EncodingRs} oc powi10 (v : ColumnData) (row : list ColumnData) (dst : bytes) :
  fst (tvp_values oc powi10 (Some []) 0 (v :: row) dst) = Panic.
Proof. reflexivity. Qed.
