(* ===== verification/Tokens.v ===== *)
(** * Tokens: the tokens of a response without column data

    One decoder per file of [tds/codec/token/].  A token with a declared
    length is read whole and parsed from the copy ([within]), so that what it
    takes from the stream does not depend on its contents. *)

From S2P Require Import Prelude Unicode Collation SqlRead SqlWrite Types TypeInfoCodec Context.

(** ** [TokenType] *)

Module TokenType.
Inductive TokenType :=
| ReturnStatus | AltMetaData | ColMetaData | Error | Info | Order | ColInfo | TabName | ReturnValue
| LoginAck | Row | NbcRow | AltRow | Sspi | SessionState | FedAuthInfo | EnvChange | Done | DoneProc
| DoneInProc | FeatureExtAck.

Definition token_as_u8 (t : TokenType) : Z :=
  match t with
  | ReturnStatus => 0x79
  | AltMetaData => 0x88
  | ColMetaData => 0x81
  | Error => 0xAA
  | Info => 0xAB
  | Order => 0xA9
  | ColInfo => 0xA5
  | TabName => 0xA4
  | ReturnValue => 0xAC
  | LoginAck => 0xAD
  | Row => 0xD1
  | NbcRow => 0xD2
  | AltRow => 0xD3
  | Sspi => 0xED
  | SessionState => 0xE4
  | FedAuthInfo => 0xEE
  | EnvChange => 0xE3
  | Done => 0xFD
  | DoneProc => 0xFE
  | DoneInProc => 0xFF
  | FeatureExtAck => 0xAE
  end.

Definition token_try_from (n : Z) : option TokenType :=
  uint_try_from token_as_u8
    [ReturnStatus; AltMetaData; ColMetaData; Error; Info; Order; ColInfo; TabName; ReturnValue;
     LoginAck; Row; NbcRow; AltRow; Sspi; SessionState; FedAuthInfo; EnvChange; Done; DoneProc;
     DoneInProc; FeatureExtAck] n.

Lemma token_try_from_as_u8 t : token_try_from (token_as_u8 t) = Some t.
Proof. destruct t; reflexivity. Qed.
End TokenType.
Notation TokenType := TokenType.TokenType.
Notation token_as_u8 := TokenType.token_as_u8.
Notation token_try_from := TokenType.token_try_from.

(** [MAX_TOKEN_BODY] of [token.rs]: 16 MiB. *)
Definition MAX_TOKEN_BODY : Z := 16 * 1024 * 1024.

(** Reads [n] bytes into a buffer and parses them there: a [Cursor], or a
    slice. *)
Definition within {R} `{SqlReadBytes R} {A} (n : Z) (parse : M bytes A) : M R A :=
  data <- read_n (Z.to_nat n) ;; lift (fst (parse data)).

(** A string of [n] code units with the error of its token. *)
Definition read_units {R} `{SqlReadBytes R} (n : Z) (e : Error) : M R str :=
  us <- repeat_m (Z.to_nat n) read_u16_le ;; lift (ok_or (from_utf16 us) e).

(** ** [token_order.rs] *)
Definition order_decode {R} `{SqlReadBytes R} : M R (list Z) :=
  raw_len <- read_u16_le ;;
  if negb (raw_len mod 2 =? 0) then fail (Protocol "ORDER token length is not a multiple of 2")
  else repeat_m (Z.to_nat (raw_len / 2)) read_u16_le.

(** ** [token_col_info.rs] *)

Definition STATUS_EXPRESSION : Z := 0x04.
Definition STATUS_KEY : Z := 0x08.
Definition STATUS_HIDDEN : Z := 0x10.
Definition STATUS_DIFFERENT_NAME : Z := 0x20.

Record ColInfo := mkColInfo { ci_col_num : Z; ci_table_num : Z; ci_status : Z; ci_col_name : option str }.

(** [ColInfo::is_expression], [is_key], [is_hidden], [has_different_name] *)
Definition ci_is_expression (c : ColInfo) : bool := negb (Z.land (ci_status c) STATUS_EXPRESSION =? 0).
Definition ci_is_key (c : ColInfo) : bool := negb (Z.land (ci_status c) STATUS_KEY =? 0).
Definition ci_is_hidden (c : ColInfo) : bool := negb (Z.land (ci_status c) STATUS_HIDDEN =? 0).
Definition has_different_name (status : Z) : bool := negb (Z.land status STATUS_DIFFERENT_NAME =? 0).

(** One entry: [left] bytes of the declared length remain; the result says
    how many it took. *)
Definition col_info_entry {R} `{SqlReadBytes R} (left : Z) : M R (ColInfo * Z) :=
  if left <? 3 then fail (Protocol "COLINFO entry header extends past the token length")
  else
    col_num <- read_u8 ;;
    table_num <- read_u8 ;;
    status <- read_u8 ;;
    if has_different_name status then
      if left - 3 <? 1 then fail (Protocol "COLINFO ColName length byte extends past the token length")
      else
        char_len <- read_u8 ;;
        if left - 4 <? char_len * 2 then fail (Protocol "COLINFO ColName extends past the token length")
        else
          name <- read_units char_len (Protocol "COLINFO ColName is not valid UTF-16") ;;
          ret (mkColInfo col_num table_num status (Some name), 4 + char_len * 2)
    else ret (mkColInfo col_num table_num status None, 3).

(** The loop: every entry takes at least three bytes of the length. *)
Fixpoint col_info_entries {R} `{SqlReadBytes R} (fuel : nat) (left : Z) : M R (list ColInfo) :=
  if left <=? 0 then ret []
  else match fuel with
       | O => out_of_fuel
       | S fuel =>
           cn <- col_info_entry left ;;
           l <- col_info_entries fuel (left - snd cn) ;;
           ret (fst cn :: l)
       end.

(** [TokenColInfo::decode] *)
Definition col_info_decode {R} `{SqlReadBytes R} : M R (list ColInfo) :=
  length <- read_u16_le ;; col_info_entries (Z.to_nat length) length.

(** ** [token_tab_name.rs] *)

(** One part of a name: the bounds are checked against the payload, not
    against what the stream holds. *)
Definition tab_name_part : M bytes str := fun data =>
  if len data <? 2 then (Err (Protocol "TABNAME token truncated while reading part length"), data)
  else
    (char_count <- read_u16_le ;;
     (fun data =>
        if len data <? char_count * 2
        then (Err (Protocol "TABNAME token truncated while reading part name"), data)
        else read_units char_count (Protocol "TABNAME token part is not valid UTF-16") data)) data.

(** [TokenTabName::parse]: tables until the payload is used up. *)
Fixpoint tab_name_tables (fuel : nat) : M bytes (list (list str)) := fun data =>
  match data with
  | [] => (Ok [], [])
  | _ =>
      match fuel with
      | O => (OutOfFuel, data)
      | S fuel =>
          (num_parts <- read_u8 ;;
           parts <- repeat_m (Z.to_nat num_parts) tab_name_part ;;
           l <- tab_name_tables fuel ;;
           ret (parts :: l)) data
      end
  end.

Definition tab_name_parse : M bytes (list (list str)) := fun data => tab_name_tables (length data) data.

(** [TokenTabName::decode] *)
Definition tab_name_decode {R} `{SqlReadBytes R} : M R (list (list str)) :=
  n <- read_u16_le ;; data <- read_bytes n ;; lift (fst (tab_name_parse data)).

(** ** [token_done.rs] *)

Definition DoneMore : Z := 2 ^ 0.
Definition DoneError : Z := 2 ^ 1.
Definition DoneInexact : Z := 2 ^ 2.
Definition DoneCount : Z := 2 ^ 4.
Definition DoneAttention : Z := 2 ^ 5.
Definition DoneRpcInBatch : Z := 2 ^ 7.
Definition DoneSrvError : Z := 2 ^ 8.
Definition DONE_FLAGS : Z :=
  DoneMore + DoneError + DoneInexact + DoneCount + DoneAttention + DoneRpcInBatch + DoneSrvError.

Record TokenDone := mkTokenDone { done_status : Z; cur_cmd : Z; done_rows : Z }.

(** [TokenDone::is_final], [is_attention], [rows] *)
Definition done_is_final (d : TokenDone) : bool := done_status d =? 0.
Definition done_is_attention (d : TokenDone) : bool := contains (done_status d) DoneAttention.
Definition done_row_count (d : TokenDone) : Z := if contains (done_status d) DoneCount then done_rows d else 0.

(** [TokenDone::decode] *)
Definition done_decode {R} `{SqlReadBytes R} (ctx : Context) : M R TokenDone :=
  status <- read_u16_le ;;
  cur_cmd <- read_u16_le ;;
  let width := done_row_count_bytes (version ctx) in
  rows <- (if width =? 8 then read_u64_le else if width =? 4 then read_u32_le
           else fail (Protocol "DONE token: unexpected row-count width")) ;;
  ret (mkTokenDone (truncate_flags DONE_FLAGS status) cur_cmd rows).

(** [impl Encode for TokenDone] *)
Definition done_encode (d : TokenDone) : M bytes unit :=
  put_u8 (token_as_u8 TokenType.Done) ;;
  put_u16_le (done_status d) ;;
  put_u16_le (cur_cmd d) ;;
  put_u64_le (done_rows d).

(** ** [token_error.rs], [token_info.rs] *)

Definition error_info_string : Error := Protocol "ERROR/INFO token string is not valid UTF-16".

(** The fields of an ERROR or INFO body. *)
Definition error_info_fields (four_byte_line : bool) : M bytes TokenError :=
  code <- read_u32_le ;;
  state <- read_u8 ;;
  class <- read_u8 ;;
  n <- read_u16_le ;;
  message <- read_units n error_info_string ;;
  n <- read_u8 ;;
  server <- read_units n error_info_string ;;
  n <- read_u8 ;;
  procedure <- read_units n error_info_string ;;
  line <- (if four_byte_line then read_u32_le else read_u16_le) ;;
  ret (mkTokenError code state class message server procedure line).

(** [decode_error_info_body]; [TokenError::decode] and [TokenInfo::decode]
    only rename its fields. *)
Definition error_info_decode {R} `{SqlReadBytes R} (ctx : Context) : M R TokenError :=
  length <- read_u16_le ;;
  within length (error_info_fields (feature_geb (version ctx) SqlServer2005)).

(** ** [token_login_ack.rs] *)

Record TokenLoginAck := mkTokenLoginAck {
  la_interface : Z;
  la_tds_version : FeatureLevel;
  la_prog_name : str;
  la_version : Z;
}.

Definition login_ack_decode {R} `{SqlReadBytes R} : M R TokenLoginAck :=
  length <- read_u16_le ;;
  if length <? 5 then
    read_n (Z.to_nat length) ;; fail (Protocol "Login ACK: token length shorter than fixed header")
  else
    interface <- read_u8 ;;
    v <- read_u32 ;;
    tds_version <- lift (ok_or (feature_try_from v) (Protocol "Login ACK: Invalid TDS version")) ;;
    within (length - 5)
      (n <- read_u8 ;;
       prog_name <- read_units n (Protocol "Login ACK: ProgName is not valid UTF-16") ;;
       version <- read_u32_le ;;
       ret (mkTokenLoginAck interface tds_version prog_name version)).

(** ** [token_feature_ext_ack.rs] *)

Definition FEA_EXT_FEDAUTH : Z := 0x02.
Definition FEA_EXT_TERMINATOR : Z := 0xFF.

(** [FeatureAck::FedAuth(SecurityToken { nonce })], the only feature. *)
Record FedAuthAck := mkFedAuthAck { nonce : option bytes }.

Fixpoint feature_acks {R} `{SqlReadBytes R} (fuel : nat) : M R (list FedAuthAck) :=
  match fuel with
  | O => out_of_fuel
  | S fuel =>
      feature_id <- read_u8 ;;
      if feature_id =? FEA_EXT_TERMINATOR then ret []
      else if feature_id =? FEA_EXT_FEDAUTH then
        data_len <- read_u32_le ;;
        nonce <- (if data_len =? 32 then n <- read_n 32 ;; ret (Some n)
                  else if data_len =? 0 then ret None
                  else fail (Protocol "invalid Feature_Ext_Ack token: invalid data length")) ;;
        l <- feature_acks fuel ;;
        ret (mkFedAuthAck nonce :: l)
      else fail (Protocol "unsupported feature")
  end.

(** [TokenFeatureExtAck::decode]: a round takes a byte at least. *)
Definition feature_ext_ack_decode {R} `{SqlReadBytes R} : M R (list FedAuthAck) := fun r => feature_acks (S (unread r)) r.

(** ** [token_fed_auth_info.rs] *)

Record TokenFedAuthInfo := mkTokenFedAuthInfo { sts_url : option str; fed_spn : option str }.

(** [body.get(at..at + n)] *)
Definition slice (body : bytes) (at_ n : Z) : option bytes :=
  if (at_ + n <=? len body) then Some (take (Z.to_nat n) (drop (Z.to_nat at_) body)) else None.

Definition fed_u32 (body : bytes) (at_ : Z) : Res Z :=
  match slice body at_ 4 with
  | Some b => Ok (le_val b)
  | None => Err (Protocol "FEDAUTHINFO token truncated while reading a DWORD")
  end.

(** The loop over the options: each is nine bytes long, so the body is
    exhausted after as many rounds as it has bytes. *)
Fixpoint fed_options (fuel : nat) (body : bytes) (i count : Z) (info : TokenFedAuthInfo) : Res TokenFedAuthInfo :=
  if count <=? i then Ok info
  else match fuel with
       | O => OutOfFuel
       | S fuel =>
           let opt := 4 + i * 9 in
           match body !! Z.to_nat opt with
           | None => Err (Protocol "FEDAUTHINFO token truncated while reading an option id")
           | Some id =>
               res_bind (fed_u32 body (opt + 1)) (fun data_len =>
               res_bind (fed_u32 body (opt + 5)) (fun data_offset =>
               match slice body data_offset data_len with
               | None => Err (Protocol "FEDAUTHINFO token data offset out of bounds")
               | Some data =>
                   if negb (Z.land data_len 1 =? 0) then Err (Protocol "FEDAUTHINFO token data is not valid UTF-16")
                   else match from_utf16 (le_units data) with
                        | None => Err (Protocol "FEDAUTHINFO token data is not valid UTF-16")
                        | Some v =>
                            fed_options fuel body (i + 1) count
                              (if id =? 1 then mkTokenFedAuthInfo (Some v) (fed_spn info)
                               else if id =? 2 then mkTokenFedAuthInfo (sts_url info) (Some v)
                               else info)
                        end
               end))
           end
       end.

(** [TokenFedAuthInfo::parse] *)
Definition fed_auth_info_parse (body : bytes) : Res TokenFedAuthInfo :=
  res_bind (fed_u32 body 0) (fun count => fed_options (S (length body)) body 0 count (mkTokenFedAuthInfo None None)).

(** [TokenFedAuthInfo::decode] *)
Definition fed_auth_info_decode {R} `{SqlReadBytes R} : M R TokenFedAuthInfo :=
  n <- read_u32_le ;;
  if MAX_TOKEN_BODY <? n then fail (Protocol "FEDAUTHINFO token length exceeds the maximum")
  else body <- read_n (Z.to_nat n) ;; lift (fed_auth_info_parse body).

(** ** [token_session_state.rs] *)

Record SessionStateValue := mkSessionStateValue { ss_id : Z; ss_value : bytes }.
Record TokenSessionState := mkTokenSessionState { seq_no : Z; ss_status : Z; states : list SessionStateValue }.

(** [TokenSessionState::is_recoverable] *)
Definition is_recoverable (t : TokenSessionState) : bool := negb (Z.land (ss_status t) 1 =? 0).

Fixpoint session_states (fuel : nat) : M bytes (list SessionStateValue) := fun data =>
  match data with
  | [] => (Ok [], [])
  | _ =>
      match fuel with
      | O => (OutOfFuel, data)
      | S fuel =>
          (id <- read_u8 ;;
           short_len <- read_u8 ;;
           state_len <- (if short_len =? 0xFF then read_u32_le else ret short_len) ;;
           value <- (fun data =>
             if len data <? state_len then (Err (Protocol "SESSIONSTATE entry length exceeds the remaining bytes"), data)
             else read_n (Z.to_nat state_len) data) ;;
           l <- session_states fuel ;;
           ret (mkSessionStateValue id value :: l)) data
      end
  end.

(** [TokenSessionState::parse] *)
Definition session_state_parse : M bytes TokenSessionState :=
  seq_no <- read_u32_le ;;
  status <- read_u8 ;;
  l <- (fun data => session_states (length data) data) ;;
  ret (mkTokenSessionState seq_no status l).

(** [TokenSessionState::decode] *)
Definition session_state_decode {R} `{SqlReadBytes R} : M R TokenSessionState :=
  n <- read_u32_le ;;
  if MAX_TOKEN_BODY <? n then fail (Protocol "SESSIONSTATE token length exceeds the maximum")
  else
    data <- read_n (Z.to_nat n) ;;
    if len data <? 5 then fail (Protocol "SESSIONSTATE token too short to contain SeqNo and Status")
    else lift (fst (session_state_parse data)).

(** ** [token_sspi.rs] *)
Definition sspi_decode {R} `{SqlReadBytes R} : M R bytes := n <- read_u16_le ;; read_n (Z.to_nat n).

(** ** [token_env_change.rs] *)

Module EnvChangeTy.
Inductive EnvChangeTy :=
| Database | Language | CharacterSet | PacketSize | UnicodeDataSortingLID | UnicodeDataSortingCFL
| SqlCollation | BeginTransaction | CommitTransaction | RollbackTransaction | EnlistDTCTransaction
| DefectTransaction | Rtls | PromoteTransaction | TransactionManagerAddress | TransactionEnded
| ResetConnection | UserName | Routing.

Definition env_as_u8 (t : EnvChangeTy) : Z :=
  match t with
  | Database => 1
  | Language => 2
  | CharacterSet => 3
  | PacketSize => 4
  | UnicodeDataSortingLID => 5
  | UnicodeDataSortingCFL => 6
  | SqlCollation => 7
  | BeginTransaction => 8
  | CommitTransaction => 9
  | RollbackTransaction => 10
  | EnlistDTCTransaction => 11
  | DefectTransaction => 12
  | Rtls => 13
  | PromoteTransaction => 15
  | TransactionManagerAddress => 16
  | TransactionEnded => 17
  | ResetConnection => 18
  | UserName => 19
  | Routing => 20
  end.

Definition env_try_from (n : Z) : option EnvChangeTy :=
  uint_try_from env_as_u8
    [Database; Language; CharacterSet; PacketSize; UnicodeDataSortingLID; UnicodeDataSortingCFL;
     SqlCollation; BeginTransaction; CommitTransaction; RollbackTransaction; EnlistDTCTransaction;
     DefectTransaction; Rtls; PromoteTransaction; TransactionManagerAddress; TransactionEnded;
     ResetConnection; UserName; Routing] n.
End EnvChangeTy.
Notation EnvChangeTy := EnvChangeTy.EnvChangeTy.

Module TokenEnvChange.
Inductive TokenEnvChange :=
| Database (old new : str)
| PacketSize (old new : Z)
| SqlCollation (old new : option Collation)
| BeginTransaction (desc : bytes)
| CommitTransaction
| RollbackTransaction
| DefectTransaction
| Routing (host : str) (port : Z)
| ChangeMirror (mirror : str)
| Ignored (ty : EnvChangeTy).
End TokenEnvChange.
Notation TokenEnvChange := TokenEnvChange.TokenEnvChange.

(** The file's own [read_b_varchar]: [Error::Utf16]. *)
Definition env_b_varchar : M bytes str := n <- read_u8 ;; read_units n Utf16.

(** A length-prefixed collation: five bytes are one, anything else is none. *)
Definition env_collation : M bytes (option Collation) :=
  n <- read_u8 ;;
  l <- read_n (Z.to_nat n) ;;
  ret (if n =? 5 then Some (mkCollation (le_val (take 4 l)) (nth 4 l 0)) else None).

(** The match of [TokenEnvChange::decode] on the type. *)
Definition env_change_body (t : EnvChangeTy) : M bytes TokenEnvChange :=
  match t with
  | EnvChangeTy.Database =>
      new <- env_b_varchar ;; old <- env_b_varchar ;; ret (TokenEnvChange.Database old new)
  | EnvChangeTy.PacketSize =>
      new <- env_b_varchar ;;
      old <- env_b_varchar ;;
      new <- lift (parse_unsigned 32 new) ;;
      old <- lift (parse_unsigned 32 old) ;;
      ret (TokenEnvChange.PacketSize old new)
  | EnvChangeTy.SqlCollation =>
      new <- env_collation ;; old <- env_collation ;; ret (TokenEnvChange.SqlCollation old new)
  | EnvChangeTy.BeginTransaction | EnvChangeTy.EnlistDTCTransaction =>
      n <- read_u8 ;;
      if negb (n =? 8) then fail (Protocol "ENVCHANGE transaction descriptor length, expected 8")
      else desc <- read_n 8 ;; ret (TokenEnvChange.BeginTransaction desc)
  | EnvChangeTy.CommitTransaction => ret TokenEnvChange.CommitTransaction
  | EnvChangeTy.RollbackTransaction => ret TokenEnvChange.RollbackTransaction
  | EnvChangeTy.DefectTransaction => ret TokenEnvChange.DefectTransaction
  | EnvChangeTy.Routing =>
      read_u16_le ;;
      read_u8 ;;
      port <- read_u16_le ;;
      n <- read_u16_le ;;
      host <- read_units n Utf16 ;;
      ret (TokenEnvChange.Routing host port)
  | EnvChangeTy.Rtls => mirror <- env_b_varchar ;; ret (TokenEnvChange.ChangeMirror mirror)
  | t => ret (TokenEnvChange.Ignored t)
  end.

(** [TokenEnvChange::decode] *)
Definition env_change_decode {R} `{SqlReadBytes R} : M R TokenEnvChange :=
  n <- read_u16_le ;;
  within n
    (ty_byte <- read_u8 ;;
     match EnvChangeTy.env_try_from ty_byte with
     | None => fail (Protocol "invalid envchange type")
     | Some t => env_change_body t
     end).

(** ** Lemmas: safety *)

Lemma safe_within {A} n (c : M bytes A) Q : safe c Q -> safe (within n c) Q.
Proof.
  intros Hc. eapply safe_bind; [apply safe_read_n|intros data [Hd _]].
  apply safe_lift. destruct (Hc data Hd) as (r & rest & -> & Hr & _). exact Hr.
Qed.

Lemma safe_units n e : safe (read_units n e) (fun s => wf_str s).
Proof.
  eapply safe_bind; [apply safe_repeat_m, safe_u16_le|intros us [Hu _]].
  apply safe_lift. destruct (from_utf16 us) eqn:E; cbn; eauto using from_utf16_wf.
Qed.
#[export] Hint Resolve safe_units : tds_safe.

Lemma safe_order : safe order_decode (Forall (in_unsigned 16)).
Proof.
  unfold order_decode. do 2 safe_step; [apply safe_fail|].
  eapply safe_weaken; [apply safe_repeat_m, safe_u16_le|intros l [Hl _]; exact Hl].
Qed.

Lemma safe_col_info_entry left : safe (col_info_entry left) (fun cn => 3 <= snd cn).
Proof.
  unfold col_info_entry. safe_steps; cbn [snd]; unfold in_unsigned in *; lia.
Qed.

Lemma safe_col_info_entries fuel : forall left, left <= Z.of_nat fuel ->
  safe (col_info_entries fuel left) (fun _ => True).
Proof.
  induction fuel as [|fuel IH]; intros left Hf; cbn [col_info_entries].
  - rewrite (proj2 (Z.leb_le _ _)) by lia. apply safe_ret; exact I.
  - destruct (left <=? 0); [apply safe_ret; exact I|].
    eapply safe_bind; [apply safe_col_info_entry|intros cn Hn; cbn beta in Hn].
    eapply safe_bind; [apply IH; lia|intros l _]. apply safe_ret; exact I.
Qed.

Lemma safe_col_info : safe col_info_decode (fun _ => True).
Proof.
  unfold col_info_decode. safe_step. apply safe_col_info_entries. unfold in_unsigned in *. lia.
Qed.

Lemma stop_here {A} (r : Res A) (Q : A -> Prop) (buf : bytes) : res_safe Q r ->
  exists r' buf', (r, buf) = (r', buf') /\ res_safe Q r' /\ suffix buf' buf.
Proof. intros H. exists r, buf. auto. Qed.

(** A loop that runs until its input is used up: safe on inputs of at most
    [n] bytes, where every round takes at least one. *)
Definition safe_upto {A} (n : nat) (c : M bytes A) (Q : A -> Prop) : Prop :=
  forall buf, wf_bytes buf -> (length buf <= n)%nat -> exists r buf',
    c buf = (r, buf') /\ res_safe Q r /\ suffix buf' buf.

Lemma safe_upto_safe {A} n (c : M bytes A) Q : safe c Q -> safe_upto n c Q.
Proof. intros H buf Hb _. apply H, Hb. Qed.

Lemma safe_upto_bind {A B} n (c : M bytes A) (k : A -> M bytes B) Q R :
  safe_upto n c Q -> (forall a, Q a -> safe_upto n (k a) R) -> safe_upto n (bind c k) R.
Proof.
  intros Hc Hk buf Hb Hl. destruct (Hc buf Hb Hl) as (r & b1 & E & Hr & Hs).
  unfold bind; rewrite E. destruct r as [a|e| |]; cbn in Hr; try tauto; [|exists (Err e), b1; auto].
  pose proof (suffix_length _ _ Hs).
  destruct (Hk a Hr b1 (suffix_wf _ _ Hs Hb) ltac:(lia)) as (r2 & b2 & E2 & Hr2 & Hs2).
  exists r2, b2; rewrite E2; repeat split; auto. etrans; eauto.
Qed.

(** The first read of a round uses up a byte of the bound. *)
Lemma safe_upto_read {B} n (k : Z -> M bytes B) R :
  (forall v, in_unsigned 8 v -> safe_upto n (k v) R) -> safe_upto (S n) (bind read_u8 k) R.
Proof.
  intros Hk buf Hb Hl. destruct buf as [|b buf].
  - do 2 eexists. split; [reflexivity|]. split; [exact I|exists []; reflexivity].
  - inversion_clear Hb as [|? ? Hby W]. unfold is_byte in Hby.
    assert (E : read_u8 (b :: buf) = (Ok b, buf)) by (apply (decodes_u8_cons b); unfold in_unsigned; lia).
    rewrite (bind_ok _ _ _ _ _ E). destruct (Hk b ltac:(unfold in_unsigned; lia) buf W ltac:(cbn in Hl; lia))
      as (r & b' & E' & Hr & Hs). exists r, b'. repeat split; auto. etrans; [exact Hs|]. exists [b]. reflexivity.
Qed.

Lemma safe_upto_nil {A} (c : M bytes A) n Q : (forall buf, wf_bytes buf -> (length buf <= n)%nat ->
  buf = [] \/ exists r buf', c buf = (r, buf') /\ res_safe Q r /\ suffix buf' buf) ->
  (exists r, c [] = (r, []) /\ res_safe Q r) -> safe_upto n c Q.
Proof.
  intros H (r & E & Hr) buf Hb Hl. destruct (H buf Hb Hl) as [->|X]; [|exact X].
  exists r, []. repeat split; auto.
Qed.

Lemma safe_tab_name_part : safe tab_name_part (fun s => wf_str s).
Proof.
  intros buf Hb. unfold tab_name_part. destruct (len buf <? 2); [apply stop_here; exact I|].
  refine (safe_bind _ _ _ _ safe_u16_le _ buf Hb). intros n _ b1 Hb1.
  destruct (len b1 <? n * 2); [apply stop_here; exact I|]. apply safe_units, Hb1.
Qed.

Lemma safe_tab_name_tables fuel : safe_upto fuel (tab_name_tables fuel) (fun _ => True).
Proof.
  induction fuel as [|fuel IH]; intros buf Hb Hl; (destruct buf as [|b buf]; [apply stop_here; exact I|]).
  - cbn in Hl; lia.
  - refine (safe_upto_read fuel _ _ _ (b :: buf) Hb Hl). intros n _.
    eapply safe_upto_bind; [apply safe_upto_safe, safe_repeat_m, safe_tab_name_part|intros parts _].
    eapply safe_upto_bind; [exact IH|intros l _]. apply safe_upto_safe, safe_ret. exact I.
Qed.

Lemma safe_tab_name : safe tab_name_decode (fun _ => True).
Proof.
  unfold tab_name_decode. safe_step. eapply safe_bind; [apply safe_read_bytes; unfold in_unsigned in *; lia|intros d [Hd _]].
  apply safe_lift. unfold tab_name_parse.
  destruct (safe_tab_name_tables (length d) d Hd ltac:(lia)) as (r & rest & -> & Hr & _). exact Hr.
Qed.

Lemma safe_done ctx : safe (done_decode ctx) (fun d => in_unsigned 64 (done_rows d)).
Proof.
  unfold done_decode. do 2 safe_step. cbn zeta. eapply safe_bind with (Q := in_unsigned 64).
  - safe_step; [apply safe_u64_le|]. safe_step; [|apply safe_fail].
    eapply safe_weaken; [apply safe_u32_le|]. unfold in_unsigned. lia.
  - intros rows Hr. apply safe_ret. exact Hr.
Qed.

Lemma safe_error_info ctx : safe (error_info_decode ctx) (fun _ => True).
Proof.
  unfold error_info_decode. safe_step. apply safe_within. unfold error_info_fields. do 9 safe_step.
  eapply safe_bind with (Q := fun _ => True); [|intros l _; apply safe_ret; exact I].
  destruct (feature_geb _ _); (eapply safe_weaken; [first [apply safe_u32_le|apply safe_u16_le]|auto]).
Qed.

Lemma safe_login_ack : safe login_ack_decode (fun _ => True).
Proof.
  unfold login_ack_decode. do 2 safe_step.
  - safe_step. apply safe_fail.
  - do 2 safe_step. eapply safe_bind with (Q := fun _ => True).
    + apply safe_lift. destruct (feature_try_from _); exact I.
    + intros v _. apply safe_within. safe_steps. exact I.
Qed.

Lemma safe_feature_acks fuel : safe_upto fuel (feature_acks (S fuel)) (fun _ => True).
Proof.
  induction fuel as [|fuel IH]; (apply safe_upto_nil; [|do 2 eexists; [reflexivity|exact I]]);
    intros buf Hb Hl; (destruct buf as [|b buf]; [auto|right]).
  - cbn in Hl. lia.
  - change (feature_acks (S (S fuel))) with
      (bind read_u8 (fun feature_id => if feature_id =? FEA_EXT_TERMINATOR then ret []
      else if feature_id =? FEA_EXT_FEDAUTH then
        data_len <- read_u32_le ;;
        nonce <- (if data_len =? 32 then n <- read_n 32 ;; ret (Some n)
                  else if data_len =? 0 then ret None
                  else fail (Protocol "invalid Feature_Ext_Ack token: invalid data length")) ;;
        l <- feature_acks (S fuel) ;;
        ret (mkFedAuthAck nonce :: l)
      else fail (Protocol "unsupported feature"))).
    refine (safe_upto_read fuel _ _ _ (b :: buf) Hb Hl). intros n _.
    destruct (n =? FEA_EXT_TERMINATOR); [apply safe_upto_safe, safe_ret; exact I|].
    destruct (n =? FEA_EXT_FEDAUTH); [|apply safe_upto_safe, safe_fail].
    eapply safe_upto_bind; [apply safe_upto_safe, safe_u32_le|intros k _].
    eapply safe_upto_bind with (Q := fun _ => True); [apply safe_upto_safe|intros nn _].
    + safe_step; [safe_step; apply safe_ret; exact I|]. safe_step; [apply safe_ret; exact I|apply safe_fail].
    + eapply safe_upto_bind; [exact IH|intros l _]. apply safe_upto_safe, safe_ret. exact I.
Qed.

Lemma safe_feature_ext_ack : safe feature_ext_ack_decode (fun _ => True).
Proof. intros buf Hb. apply (safe_feature_acks (length buf) buf Hb). lia. Qed.

Lemma fed_u32_range body at_ v : wf_bytes body -> fed_u32 body at_ = Ok v -> 0 <= v.
Proof.
  intros Hb. unfold fed_u32, slice. destruct (_ <=? _); [|discriminate]. intros [= <-].
  apply (le_val_range (take 4 (drop (Z.to_nat at_) body))). apply Forall_take, Forall_drop, Hb.
Qed.

Lemma fed_u32_safe body at_ : res_safe (fun _ => True) (fed_u32 body at_).
Proof. unfold fed_u32. destruct (slice _ _ _); exact I. Qed.

(** The index stays within the body while the loop goes on. *)
Lemma fed_options_safe fuel : forall body i count info, 0 <= i <= len body -> len body < i + Z.of_nat fuel ->
  res_safe (fun _ => True) (fed_options fuel body i count info).
Proof.
  induction fuel as [|fuel IH]; intros body i count info Hi Hf; [lia|]. cbn [fed_options].
  destruct (count <=? i); [exact I|]. destruct (body !! Z.to_nat (4 + i * 9)) eqn:L; [|exact I].
  apply lookup_lt_Some in L.
  pose proof (fed_u32_safe body (4 + i * 9 + 1)) as S1. destruct (fed_u32 body (4 + i * 9 + 1)) as [n| | |]; try exact S1.
  pose proof (fed_u32_safe body (4 + i * 9 + 5)) as S2. destruct (fed_u32 body (4 + i * 9 + 5)) as [o| | |]; try exact S2.
  cbn [res_bind]. destruct (slice body o n); [|exact I]. destruct (negb _); [exact I|].
  destruct (from_utf16 _); [|exact I]. apply IH; lia.
Qed.

Lemma safe_fed_auth_info : safe fed_auth_info_decode (fun _ => True).
Proof.
  unfold fed_auth_info_decode. do 2 safe_step; [apply safe_fail|]. safe_step. apply safe_lift. unfold fed_auth_info_parse.
  pose proof (fed_u32_safe a0 0) as S1. destruct (fed_u32 a0 0); try exact S1. apply fed_options_safe; lia.
Qed.

Lemma safe_session_states fuel : safe_upto fuel (session_states fuel) (fun _ => True).
Proof.
  induction fuel as [|fuel IH]; intros buf Hb Hl; (destruct buf as [|b buf]; [apply stop_here; exact I|]).
  - cbn in Hl; lia.
  - refine (safe_upto_read fuel _ _ _ (b :: buf) Hb Hl). intros id _.
    eapply safe_upto_bind; [apply safe_upto_safe, safe_u8|intros short Hs].
    eapply safe_upto_bind with (Q := fun _ => True).
    { apply safe_upto_safe. destruct (short =? 0xFF); [|apply safe_ret; exact I].
      eapply safe_weaken; [apply safe_u32_le|auto]. }
    intros n _. eapply safe_upto_bind with (Q := fun _ => True).
    { apply safe_upto_safe. intros data Hd. destruct (len data <? n); [apply stop_here; exact I|].
      eapply safe_weaken; [apply safe_read_n|auto|exact Hd]. }
    intros v _. eapply safe_upto_bind; [exact IH|intros l _]. apply safe_upto_safe, safe_ret. exact I.
Qed.

Lemma safe_session_state : safe session_state_decode (fun _ => True).
Proof.
  unfold session_state_decode. do 2 safe_step; [apply safe_fail|]. safe_step. safe_step; [apply safe_fail|].
  apply safe_lift. assert (P : safe session_state_parse (fun _ => True)).
  { unfold session_state_parse. do 2 safe_step. eapply safe_bind; [|intros l _; apply safe_ret; exact I].
    intros buf Hb. apply (safe_session_states (length buf) buf Hb). lia. }
  destruct H0 as [Hw _]. destruct (P _ Hw) as (r & rest & -> & Hr & _). exact Hr.
Qed.

Lemma safe_sspi : safe sspi_decode (fun l => wf_bytes l).
Proof. unfold sspi_decode. safe_step. eapply safe_weaken; [apply safe_read_n|intros l [Hl _]; exact Hl]. Qed.

Lemma safe_env_b_varchar : safe env_b_varchar (fun s => wf_str s).
Proof. unfold env_b_varchar. safe_step. apply safe_units. Qed.

Lemma safe_env_collation : safe env_collation (fun _ => True).
Proof. unfold env_collation. safe_steps. exact I. Qed.

Lemma parse_unsigned_safe w s : 0 <= w -> res_safe (in_unsigned w) (parse_unsigned w s).
Proof.
  intros Hw.
  assert (D : forall t acc, in_unsigned w acc -> res_safe (in_unsigned w) (ok_or (parse_digits w t acc) ParseInt)).
  { induction t as [|c t IH]; intros acc Ha; cbn [parse_digits]; [exact Ha|].
    destruct (is_digit c) eqn:E; [|exact I]. destruct (Z.ltb_spec (acc * 10 + (c - 48)) (2 ^ w)); [|exact I].
    apply IH. unfold is_digit in E. unfold in_unsigned in *. bool_Z. lia. }
  unfold parse_unsigned. destruct (match s with c :: rest => _ | [] => s end); [exact I|].
  apply D. unfold in_unsigned. split; [lia|apply Z.pow_pos_nonneg; lia].
Qed.

(** What an environment change carries. *)
Definition wf_env_change (e : TokenEnvChange) : Prop :=
  match e with
  | TokenEnvChange.PacketSize o n => in_unsigned 32 o /\ in_unsigned 32 n
  | TokenEnvChange.BeginTransaction d => wf_bytes d /\ length d = 8%nat
  | TokenEnvChange.Routing h p => wf_str h /\ in_unsigned 16 p
  | _ => True
  end.

Lemma safe_env_change_body t : safe (env_change_body t) wf_env_change.
Proof.
  pose proof safe_env_b_varchar. pose proof safe_env_collation.
  destruct t; cbn [env_change_body]; try (apply safe_ret; exact I).
  all: repeat (eapply safe_bind; [first [eassumption|apply safe_u16_le|apply safe_u8|apply safe_units]|intros ? ?]);
    try (apply safe_ret; cbn; auto; fail).
  - eapply safe_bind; [apply safe_lift, parse_unsigned_safe; lia|intros v Hv].
    eapply safe_bind; [apply safe_lift, parse_unsigned_safe; lia|intros v' Hv']. apply safe_ret. split; assumption.
  - safe_step; [apply safe_fail|]. safe_step. apply safe_ret. assumption.
  - safe_step; [apply safe_fail|]. safe_step. apply safe_ret. assumption.
Qed.

Lemma safe_env_change : safe env_change_decode wf_env_change.
Proof.
  unfold env_change_decode. safe_step. apply safe_within. safe_step.
  destruct (EnvChangeTy.env_try_from _); [apply safe_env_change_body|apply safe_fail].
Qed.

(** ** Lemmas: what a token takes from the stream *)

(** A successful run of [c] that returns [a] takes exactly [f a] bytes. *)
Definition consumes {A} (c : M bytes A) (f : A -> Z) : Prop :=
  forall buf a buf', wf_bytes buf -> c buf = (Ok a, buf') -> wf_bytes buf' /\ len buf = f a + len buf'.

Lemma consumes_ret {A} (a : A) f : f a = 0 -> consumes (ret a) f.
Proof. intros H buf x buf' W [= <- <-]. split; [exact W|lia]. Qed.

Lemma consumes_fail {A} e (f : A -> Z) : consumes (fail e) f.
Proof. intros buf a buf' _ [=]. Qed.

Lemma consumes_lift {A} (r : Res A) f : (forall a, f a = 0) -> consumes (lift r) f.
Proof. intros H buf a buf' W [= -> <-]. rewrite H. split; [exact W|lia]. Qed.

Lemma consumes_bind {A B} (c : M bytes A) (k : A -> M bytes B) f g :
  consumes c f -> (forall a, consumes (k a) (fun b => g b - f a)) -> consumes (bind c k) g.
Proof.
  intros Hc Hk buf b buf' W H. apply bind_ok_inv in H as (a & b1 & E1 & E2).
  destruct (Hc _ _ _ W E1) as [W1 L1]. destruct (Hk a _ _ _ W1 E2) as [W2 L2]. split; [exact W2|lia].
Qed.

Lemma consumes_uint n : consumes (read_uint_le n) (fun _ => Z.of_nat n).
Proof.
  intros buf a buf' W H. unfold read_uint_le, bind, ret in H. rewrite read_n_bytes in H.
  destruct (Nat.leb_spec n (length buf)); [|discriminate]. injection H as _ <-.
  split; [apply Forall_drop, W|]. rewrite length_drop. lia.
Qed.

(** The value of an unsigned read is in range when the bytes are. *)
Lemma consumes_uint_bind {B} n (k : Z -> M bytes B) g :
  (forall v, in_unsigned (8 * Z.of_nat n) v -> consumes (k v) (fun b => g b - Z.of_nat n)) ->
  consumes (bind (read_uint_le n) k) g.
Proof.
  intros Hk buf b buf' W H. apply bind_ok_inv in H as (a & b1 & E1 & E2).
  destruct (consumes_uint n _ _ _ W E1) as [W1 L1].
  destruct (safe_uint_le n buf W) as (r & bb & E & Hr & _). rewrite E1 in E. injection E as <- <-.
  destruct (Hk a Hr _ _ _ W1 E2) as [W2 L2]. split; [exact W2|lia].
Qed.

Lemma consumes_repeat {A} (c : M bytes A) k n : consumes c (fun _ => k) -> consumes (repeat_m n c) (fun _ => Z.of_nat n * k).
Proof.
  intros Hc. induction n as [|n IH]; cbn [repeat_m]; [apply consumes_ret; reflexivity|].
  eapply consumes_bind; [exact Hc|intros a]. eapply consumes_bind; [exact IH|intros l]. apply consumes_ret. lia.
Qed.

Lemma consumes_units n e : 0 <= n -> consumes (read_units n e) (fun _ => 2 * n).
Proof.
  intros Hn. unfold read_units. eapply consumes_bind; [apply consumes_repeat, (consumes_uint 2)|intros us].
  apply consumes_lift. lia.
Qed.

Lemma consumes_col_info_entry left : consumes (col_info_entry left) (fun cn => snd cn).
Proof.
  unfold col_info_entry. destruct (left <? 3); [apply consumes_fail|].
  do 3 (eapply consumes_bind; [apply (consumes_uint 1)|intros ?]).
  destruct (has_different_name _); [|apply consumes_ret; cbn; lia].
  destruct (left - 3 <? 1); [apply consumes_fail|].
  apply (consumes_uint_bind 1). intros n [Hn _]. destruct (left - 4 <? n * 2); [apply consumes_fail|].
  eapply consumes_bind; [apply consumes_units, Hn|intros s]. apply consumes_ret. cbn. lia.
Qed.

Lemma col_info_entry_bound left buf cn buf' : wf_bytes buf -> col_info_entry left buf = (Ok cn, buf') -> 0 < snd cn <= left.
Proof.
  intros W. unfold col_info_entry. destruct (Z.ltb_spec left 3); [discriminate|]. intros E.
  apply bind_ok_inv in E as (a & b1 & E1 & E). apply bind_ok_inv in E as (a2 & b2 & E2 & E).
  apply bind_ok_inv in E as (a3 & b3 & E3 & E).
  destruct (has_different_name a3); [|injection E as <- _; cbn; lia].
  destruct (Z.ltb_spec (left - 3) 1); [discriminate|]. apply bind_ok_inv in E as (n & b4 & E4 & E).
  destruct (Z.ltb_spec (left - 4) (n * 2)); [discriminate|]. apply bind_ok_inv in E as (s & b5 & _ & [= <- _]). cbn.
  destruct (consumes_uint 1 _ _ _ W E1) as [W1 _]. destruct (consumes_uint 1 _ _ _ W1 E2) as [W2 _].
  destruct (consumes_uint 1 _ _ _ W2 E3) as [W3 _]. destruct (safe_u8 b3 W3) as (r & bb & Er & Hr & _).
  rewrite E4 in Er. injection Er as <- _. cbn in Hr. unfold in_unsigned in Hr. lia.
Qed.

Lemma consumes_col_info_entries fuel : forall left, 0 <= left -> consumes (col_info_entries fuel left) (fun _ => left).
Proof.
  induction fuel as [|fuel IH]; intros left Hl buf l buf' W; cbn [col_info_entries];
    (destruct (Z.leb_spec left 0); [intros [= <- <-]; split; [exact W|lia]|]); [discriminate|].
  intros E. apply bind_ok_inv in E as (cn & b1 & E1 & E2). apply bind_ok_inv in E2 as (t & b2 & E2 & [= <- <-]).
  pose proof (col_info_entry_bound _ _ _ _ W E1). destruct (consumes_col_info_entry _ _ _ _ W E1) as [W1 L1].
  destruct (IH (left - snd cn) ltac:(lia) _ _ _ W1 E2) as [W2 L2]. split; [exact W2|lia].
Qed.

(** [within] takes its bytes whatever the parser makes of them. *)
Lemma within_takes {A} (c : M bytes A) body rest n : n = len body -> within n c (body ++ rest) = (fst (c body), rest).
Proof.
  intros ->. unfold within. rewrite Nat2Z.id. rewrite (bind_ok _ _ _ _ _ (read_n_app body rest)). reflexivity.
Qed.

Lemma read_u16_app {A} (k : Z -> M bytes A) n rest : in_unsigned 16 n ->
  bind read_u16_le k (le_bytes 2 n ++ rest) = k n rest.
Proof. intros H. apply (bind_ok _ _ _ _ _ (decodes_u16_le n H rest)). Qed.

Lemma read_u32_app {A} (k : Z -> M bytes A) n rest : in_unsigned 32 n ->
  bind read_u32_le k (le_bytes 4 n ++ rest) = k n rest.
Proof. intros H. apply (bind_ok _ _ _ _ _ (decodes_u32_le n H rest)). Qed.

(** ** Properties *)

(** [c] on [n] bytes of a token and what follows them stays within the [n]
    bytes, and has taken all of them when it accepts. *)
Definition bounded_by {A} (c : M bytes A) (body rest : bytes) : Prop :=
  exists r left, c (body ++ rest) = (r, left ++ rest) /\ forall a, r = Ok a -> left = [].

Lemma repeat_u16_within n : forall body rest, len body = 2 * Z.of_nat n ->
  exists us, repeat_m n read_u16_le (body ++ rest) = (Ok us, rest).
Proof.
  induction n as [|n IH]; intros body rest L; cbn [repeat_m]; [destruct body; [eexists; reflexivity|cbn in L; lia]|].
  destruct body as [|a [|b body]]; [cbn in L; lia|cbn in L; lia|]. 
  assert (E0 : read_u16_le ((a :: b :: body) ++ rest) = (Ok (le_val [a; b]), body ++ rest)) by reflexivity. rewrite (bind_ok _ _ _ _ _ E0).
  destruct (IH body rest ltac:(cbn [length] in L; lia)) as [us E]. rewrite (bind_ok _ _ _ _ _ E). eexists. reflexivity.
Qed.

Lemma order_within body rest : len body < 2 ^ 16 -> bounded_by order_decode (le_bytes 2 (len body) ++ body) rest.
Proof.
  intros H. unfold bounded_by, order_decode. rewrite <- app_assoc, read_u16_app by (unfold in_unsigned; lia).
  destruct (Z.eqb_spec (len body mod 2) 0) as [E|E]; cbn [negb]; [|exists (Err (Protocol "ORDER token length is not a multiple of 2")), body; split; [reflexivity|discriminate]].
  pose proof (Z.div_mod (len body) 2 ltac:(lia)) as D.
  destruct (repeat_u16_within (Z.to_nat (len body / 2)) body rest) as [us Eu]; [rewrite Z2Nat.id by (apply Z.div_pos; lia); lia|].
  rewrite Eu. exists (Ok us), []. auto.
Qed.

(** One entry, with [body] left of the declared length. *)
Lemma col_info_entry_within body rest : wf_bytes body ->
  exists r left, col_info_entry (len body) (body ++ rest) = (r, left ++ rest) /\
    suffix left body /\ forall c n, r = Ok (c, n) -> len body = n + len left /\ 0 < n.
Proof.
  intros W. unfold col_info_entry. destruct (Z.ltb_spec (len body) 3) as [L|L].
  { eexists _, body. split; [reflexivity|]. split; [reflexivity|discriminate]. }
  destruct body as [|a [|b [|st body]]]; try (cbn in L; lia). rewrite Forall_cons, Forall_cons, Forall_cons in W. destruct W as (_ & _ & _ & W).
  assert (Hd : forall x l, read_u8 (x :: l) = (Ok (x + 256 * 0), l)) by reflexivity.
  change ((a :: b :: st :: body) ++ rest) with (a :: b :: st :: (body ++ rest)).
  rewrite (bind_ok _ _ _ _ _ (Hd a _)), (bind_ok _ _ _ _ _ (Hd b _)), (bind_ok _ _ _ _ _ (Hd st _)), !Z.add_0_r.
  assert (S3 : suffix body (a :: b :: st :: body)) by (exists [a; b; st]; reflexivity).
  destruct (has_different_name st); [|eexists _, body; split; [reflexivity|]; split; [exact S3|intros c n [= _ <-]; cbn [length]; lia]].
  destruct (Z.ltb_spec (len (a :: b :: st :: body) - 3) 1) as [L1|L1].
  { eexists _, body. split; [reflexivity|]. split; [exact S3|discriminate]. }
  destruct body as [|n body]; [cbn in L1; lia|]. apply Forall_cons in W as [Hn W]. unfold is_byte in Hn.
  change ((n :: body) ++ rest) with (n :: (body ++ rest)). rewrite (bind_ok _ _ _ _ _ (Hd n _)), !Z.add_0_r.
  assert (S4 : suffix body (a :: b :: st :: n :: body)) by (exists [a; b; st; n]; reflexivity).
  destruct (Z.ltb_spec (len (a :: b :: st :: n :: body) - 4) (n * 2)) as [L2|L2].
  { eexists _, body. split; [reflexivity|]. split; [exact S4|discriminate]. }
  cbn [length] in L2. set (k := Z.to_nat (n * 2)). assert (Lk : (k <= length body)%nat) by lia.
  destruct (repeat_u16_within (Z.to_nat n) (take k body) (drop k body ++ rest)) as [us E]; [rewrite length_take; lia|].
  rewrite app_assoc, take_drop in E. unfold read_units. rewrite bind_assoc, (bind_ok _ _ _ _ _ E).
  assert (S5 : suffix (drop k body) (a :: b :: st :: n :: body)) by (etransitivity; [exists (take k body); symmetry; apply take_drop|exact S4]).
  rewrite bind_run. cbn [lift]. destruct (ok_or (from_utf16 us) _) as [name|e| |] eqn:Eo.
  - eexists _, (drop k body). split; [reflexivity|]. split; [exact S5|]. intros c m [= _ <-]. rewrite length_drop. cbn [length]. lia.
  - eexists _, (drop k body). split; [reflexivity|]. split; [exact S5|discriminate].
  - eexists _, (drop k body). split; [reflexivity|]. split; [exact S5|discriminate].
  - eexists _, (drop k body). split; [reflexivity|]. split; [exact S5|discriminate].
Qed.

Lemma col_info_entries_within fuel : forall body rest, wf_bytes body -> bounded_by (col_info_entries fuel (len body)) body rest.
Proof.
  induction fuel as [|fuel IH]; intros body rest W; unfold bounded_by; cbn [col_info_entries];
    (destruct (Z.leb_spec (len body) 0) as [L|L]; [destruct body; [exists (Ok []), []; auto|cbn in L; lia]|]).
  - exists OutOfFuel, body. split; [reflexivity|discriminate].
  - destruct (col_info_entry_within body rest W) as (r & left & E & S & F). rewrite bind_run, E.
    destruct r as [[c n]|e| |]; [|eexists _, left; split; [reflexivity|discriminate]..]. destruct (F c n eq_refl) as [Ln Hn]. cbn [fst snd].
    replace (len body - n) with (len left) by lia. destruct (IH left rest (suffix_wf _ _ S W)) as (r2 & left2 & E2 & F2). rewrite bind_run, E2.
    destruct r2 as [l|e| |]; [|eexists _, left2; split; [reflexivity|discriminate]..]. rewrite (F2 l eq_refl). exists (Ok (c :: l)), []. auto.
Qed.

Lemma login_ack_within body rest : wf_bytes body -> len body < 2 ^ 16 -> bounded_by login_ack_decode (le_bytes 2 (len body) ++ body) rest.
Proof.
  intros W H. unfold bounded_by, login_ack_decode. rewrite <- app_assoc, read_u16_app by (unfold in_unsigned; lia).
  destruct (Z.ltb_spec (len body) 5) as [L|L].
  - rewrite Nat2Z.id, (bind_ok _ _ _ _ _ (read_n_app body rest)). eexists _, []. split; [reflexivity|discriminate].
  - destruct body as [|a [|b [|c [|d [|e body]]]]]; try (cbn in L; lia).
    assert (E1 : read_u8 ((a :: b :: c :: d :: e :: body) ++ rest) = (Ok (le_val [a]), b :: c :: d :: e :: body ++ rest)) by reflexivity.
    assert (E4 : read_u32 (b :: c :: d :: e :: body ++ rest) = (Ok (be_val [b; c; d; e]), body ++ rest)) by reflexivity.
    rewrite (bind_ok _ _ _ _ _ E1), (bind_ok _ _ _ _ _ E4).
    rewrite bind_run. cbn [lift]. destruct (ok_or _ _) as [v|x| |] eqn:Ev; [|eexists _, body; split; [reflexivity|discriminate]..].
    rewrite within_takes by (cbn [length]; lia). eexists _, []. auto.
Qed.

(** C40: a token that declares its length does not reach behind it.  ENVCHANGE,
    ERROR and INFO, SSPI, TABNAME, LOGINACK, ORDER and COLINFO with a two-byte
    length, and FEDAUTHINFO and SESSIONSTATE with a four-byte length: whatever
    the contents are, the decoder leaves everything behind the declared length
    in the stream, and when it accepts the token it has taken exactly the
    declared length.  ENVCHANGE, ERROR, INFO, SSPI and TABNAME, and FEDAUTHINFO
    and SESSIONSTATE up to 16 MiB, are taken whole also when they are refused;
    the others may stop inside a token that they refuse. *)
Theorem declared_length_consumed (ctx : Context) (body rest : bytes) (W : wf_bytes body) :
  (len body < 2 ^ 16 ->
   (exists r, env_change_decode (le_bytes 2 (len body) ++ body ++ rest) = (r, rest)) /\
   (exists r, error_info_decode ctx (le_bytes 2 (len body) ++ body ++ rest) = (r, rest)) /\
   sspi_decode (le_bytes 2 (len body) ++ body ++ rest) = (Ok body, rest) /\
   (exists r, tab_name_decode (le_bytes 2 (len body) ++ body ++ rest) = (r, rest)) /\
   bounded_by login_ack_decode (le_bytes 2 (len body) ++ body) rest /\
   bounded_by order_decode (le_bytes 2 (len body) ++ body) rest /\
   bounded_by col_info_decode (le_bytes 2 (len body) ++ body) rest) /\
  (len body < 2 ^ 32 ->
   bounded_by fed_auth_info_decode (le_bytes 4 (len body) ++ body) rest /\
   bounded_by session_state_decode (le_bytes 4 (len body) ++ body) rest) /\
  (len body <= MAX_TOKEN_BODY ->
   (exists r, fed_auth_info_decode (le_bytes 4 (len body) ++ body ++ rest) = (r, rest)) /\
   (exists r, session_state_decode (le_bytes 4 (len body) ++ body ++ rest) = (r, rest))).
Proof.
  assert (Four : len body < 2 ^ 32 -> len body <= MAX_TOKEN_BODY ->
    (exists r, fed_auth_info_decode (le_bytes 4 (len body) ++ body ++ rest) = (r, rest)) /\
    (exists r, session_state_decode (le_bytes 4 (len body) ++ body ++ rest) = (r, rest))).
  { intros U H. assert (B : (MAX_TOKEN_BODY <? len body) = false) by (apply Z.ltb_ge; exact H). split; eexists.
    - unfold fed_auth_info_decode. rewrite read_u32_app, B, Nat2Z.id by (unfold in_unsigned; lia).
      rewrite (bind_ok _ _ _ _ _ (read_n_app body rest)). reflexivity.
    - unfold session_state_decode. rewrite read_u32_app, B, Nat2Z.id by (unfold in_unsigned; lia).
      rewrite (bind_ok _ _ _ _ _ (read_n_app body rest)).
      instantiate (1 := if len body <? 5 then _ else _). destruct (len body <? 5); reflexivity. }
  split; [|split]; intros H.
  - assert (U : in_unsigned 16 (len body)) by (unfold in_unsigned; lia). split; [|split; [|split; [|split; [|split; [|split]]]]].
    + eexists. unfold env_change_decode. rewrite read_u16_app by exact U. apply within_takes. reflexivity.
    + eexists. unfold error_info_decode. rewrite read_u16_app by exact U. apply within_takes. reflexivity.
    + unfold sspi_decode. rewrite read_u16_app, Nat2Z.id by exact U. apply read_n_app.
    + eexists. unfold tab_name_decode. rewrite read_u16_app by exact U.
      rewrite (bind_ok _ _ _ _ _ (decodes_read_bytes body _ eq_refl rest)). reflexivity.
    + apply login_ack_within; assumption.
    + apply order_within, H.
    + unfold bounded_by, col_info_decode. rewrite <- app_assoc, read_u16_app by exact U. apply col_info_entries_within, W.
  - destruct (Z_le_gt_dec (len body) MAX_TOKEN_BODY) as [L|L].
    + destruct (Four H L) as [(r & E) (r2 & E2)]. split; [exists r, []|exists r2, []]; (split; [rewrite <- app_assoc; assumption|auto]).
    + assert (B : (MAX_TOKEN_BODY <? len body) = true) by (apply Z.ltb_lt; lia). unfold bounded_by, fed_auth_info_decode, session_state_decode.
      rewrite <- app_assoc, !read_u32_app, B by (unfold in_unsigned; lia). split; (eexists _, body; split; [reflexivity|discriminate]).
  - apply Four; [unfold MAX_TOKEN_BODY in H; lia|exact H].
Qed.

(** A COLINFO token that is accepted takes exactly its declared length
    from the stream: every entry, with its optional name, stays inside, and
    the entries fill it. *)
Theorem col_info_fills_length (n : Z) (buf rest : bytes) (l : list ColInfo)
  (Hn : in_unsigned 16 n) (Hb : wf_bytes buf)
  (H : col_info_decode (le_bytes 2 n ++ buf) = (Ok l, rest)) :
  exists body, buf = body ++ rest /\ len body = n.
Proof.
  unfold col_info_decode in H. rewrite read_u16_app in H by exact Hn.
  destruct (consumes_col_info_entries _ n ltac:(apply Hn) _ _ _ Hb H) as [_ L].
  destruct (safe_col_info_entries (Z.to_nat n) n ltac:(destruct Hn; lia) buf Hb) as (r & b & E & _ & [body S]).
  rewrite H in E. injection E as _ <-. exists body. split; [exact S|]. rewrite S, length_app in L. lia.
Qed.

(** Two entries, the second with a name. *)
Lemma col_info_fills_length_witness :
  exists body, [1; 1; 0; 2; 1; 0x20; 1; 65; 0; 0xFD] = body ++ [0xFD] /\ len body = 9.
Proof.
  apply (col_info_fills_length 9 [1; 1; 0; 2; 1; 0x20; 1; 65; 0; 0xFD] [0xFD]
    [mkColInfo 1 1 0 None; mkColInfo 2 1 0x20 (Some [65])]).
  - unfold in_unsigned. lia.
  - repeat constructor; lia.
  - reflexivity.
Defined.

Lemma declared_length_consumed_witness :
  (exists r, env_change_decode (le_bytes 2 3 ++ [99; 1; 2] ++ [0xFD]) = (r, [0xFD])) /\
  bounded_by order_decode (le_bytes 2 3 ++ [99; 1; 2]) [0xFD].
Proof.
  destruct (declared_length_consumed context_new [99; 1; 2] [0xFD] ltac:(repeat constructor; lia)) as [T _].
  destruct (T ltac:(vm_compute; reflexivity)) as (E & _ & _ & _ & _ & O & _). split; [exact E|exact O].
Defined.

(** The ERROR/INFO body of [MS-TDS] 2.2.7.10: the line number has two bytes
    before TDS 7.2 and four from it on. *)
Definition error_info_bytes (v : FeatureLevel) (e : TokenError) : bytes :=
  le_bytes 4 (te_code e) ++ le_bytes 1 (te_state e) ++ le_bytes 1 (te_class e) ++
  us_varchar (te_message e) ++ b_varchar (te_server e) ++ b_varchar (te_procedure e) ++
  match v with
  | SqlServerV7 | SqlServer2000 | SqlServer2000Sp1 => le_bytes 2 (te_line e)
  | _ => le_bytes 4 (te_line e)
  end.

Definition wire_error (v : FeatureLevel) (e : TokenError) : Prop :=
  in_unsigned 32 (te_code e) /\ in_unsigned 8 (te_state e) /\ in_unsigned 8 (te_class e) /\
  short_str 65535 (te_message e) /\ short_str 255 (te_server e) /\ short_str 255 (te_procedure e) /\
  match v with
  | SqlServerV7 | SqlServer2000 | SqlServer2000Sp1 => in_unsigned 16 (te_line e)
  | _ => in_unsigned 32 (te_line e)
  end.

Lemma decodes_units_str s e : wf_str s -> decodes (read_units (len (encode_utf16 s)) e) (units_bytes (encode_utf16 s)) s.
Proof.
  intros Hs. unfold read_units. rewrite Nat2Z.id.
  eapply decodes_bind_last; [apply decodes_units, encode_utf16_units, Hs|].
  apply decodes_lift. rewrite from_encode_utf16 by exact Hs. reflexivity.
Qed.

Lemma decodes_error_info_fields v e : wire_error v e ->
  decodes (error_info_fields (feature_geb v SqlServer2005)) (error_info_bytes v e) e.
Proof.
  intros (H1 & H2 & H3 & [W4 L4] & [W5 L5] & [W6 L6] & H7). unfold error_info_fields, error_info_bytes, us_varchar, b_varchar.
  rewrite <- !app_assoc.
  do 3 decodes_step.
  eapply decodes_bind; [apply decodes_u16_le; unfold in_unsigned; lia|].
  eapply decodes_bind; [apply decodes_units_str, W4|].
  eapply decodes_bind; [apply decodes_u8; unfold in_unsigned; lia|].
  eapply decodes_bind; [apply decodes_units_str, W5|].
  eapply decodes_bind; [apply decodes_u8; unfold in_unsigned; lia|].
  eapply decodes_bind; [apply decodes_units_str, W6|].
  eapply decodes_bind_ret_eq with (a := te_line e); [|destruct e; reflexivity].
  destruct v; cbn in H7 |- *; first [apply decodes_u16_le, H7|apply decodes_u32_le, H7].
Qed.

(** An ERROR or INFO token written by the rules of the negotiated version
    (two-byte line number up to TDS 7.1, four-byte from 7.2), with any padding
    the server adds inside the declared length, is decoded to exactly its
    fields, and the padding is skipped. *)
Theorem error_info_decode_spec (ctx : Context) (e : TokenError) (pad rest : bytes)
  (H : wire_error (version ctx) e) (Hl : len (error_info_bytes (version ctx) e ++ pad) < 2 ^ 16) :
  let body := error_info_bytes (version ctx) e ++ pad in
  error_info_decode ctx (le_bytes 2 (len body) ++ body ++ rest) = (Ok e, rest).
Proof.
  intros body. unfold error_info_decode. rewrite read_u16_app by (unfold in_unsigned; fold body in Hl; lia).
  rewrite within_takes by reflexivity. unfold body. rewrite (decodes_error_info_fields _ _ H pad). reflexivity.
Qed.

(** A deadlock report, with three bytes of padding. *)
Definition sample_error : TokenError :=
  mkTokenError 1205 51 13 (ascii_str "deadlock") (ascii_str "srv") [] 7.

Lemma error_info_decode_spec_witness :
  let body := error_info_bytes SqlServerN sample_error ++ [0; 0; 0] in
  error_info_decode context_new (le_bytes 2 (len body) ++ body ++ [0xFD]) = (Ok sample_error, [0xFD]).
Proof.
  apply (error_info_decode_spec context_new sample_error [0; 0; 0] [0xFD]).
  - do 3 (split; [split; vm_compute; congruence|]).
    do 3 (split; [split; [repeat constructor|vm_compute; congruence]|]). split; vm_compute; congruence.
  - vm_compute. reflexivity.
Defined.

(** A DONE token the driver writes reads back under every version with
    the eight-byte row count (TDS 7.2 and later): the same status, command and
    row count; the reserved status bits are dropped on reading, and the row
    count is reported only when the server says it is one. *)
Theorem done_roundtrip (ctx : Context) (d : TokenDone)
  (Hv : feature_geb (version ctx) SqlServer2005 = true)
  (Hs : in_unsigned 16 (done_status d)) (Hc : in_unsigned 16 (cur_cmd d)) (Hr : in_unsigned 64 (done_rows d)) :
  let d' := mkTokenDone (truncate_flags DONE_FLAGS (done_status d)) (cur_cmd d) (done_rows d) in
  exists out, appends (done_encode d) (le_bytes 1 (token_as_u8 TokenType.Done) ++ out) /\
    decodes (done_decode ctx) out d' /\
    (done_row_count d' = if Z.testbit (done_status d) 4 then done_rows d else 0).
Proof.
  intros d'. exists (le_bytes 2 (done_status d) ++ le_bytes 2 (cur_cmd d) ++ le_bytes 8 (done_rows d)). repeat split.
  - unfold done_encode. appends_steps.
  - unfold done_decode, done_row_count_bytes. unfold feature_geb in Hv. rewrite Hv. do 2 decodes_step. cbn zeta. eval_tests.
    eapply decodes_bind_ret_eq; [apply decodes_u64_le, Hr|reflexivity].
  - unfold done_row_count, contains. cbn [done_status done_rows d'].
    assert (E : Z.land (truncate_flags DONE_FLAGS (done_status d)) DoneCount = if Z.testbit (done_status d) 4 then DoneCount else 0).
    { unfold truncate_flags. rewrite <- Z.land_assoc. change (Z.land DONE_FLAGS DoneCount) with (2 ^ 4).
      apply Z.bits_inj'. intros j Hj. rewrite Z.land_spec. destruct (Z.eq_dec j 4) as [->|Hn].
      - destruct (Z.testbit (done_status d) 4); reflexivity.
      - rewrite Z.pow2_bits_false, andb_false_r by lia. destruct (Z.testbit (done_status d) 4); [|rewrite Z.bits_0; reflexivity].
        unfold DoneCount. rewrite Z.pow2_bits_false by lia. reflexivity. }
    rewrite E. destruct (Z.testbit (done_status d) 4); reflexivity.
Qed.

Lemma done_roundtrip_witness :
  exists out, appends (done_encode (mkTokenDone 0x10 0xC1 3)) (le_bytes 1 0xFD ++ out) /\
    decodes (done_decode context_new) out (mkTokenDone 0x10 0xC1 3) /\
    (done_row_count (mkTokenDone 0x10 0xC1 3) = if Z.testbit 0x10 4 then 3 else 0).
Proof.
  apply (done_roundtrip context_new (mkTokenDone 0x10 0xC1 3)); try reflexivity; unfold in_unsigned; cbn; lia.
Defined.
