(* ===== verification/Messages.v ===== *)
(** * Messages: texts for people

    The [Display] of what the server says ([TokenError], [TokenEnvChange],
    [TokenDone], [Collation]), the hint put behind the errors of connection
    strings ([client/config.rs], [config/ado_net.rs], [config/jdbc.rs]), and
    the conversions of foreign errors into [crate::Error] ([error.rs]).  The
    names of the encodings are those of encoding_rs and the [Debug] of a set of
    flags is that of enumflags2: both are parameters. *)

From S2P Require Import Prelude Unicode Collation SqlRead SqlWrite Types Context Tokens Identifiers Config.

(** ** [Display] *)

Section Display.
Context (encoding_name : RsEncoding -> str) (flags_debug : Z -> str).

(** [CollationCodec::name] *)
Definition codec_name (c : CollationCodec) : str :=
  match c with
  | BuiltIn e => encoding_name e
  | Cp437 => ascii_str "CP437"
  | Cp850 => ascii_str "CP850"
  end.
(** [impl Display for Collation] *)
Definition collation_display (c : Collation) : str := match codec c with Ok c => codec_name c | _ => ascii_str "None" end.

(** [impl Display for EnvChangeTy] *)
Definition env_ty_display (t : EnvChangeTy) : str :=
  ascii_str match t with
  | EnvChangeTy.Database => "Database"
  | EnvChangeTy.Language => "Language"
  | EnvChangeTy.CharacterSet => "CharacterSet"
  | EnvChangeTy.PacketSize => "PacketSize"
  | EnvChangeTy.UnicodeDataSortingLID => "UnicodeDataSortingLID"
  | EnvChangeTy.UnicodeDataSortingCFL => "UnicodeDataSortingCFL"
  | EnvChangeTy.SqlCollation => "SqlCollation"
  | EnvChangeTy.BeginTransaction => "BeginTransaction"
  | EnvChangeTy.CommitTransaction => "CommitTransaction"
  | EnvChangeTy.RollbackTransaction => "RollbackTransaction"
  | EnvChangeTy.EnlistDTCTransaction => "EnlistDTCTransaction"
  | EnvChangeTy.DefectTransaction => "DefectTransaction"
  | EnvChangeTy.Rtls => "RTLS"
  | EnvChangeTy.PromoteTransaction => "PromoteTransaction"
  | EnvChangeTy.TransactionManagerAddress => "TransactionManagerAddress"
  | EnvChangeTy.TransactionEnded => "TransactionEnded"
  | EnvChangeTy.ResetConnection => "ResetConnection"
  | EnvChangeTy.UserName => "UserName"
  | EnvChangeTy.Routing => "Routing"
  end.

(** [impl Display for TokenEnvChange] *)
Definition env_change_display (c : TokenEnvChange) : str :=
  match c with
  | TokenEnvChange.Database old new => ascii_str "Database change from '" ++ old ++ ascii_str "' to '" ++ new ++ ascii_str "'"
  | TokenEnvChange.PacketSize old new => ascii_str "Packet size change from '" ++ show_Z old ++ ascii_str "' to '" ++ show_Z new ++ ascii_str "'"
  | TokenEnvChange.SqlCollation (Some old) (Some new) =>
      ascii_str "SQL collation change from " ++ collation_display old ++ ascii_str " to " ++ collation_display new
  | TokenEnvChange.SqlCollation None (Some new) => ascii_str "SQL collation changed to " ++ collation_display new
  | TokenEnvChange.SqlCollation _ None => ascii_str "SQL collation change"
  | TokenEnvChange.BeginTransaction _ => ascii_str "Begin transaction"
  | TokenEnvChange.CommitTransaction => ascii_str "Commit transaction"
  | TokenEnvChange.RollbackTransaction => ascii_str "Rollback transaction"
  | TokenEnvChange.DefectTransaction => ascii_str "Defect transaction"
  | TokenEnvChange.Routing host port => ascii_str "Server requested routing to a new address: " ++ host ++ ascii_str ":" ++ show_Z port
  | TokenEnvChange.ChangeMirror mirror => ascii_str "Fallback mirror server: `" ++ mirror ++ ascii_str "`"
  | TokenEnvChange.Ignored t => ascii_str "Ignored env change: `" ++ env_ty_display t ++ ascii_str "`"
  end.

(** [impl Display for TokenDone] *)
Definition token_done_display (d : TokenDone) : str :=
  let status := ascii_str "Done with status " ++ flags_debug (done_status d) in
  if done_rows d =? 0 then status
  else if done_rows d =? 1 then status ++ ascii_str " (1 row left)"
  else status ++ ascii_str " (" ++ show_Z (done_rows d) ++ ascii_str " rows left)".
End Display.

(** [impl Display for TokenError] *)
Definition token_error_display (e : TokenError) : str :=
  ascii_str "'" ++ te_message e ++ ascii_str "' on server " ++ te_server e ++ ascii_str " executing " ++ te_procedure e ++
  ascii_str " on line " ++ show_Z (te_line e) ++ ascii_str " (code: " ++ show_Z (te_code e) ++ ascii_str ", state: " ++ show_Z (te_state e) ++
  ascii_str ", class: " ++ show_Z (te_class e) ++ ascii_str ")".

(** ** Hints for connection strings *)

(** [hinted_conversion_error]: the text inside [Error::Conversion] *)
Definition EM_DASH : Z := 8212.
Definition hinted_conversion_error (detail quoting docs : str) : str :=
  detail ++ ascii_str ". hint: if a value such as a password contains a special character (for example `;`, `=` or `{`), it must be quoted " ++
  [EM_DASH] ++ ascii_str " " ++ quoting ++
  ascii_str ". Do not URL-encode the value (`%24` is sent literally, not decoded to `$`). Non-ASCII values are not accepted by the connection-string parser; build the `Config` programmatically (see `" ++
  docs ++ ascii_str "`) to pass any value without escaping.".

Definition CONVERSION_PREFIX : str := ascii_str "Conversion error: ".
(** [connection_string_error]; [err] is the text of the foreign error *)
Definition connection_string_error (err quoting docs : str) : str :=
  hinted_conversion_error (default err (strip_prefix CONVERSION_PREFIX err)) quoting docs.

(** The hints of [AdoNetConfig::from_str] and [JdbcConfig::from_str] *)
Definition ado_error (reason : str) : str :=
  hinted_conversion_error reason
    (ascii_str "wrap the value in single quotes (e.g. `password='p@ss;word'`), double quotes, or braces (e.g. `password={p@ss;word}`), and quote leading spaces too")
    (ascii_str "Config::from_ado_string").
Definition jdbc_error (err : str) : str :=
  connection_string_error err
    (ascii_str "wrap the value in braces (e.g. `password={p@ss;word}`); single and double quotes are ordinary characters in JDBC, not escapes")
    (ascii_str "Config::from_jdbc_string").

(** [AdoNetConfig::from_str] with the whole text of its error *)
Definition ado_from_str (s : str) : str + gmap str str :=
  match ado_parse s with
  | Ok dict => inr dict
  | Err (Conversion reason) => inl (ado_error (ascii_str reason))
  | _ => inl []
  end.

(** ** [error.rs]: foreign errors *)

(** The errors other libraries hand in; the text of one is not kept. *)
Inductive ForeignError :=
| UuidError | NativeTlsError | OpenTlsError | RustlsError | IoError (kind : IoErrorKind) | ParseIntError | Utf8Error | FromUtf8Error | FromUtf16Error
| ConnectionStringError.

(** The [From] instances of [Error] *)
Definition from_foreign (e : ForeignError) : Error :=
  match e with
  | UuidError => Conversion "Error converting a Guid value"
  | NativeTlsError | OpenTlsError | RustlsError => Tls ""
  | IoError kind => Io kind
  | ParseIntError => ParseInt
  | Utf8Error | FromUtf8Error => Utf8
  | FromUtf16Error => Utf16
  | ConnectionStringError => Conversion ""
  end.
(** [impl From<Infallible> for Error]: there is nothing to convert. *)
Definition from_infallible (e : Empty_set) : Error := match e with end.

(** ** Lemmas *)

(** The prefix the error adds on display is not there twice. *)
Lemma prefix_once detail quoting docs :
  strip_prefix CONVERSION_PREFIX detail = None ->
  connection_string_error (CONVERSION_PREFIX ++ detail) quoting docs = hinted_conversion_error detail quoting docs /\
  connection_string_error detail quoting docs = hinted_conversion_error detail quoting docs.
Proof. intros H. unfold connection_string_error. rewrite H. split; reflexivity. Qed.

(** The reasons the tokenizer gives. *)
Definition ado_reasons : list string :=
  ["the connection string contains non-ASCII characters"; "key-value pairs must be joined by a `=`"; "a key in the connection string is empty";
   "the connection string has an unclosed single quote"; "the connection string has an unclosed double quote";
   "the connection string has an unclosed brace `{`"; "unexpected characters after a quoted value"; "unexpected characters after a braced value"]%string.
(** An error of the tokenizer is one of them. *)
Definition reasoned {A} (r : Res A) : Prop := match r with Ok _ => True | Err e => exists m, e = Conversion m /\ In m ado_reasons | Panic | OutOfFuel => False end.

Lemma reasoned_err {A} m : In m ado_reasons -> @reasoned A (Err (Conversion m)).
Proof. intros H. exists m. auto. Qed.
Lemma reasoned_bind {A B} (r : Res A) (k : A -> Res B) : reasoned r -> (forall a, r = Ok a -> reasoned (k a)) -> reasoned (res_bind r k).
Proof. destruct r; cbn; auto. Qed.
Lemma reasoned_map {A B} (f : A -> B) r : reasoned r -> reasoned (res_map f r).
Proof. destruct r; cbn; auto. Qed.
Create HintDb tds_reasons.
#[local] Hint Resolve reasoned_map : tds_reasons.
#[local] Hint Extern 1 (reasoned (Err _)) => apply reasoned_err; cbn; tauto : tds_reasons.
#[local] Hint Extern 1 (reasoned (Ok _)) => exact I : tds_reasons.

Lemma ado_key_reasoned s : forall key, reasoned (ado_key s key).
Proof.
  induction s as [s IH] using (induction_ltof1 _ (@length Z)); intros key. destruct s as [|c s]; cbn [ado_key]; [auto with tds_reasons|].
  destruct (c =? SEMI); [auto with tds_reasons|]. destruct (c =? EQUALS); [|apply IH; unfold ltof; cbn; lia].
  destruct s as [|d s]; [exact I|]. destruct (d =? EQUALS); [apply IH; unfold ltof; cbn; lia|exact I].
Qed.
Lemma ado_quoted_reasoned quote s : forall v, reasoned (ado_quoted quote s v).
Proof.
  induction s as [s IH] using (induction_ltof1 _ (@length Z)); intros v. destruct s as [|c s]; cbn [ado_quoted]; [destruct (quote =? SQUOTE); auto with tds_reasons|].
  destruct (c =? quote); [|apply IH; unfold ltof; cbn; lia]. destruct s as [|d s]; [exact I|]. destruct (d =? quote); [apply IH; unfold ltof; cbn; lia|exact I].
Qed.
Lemma ado_braced_reasoned s : forall v, reasoned (ado_braced s v).
Proof. induction s as [|c s IH]; intros v; cbn [ado_braced]; [auto with tds_reasons|]. destruct (c =? RBRACE); [exact I|apply IH]. Qed.
Lemma skip_trailing_reasoned m s : In m ado_reasons -> reasoned (skip_trailing m s).
Proof. intros H. induction s as [|c s IH]; cbn [skip_trailing]; [exact I|]. destruct (c =? SEMI); [exact I|]. destruct (is_ascii_whitespace c); [exact IH|apply reasoned_err, H]. Qed.

Lemma ado_value_reasoned s : reasoned (ado_value s).
Proof.
  unfold ado_value. destruct (trim_start is_ascii_whitespace s) as [|c s']; [exact I|]. destruct ((c =? SQUOTE) || (c =? DQUOTE)).
  - apply reasoned_bind; [apply ado_quoted_reasoned|]. intros [v rest] _. apply reasoned_map, skip_trailing_reasoned. cbn. tauto.
  - destruct (c =? LBRACE); [|destruct (ado_bare _); exact I]. apply reasoned_bind; [apply ado_braced_reasoned|].
    intros [v rest] _. apply reasoned_map, skip_trailing_reasoned. cbn. tauto.
Qed.

Lemma ado_parse_reasoned s : reasoned (ado_parse s).
Proof.
  assert (L : forall fuel s pairs, ado_loop fuel s pairs <> OutOfFuel -> reasoned (ado_loop fuel s pairs)).
  { induction fuel as [|fuel IH]; intros t pairs N; [destruct N; reflexivity|]. cbn [ado_loop] in *.
    destruct (trim_start _ t) as [|c u]; [exact I|]. pose proof (ado_key_reasoned (c :: u) []) as K.
    destruct (ado_key (c :: u) []) as [[key v]|e| |]; try exact K. cbn [res_bind] in *. destruct (bool_decide _); [auto with tds_reasons|].
    pose proof (ado_value_reasoned v) as V. destruct (ado_value v) as [[value w]|e| |]; try exact V. cbn [res_bind] in *. apply IH, N. }
  pose proof (ado_parse_total s) as T. unfold ado_parse in *. destruct (is_ascii s); cbn [negb] in *; [|auto with tds_reasons].
  apply L. intros E. rewrite E in T. exact T.
Qed.

(** ** Properties *)

(** A rejected connection string leaves nothing of itself in the error.
    The text of the error of [Config::from_ado_string]'s tokenizer, hint
    included, is one of eight constants whatever the string was: no character
    of a mistyped password can reach a log through it. *)
Theorem ado_error_constant (s e : str) (H : ado_from_str s = inl e) : In e (map (fun r => ado_error (ascii_str r)) ado_reasons).
Proof.
  unfold ado_from_str in H. pose proof (ado_parse_reasoned s) as R. destruct (ado_parse s) as [d|err| |]; try contradiction; try discriminate.
  destruct R as (m & -> & I). injection H as <-. apply in_map_iff. eauto.
Qed.

(** ** Witnesses *)

(** A password with a quote that is not closed. *)
Lemma ado_error_constant_witness :
  In (ado_error (ascii_str "the connection string has an unclosed single quote")) (map (fun r => ado_error (ascii_str r)) ado_reasons).
Proof. exact (ado_error_constant (ascii_str "user=sa;password='p@ss;word") _ eq_refl). Defined.
