(* ===== verification/Login.v ===== *)
(** * Login: the LOGIN7 message, [tds/codec/login.rs]

    The message is written into a growable buffer through a cursor that jumps
    between the offset table at the front and the data at the end.  The
    buffer's capacity is part of the model: the source asserts that it never
    changes while the password is in it. *)

From S2P Require Import Prelude Unicode Utf8 Collation SqlRead SqlWrite Types TypeInfoCodec Context Tokens.

(** ** [Cursor<Vec<u8>>] *)

Record Cursor := mkCursor { cur_vec : bytes; cur_cap : Z; cur_pos : nat }.

(** [Vec::reserve]: the capacity at least doubles when it has to grow. *)
Definition grow (cap need : Z) : Z := if need <=? cap then cap else Z.max 8 (Z.max (2 * cap) need).

(** [Write::write_all]: pads with zeros up to the position, then overwrites. *)
Definition cursor_write (l : bytes) : M Cursor unit := fun c =>
  match l with
  | [] => (Ok tt, c)
  | _ =>
      let stop := (cur_pos c + length l)%nat in
      let vec := cur_vec c ++ repeat 0 (cur_pos c - length (cur_vec c)) in
      (Ok tt, mkCursor (take (cur_pos c) vec ++ l ++ drop stop vec) (grow (cur_cap c) (Z.of_nat stop)) stop)
  end.

Definition position : M Cursor Z := fun c => (Ok (Z.of_nat (cur_pos c)), c).
Definition set_position (p : Z) : M Cursor unit := fun c => (Ok tt, mkCursor (cur_vec c) (cur_cap c) (Z.to_nat p)).
Definition write_u8 (v : Z) : M Cursor unit := cursor_write (le_bytes 1 v).
Definition write_u16 (v : Z) : M Cursor unit := cursor_write (le_bytes 2 v).
Definition write_u32 (v : Z) : M Cursor unit := cursor_write (le_bytes 4 v).

(** ** The message *)

(** [OptionFlag1], [OptionFlag2], [OptionFlag3] and [LoginTypeFlag], the
    flags the driver sets. *)
Definition UseDbNotify : Z := 2 ^ 5.
Definition InitDbFatal : Z := 2 ^ 6.
Definition InitLangFatal : Z := 2 ^ 0.
Definition OdbcDriver : Z := 2 ^ 1.
Definition IntegratedSecurity : Z := 2 ^ 7.
Definition UnknownCollationHandling : Z := 2 ^ 3.
Definition ExtensionUsed : Z := 2 ^ 4.
Definition ReadOnlyIntent : Z := 2 ^ 5.

Definition FED_AUTH_LIBRARYSECURITYTOKEN : Z := 0x01.

Record FedAuthExt := mkFedAuthExt { fed_auth_echo : bool; fed_auth_token : str; fed_nonce : option bytes }.

Record LoginMessage := mkLoginMessage {
  tds_version : FeatureLevel;
  login_packet_size : Z;
  client_prog_ver : Z;
  client_pid : Z;
  connection_id : Z;
  option_flags_1 : Z;
  option_flags_2 : Z;
  integrated_security : option bytes;
  type_flags : Z;
  option_flags_3 : Z;
  client_timezone : Z;
  client_lcid : Z;
  hostname : str;
  username : str;
  password : str;
  app_name : str;
  server_name : str;
  db_name : str;
  fed_auth_ext : option FedAuthExt;
}.

(** [LoginMessage::new]; [host] is what the operating system calls the
    machine. *)
Definition login_new (host : str) : LoginMessage :=
  mkLoginMessage SqlServerN 4096 0 0 0 (Z.lor UseDbNotify InitDbFatal) (Z.lor InitLangFatal OdbcDriver) None 0
    UnknownCollationHandling 0 0 host [] [] (ascii_str "tiberius") [] [] None.

(** The setters. *)
Definition set_integrated_security (b : option bytes) (m : LoginMessage) : LoginMessage :=
  mkLoginMessage (tds_version m) (login_packet_size m) (client_prog_ver m) (client_pid m) (connection_id m) (option_flags_1 m)
    (match b with
     | Some _ => Z.lor (option_flags_2 m) IntegratedSecurity
     | None => Z.ldiff (option_flags_2 m) IntegratedSecurity
     end) b (type_flags m) (option_flags_3 m) (client_timezone m) (client_lcid m) (hostname m) (username m) (password m)
    (app_name m) (server_name m) (db_name m) (fed_auth_ext m).
Definition set_strings (host user pass app server db : str) (m : LoginMessage) : LoginMessage :=
  mkLoginMessage (tds_version m) (login_packet_size m) (client_prog_ver m) (client_pid m) (connection_id m) (option_flags_1 m)
    (option_flags_2 m) (integrated_security m) (type_flags m) (option_flags_3 m) (client_timezone m) (client_lcid m)
    host user pass app server db (fed_auth_ext m).
Definition set_hostname (s : str) (m : LoginMessage) := set_strings s (username m) (password m) (app_name m) (server_name m) (db_name m) m.
Definition set_user_name (s : str) (m : LoginMessage) := set_strings (hostname m) s (password m) (app_name m) (server_name m) (db_name m) m.
Definition set_password (s : str) (m : LoginMessage) := set_strings (hostname m) (username m) s (app_name m) (server_name m) (db_name m) m.
Definition set_app_name (s : str) (m : LoginMessage) := set_strings (hostname m) (username m) (password m) s (server_name m) (db_name m) m.
Definition set_server_name (s : str) (m : LoginMessage) := set_strings (hostname m) (username m) (password m) (app_name m) s (db_name m) m.
Definition set_db_name (s : str) (m : LoginMessage) := set_strings (hostname m) (username m) (password m) (app_name m) (server_name m) s m.
Definition set_readonly (b : bool) (m : LoginMessage) : LoginMessage :=
  mkLoginMessage (tds_version m) (login_packet_size m) (client_prog_ver m) (client_pid m) (connection_id m) (option_flags_1 m)
    (option_flags_2 m) (integrated_security m)
    (if b then Z.lor (type_flags m) ReadOnlyIntent else Z.ldiff (type_flags m) ReadOnlyIntent)
    (option_flags_3 m) (client_timezone m) (client_lcid m) (hostname m) (username m) (password m)
    (app_name m) (server_name m) (db_name m) (fed_auth_ext m).
Definition set_login_packet_size (n : Z) (m : LoginMessage) : LoginMessage :=
  mkLoginMessage (tds_version m) n (client_prog_ver m) (client_pid m) (connection_id m) (option_flags_1 m)
    (option_flags_2 m) (integrated_security m) (type_flags m) (option_flags_3 m) (client_timezone m) (client_lcid m)
    (hostname m) (username m) (password m) (app_name m) (server_name m) (db_name m) (fed_auth_ext m).
Definition set_aad_token (token : str) (echo : bool) (n : option bytes) (m : LoginMessage) : LoginMessage :=
  mkLoginMessage (tds_version m) (login_packet_size m) (client_prog_ver m) (client_pid m) (connection_id m) (option_flags_1 m)
    (option_flags_2 m) (integrated_security m) (type_flags m) (Z.lor (option_flags_3 m) ExtensionUsed)
    (client_timezone m) (client_lcid m) (hostname m) (username m) (password m) (app_name m) (server_name m) (db_name m)
    (Some (mkFedAuthExt echo token n)).

(** ** Encoding *)

Definition FIXED_OVERHEAD : Z := 94.
Definition utf16_bytes (s : str) : Z := len (encode_utf16 s) * 2.

(** [LoginMessage::encoded_len] *)
Definition encoded_len (m : LoginMessage) : Z :=
  FIXED_OVERHEAD + utf16_bytes (hostname m) + utf16_bytes (username m) + utf16_bytes (password m) + utf16_bytes (app_name m)
  + utf16_bytes (server_name m) + utf16_bytes (db_name m)
  + match integrated_security m with Some b => len b | None => 0 end
  + match fed_auth_ext m with
    | Some ext => 15 + utf16_bytes (fed_auth_token ext) + match fed_nonce ext with Some _ => 32 | None => 0 end
    | None => 0
    end.

(** [((b << 4) & 0xf0 | (b >> 4) & 0x0f) ^ 0xA5] on a u8 *)
Definition obfuscate (b : Z) : Z :=
  Z.lxor (Z.lor (Z.land (wrap 8 (Z.shiftl b 4)) 0xf0) (Z.land (Z.shiftr b 4) 0x0f)) 0xA5.

(** The loop over the bytes of the password. *)
Definition obfuscate_range (from to : Z) : M Cursor unit := fun c =>
  let vec := cur_vec c in
  (Ok tt, mkCursor (take (Z.to_nat from) vec
                    ++ map obfuscate (drop (Z.to_nat from) (take (Z.to_nat to) vec))
                    ++ drop (Z.to_nat to) vec) (cur_cap c) (cur_pos c)).

(** The loop over [var_data]: the offset of the next datum and the position of
    [ibExtension] go along. *)
Fixpoint login_vars (sspi : option bytes) (i : nat) (values : list str) (data_offset fea_ext_offset : Z) : M Cursor (Z * Z) :=
  match values with
  | [] => ret (data_offset, fea_ext_offset)
  | value :: values =>
      pos <- position ;;
      let fea_ext_offset := if (i =? 5)%nat then pos else fea_ext_offset in
      if (i =? 9)%nat then
        write_u32 0 ;; write_u16 42 ;; login_vars sspi (S i) values data_offset fea_ext_offset
      else
        write_u16 (wrap 16 data_offset) ;;
        if (i =? 10)%nat then
          r <-
            match sspi with
            | Some b =>
                bak <- position ;;
                set_position data_offset ;; cursor_write b ;;
                set_position bak ;; ret (data_offset + len b, len b)
            | None => ret (data_offset, 0)
            end ;;
          let '(data_offset, length) := r in
          write_u16 (wrap 16 length) ;; login_vars sspi (S i) values data_offset fea_ext_offset
        else
          bak <- position ;;
          set_position data_offset ;;
          iter_m write_u16 (encode_utf16 value) ;;
          new_position <- position ;;
          (if (i =? 2)%nat then obfuscate_range data_offset new_position else ret tt) ;;
          let length := new_position - data_offset in
          set_position bak ;;
          write_u16 (wrap 16 length / 2) ;;
          login_vars sspi (S i) values (data_offset + length) fea_ext_offset
  end.

(** The [FeatureExt] block. *)
Definition login_feature_ext (ext : FedAuthExt) (data_offset fea_ext_offset : Z) : M Cursor unit :=
  set_position fea_ext_offset ;;
  write_u16 (wrap 16 data_offset) ;; write_u16 4 ;;
  set_position data_offset ;;
  write_u32 (wrap 32 (data_offset + 4)) ;;
  write_u8 FEA_EXT_FEDAUTH ;;
  let token := units_bytes (encode_utf16 (fed_auth_token ext)) in
  write_u32 (wrap 32 (1 + 4 + len token + match fed_nonce ext with Some _ => 32 | None => 0 end)) ;;
  write_u8 (Z.lor (Z.shiftl FED_AUTH_LIBRARYSECURITYTOKEN 1) (if fed_auth_echo ext then 1 else 0)) ;;
  write_u32 (wrap 32 (len token)) ;;
  cursor_write token ;;
  match fed_nonce ext with Some n => cursor_write n | None => ret tt end ;;
  write_u8 FEA_EXT_TERMINATOR.

(** The writes of [encode_to_boxed_slice]. *)
Definition login_writes (m : LoginMessage) : M Cursor unit :=
  write_u32 0 ;;
  write_u32 (feature_as_u32 (tds_version m)) ;; write_u32 (login_packet_size m) ;; write_u32 (client_prog_ver m) ;;
  write_u32 (client_pid m) ;; write_u32 (connection_id m) ;;
  write_u8 (option_flags_1 m) ;; write_u8 (option_flags_2 m) ;; write_u8 (type_flags m) ;; write_u8 (option_flags_3 m) ;;
  write_u32 (wrap 32 (client_timezone m)) ;; write_u32 (client_lcid m) ;;
  let var_data := [hostname m; username m; password m; app_name m; server_name m; []; []; []; db_name m; []; []; []; []] in
  pos <- position ;;
  r <- login_vars (integrated_security m) 0 var_data (pos + len var_data * 2 * 2 + 6) 0 ;;
  let '(data_offset, fea_ext_offset) := r in
  write_u32 0 ;;
  match fed_auth_ext m with Some ext => login_feature_ext ext data_offset fea_ext_offset | None => ret tt end ;;
  set_position 0 ;;
  (fun c => write_u32 (len (cur_vec c)) c).

(** [LoginMessage::encode_to_boxed_slice]: the assertion on the capacity. *)
Definition encode_to_boxed_slice (m : LoginMessage) : Res bytes :=
  match login_writes m (mkCursor [] (encoded_len m) 0) with
  | (Ok _, c) => if cur_cap c =? encoded_len m then Ok (cur_vec c) else Panic
  | (Err e, _) => Err e
  | (Panic, _) => Panic
  | (OutOfFuel, _) => OutOfFuel
  end.

(** [impl Encode for LoginMessage] *)
Definition login_encode (m : LoginMessage) : M bytes unit :=
  encoded <- lift (encode_to_boxed_slice m) ;; put_slice encoded.

(** ** Lemmas: the cursor *)

Definition HEAD : nat := 94.

(** The buffer while the table [T] grows towards its 94 bytes and the data [D]
    beyond them: nothing is there for the rest of the table before the first
    datum is written, zeros afterwards. *)
Definition layout (T D : bytes) : bytes := match D with [] => T | _ => T ++ repeat 0 (HEAD - length T) ++ D end.
Definition lay (T D : bytes) (cap : Z) : Cursor := mkCursor (layout T D) cap (length T).

Lemma grow_fits cap need : need <= cap -> grow cap need = cap.
Proof. intros H. unfold grow. rewrite (proj2 (Z.leb_le _ _)) by exact H. reflexivity. Qed.

Lemma repeat_split n k : (k <= n)%nat -> repeat 0 n = repeat 0 k ++ repeat 0 (n - k).
Proof. intros H. rewrite <- repeat_app. f_equal. lia. Qed.

Lemma write_table l T D cap : (length T + length l <= HEAD)%nat -> Z.of_nat HEAD <= cap ->
  cursor_write l (lay T D cap) = (Ok tt, lay (T ++ l) D cap).
Proof.
  intros Hl Hc. destruct l as [|b l']; [unfold lay; rewrite app_nil_r; reflexivity|]. set (l := b :: l') in *.
  unfold cursor_write, lay. fold l. cbn [cur_pos cur_vec cur_cap]. rewrite grow_fits by lia.
  replace (length T - length (layout T D))%nat with 0%nat by (destruct D; cbn [layout]; rewrite ?length_app; lia).
  cbn [repeat]. rewrite app_nil_r, length_app. do 2 f_equal. destruct D as [|d D']; cbn [layout].
  - rewrite take_ge by lia. rewrite drop_ge by lia. rewrite app_nil_r. reflexivity.
  - rewrite take_app_length, (repeat_split (HEAD - length T) (length l)) by lia.
    rewrite <- drop_drop, drop_app_length, <- app_assoc, drop_app_length' by (rewrite repeat_length; reflexivity).
    rewrite <- app_assoc, length_app. do 4 f_equal. lia.
Qed.

Lemma length_layout T D : (length T <= HEAD)%nat -> (length (layout T D) <= HEAD + length D)%nat.
Proof. intros H. destruct D; cbn [layout]; rewrite ?length_app, ?repeat_length; lia. Qed.

(** Writing at or beyond the end. *)
Definition extend (vec : bytes) (pos : nat) (l : bytes) : bytes :=
  match l with [] => vec | _ => vec ++ repeat 0 (pos - length vec) ++ l end.

Lemma write_end l vec cap pos : (length vec <= pos)%nat -> Z.of_nat (pos + length l) <= cap ->
  cursor_write l (mkCursor vec cap pos) = (Ok tt, mkCursor (extend vec pos l) cap (pos + length l)).
Proof.
  intros Hp Hc. destruct l as [|b l']; [cbn; rewrite Nat.add_0_r; reflexivity|]. set (l := b :: l') in *.
  unfold cursor_write, extend. fold l. cbn [cur_pos cur_vec cur_cap]. rewrite grow_fits by exact Hc.
  assert (L : length (vec ++ repeat 0 (pos - length vec)) = pos) by (rewrite length_app, repeat_length; lia).
  rewrite take_ge by lia. rewrite drop_ge by lia. rewrite app_nil_r, <- app_assoc. reflexivity.
Qed.

Lemma extend_app vec pos a b : (length vec <= pos)%nat ->
  extend (extend vec pos a) (pos + length a) b = extend vec pos (a ++ b).
Proof.
  intros H. destruct a as [|x a']; [cbn; rewrite Nat.add_0_r; reflexivity|]. set (a := x :: a') in *.
  destruct b as [|y b']; [rewrite app_nil_r; reflexivity|]. unfold extend at 1 2 3. unfold a at 1. cbn [app]. unfold a.
  change (x :: a' ++ y :: b') with ((x :: a') ++ y :: b'). fold a. rewrite !length_app, repeat_length.
  replace (pos + length a - _)%nat with 0%nat by lia. cbn [repeat app]. rewrite <- !app_assoc. reflexivity.
Qed.

Lemma length_extend vec pos l : (length vec <= pos)%nat -> (length (extend vec pos l) <= pos + length l)%nat.
Proof. intros H. destruct l; cbn [extend]; rewrite ?length_app, ?repeat_length; lia. Qed.

Lemma write_units_end us : forall vec cap pos, (length vec <= pos)%nat -> Z.of_nat (pos + 2 * length us) <= cap ->
  iter_m write_u16 us (mkCursor vec cap pos) = (Ok tt, mkCursor (extend vec pos (units_bytes us)) cap (pos + 2 * length us)).
Proof.
  induction us as [|u us IH]; intros vec cap pos Hp Hc; [cbn; rewrite Nat.add_0_r; reflexivity|].
  cbn [iter_m length] in *. unfold write_u16 at 1.
  rewrite (bind_ok _ _ _ _ _ (write_end (le_bytes 2 u) vec cap pos Hp ltac:(rewrite length_le_bytes; lia))).
  rewrite length_le_bytes, IH by (try (pose proof (length_extend vec pos (le_bytes 2 u) Hp) as L; rewrite length_le_bytes in L); lia).
  do 2 f_equal; [|lia]. change 2%nat with (length (le_bytes 2 u)) at 2. rewrite extend_app by exact Hp. reflexivity.
Qed.

(** Appending to the data leaves the table as it is. *)
Lemma layout_extend T D d : (length T <= HEAD)%nat -> extend (layout T D) (HEAD + length D) d = layout T (D ++ d).
Proof.
  intros H. destruct d as [|x d']; [rewrite app_nil_r; reflexivity|]. set (d := x :: d') in *.
  destruct D as [|y D']; cbn [layout app].
  - unfold extend. fold d. rewrite Nat.add_0_r. unfold d at 1. cbn [app]. reflexivity.
  - unfold extend, d. fold d. cbn [length]. rewrite !length_app, repeat_length. cbn [length].
    replace (HEAD + S (length D') - _)%nat with 0%nat by lia. cbn [repeat app]. rewrite <- !app_assoc. reflexivity.
Qed.

Lemma obfuscate_extend vec pos d cap p : (length vec <= pos)%nat ->
  obfuscate_range (Z.of_nat pos) (Z.of_nat (pos + length d)) (mkCursor (extend vec pos d) cap p)
  = (Ok tt, mkCursor (extend vec pos (map obfuscate d)) cap p).
Proof.
  intros H. unfold obfuscate_range. cbn [cur_vec cur_cap cur_pos]. rewrite !Nat2Z.id. do 2 f_equal.
  destruct d as [|x d']; cbn [extend map length].
  - rewrite Nat.add_0_r, take_ge, !drop_ge by (rewrite ?length_take; lia). cbn. rewrite app_nil_r. reflexivity.
  - set (d := x :: d'). change (S (length d')) with (length d). change (obfuscate x :: map obfuscate d') with (map obfuscate d).
    rewrite !app_assoc. assert (L : length (vec ++ repeat 0 (pos - length vec)) = pos) by (rewrite length_app, repeat_length; lia).
    revert L. generalize (vec ++ repeat 0 (pos - length vec)). intros a <-. rewrite <- (app_assoc (take _ _)), take_app_length.
    rewrite (take_ge _ (length a + length d)) by (rewrite length_app; lia).
    rewrite drop_app_length, drop_ge by (rewrite length_app; lia). rewrite app_nil_r. reflexivity.
Qed.

(** ** Lemmas: the offset table *)

Lemma set_position_off T D cap :
  set_position (Z.of_nat HEAD + len D) (lay T D cap) = (Ok tt, mkCursor (layout T D) cap (HEAD + length D)).
Proof. unfold set_position. do 2 f_equal. lia. Qed.

Lemma write_datum l T D cap : (length T <= HEAD)%nat -> Z.of_nat HEAD + len D + len l <= cap ->
  cursor_write l (mkCursor (layout T D) cap (HEAD + length D))
  = (Ok tt, mkCursor (layout T (D ++ l)) cap (HEAD + length D + length l)).
Proof. intros HT Hc. rewrite write_end by (try apply length_layout; lia). rewrite layout_extend by exact HT. reflexivity. Qed.

Lemma set_position_back T D D' cap p :
  set_position (Z.of_nat (cur_pos (lay T D cap))) (mkCursor (layout T D') cap p) = (Ok tt, lay T D' cap).
Proof. unfold set_position, lay. cbn. rewrite Nat2Z.id. reflexivity. Qed.

Section Vars.
Context (sspi : option bytes).
Notation sspi_bytes := (match sspi with Some b => b | None => [] end).

(** The data and the table entry of each of the variables. *)
Definition datum (i : nat) (v : str) : bytes :=
  if (i =? 9)%nat then []
  else if (i =? 10)%nat then sspi_bytes
  else if (i =? 2)%nat then map obfuscate (units_bytes (encode_utf16 v)) else units_bytes (encode_utf16 v).
Definition entry (i : nat) (v : str) (off : Z) : bytes :=
  if (i =? 9)%nat then le_bytes 4 0 ++ le_bytes 2 42
  else le_bytes 2 off ++ le_bytes 2 (if (i =? 10)%nat then len sspi_bytes else len (encode_utf16 v)).

Fixpoint data (i : nat) (vs : list str) : bytes :=
  match vs with [] => [] | v :: vs => datum i v ++ data (S i) vs end.
Fixpoint entries (i : nat) (vs : list str) (off : Z) : bytes :=
  match vs with [] => [] | v :: vs => entry i v off ++ entries (S i) vs (off + len (datum i v)) end.
Fixpoint extension_at (i : nat) (vs : list str) (pos : nat) (f : Z) : Z :=
  match vs with
  | [] => f
  | v :: vs => extension_at (S i) vs (pos + length (entry i v 0)) (if (i =? 5)%nat then Z.of_nat pos else f)
  end.

Lemma length_entry i v off : length (entry i v off) = if (i =? 9)%nat then 6%nat else 4%nat.
Proof. unfold entry. destruct (_ =? 9)%nat; rewrite length_app, !length_le_bytes; reflexivity. Qed.

Lemma write_u16_table v T D cap : (length T + 2 <= HEAD)%nat -> Z.of_nat HEAD <= cap ->
  write_u16 v (lay T D cap) = (Ok tt, lay (T ++ le_bytes 2 v) D cap).
Proof. intros. apply write_table; rewrite ?length_le_bytes; lia. Qed.

Lemma datum_string i v : i <> 9%nat -> i <> 10%nat ->
  datum i v = if (i =? 2)%nat then map obfuscate (units_bytes (encode_utf16 v)) else units_bytes (encode_utf16 v).
Proof. intros N9 N10. unfold datum. rewrite (proj2 (Nat.eqb_neq i 9) N9), (proj2 (Nat.eqb_neq i 10) N10). reflexivity. Qed.

Lemma length_datum_string i v : i <> 9%nat -> i <> 10%nat -> length (datum i v) = (2 * length (encode_utf16 v))%nat.
Proof. intros N9 N10. rewrite datum_string by assumption. destruct (i =? 2)%nat; rewrite ?length_map, length_units_bytes; reflexivity. Qed.

Lemma entry_string i v off : i <> 9%nat -> i <> 10%nat ->
  entry i v off = le_bytes 2 off ++ le_bytes 2 (len (encode_utf16 v)).
Proof. intros N9 N10. unfold entry. rewrite (proj2 (Nat.eqb_neq i 9) N9), (proj2 (Nat.eqb_neq i 10) N10). reflexivity. Qed.

(** Writing the security blob at the data offset and coming back to the table. *)
Lemma write_sspi_datum v T D cap : (length T <= HEAD)%nat -> Z.of_nat HEAD + len D + len (datum 10 v) <= cap ->
  (match sspi with
   | Some b => bak <- position ;; set_position (Z.of_nat HEAD + len D) ;; cursor_write b ;;
               set_position bak ;; ret (Z.of_nat HEAD + len D + len b, len b)
   | None => ret (Z.of_nat HEAD + len D, 0)
   end) (lay T D cap)
  = (Ok (Z.of_nat HEAD + len D + len (datum 10 v), len (datum 10 v)), lay T (D ++ datum 10 v) cap).
Proof.
  change (datum 10 v) with sspi_bytes. intros HT HD.
  destruct sspi as [b|]; [|cbn [app]; rewrite app_nil_r, Z.add_0_r; reflexivity].
  rewrite (bind_ok position _ _ _ _ eq_refl), (bind_ok _ _ _ _ _ (set_position_off T D cap)).
  rewrite (bind_ok _ _ _ _ _ (write_datum b T D cap HT HD)).
  rewrite (bind_ok _ _ _ _ _ (set_position_back T D (D ++ b) cap _)). reflexivity.
Qed.

(** Writing a string, obfuscated when it is the password, at the data offset and coming back to the table. *)
Lemma write_string_datum {B} i v T D cap (K : Z -> M Cursor B) : i <> 9%nat -> i <> 10%nat ->
  (length T <= HEAD)%nat -> Z.of_nat HEAD + len D + len (datum i v) <= cap ->
  (bak <- position ;; set_position (Z.of_nat HEAD + len D) ;; iter_m write_u16 (encode_utf16 v) ;;
   new_position <- position ;;
   (if (i =? 2)%nat then obfuscate_range (Z.of_nat HEAD + len D) new_position else ret tt) ;;
   let length := new_position - (Z.of_nat HEAD + len D) in set_position bak ;; K length) (lay T D cap)
  = K (len (datum i v)) (lay T (D ++ datum i v) cap).
Proof.
  intros N9 N10 HT HD. pose proof (length_datum_string i v N9 N10) as Ld. pose proof (datum_string i v N9 N10) as Ed.
  set (us := encode_utf16 v) in *.
  rewrite (bind_ok position _ _ _ _ eq_refl), (bind_ok _ _ _ _ _ (set_position_off T D cap)).
  rewrite (bind_ok _ _ _ _ _ (write_units_end us (layout T D) cap (HEAD + length D) ltac:(apply length_layout, HT) ltac:(lia))).
  rewrite (bind_ok position _ _ _ _ eq_refl).
  rewrite (bind_ok _ _ _ tt (mkCursor (layout T (D ++ datum i v)) cap (HEAD + length D + 2 * length us))).
  2: { rewrite <- (length_units_bytes us), <- Nat2Z.inj_add, Ed, <- (layout_extend T D) by exact HT.
       destruct (i =? 2)%nat; [|reflexivity]. apply obfuscate_extend, length_layout, HT. }
  cbn zeta. rewrite (bind_ok _ _ _ _ _ (set_position_back T D (D ++ datum i v) cap _)).
  cbn [cur_pos]. f_equal. lia.
Qed.

Lemma login_vars_spec vs : forall i T D cap f,
  (length T + length (entries i vs (Z.of_nat HEAD + len D)) <= HEAD)%nat ->
  Z.of_nat HEAD + len D + len (data i vs) <= cap -> cap < 2 ^ 16 ->
  login_vars sspi i vs (Z.of_nat HEAD + len D) f (lay T D cap)
  = (Ok (Z.of_nat HEAD + len (D ++ data i vs), extension_at i vs (length T) f),
     lay (T ++ entries i vs (Z.of_nat HEAD + len D)) (D ++ data i vs) cap).
Proof.
  induction vs as [|v vs IH]; intros i T D cap f HT HD Hc.
  { cbn. rewrite !app_nil_r. reflexivity. }
  cbn [login_vars data entries extension_at] in *. rewrite !length_app in HT. rewrite length_app, Nat2Z.inj_add in HD.
  set (off := Z.of_nat HEAD + len D) in *.
  assert (IH' : forall f', login_vars sspi (S i) vs (off + len (datum i v)) f' (lay (T ++ entry i v off) (D ++ datum i v) cap)
    = (Ok (Z.of_nat HEAD + len (D ++ datum i v ++ data (S i) vs), extension_at (S i) vs (length T + length (entry i v off)) f'),
       lay (T ++ entry i v off ++ entries (S i) vs (off + len (datum i v))) (D ++ datum i v ++ data (S i) vs) cap)).
  { intros f'. replace (off + len (datum i v)) with (Z.of_nat HEAD + len (D ++ datum i v)) in * by (rewrite length_app; unfold off; lia).
    rewrite IH; [rewrite (length_app T), <- !app_assoc; reflexivity| | |exact Hc]; rewrite length_app; lia. }
  rewrite (bind_ok position _ _ _ _ eq_refl). cbn [cur_pos lay]. cbn zeta.
  replace (length (entry i v 0)) with (length (entry i v off)) by (rewrite !length_entry; reflexivity).
  set (f' := if (i =? 5)%nat then _ else _). specialize (IH' f'). rewrite (length_entry i v off) in HT.
  assert (L1 : length (T ++ le_bytes 2 off) = (length T + 2)%nat) by (rewrite length_app, length_le_bytes; reflexivity).
  destruct (Nat.eqb_spec i 9) as [->|N9]; [|rewrite (bind_ok _ _ _ _ _ (write_u16_table _ T D cap ltac:(lia) ltac:(lia))), (le_bytes_wrap 2)].
  { unfold write_u32. rewrite (bind_ok _ _ _ _ _ (write_table (le_bytes 4 0) T D cap ltac:(rewrite length_le_bytes; lia) ltac:(lia))).
    rewrite (bind_ok _ _ _ _ _ (write_u16_table 42 (T ++ le_bytes 4 0) D cap ltac:(rewrite length_app, length_le_bytes; lia) ltac:(lia))).
    rewrite <- app_assoc. change (datum 9 v) with (@nil Z) in *. cbn [length Z.of_nat] in *.
    rewrite app_nil_r, Z.add_0_r in IH'. rewrite Z.add_0_r. exact IH'. }
  destruct (Nat.eqb_spec i 10) as [->|N10].
  - rewrite (bind_ok _ _ _ _ _ (write_sspi_datum v (T ++ le_bytes 2 off) D cap ltac:(lia) ltac:(fold off; lia))). cbn zeta.
    rewrite (bind_ok _ _ _ _ _ (write_u16_table _ (T ++ le_bytes 2 off) _ cap ltac:(lia) ltac:(lia))), (le_bytes_wrap 2).
    rewrite <- app_assoc. exact IH'.
  - pose proof (length_datum_string i v N9 N10) as Ld. rewrite (entry_string i v off N9 N10) in *.
    etransitivity; [apply (write_string_datum i v (T ++ le_bytes 2 off) D cap (fun length =>
      write_u16 (wrap 16 length / 2) ;; login_vars sspi (S i) vs (off + length) f')); assumption || (fold off; lia)|].
    rewrite (bind_ok _ _ _ _ _ (write_u16_table _ (T ++ le_bytes 2 off) _ cap ltac:(lia) ltac:(lia))).
    rewrite wrap_small by (unfold in_unsigned, off in *; lia).
    replace (len (datum i v) / 2) with (len (encode_utf16 v))
      by (replace (len (datum i v)) with (len (encode_utf16 v) * 2) by lia; symmetry; apply Z.div_mul; lia).
    rewrite <- app_assoc. exact IH'.
Qed.
End Vars.

(** ** The finished message *)

(** Overwriting bytes that are there. *)
Lemma write_over a b c l cap : length b = length l -> Z.of_nat (length a + length l) <= cap ->
  cursor_write l (mkCursor (a ++ b ++ c) cap (length a)) = (Ok tt, mkCursor (a ++ l ++ c) cap (length a + length l)).
Proof.
  intros Hl Hc. destruct l as [|x l']; [destruct b; [|discriminate]; cbn; rewrite Nat.add_0_r; reflexivity|].
  set (l := x :: l') in *. unfold cursor_write. fold l. cbn [cur_pos cur_vec cur_cap]. rewrite grow_fits by exact Hc.
  replace (length a - length (a ++ b ++ c))%nat with 0%nat by (rewrite length_app; lia). cbn [repeat]. rewrite app_nil_r.
  rewrite take_app_length, <- drop_drop, drop_app_length, <- Hl, drop_app_length. reflexivity.
Qed.

Lemma write_append l vec cap : len (vec ++ l) <= cap ->
  cursor_write l (mkCursor vec cap (length vec)) = (Ok tt, mkCursor (vec ++ l) cap (length (vec ++ l))).
Proof.
  intros Hc. rewrite length_app in *. rewrite write_end by lia. do 2 f_equal. unfold extend. rewrite Nat.sub_diag.
  destruct l; [rewrite app_nil_r|]; reflexivity.
Qed.

Lemma layout_full T D : length T = HEAD -> layout T D = T ++ D.
Proof. intros H. destruct D; cbn [layout]; [rewrite app_nil_r; reflexivity|]. rewrite H, Nat.sub_diag. reflexivity. Qed.

Lemma data_app sspi i a b : data sspi i (a ++ b) = data sspi i a ++ data sspi (i + length a) b.
Proof.
  revert i. induction a as [|v a IH]; intros i; cbn [app data length]; [rewrite Nat.add_0_r; reflexivity|].
  rewrite IH, <- app_assoc, Nat.add_succ_r. reflexivity.
Qed.

Lemma entries_app sspi i a b off :
  entries sspi i (a ++ b) off = entries sspi i a off ++ entries sspi (i + length a) b (off + len (data sspi i a)).
Proof.
  revert i off. induction a as [|v a IH]; intros i off; cbn [app entries data length]; [rewrite Nat.add_0_r, Z.add_0_r; reflexivity|].
  rewrite IH, <- app_assoc, Nat.add_succ_r, length_app, Nat2Z.inj_add, Z.add_assoc. reflexivity.
Qed.

Section Message.
Context (m : LoginMessage).

Definition login_fixed : bytes :=
  le_bytes 4 (feature_as_u32 (tds_version m)) ++ le_bytes 4 (login_packet_size m) ++ le_bytes 4 (client_prog_ver m) ++
  le_bytes 4 (client_pid m) ++ le_bytes 4 (connection_id m) ++
  le_bytes 1 (option_flags_1 m) ++ le_bytes 1 (option_flags_2 m) ++ le_bytes 1 (type_flags m) ++ le_bytes 1 (option_flags_3 m) ++
  le_bytes 4 (client_timezone m) ++ le_bytes 4 (client_lcid m).

Definition login_values : list str :=
  [hostname m; username m; password m; app_name m; server_name m; []; []; []; db_name m; []; []; []; []].

Notation sspi := (integrated_security m).
Definition login_data : bytes := data sspi 0 login_values.

(** The entries before and after that of [ibExtension]. *)
Definition entries_before : bytes := entries sspi 0 (take 5 login_values) 94.
Definition entries_after : bytes := entries sspi 6 (drop 6 login_values) (94 + len (data sspi 0 (take 5 login_values))).

Definition feature_block (ext : FedAuthExt) : bytes :=
  let token := units_bytes (encode_utf16 (fed_auth_token ext)) in
  let n := match fed_nonce ext with Some n => n | None => [] end in
  le_bytes 1 FEA_EXT_FEDAUTH ++ le_bytes 4 (5 + len token + len n) ++
  le_bytes 1 (Z.lor (Z.shiftl FED_AUTH_LIBRARYSECURITYTOKEN 1) (if fed_auth_echo ext then 1 else 0)) ++
  le_bytes 4 (len token) ++ token ++ n ++ le_bytes 1 FEA_EXT_TERMINATOR.

Notation data_end := (94 + len login_data).
Definition extension_entry : bytes :=
  match fed_auth_ext m with
  | Some _ => le_bytes 2 data_end ++ le_bytes 2 4
  | None => le_bytes 2 (94 + len (data sspi 0 (take 5 login_values))) ++ le_bytes 2 0
  end.
Definition login_tail : bytes :=
  match fed_auth_ext m with Some ext => le_bytes 4 (data_end + 4) ++ feature_block ext | None => [] end.

Definition login_bytes : bytes :=
  le_bytes 4 (encoded_len m) ++ login_fixed ++ entries_before ++ extension_entry ++ entries_after ++ le_bytes 4 0 ++
  login_data ++ login_tail.

(** A message that fits the 16-bit offsets of its table. *)
Record wf_login : Prop := {
  wf_login_strings : Forall (fun s => wf_str s) login_values;
  wf_login_nonce : match fed_auth_ext m with Some ext => opt_wf (fun n => length n = 32%nat) (fed_nonce ext) | None => True end;
  wf_login_size : encoded_len m < 2 ^ 16;
}.
Lemma len_units s : len (units_bytes (encode_utf16 s)) = utf16_bytes s.
Proof. unfold utf16_bytes. rewrite length_units_bytes. lia. Qed.

Lemma len_login_data : wf_login -> len login_data = encoded_len m - 94 - len login_tail.
Proof.
  intros W. unfold login_data, login_values, encoded_len, login_tail, FIXED_OVERHEAD. cbn [data datum Nat.eqb].
  rewrite !length_app, length_map, !Nat2Z.inj_add, !len_units. change (utf16_bytes []) with 0.
  destruct (integrated_security m), (fed_auth_ext m) as [ext|] eqn:Ef; cbn [length]; try lia;
    unfold feature_block; rewrite !length_app, !length_le_bytes, !Nat2Z.inj_add, len_units;
    pose proof (wf_login_nonce W) as N; rewrite Ef in N; destruct (fed_nonce ext); cbn in N; cbn [length]; lia.
Qed.

Notation cap := (encoded_len m).

Lemma table_lengths : length login_fixed = 32%nat /\ length entries_before = 20%nat /\ length extension_entry = 4%nat /\
  length entries_after = 30%nat.
Proof. unfold extension_entry. destruct (fed_auth_ext m); repeat split; reflexivity. Qed.

(** The cursor after the table and the data: before the extension entry and
    the length are filled in. *)
Lemma login_table_written (k : Z -> Z -> M Cursor unit) : wf_login ->
  (write_u32 0 ;;
   write_u32 (feature_as_u32 (tds_version m)) ;; write_u32 (login_packet_size m) ;; write_u32 (client_prog_ver m) ;;
   write_u32 (client_pid m) ;; write_u32 (connection_id m) ;;
   write_u8 (option_flags_1 m) ;; write_u8 (option_flags_2 m) ;; write_u8 (type_flags m) ;; write_u8 (option_flags_3 m) ;;
   write_u32 (wrap 32 (client_timezone m)) ;; write_u32 (client_lcid m) ;;
   pos <- position ;;
   r <- login_vars sspi 0 login_values (pos + len login_values * 2 * 2 + 6) 0 ;;
   let '(data_offset, fea_ext_offset) := r in
   write_u32 0 ;; k data_offset fea_ext_offset) (mkCursor [] cap 0)
  = k data_end 56 (mkCursor ((le_bytes 4 0 ++ login_fixed ++ entries sspi 0 login_values 94 ++ le_bytes 4 0) ++ login_data) cap HEAD).
Proof.
  intros W. pose proof (wf_login_size W) as Hs. pose proof (len_login_data W) as Hd. assert (Hc : Z.of_nat HEAD <= cap) by (unfold HEAD; lia).
  change (mkCursor [] cap 0) with (lay [] [] cap). unfold write_u32, write_u8.
  rewrite (le_bytes_wrap 4).
  do 12 (erewrite bind_ok; [|apply write_table; [rewrite ?length_app, ?length_le_bytes; cbn; unfold HEAD; lia|exact Hc]]).
  match goal with |- _ (lay ?T [] cap) = _ => change T with (le_bytes 4 0 ++ login_fixed) end.
  set (T := le_bytes 4 0 ++ login_fixed). assert (LT : length T = 36%nat) by reflexivity.
  assert (LE : length (entries sspi 0 login_values 94) = 54%nat) by reflexivity.
  rewrite (bind_ok position _ _ _ _ eq_refl). cbn [cur_pos lay]. rewrite LT.
  erewrite bind_ok by (apply (login_vars_spec sspi login_values 0 T [] cap 0);
    [change (Z.of_nat HEAD + len []) with 94; rewrite LT, LE; unfold HEAD; lia|fold login_data; cbn [length]; unfold HEAD; lia|exact Hs]).
  fold login_data. cbn [app]. change (Z.of_nat HEAD + len []) with 94. change (Z.of_nat HEAD) with 94.
  rewrite (bind_ok _ _ _ _ _ (write_table (le_bytes 4 0) (T ++ entries sspi 0 login_values 94) login_data cap
    ltac:(rewrite length_app, LT, LE, length_le_bytes; unfold HEAD; lia) Hc)).
  unfold lay. rewrite layout_full by (rewrite !length_app, LT, LE, length_le_bytes; reflexivity).
  rewrite LT. change (extension_at sspi 0 login_values 36 0) with 56.
  replace (length ((T ++ entries sspi 0 login_values 94) ++ le_bytes 4 0)) with HEAD
    by (rewrite !length_app, LT, LE, length_le_bytes; reflexivity).
  unfold T. rewrite <- !app_assoc. reflexivity.
Qed.

(** The feature block goes behind the data, and its offset into the table. *)
Lemma feature_ext_written ext a b c : fed_auth_ext m = Some ext -> wf_login -> length a = 56%nat -> length b = 4%nat ->
  len (a ++ b ++ c) = data_end ->
  login_feature_ext ext data_end 56 (mkCursor (a ++ b ++ c) cap HEAD)
  = (Ok tt, mkCursor ((a ++ extension_entry ++ c) ++ login_tail) cap (Z.to_nat cap)).
Proof.
  intros Ef W La Lb Ll. pose proof (len_login_data W) as Hd. pose proof (wf_login_size W) as Hs. pose proof (wf_login_nonce W) as Hn.
  rewrite Ef in Hn. unfold extension_entry, login_tail in *. rewrite Ef in *. unfold login_feature_ext.
  set (token := units_bytes (encode_utf16 (fed_auth_token ext))) in *.
  assert (Hlen : match fed_nonce ext with Some _ => 32 | None => 0 end = len (match fed_nonce ext with Some n => n | None => [] end))
    by (destruct (fed_nonce ext) as [n|]; cbn in Hn; [rewrite Hn|]; reflexivity).
  rewrite Hlen. set (n := match fed_nonce ext with Some n => n | None => [] end) in *.
  replace (match fed_nonce ext with Some n => cursor_write n | None => ret tt end) with (cursor_write n)
    by (unfold n; destruct (fed_nonce ext); reflexivity).
  unfold feature_block in *. fold token n in Hd |- *. rewrite !length_app, !length_le_bytes in Hd. rewrite !length_app in Ll.
  rewrite (bind_ok (set_position 56) _ _ tt (mkCursor (a ++ b ++ c) cap (length a))) by (unfold set_position; rewrite La; reflexivity).
  unfold write_u16, write_u32, write_u8. rewrite (le_bytes_wrap 2), !(le_bytes_wrap 4).
  destruct b as [|b0 [|b1 [|b2 [|b3 [|? ?]]]]]; try discriminate Lb. clear Lb.
  change ([b0; b1; b2; b3] ++ c) with ([b0; b1] ++ [b2; b3] ++ c).
  rewrite (bind_ok _ _ _ _ _ (write_over a [b0; b1] ([b2; b3] ++ c) (le_bytes 2 data_end) cap eq_refl
    ltac:(rewrite La, length_le_bytes; cbn [length] in *; lia))).
  rewrite app_assoc. replace (length a + _)%nat with (length (a ++ le_bytes 2 data_end)) by (rewrite length_app; reflexivity).
  rewrite (bind_ok _ _ _ _ _ (write_over (a ++ le_bytes 2 data_end) [b2; b3] c (le_bytes 2 4) cap eq_refl
    ltac:(rewrite length_app, La, !length_le_bytes; cbn [length] in *; lia))).
  set (v0 := (a ++ le_bytes 2 data_end) ++ le_bytes 2 4 ++ c).
  assert (Lv : length v0 = Z.to_nat data_end) by (unfold v0; rewrite !length_app, !length_le_bytes; cbn [length] in *; lia).
  rewrite (bind_ok (set_position data_end) _ _ tt (mkCursor v0 cap (length v0))) by (unfold set_position; rewrite Lv; reflexivity).
  assert (Step : forall l vec (k : M Cursor unit), len (vec ++ l) <= cap ->
    (cursor_write l ;; k) (mkCursor vec cap (length vec)) = k (mkCursor (vec ++ l) cap (length (vec ++ l)))).
  { intros l vec k H. rewrite (bind_ok _ _ _ _ _ (write_append l vec cap H)). reflexivity. }
  rewrite !Step by (rewrite !length_app, !length_le_bytes, Lv; cbn [length] in *; lia).
  rewrite write_append by (rewrite !length_app, !length_le_bytes, Lv; cbn [length] in *; lia).
  do 2 f_equal.
  - unfold v0. rewrite <- !app_assoc. replace (5 + len token + len n) with (1 + 4 + len token + len n) by lia. reflexivity.
  - rewrite !length_app, !length_le_bytes, Lv. cbn [length] in *. lia.
Qed.

(** The whole run. *)
Lemma encode_login_bytes : wf_login -> encode_to_boxed_slice m = Ok login_bytes.
Proof.
  intros W. pose proof (wf_login_size W) as Hs. pose proof (len_login_data W) as Hd.
  destruct table_lengths as (L1 & L2 & L3 & L4). unfold encode_to_boxed_slice.
  assert (Run : login_writes m (mkCursor [] cap 0) = _)
    by exact (login_table_written (fun data_offset fea_ext_offset =>
      match fed_auth_ext m with Some ext => login_feature_ext ext data_offset fea_ext_offset | None => ret tt end ;;
      set_position 0 ;; (fun c => write_u32 (len (cur_vec c)) c)) W).
  rewrite Run. clear Run.
  assert (Finish : forall vec p, len (le_bytes 4 0 ++ vec) = cap ->
    (set_position 0 ;; (fun c => write_u32 (len (cur_vec c)) c)) (mkCursor (le_bytes 4 0 ++ vec) cap p)
    = (Ok tt, mkCursor (le_bytes 4 cap ++ vec) cap 4)).
  { intros vec p Hl. rewrite (bind_ok (set_position 0) _ (mkCursor (le_bytes 4 0 ++ vec) cap p) tt (mkCursor (le_bytes 4 0 ++ vec) cap 0) eq_refl).
    cbn [cur_vec]. rewrite Hl. unfold write_u32. apply (write_over [] (le_bytes 4 0) vec (le_bytes 4 cap) cap);
      [rewrite !length_le_bytes; reflexivity|]. rewrite length_le_bytes. unfold HEAD in *. rewrite length_app, length_le_bytes in Hl. cbn. lia. }
  set (E5 := le_bytes 2 (94 + len (data sspi 0 (take 5 login_values))) ++ le_bytes 2 0).
  assert (Split : entries sspi 0 login_values 94 = entries_before ++ E5 ++ entries_after).
  { change login_values with (take 5 login_values ++ [[]] ++ drop 6 login_values) at 1.
    rewrite !entries_app. cbn [length Nat.add take login_values app]. change (data sspi 5 [[]]) with (@nil Z).
    rewrite Z.add_0_r. reflexivity. }
  rewrite Split. destruct (fed_auth_ext m) as [ext|] eqn:Ef.
  - assert (Lall : len (((le_bytes 4 0 ++ login_fixed ++ entries_before) ++ E5 ++ entries_after ++ le_bytes 4 0 ++ login_data)) = data_end).
    { unfold E5. rewrite !length_app, L1, L2, L4, !length_le_bytes. lia. }
    assert (LA : length (le_bytes 4 0 ++ login_fixed ++ entries_before) = 56%nat) by (rewrite !length_app, L1, L2, length_le_bytes; reflexivity).
    assert (LE : length E5 = 4%nat) by (unfold E5; rewrite length_app, !length_le_bytes; reflexivity).
    pose proof (feature_ext_written ext _ _ _ Ef W LA LE Lall) as Hfe.
    replace ((le_bytes 4 0 ++ login_fixed ++ (entries_before ++ E5 ++ entries_after) ++ le_bytes 4 0) ++ login_data)
      with ((le_bytes 4 0 ++ login_fixed ++ entries_before) ++ E5 ++ (entries_after ++ le_bytes 4 0 ++ login_data))
      by (rewrite <- !app_assoc; reflexivity).
    rewrite (bind_ok _ _ _ _ _ Hfe). clear Hfe.
    rewrite <- !app_assoc, Finish.
    + rewrite Z.eqb_refl. unfold login_bytes. reflexivity.
    + rewrite !length_app, L1, L2, L3, L4, !length_le_bytes. lia.
  - rewrite bind_ret_l, <- app_assoc, Finish.
    + rewrite Z.eqb_refl. unfold login_bytes, extension_entry, login_tail. rewrite Ef, app_nil_r, <- ?app_assoc. reflexivity.
    + unfold E5. rewrite !length_app, L1, L2, L4, !length_le_bytes. unfold login_tail in Hd. rewrite Ef in Hd. cbn [length] in Hd. lia.
Qed.

(** ** Reading the message back *)

Definition login_head : bytes :=
  le_bytes 4 (encoded_len m) ++ login_fixed ++ entries_before ++ extension_entry ++ entries_after ++ le_bytes 4 0.

Lemma login_bytes_split : login_bytes = login_head ++ login_data ++ login_tail.
Proof. unfold login_bytes, login_head. rewrite <- !app_assoc. reflexivity. Qed.

Lemma length_login_head : length login_head = 94%nat.
Proof. destruct table_lengths as (L1 & L2 & L3 & L4). unfold login_head. rewrite !length_app, L1, L2, L3, L4, !length_le_bytes. reflexivity. Qed.

Lemma length_login_bytes : wf_login -> len login_bytes = encoded_len m.
Proof. intros W. rewrite login_bytes_split, !length_app, length_login_head. pose proof (len_login_data W). lia. Qed.
End Message.

(** [n] bytes at [p]; a 16-bit and a 32-bit field; the text a table entry
    points at (an offset in bytes, a length in code units). *)
Definition sub (l : bytes) (p n : nat) : bytes := take n (drop p l).
Definition u16_at (l : bytes) (p : nat) : Z := le_val (sub l p 2).
Definition u32_at (l : bytes) (p : nat) : Z := le_val (sub l p 4).
Definition login_text (l : bytes) (p : nat) : bytes := sub l (Z.to_nat (u16_at l p)) (Z.to_nat (2 * u16_at l (p + 2))).

(** What a server does to the bytes of the password. *)
Definition reveal (b : Z) : Z := let b := Z.lxor b 0xA5 in Z.lor (Z.land (Z.shiftl b 4) 0xf0) (Z.shiftr b 4).

Lemma reveal_obfuscate b : is_byte b -> reveal (obfuscate b) = b.
Proof.
  intros H. assert (A : forallb (fun b => reveal (obfuscate b) =? b) (map Z.of_nat (seq 0 256)) = true) by reflexivity.
  rewrite forallb_forall in A. apply Z.eqb_eq, A, in_map_iff. exists (Z.to_nat b). unfold is_byte in H.
  split; [lia|]. apply in_seq. lia.
Qed.

Lemma reveal_password l : wf_bytes l -> map reveal (map obfuscate l) = l.
Proof. intros H. induction H as [|b l Hb _ IH]; [reflexivity|]. cbn. rewrite IH, reveal_obfuscate by exact Hb. reflexivity. Qed.

Lemma sub_app a b c : sub (a ++ b ++ c) (length a) (length b) = b.
Proof. unfold sub. rewrite drop_app_length, take_app_length. reflexivity. Qed.

Section Read.
Context (m : LoginMessage) (W : wf_login m).
Notation out := (login_bytes m).

(** A datum is where its offset says. *)
Lemma sub_datum a d b off n : login_data m ++ login_tail m = a ++ d ++ b -> off = 94 + len a -> n = len d ->
  sub out (Z.to_nat off) (Z.to_nat n) = d.
Proof.
  intros E -> ->. rewrite login_bytes_split, E, app_assoc.
  replace (Z.to_nat (94 + len a)) with (length (login_head m ++ a)) by (rewrite length_app, length_login_head; lia).
  rewrite Nat2Z.id. apply sub_app.
Qed.

Lemma u16_small v : 0 <= v < 2 ^ 16 -> le_val (le_bytes 2 v) = v.
Proof. intros H. rewrite le_val_bytes. apply wrap_small, H. Qed.

Lemma text_at p a s d b : u16_at out p = le_val (le_bytes 2 (94 + len a)) -> u16_at out (p + 2) = le_val (le_bytes 2 (len (encode_utf16 s))) ->
  login_data m ++ login_tail m = a ++ d ++ b -> length d = (2 * length (encode_utf16 s))%nat -> encoded_len m < 2 ^ 16 ->
  len out = encoded_len m -> login_text out p = d.
Proof.
  intros Eo El Ed Ln Hs Hl. rewrite login_bytes_split, Ed, !length_app, length_login_head in Hl. unfold login_text. rewrite Eo, El, !u16_small by lia.
  apply (sub_datum a d b); [exact Ed|reflexivity|lia].
Qed.
End Read.

Section Fields.
Context (m : LoginMessage).
Notation sspi := (integrated_security m).
Notation text s := (units_bytes (encode_utf16 s)).
Notation sspi_data := (match integrated_security m with Some b => b | None => [] end).

(** The data in the order of the table. *)
Lemma login_data_parts : login_data m =
  text (hostname m) ++ text (username m) ++ map obfuscate (text (password m)) ++ text (app_name m) ++ text (server_name m) ++
  text (db_name m) ++ sspi_data.
Proof. unfold login_data, login_values. cbn [data datum Nat.eqb]. rewrite !app_nil_l, app_nil_r. reflexivity. Qed.

(** The table entries, with the offsets as sums. *)
Lemma login_table :
  let o1 := 94 + len (text (hostname m)) in let o2 := o1 + len (text (username m)) in
  let o3 := o2 + len (map obfuscate (text (password m))) in let o4 := o3 + len (text (app_name m)) in
  let o5 := 94 + len (data sspi 0 (take 5 (login_values m))) in
  let o8 := o5 + 0 + 0 in let o10 := o8 + len (text (db_name m)) + 0 in
  Forall (fun '(p, off, n) => sub (login_bytes m) p 4 = le_bytes 2 off ++ le_bytes 2 n)
    [(36%nat, 94, len (encode_utf16 (hostname m))); (40%nat, o1, len (encode_utf16 (username m)));
     (44%nat, o2, len (encode_utf16 (password m))); (48%nat, o3, len (encode_utf16 (app_name m)));
     (52%nat, o4, len (encode_utf16 (server_name m))); (68%nat, o8, len (encode_utf16 (db_name m)));
     (78%nat, o10, len sspi_data)].
Proof.
  cbv zeta. unfold login_bytes, extension_entry. destruct (fed_auth_ext m); repeat constructor.
Qed.

Lemma u16_of p off n : sub (login_bytes m) p 4 = le_bytes 2 off ++ le_bytes 2 n ->
  u16_at (login_bytes m) p = le_val (le_bytes 2 off) /\ u16_at (login_bytes m) (p + 2) = le_val (le_bytes 2 n).
Proof.
  intros H. unfold u16_at, sub in *. rewrite <- drop_drop.
  assert (A : take 2 (drop p (login_bytes m)) = take 2 (take 4 (drop p (login_bytes m)))) by (rewrite take_take; reflexivity).
  assert (B : take 2 (drop 2 (drop p (login_bytes m))) = drop 2 (take 4 (drop p (login_bytes m)))) by (rewrite take_drop_commute; reflexivity).
  rewrite A, B, H. split; reflexivity.
Qed.
End Fields.

(** The texts and the SSPI token are where the table says. *)
Lemma login_texts (m : LoginMessage) (W : wf_login m) : let out := login_bytes m in
  login_text out 36 = units_bytes (encode_utf16 (hostname m)) /\
  login_text out 40 = units_bytes (encode_utf16 (username m)) /\
  login_text out 44 = map obfuscate (units_bytes (encode_utf16 (password m))) /\
  login_text out 48 = units_bytes (encode_utf16 (app_name m)) /\
  login_text out 52 = units_bytes (encode_utf16 (server_name m)) /\
  login_text out 68 = units_bytes (encode_utf16 (db_name m)) /\
  sub out (Z.to_nat (u16_at out 78)) (Z.to_nat (u16_at out 80)) = match integrated_security m with Some b => b | None => [] end.
Proof.
  cbv zeta. pose proof (length_login_bytes m W) as Hl. pose proof (wf_login_size m W) as Hs. pose proof (len_login_data m W) as Hd.
  pose proof (login_table m) as T. cbv zeta in T. pose proof (login_data_parts m) as P.
  assert (E5 : len (data (integrated_security m) 0 (take 5 (login_values m))) =
    len (units_bytes (encode_utf16 (hostname m)) ++ units_bytes (encode_utf16 (username m)) ++
         map obfuscate (units_bytes (encode_utf16 (password m))) ++ units_bytes (encode_utf16 (app_name m)) ++
         units_bytes (encode_utf16 (server_name m)))) by (cbn [data login_values take datum Nat.eqb]; rewrite app_nil_r; reflexivity).
  rewrite E5 in T. clear E5.
  set (h := units_bytes (encode_utf16 (hostname m))) in *. set (u := units_bytes (encode_utf16 (username m))) in *.
  set (p := map obfuscate (units_bytes (encode_utf16 (password m)))) in *. set (a := units_bytes (encode_utf16 (app_name m))) in *.
  set (s := units_bytes (encode_utf16 (server_name m))) in *. set (d := units_bytes (encode_utf16 (db_name m))) in *.
  set (ss := match integrated_security m with Some b => b | None => [] end) in *. set (tl := login_tail m) in *.
  repeat match goal with H : Forall _ (_ :: _) |- _ => apply List.Forall_cons_iff in H; destruct H as [?T H] end. clear T.
  repeat match goal with H : sub _ _ 4 = _ |- _ => apply u16_of in H; destruct H as [?O ?N] end.
  assert (Pt : login_data m ++ tl = h ++ u ++ p ++ a ++ s ++ d ++ ss ++ tl) by (rewrite P, <- !app_assoc; reflexivity).
  assert (Tx : forall pos pre v datum post, u16_at (login_bytes m) pos = le_val (le_bytes 2 (94 + len pre)) ->
    u16_at (login_bytes m) (pos + 2) = le_val (le_bytes 2 (len (encode_utf16 v))) -> length datum = (2 * length (encode_utf16 v))%nat ->
    login_data m ++ tl = pre ++ datum ++ post -> login_text (login_bytes m) pos = datum).
  { intros pos pre v datum post H1 H2 H3 H4. apply (text_at m pos pre v datum post H1 H2 H4 H3 Hs Hl). }
  rewrite !length_app in O0, O. rewrite P, !length_app in Hd.
  split; [apply (Tx 36%nat [] (hostname m) h (u ++ p ++ a ++ s ++ d ++ ss ++ tl)); auto; apply length_units_bytes|].
  split; [apply (Tx 40%nat h (username m) u (p ++ a ++ s ++ d ++ ss ++ tl)); auto; apply length_units_bytes|].
  split; [apply (Tx 44%nat (h ++ u) (password m) p (a ++ s ++ d ++ ss ++ tl)); auto;
          [rewrite O3; do 2 f_equal; rewrite length_app; lia|unfold p; rewrite length_map; apply length_units_bytes|rewrite Pt, <- !app_assoc; reflexivity]|].
  split; [apply (Tx 48%nat (h ++ u ++ p) (app_name m) a (s ++ d ++ ss ++ tl)); auto;
          [rewrite O2; do 2 f_equal; rewrite !length_app; lia|apply length_units_bytes|rewrite Pt, <- !app_assoc; reflexivity]|].
  split; [apply (Tx 52%nat (h ++ u ++ p ++ a) (server_name m) s (d ++ ss ++ tl)); auto;
          [rewrite O1; do 2 f_equal; rewrite !length_app; lia|apply length_units_bytes|rewrite Pt, <- !app_assoc; reflexivity]|].
  split; [apply (Tx 68%nat (h ++ u ++ p ++ a ++ s) (db_name m) d (ss ++ tl)); auto;
          [rewrite O0; do 2 f_equal; rewrite !length_app; lia|apply length_units_bytes|rewrite Pt, <- !app_assoc; reflexivity]|].
  change 80%nat with (78 + 2)%nat. rewrite O, N, !u16_small by lia.
  apply (sub_datum m (h ++ u ++ p ++ a ++ s ++ d) ss tl); [fold tl; rewrite Pt, <- !app_assoc; reflexivity|rewrite !length_app; lia|reflexivity].
Qed.

Lemma login_feature (m : LoginMessage) (W : wf_login m) ext : fed_auth_ext m = Some ext ->
  let out := login_bytes m in let o := u16_at out 56 in
  u32_at out (Z.to_nat o) = o + 4 /\ sub out (Z.to_nat (o + 4)) (Z.to_nat (len out - (o + 4))) = feature_block ext.
Proof.
  intros Ef. cbv zeta. pose proof (length_login_bytes m W) as Hl. pose proof (wf_login_size m W) as Hs. pose proof (len_login_data m W) as Hd.
  assert (Et : login_tail m = le_bytes 4 (94 + len (login_data m) + 4) ++ feature_block ext) by (unfold login_tail; rewrite Ef; reflexivity).
  assert (Eo : u16_at (login_bytes m) 56 = 94 + len (login_data m)).
  { transitivity (le_val (le_bytes 2 (94 + len (login_data m)))).
    - unfold login_bytes, extension_entry. rewrite Ef. reflexivity.
    - apply u16_small. lia. }
  rewrite Eo, Hl. rewrite Et, length_app, length_le_bytes in Hd. split.
  - unfold u32_at. change (sub (login_bytes m) (Z.to_nat (94 + len (login_data m))) 4)
      with (sub (login_bytes m) (Z.to_nat (94 + len (login_data m))) (Z.to_nat 4)).
    rewrite (sub_datum m (login_data m) (le_bytes 4 (94 + len (login_data m) + 4)) (feature_block ext));
      [|rewrite Et; reflexivity|reflexivity|rewrite length_le_bytes; reflexivity].
    rewrite le_val_bytes. apply wrap_small. change (8 * Z.of_nat 4) with 32. unfold in_unsigned. lia.
  - apply (sub_datum m (login_data m ++ le_bytes 4 (94 + len (login_data m) + 4)) (feature_block ext) []);
      [rewrite Et, app_nil_r, <- app_assoc; reflexivity|rewrite length_app, length_le_bytes; lia|lia].
Qed.

(** ** Property *)

(** C32: a LOGIN7 message that fits the 16-bit offsets of its table is encoded
    without growing the buffer: exactly [encoded_len] bytes are written, so
    the assertion that guards the password against a reallocation holds; the
    message starts with its own length, every entry of the offset table points
    at its text (the password behind the obfuscation a server removes), the
    SSPI entry at the token, and the extension entry at an offset behind which
    the federated authentication block fills the rest of the message. *)
Theorem login_layout (m : LoginMessage) (W : wf_login m) :
  exists out, encode_to_boxed_slice m = Ok out /\ len out = encoded_len m /\ u32_at out 0 = len out /\
    login_text out 36 = units_bytes (encode_utf16 (hostname m)) /\
    login_text out 40 = units_bytes (encode_utf16 (username m)) /\
    map reveal (login_text out 44) = units_bytes (encode_utf16 (password m)) /\
    login_text out 48 = units_bytes (encode_utf16 (app_name m)) /\
    login_text out 52 = units_bytes (encode_utf16 (server_name m)) /\
    login_text out 68 = units_bytes (encode_utf16 (db_name m)) /\
    sub out (Z.to_nat (u16_at out 78)) (Z.to_nat (u16_at out 80)) = match integrated_security m with Some b => b | None => [] end /\
    match fed_auth_ext m with
    | Some ext => let o := u16_at out 56 in
        u32_at out (Z.to_nat o) = o + 4 /\ sub out (Z.to_nat (o + 4)) (Z.to_nat (len out - (o + 4))) = feature_block ext
    | None => True
    end.
Proof.
  pose proof (length_login_bytes m W) as Hl. pose proof (wf_login_size m W) as Hs. pose proof (len_login_data m W) as Hd.
  exists (login_bytes m). split; [apply encode_login_bytes, W|]. split; [exact Hl|]. split.
  { rewrite Hl. transitivity (le_val (le_bytes 4 (encoded_len m))); [reflexivity|]. rewrite le_val_bytes. apply wrap_small.
    unfold in_unsigned. cbn. lia. }
  pose proof (login_texts m W) as (T1 & T2 & T3 & T4 & T5 & T6 & T7).
  rewrite T3, reveal_password by apply units_bytes_wf.
  do 7 (split; [auto|]). destruct (fed_auth_ext m) eqn:Ef; [apply login_feature; assumption|exact I].
Qed.

(** A login with a token, and one with a password. *)
Definition sample_login : LoginMessage :=
  set_aad_token (ascii_str "eyJ0") true (Some (repeat 7 32))
    (set_readonly true (set_password (ascii_str "s3cret") (set_user_name (ascii_str "sa")
      (set_db_name (ascii_str "master") (login_new (ascii_str "box")))))).

Lemma login_layout_witness : wf_login sample_login /\
  exists out, encode_to_boxed_slice sample_login = Ok out /\ len out = encoded_len sample_login /\
    map reveal (login_text out 44) = units_bytes (encode_utf16 (ascii_str "s3cret")).
Proof.
  assert (W : wf_login sample_login).
  { split; [repeat constructor|reflexivity|reflexivity]. }
  split; [exact W|]. destruct (login_layout sample_login W) as (out & H1 & H2 & _ & _ & _ & H3 & _).
  exists out. auto.
Defined.
