(* ===== verification/Handshake.v ===== *)
(** * Handshake: from a configuration to a logged-in connection

    [Connection::establish], [prelogin] and [login] of [client/connection.rs]:
    which messages a configuration makes the client send before the first
    request, and inside which transport each of them travels.  The TLS
    handshake and the security packages (NTLM, Kerberos) are parameters. *)

From S2P Require Import Prelude Unicode Collation SqlRead SqlWrite Types Context Identifiers PreLogin Login Config.

(** The session a connection starts with. *)
Definition establish_context (c : Config) : Context :=
  set_lossy_codepage (cf_lossy_codepage c) (set_lossy_utf16 (cf_lossy_utf16 c) (set_spn (get_host c) (get_port c) context_new)).

(** The PRELOGIN message of [Connection::prelogin]. *)
Definition fed_auth_required (c : Config) : bool := match cf_auth c with AADToken _ => true | _ => false end.
Definition prelogin_request (c : Config) : PreloginMessage :=
  let m := prelogin_new in
  mkPreloginMessage (pl_version m) (pl_sub_build m) (cf_encryption c) (cf_instance_name c) (pl_thread_id m) (pl_mars m) (pl_activity_id m)
    (fed_auth_required c) (pl_nonce m).

(** What [prelogin] makes of the answer; [debug] is the [debug_assertions] of
    the build. *)
Definition prelogin_response (debug : bool) (c : Config) (response : bytes) : Res PreloginMessage :=
  res_bind (prelogin_decode response) (fun m =>
  if debug && negb (pl_thread_id m =? 0) then Panic
  else res_map (fun _ => m) (validate_instance m (cf_instance_name c))).

(** The LOGIN7 message before the credentials; [host] is what the operating
    system calls the machine. *)
Definition when {A B} (o : option A) (f : A -> B -> B) (b : B) : B := match o with Some a => f a b | None => b end.
Definition login_message (host : str) (c : Config) : LoginMessage :=
  let m := login_new host in
  let m := when (cf_database c) set_db_name m in
  let m := when (cf_host c) set_server_name m in
  let m := when (cf_application_name c) set_app_name m in
  let m := when (cf_client_name c) set_hostname m in
  let m := set_readonly (cf_readonly c) m in
  when (cf_packet_size c) set_login_packet_size m.

Section Login.
Context (debug oc tls : bool) (handshake : Res unit) (sspi : option bytes -> Res (option bytes)) (none_fails : bool) (host : str).

(** The first message of [login], by the method of authentication. *)
Definition login_first (c : Config) (server : PreloginMessage) : Res bytes :=
  let m := login_message host c in
  match cf_auth c with
  | SqlServer user pw => encode_to_boxed_slice (set_password pw (set_user_name user m))
  | AADToken token => encode_to_boxed_slice (set_aad_token token (pl_fed_auth_required server) (pl_nonce server) m)
  | NoAuth => encode_to_boxed_slice m
  | Windows _ _ _ | Integrated => res_bind (sspi None) (fun token => encode_to_boxed_slice (set_integrated_security token m))
  end.

(** The answer to the challenge of the server ([challenge] is the token
    [flush_sspi] found); a package that has no answer fails for NTLM and
    answers with an empty token for Kerberos. *)
Definition login_second (c : Config) (challenge : Res bytes) : Res (list bytes) :=
  match cf_auth c with
  | Windows _ _ _ | Integrated =>
      res_bind challenge (fun token =>
      res_bind (sspi (Some token)) (fun answer =>
      match answer with
      | Some answer => Ok [answer]
      | None => if none_fails then Err (Protocol "NTLM handshake produced no response to the server challenge") else Ok [[]]
      end))
  | _ => Ok []
  end.

(** The messages of [establish] with the transport each travels in, and the
    transport of the session. *)
Definition establish_messages (c : Config) (response : bytes) (challenge : Res bytes) : Res (list (MaybeTlsStream * bytes) * MaybeTlsStream) :=
  res_bind (initial_transport tls (cf_encryption c) handshake) (fun t0 =>
  let (sent, request) := prelogin_encode oc (prelogin_request c) [] in
  res_bind sent (fun _ =>
  res_bind (prelogin_response debug c response) (fun server =>
  res_bind (negotiated_encryption tls server (cf_encryption c)) (fun encryption =>
  res_bind (tls_handshake tls (cf_encryption c) encryption handshake t0) (fun t1 =>
  res_bind (login_first c server) (fun login =>
  let session := post_login_encryption tls encryption t1 in
  res_map (fun answers => ((t0, request) :: (t1, login) :: map (fun m => (session, m)) answers, session)) (login_second c challenge))))))).
End Login.

(** ** Lemmas *)

Section Lemmas.
Context (debug oc tls : bool) (handshake : Res unit) (sspi : option bytes -> Res (option bytes)) (none_fails : bool) (host : str).

(** The messages of a handshake that went on to the login. *)
Lemma establish_inv c response challenge msgs session :
  establish_messages debug oc tls handshake sspi none_fails host c response challenge = Ok (msgs, session) ->
  exists t0 t1 request login answers server, msgs = (t0, request) :: (t1, login) :: map (fun m => (session, m)) answers /\
    login_second sspi none_fails c challenge = Ok answers /\
    prelogin_encode oc (prelogin_request c) [] = (Ok tt, request) /\ prelogin_response debug c response = Ok server /\
    establish_encryption tls (cf_encryption c) handshake server = Ok (t0, t1, session) /\ login_first sspi host c server = Ok login.
Proof.
  intros H. unfold establish_messages in H. apply res_bind_ok in H as (t0 & E0 & H). destruct (prelogin_encode oc (prelogin_request c) []) as [sent request].
  apply res_bind_ok in H as ([] & -> & H). apply res_bind_ok in H as (server & Es & H). apply res_bind_ok in H as (e & Ee & H).
  apply res_bind_ok in H as (t1 & E1 & H). apply res_bind_ok in H as (login & El & H). apply res_map_ok in H as (answers & Ea & H). injection H as <- <-.
  exists t0, t1, request, login, answers, server. split; [reflexivity|]. split; [exact Ea|]. split; [reflexivity|]. split; [exact Es|]. split; [|exact El].
  unfold establish_encryption. rewrite E0. cbn [res_bind]. rewrite Ee. cbn [res_bind]. rewrite E1. reflexivity.
Qed.

(** The texts of the LOGIN7 message, from the configuration. *)
Lemma login_message_texts c :
  let m := login_message host c in
  hostname m = default host (cf_client_name c) /\ app_name m = default (ascii_str "tiberius") (cf_application_name c) /\
  server_name m = default [] (cf_host c) /\ db_name m = default [] (cf_database c) /\
  login_packet_size m = default 4096 (cf_packet_size c) /\ integrated_security m = None /\ fed_auth_ext m = None.
Proof.
  unfold login_message. destruct (cf_database c), (cf_host c), (cf_application_name c), (cf_client_name c), (cf_packet_size c); cbn; auto 10.
Qed.
End Lemmas.

(** ** Properties *)


(** C23: a connection string that does not mention encryption keeps the login
    out of the clear: with a TLS backend, whatever the rest of the string, the
    method of authentication and the answers of the server are, if a handshake
    with its configuration goes on to the login then every message but the
    PRELOGIN, the answer to a challenge included, and the session are inside
    TLS. *)
Theorem ado_login_protected (to_lowercase : str -> str) (b : Build) (text : str) (dict : gmap str str) (c : Config)
  (debug oc : bool) (handshake : Res unit) (sspi : option bytes -> Res (option bytes)) (none_fails : bool) (host : str) (response : bytes)
  (challenge : Res bytes) (msgs : list (MaybeTlsStream * bytes)) (session : MaybeTlsStream)
  (Ht : b_tls b = true) (Hp : ado_parse text = Ok dict) (Hn : dict !! ascii_str "encrypt" = None) (Hc : from_ado_string to_lowercase b text = Ok c)
  (Hh : handshake <> Panic) (H : establish_messages debug oc (b_tls b) handshake sspi none_fails host c response challenge = Ok (msgs, session)) :
  exists t0 request credentials, msgs = (t0, request) :: credentials /\ credentials <> [] /\ Forall (fun '(t, _) => t = TlsStream) credentials /\ session = TlsStream.
Proof.
  destruct (establish_inv _ _ _ _ _ _ _ _ _ _ _ _ H) as (t0 & t1 & request & login & answers & server & -> & _ & _ & _ & E & _).
  exists t0, request, ((t1, login) :: map (fun m => (session, m)) answers).
  unfold from_ado_string in Hc. rewrite Hp in Hc. cbn [res_bind] in Hc.
  pose proof (from_config_inv to_lowercase b dict (ado_server_ends dict)) as F. rewrite Hc in F. destruct F as (Fe & _). apply cs_encrypt_optout in Fe.
  unfold key in Fe. cbn [cs_dict AdoNetConfig] in Fe. rewrite Hn, Ht in Fe.
  pose proof (never_downgraded (b_tls b) (cf_encryption c) handshake server Hh) as N. rewrite E, Fe in N. destruct N as [[-> ->] _].
  split; [reflexivity|]. split; [discriminate|]. split; [|reflexivity]. constructor; [reflexivity|]. apply List.Forall_forall. intros [t x] Hx.
  apply in_map_iff in Hx as (y & Hy & _). congruence.
Qed.

(** ** Witnesses *)

Definition sample_text : str := ascii_str "server=tcp:db,1433;uid=sa;pwd={p;ss}".
Definition sample_dict : gmap str str :=
  <[ascii_str "pwd" := ascii_str "p;ss"]> (<[ascii_str "uid" := ascii_str "sa"]> (<[ascii_str "server" := ascii_str "tcp:db,1433"]> ∅)).
Definition sample_config : Config :=
  with_auth (SqlServer (ascii_str "sa") (ascii_str "p;ss")) (with_port 1433 (with_host (ascii_str "db") (config_new full_build))).
Definition sample_response : bytes := snd (prelogin_encode true sample_prelogin []).
Definition sample_sspi (_ : option bytes) : Res (option bytes) := Ok None.

Lemma sample_config_ok : ado_parse sample_text = Ok sample_dict /\ from_ado_string id full_build sample_text = Ok sample_config.
Proof. split; vm_compute; reflexivity. Qed.

Lemma sample_establish : exists request login,
  establish_messages false true true (Ok tt) sample_sspi true (ascii_str "box") sample_config sample_response (Ok []) = Ok ([(Raw, request); (TlsStream, login)], TlsStream).
Proof. eexists _, _. vm_compute. reflexivity. Qed.


Lemma ado_login_protected_witness : exists request login,
  establish_messages false true true (Ok tt) sample_sspi true (ascii_str "box") sample_config sample_response (Ok []) = Ok ([(Raw, request); (TlsStream, login)], TlsStream) /\
  exists t0 request' credentials, [(Raw, request); (TlsStream, login)] = (t0, request') :: credentials /\ credentials <> [] /\
    Forall (fun '(t, _) => t = TlsStream) credentials /\ TlsStream = TlsStream.
Proof.
  destruct sample_establish as (request & login & E). exists request, login. split; [exact E|]. destruct sample_config_ok as [P C].
  exact (ado_login_protected id full_build sample_text sample_dict sample_config false true (Ok tt) sample_sspi true (ascii_str "box") sample_response (Ok []) _ _
    eq_refl P ltac:(vm_compute; reflexivity) C ltac:(discriminate) E).
Defined.

(** A server that puts a thread id in its PRELOGIN answer panics a build with
    debug assertions. *)
Lemma thread_id_panics : exists response,
  prelogin_response false sample_config response = Ok (received (mkPreloginMessage 1 2 EncryptionLevel.On None 7 false None false None)) /\
  prelogin_response true sample_config response = Panic.
Proof. exists (snd (prelogin_encode true (mkPreloginMessage 1 2 EncryptionLevel.On None 7 false None false None) [])). split; vm_compute; reflexivity. Qed.
