(* ===== verification/TokenStream.v ===== *)
(** * TokenStream: the response as a stream of tokens, [tds/stream/token.rs]

    The state of a [TokenStream] is the rest of the response, the context of
    the connection and the first error of the server.  [next_token] is one
    round of [try_unfold]; [flush_done] and its siblings are the loops that
    drain a response. *)

From S2P Require Import Prelude Unicode Collation SqlRead SqlWrite Types TypeInfoCodec NumericCodec Temporal Money Context ColumnDecode ColumnEncode ColumnRoundtrip Metadata Rows Tokens.

Module ReceivedToken.
Inductive ReceivedToken :=
| NewResultset (m : TokenColMetaData)
| NewAltResultset (m : TokenAltMetaData)
| Row (r : TokenRow)
| AltRow (r : TokenAltRow)
| Done (d : TokenDone)
| DoneInProc (d : TokenDone)
| DoneProc (d : TokenDone)
| ReturnStatus (n : Z)
| ReturnValue (v : TokenReturnValue)
| Order (l : list Z)
| ColInfo (l : list ColInfo)
| TabName (l : list (list str))
| EnvChange (e : TokenEnvChange)
| Info (i : TokenError)
| LoginAck (a : TokenLoginAck)
| Sspi (b : bytes)
| FeatureExtAck (l : list FedAuthAck)
| SessionState (s : TokenSessionState)
| FedAuthInfo (i : TokenFedAuthInfo)
| Error (e : TokenError).
End ReceivedToken.
Notation ReceivedToken := ReceivedToken.ReceivedToken.

(** [TokenStream]: [conn] is its unread bytes and its context. *)
Record Stream := mkStream { st_buf : bytes; st_ctx : Context; last_error : option Error }.

(** A decoder, generic in what it reads from. *)
Definition Decoder (A : Type) : Type := forall R, SqlReadBytes R -> Context -> M R A.

(** What the steps of a [TokenStream] do with [self.conn] and
    [self.last_error]; they are written over any stream that can do it. *)
Class TokenSource (St : Type) := {
  (** a decoder run on the connection *)
  on_conn : forall {A}, Decoder A -> M St A;
  (** [self.conn.context()] *)
  conn_context : St -> Context;
  (** [self.conn.context_mut().f()] *)
  update_ctx : (Context -> Context) -> M St unit;
  (** keep the error if it is the first *)
  remember_error : Error -> M St unit;
}.

(** The stream over bytes. *)
#[export] Instance bytes_stream : TokenSource Stream := {
  on_conn A c := fun s => match c bytes _ (st_ctx s) (st_buf s) with (r, b) => (r, mkStream b (st_ctx s) (last_error s)) end;
  conn_context := st_ctx;
  update_ctx f := fun s => (Ok tt, mkStream (st_buf s) (f (st_ctx s)) (last_error s));
  remember_error e := fun s => (Ok tt, mkStream (st_buf s) (st_ctx s) (match last_error s with None => Some e | Some x => Some x end));
}.

Section Tokens.
Context {ER : EncodingRs} {St : Type} `{TokenSource St}.

Definition get_col_metadata : M St ReceivedToken :=
  m <- on_conn (fun R SR _ => col_metadata_decode) ;;
  update_ctx (set_last_meta m) ;;
  ret (ReceivedToken.NewResultset m).

Definition get_alt_col_metadata : M St ReceivedToken :=
  m <- on_conn (fun R SR _ => alt_metadata_decode) ;;
  update_ctx (set_alt_meta m) ;;
  ret (ReceivedToken.NewAltResultset m).

Definition get_alt_row : M St ReceivedToken :=
  id <- on_conn (fun R SR _ => read_u16_le) ;;
  m <- (fun s => (ok_or (alt_meta id (conn_context s)) (Protocol "ALTROW for unknown compute id"), s)) ;;
  r <- on_conn (fun R SR ctx => alt_row_decode ctx id m) ;;
  ret (ReceivedToken.AltRow r).

Definition get_row : M St ReceivedToken :=
  r <- on_conn (fun R SR ctx => row_decode ctx) ;; ret (ReceivedToken.Row r).
Definition get_nbc_row : M St ReceivedToken :=
  r <- on_conn (fun R SR ctx => nbc_row_decode ctx) ;; ret (ReceivedToken.Row r).
Definition get_return_value : M St ReceivedToken :=
  v <- on_conn (fun R SR ctx => return_value_decode ctx) ;; ret (ReceivedToken.ReturnValue v).
Definition get_return_status : M St ReceivedToken :=
  n <- on_conn (fun R SR _ => read_u32_le) ;; ret (ReceivedToken.ReturnStatus n).

(** The first error of the response is kept. *)
Definition get_error : M St ReceivedToken :=
  e <- on_conn (fun R SR ctx => error_info_decode ctx) ;;
  remember_error (Server e) ;;
  ret (ReceivedToken.Error e).

Definition get_order : M St ReceivedToken :=
  l <- on_conn (fun R SR _ => order_decode) ;; ret (ReceivedToken.Order l).
Definition get_col_info : M St ReceivedToken :=
  l <- on_conn (fun R SR _ => col_info_decode) ;; ret (ReceivedToken.ColInfo l).
Definition get_tab_name : M St ReceivedToken :=
  l <- on_conn (fun R SR _ => tab_name_decode) ;; ret (ReceivedToken.TabName l).
Definition get_done_value : M St ReceivedToken :=
  d <- on_conn (fun R SR ctx => done_decode ctx) ;; ret (ReceivedToken.Done d).
Definition get_done_proc_value : M St ReceivedToken :=
  d <- on_conn (fun R SR ctx => done_decode ctx) ;; ret (ReceivedToken.DoneProc d).
Definition get_done_in_proc_value : M St ReceivedToken :=
  d <- on_conn (fun R SR ctx => done_decode ctx) ;; ret (ReceivedToken.DoneInProc d).

(** [get_env_change]: the packet size is checked before it is used. *)
Definition get_env_change : M St ReceivedToken :=
  change <- on_conn (fun R SR _ => env_change_decode) ;;
  match change with
  | TokenEnvChange.PacketSize _ new_size =>
      if (512 <=? new_size) && (new_size <=? 32767) then update_ctx (set_packet_size new_size)
      else fail (Protocol "server requested an invalid packet size")
  | TokenEnvChange.BeginTransaction desc => update_ctx (set_transaction_descriptor desc)
  | TokenEnvChange.CommitTransaction | TokenEnvChange.RollbackTransaction | TokenEnvChange.DefectTransaction =>
      update_ctx (set_transaction_descriptor (repeat 0 8))
  | _ => ret tt
  end ;;
  ret (ReceivedToken.EnvChange change).

Definition get_info : M St ReceivedToken :=
  i <- on_conn (fun R SR ctx => error_info_decode ctx) ;; ret (ReceivedToken.Info i).

Definition get_login_ack : M St ReceivedToken :=
  a <- on_conn (fun R SR _ => login_ack_decode) ;;
  update_ctx (set_version (la_tds_version a)) ;;
  ret (ReceivedToken.LoginAck a).

Definition get_feature_ext_ack : M St ReceivedToken :=
  l <- on_conn (fun R SR _ => feature_ext_ack_decode) ;; ret (ReceivedToken.FeatureExtAck l).
Definition get_session_state : M St ReceivedToken :=
  t <- on_conn (fun R SR _ => session_state_decode) ;; ret (ReceivedToken.SessionState t).
Definition get_fed_auth_info : M St ReceivedToken :=
  i <- on_conn (fun R SR _ => fed_auth_info_decode) ;; ret (ReceivedToken.FedAuthInfo i).
Definition get_sspi : M St ReceivedToken :=
  b <- on_conn (fun R SR _ => sspi_decode) ;; ret (ReceivedToken.Sspi b).

(** The match of [try_unfold] on the token type. *)
Definition get_token (ty : TokenType) : M St ReceivedToken :=
  match ty with
  | TokenType.ReturnStatus => get_return_status
  | TokenType.ColMetaData => get_col_metadata
  | TokenType.AltMetaData => get_alt_col_metadata
  | TokenType.Row => get_row
  | TokenType.AltRow => get_alt_row
  | TokenType.NbcRow => get_nbc_row
  | TokenType.Done => get_done_value
  | TokenType.DoneProc => get_done_proc_value
  | TokenType.DoneInProc => get_done_in_proc_value
  | TokenType.ReturnValue => get_return_value
  | TokenType.Error => get_error
  | TokenType.Order => get_order
  | TokenType.ColInfo => get_col_info
  | TokenType.TabName => get_tab_name
  | TokenType.EnvChange => get_env_change
  | TokenType.Info => get_info
  | TokenType.LoginAck => get_login_ack
  | TokenType.Sspi => get_sspi
  | TokenType.SessionState => get_session_state
  | TokenType.FedAuthInfo => get_fed_auth_info
  | TokenType.FeatureExtAck => get_feature_ext_ack
  end.

(** A round of [try_unfold] past the check for the end: the type byte and the
    token. *)
Definition read_token : M St (option ReceivedToken) :=
  ty_byte <- on_conn (fun R SR _ => read_u8) ;;
  match token_try_from ty_byte with
  | None => fail (Protocol "invalid token type")
  | Some ty => t <- get_token ty ;; ret (Some t)
  end.
End Tokens.

Section Rounds.
Context {ER : EncodingRs}.

(** One round of [try_unfold]: [Ok None] ends the stream, and an error of the
    server is raised when the response is over. *)
Definition next_token : M Stream (option ReceivedToken) := fun s =>
  match st_buf s with
  | [] => match last_error s with None => (Ok None, s) | Some e => (Err e, s) end
  | _ => read_token s
  end.
End Rounds.

(** The loops over a token stream; [next] is one round of it. *)
Section Drain.
Context {St : Type} (next : M St (option ReceivedToken)).

(** [flush_done]: to the first DONE; the first error, else the routing, wins
    over it. *)
Fixpoint flush_done (fuel : nat) (err : option TokenError) (routing : option (str * Z)) : M St TokenDone :=
  match fuel with
  | O => out_of_fuel
  | S fuel =>
      t <- next ;;
      match t with
      | Some (ReceivedToken.Error e) =>
          flush_done fuel (match err with None => Some e | Some x => Some x end) routing
      | Some (ReceivedToken.Done d) =>
          match err, routing with
          | Some e, _ => fail (Server e)
          | None, Some (host, port) => fail (Routing host port)
          | None, None => ret d
          end
      | Some (ReceivedToken.EnvChange (TokenEnvChange.Routing host port)) => flush_done fuel err (Some (host, port))
      | Some _ => flush_done fuel err routing
      | None => fail (Protocol "Never got DONE token.")
      end
  end.

(** [flush_done_attention] *)
Fixpoint flush_done_attention (fuel : nat) : M St TokenDone :=
  match fuel with
  | O => out_of_fuel
  | S fuel =>
      t <- next ;;
      match t with
      | Some (ReceivedToken.Done d) | Some (ReceivedToken.DoneProc d) | Some (ReceivedToken.DoneInProc d) =>
          if done_is_attention d then ret d else flush_done_attention fuel
      | Some _ => flush_done_attention fuel
      | None => fail (Protocol "Never got a DONE token acknowledging the Attention signal.")
      end
  end.

(** [flush_sspi] *)
Fixpoint flush_sspi (fuel : nat) (err : option TokenError) : M St bytes :=
  match fuel with
  | O => out_of_fuel
  | S fuel =>
      t <- next ;;
      match t with
      | Some (ReceivedToken.Error e) => flush_sspi fuel (match err with None => Some e | Some x => Some x end)
      | Some (ReceivedToken.Sspi b) => ret b
      | Some _ => flush_sspi fuel err
      | None => match err with Some e => fail (Server e) | None => fail (Protocol "Never got SSPI token.") end
      end
  end.
End Drain.

Section Stream.
Context {ER : EncodingRs}.

(** ** The invariant *)

(** Unread bytes are bytes, the context is well formed, and a remembered
    error is one of the server's. *)
Definition wf_stream (s : Stream) : Prop :=
  wf_bytes (st_buf s) /\ wf_context (st_ctx s) /\
  match last_error s with None => True | Some (Server _) => True | Some _ => False end.

(** What a step of the stream guarantees: no panic, the invariant, and a
    prefix of the bytes consumed. *)
Definition st_safe {A} (c : M Stream A) (Q : A -> Prop) : Prop :=
  forall s, wf_stream s -> exists r s', c s = (r, s') /\ res_safe Q r /\ wf_stream s' /\ suffix (st_buf s') (st_buf s).

Lemma st_safe_bind {A B} (c : M Stream A) (k : A -> M Stream B) Q R :
  st_safe c Q -> (forall a, Q a -> st_safe (k a) R) -> st_safe (bind c k) R.
Proof.
  intros Hc Hk s W. destruct (Hc s W) as (r & s1 & E & Hr & W1 & S1). unfold bind. rewrite E.
  destruct r as [a|e| |]; cbn in Hr; try tauto; [|exists (Err e), s1; auto].
  destruct (Hk a Hr s1 W1) as (r2 & s2 & E2 & Hr2 & W2 & S2). exists r2, s2. rewrite E2. repeat split; auto; try apply W2.
  etrans; eauto.
Qed.

Lemma st_safe_ret {A} (a : A) (Q : A -> Prop) : Q a -> st_safe (ret a) Q.
Proof. intros H s W. exists (Ok a), s. auto. Qed.

Lemma st_safe_fail {A} e (Q : A -> Prop) : st_safe (fail e) Q.
Proof. intros s W. exists (Err e), s. repeat split; try apply W. reflexivity. Qed.

Lemma on_bytes {A} (c : Decoder A) s :
  on_conn c s = match c bytes bytes_source (st_ctx s) (st_buf s) with (r, b) => (r, mkStream b (st_ctx s) (last_error s)) end.
Proof. reflexivity. Qed.

Lemma st_safe_on_conn {A} (c : Decoder A) Q :
  (forall ctx, wf_context ctx -> safe (c bytes bytes_source ctx) Q) -> st_safe (on_conn c) Q.
Proof.
  intros Hc s (Wb & Wc & We). rewrite on_bytes.
  destruct (Hc (st_ctx s) Wc (st_buf s) Wb) as (r & b & -> & Hr & Hs).
  exists r. eexists. split; [reflexivity|]. split; [exact Hr|]. split; [|exact Hs].
  repeat split; try apply Wc; cbn; try exact We. eapply suffix_wf; eauto.
Qed.

Lemma st_safe_update f : (forall c, wf_context c -> wf_context (f c)) -> st_safe (update_ctx f) (fun _ => True).
Proof.
  intros Hf s (Wb & Wc & We). eexists (Ok tt), _. split; [reflexivity|].
  split; [exact I|]. split; [|reflexivity]. split; [exact Wb|split; [apply Hf, Wc|exact We]].
Qed.

Lemma st_safe_simple {A} (c : Decoder A) (Q : A -> Prop) (f : A -> ReceivedToken) :
  (forall ctx, wf_context ctx -> safe (c bytes bytes_source ctx) Q) ->
  st_safe (a <- on_conn c ;; ret (f a)) (fun _ => True).
Proof.
  intros H. eapply st_safe_bind; [apply st_safe_on_conn, H|intros a _]. apply st_safe_ret. exact I.
Qed.

Lemma st_safe_env_change : st_safe get_env_change (fun _ => True).
Proof.
  eapply st_safe_bind; [apply st_safe_on_conn; intros; apply safe_env_change|intros e He].
  eapply st_safe_bind with (Q := fun _ => True); [|intros _ _; apply st_safe_ret; exact I].
  assert (Z8 : wf_bytes (repeat 0 8)) by (repeat constructor; lia).
  destruct e; cbn [wf_env_change] in He; try (apply st_safe_ret; exact I).
  - destruct (Z.leb_spec 512 new), (Z.leb_spec new 32767); cbn [andb]; try apply st_safe_fail.
    apply st_safe_update. intros c Wc. apply wf_set_packet_size; [unfold MIN_PACKET_SIZE, MAX_PACKET_SIZE; lia|exact Wc].
  - apply st_safe_update. intros c Wc. apply wf_set_transaction_descriptor; [apply He|apply He|exact Wc].
  - apply st_safe_update. intros c Wc. apply wf_set_transaction_descriptor; auto.
  - apply st_safe_update. intros c Wc. apply wf_set_transaction_descriptor; auto.
  - apply st_safe_update. intros c Wc. apply wf_set_transaction_descriptor; auto.
Qed.

Lemma st_safe_error : st_safe get_error (fun _ => True).
Proof.
  eapply st_safe_bind; [apply st_safe_on_conn; intros; apply safe_error_info|intros e _].
  eapply st_safe_bind with (Q := fun _ => True); [|intros _ _; apply st_safe_ret; exact I].
  intros s (Wb & Wc & We). eexists (Ok tt), _. split; [reflexivity|]. split; [exact I|]. split; [|reflexivity].
  split; [exact Wb|split; [exact Wc|]]. cbn. destruct (last_error s); [exact We|exact I].
Qed.

Lemma st_safe_alt_row : st_safe get_alt_row (fun _ => True).
Proof.
  eapply st_safe_bind; [apply st_safe_on_conn; intros; apply safe_u16_le|intros id _].
  eapply st_safe_bind with (Q := wf_alt_meta).
  - intros s W. eexists _, s. split; [reflexivity|]. split; [|split; [exact W|reflexivity]].
    unfold alt_meta. cbn [conn_context bytes_stream]. destruct (alt_metas (st_ctx s) !! id) as [m|] eqn:E; [|exact I].
    destruct W as (_ & Wc & _). exact (wf_alt_metas _ Wc id m E).
  - intros m Hm. eapply st_safe_simple. intros. apply safe_alt_row, Hm.
Qed.

Lemma st_safe_get_token ty : st_safe (get_token ty) (fun _ => True).
Proof.
  destruct ty; cbn [get_token];
    try (eapply st_safe_simple; intros ctx W;
         first [ apply safe_u32_le | apply safe_row, W | apply safe_nbc_row, W | apply safe_done | apply safe_return_value
               | apply safe_order | apply safe_col_info | apply safe_tab_name | apply safe_error_info | apply safe_sspi
               | apply safe_session_state | apply safe_fed_auth_info | apply safe_feature_ext_ack ]).
  - eapply st_safe_bind; [apply st_safe_on_conn; intros; apply safe_alt_metadata|intros m Hm].
    eapply st_safe_bind; [apply st_safe_update; intros; apply wf_set_alt_meta; assumption|intros _ _].
    apply st_safe_ret. exact I.
  - eapply st_safe_bind; [apply st_safe_on_conn; intros; apply safe_col_metadata|intros m Hm].
    eapply st_safe_bind; [apply st_safe_update; intros; apply wf_set_last_meta; assumption|intros _ _].
    apply st_safe_ret. exact I.
  - apply st_safe_error.
  - eapply st_safe_bind; [apply st_safe_on_conn; intros; apply safe_login_ack|intros a _].
    eapply st_safe_bind; [apply st_safe_update; intros; apply wf_set_version; assumption|intros _ _].
    apply st_safe_ret. exact I.
  - apply st_safe_alt_row.
  - apply st_safe_env_change.
Qed.

(** A round that yields a token has used up at least its type byte. *)
Lemma next_token_safe s : wf_stream s -> exists r s',
  next_token s = (r, s') /\ res_safe (fun _ => True) r /\ wf_stream s' /\ suffix (st_buf s') (st_buf s) /\
  (forall t, r = Ok (Some t) -> (length (st_buf s') < length (st_buf s))%nat).
Proof.
  intros W. unfold next_token, read_token. destruct s as [[|b buf] ctx le]; cbn [st_buf last_error].
  - destruct le as [e|]; eexists _, _; (split; [reflexivity|]); (repeat split; try apply W); try reflexivity; discriminate.
  - destruct W as (Wb & Wc & We). cbn in Wb, Wc, We. inversion_clear Wb as [|? ? Hb W']. unfold is_byte in Hb.
    assert (E : read_u8 (b :: buf) = (Ok b, buf)) by (apply (decodes_u8_cons b); unfold in_unsigned; lia).
    rewrite bind_run, on_bytes. cbn [st_buf st_ctx last_error]. rewrite E.
    assert (W1 : wf_stream (mkStream buf ctx le)) by (split; [exact W'|split; assumption]).
    assert (Sx : suffix buf (b :: buf)) by (exists [b]; reflexivity).
    destruct (token_try_from b) as [ty|].
    + destruct (st_safe_get_token ty _ W1) as (r & s' & Er & Hr & W2 & S2).
      rewrite bind_run, Er. pose proof (suffix_length _ _ S2) as L. cbn in L.
      destruct r; cbn in Hr; try tauto; eexists _, s'; (split; [reflexivity|]);
        (split; [exact I|]); (split; [exact W2|]); (split; [etrans; eauto|]); cbn; intros ? ?; [lia|discriminate].
    + eexists _, _. split; [reflexivity|]. split; [exact I|]. split; [exact W1|]. split; [exact Sx|discriminate].
Qed.

(** ** The context as a replay of the tokens *)

(** What a token means for the session. *)
Definition apply_token (t : ReceivedToken) (c : Context) : Context :=
  match t with
  | ReceivedToken.NewResultset m => set_last_meta m c
  | ReceivedToken.NewAltResultset m => set_alt_meta m c
  | ReceivedToken.LoginAck a => set_version (la_tds_version a) c
  | ReceivedToken.EnvChange (TokenEnvChange.PacketSize _ n) => set_packet_size n c
  | ReceivedToken.EnvChange (TokenEnvChange.BeginTransaction d) => set_transaction_descriptor d c
  | ReceivedToken.EnvChange
      (TokenEnvChange.CommitTransaction | TokenEnvChange.RollbackTransaction | TokenEnvChange.DefectTransaction) =>
      set_transaction_descriptor (repeat 0 8) c
  | _ => c
  end.

(** The first ERROR token of a list. *)
Fixpoint first_error (ts : list ReceivedToken) : option TokenError :=
  match ts with
  | [] => None
  | ReceivedToken.Error e :: _ => Some e
  | _ :: ts => first_error ts
  end.

Definition or_first (a b : option Error) : option Error := match a with Some _ => a | None => b end.

Lemma on_conn_ok {A} (c : Decoder A) s a s' :
  on_conn c s = (Ok a, s') -> st_ctx s' = st_ctx s /\ last_error s' = last_error s.
Proof. rewrite on_bytes. destruct (c _ _ _ _) as [r b]. intros [= _ <-]. auto. Qed.

Lemma simple_ok {A} (c : Decoder A) (f : A -> ReceivedToken) s t s' :
  (a <- on_conn c ;; ret (f a)) s = (Ok t, s') ->
  (exists a, t = f a) /\ st_ctx s' = st_ctx s /\ last_error s' = last_error s.
Proof.
  intros H. apply bind_ok_inv in H as (a & s1 & E & [= <- <-]). apply on_conn_ok in E. eauto.
Qed.

Definition token_effect (t : ReceivedToken) (s s' : Stream) : Prop :=
  st_ctx s' = apply_token t (st_ctx s) /\
  last_error s' = or_first (last_error s) (option_map Server (first_error [t])).

Lemma get_token_effect ty s t s' : get_token ty s = (Ok t, s') -> token_effect t s s'.
Proof.
  intros H. unfold token_effect, or_first.
  destruct ty; cbn [get_token] in H;
    try (apply simple_ok in H as ((a & ->) & -> & ->); cbn; destruct (last_error s); auto; fail).
  all: apply bind_ok_inv in H as (x & s1 & E1 & H); apply on_conn_ok in E1 as [C1 L1]; rewrite <- C1, <- L1; clear C1 L1.
  - injection H as <- <-. cbn. destruct (last_error s1); auto.
  - injection H as <- <-. cbn. destruct (last_error s1); auto.
  - injection H as <- <-. cbn. destruct (last_error s1); auto.
  - injection H as <- <-. cbn. destruct (last_error s1); auto.
  - apply bind_ok_inv in H as (m & s2 & E2 & H). injection E2 as _ <-.
    apply simple_ok in H as ((a & ->) & -> & ->). cbn. destruct (last_error s1); auto.
  - apply bind_ok_inv in H as (u & s2 & E2 & [= <- <-]).
    destruct x; try (injection E2 as <- <-; cbn; destruct (last_error s1); auto; fail).
    destruct (_ && _); [|discriminate]. injection E2 as <- <-. cbn. destruct (last_error s1); auto.
Qed.

Lemma next_token_effect s t s' : next_token s = (Ok (Some t), s') -> token_effect t s s'.
Proof.
  unfold next_token, read_token. destruct (st_buf s) as [|b buf] eqn:Eb; [destruct (last_error s); discriminate|].
  intros H. apply bind_ok_inv in H as (x & s1 & E1 & H). apply on_conn_ok in E1 as [C1 L1].
  destruct (token_try_from x) as [ty|]; [|discriminate].
  apply bind_ok_inv in H as (y & s2 & E2 & [= <- <-]). apply get_token_effect in E2.
  unfold token_effect in *. rewrite <- C1, <- L1. exact E2.
Qed.

(** The tokens a stream yields, one after the other. *)
Inductive yields : Stream -> list ReceivedToken -> Stream -> Prop :=
| yields_nil s : yields s [] s
| yields_cons s t s1 ts s2 : next_token s = (Ok (Some t), s1) -> yields s1 ts s2 -> yields s (t :: ts) s2.

Lemma first_error_cons t ts : option_map Server (first_error (t :: ts)) =
  or_first (option_map Server (first_error [t])) (option_map Server (first_error ts)).
Proof. destruct t; reflexivity. Qed.

Lemma yields_effect s ts s' : yields s ts s' ->
  st_ctx s' = fold_left (fun c t => apply_token t c) ts (st_ctx s) /\
  last_error s' = or_first (last_error s) (option_map Server (first_error ts)).
Proof.
  induction 1 as [s|s t s1 ts s2 E _ [IC IE]]; [destruct (last_error s) eqn:L; auto|].
  apply next_token_effect in E as [C L]. cbn [fold_left]. rewrite IC, IE, C, L. split; [reflexivity|].
  rewrite (first_error_cons t ts). destruct (last_error s); reflexivity.
Qed.

Lemma yields_wf s ts s' : yields s ts s' -> wf_stream s -> wf_stream s' /\ suffix (st_buf s') (st_buf s).
Proof.
  induction 1 as [s|s t s1 ts s2 E _ IH]; intros W; [auto|].
  destruct (next_token_safe s W) as (r & s' & E' & _ & W' & S' & _). rewrite E in E'. injection E' as <- <-.
  destruct (IH W') as [W2 S2]. split; [exact W2|]. etrans; eauto.
Qed.

(** ** The loops *)

Definition is_done (t : ReceivedToken) : bool := match t with ReceivedToken.Done _ => true | _ => false end.

(** The last routing request of a list, [r] before it. *)
Definition last_routing (ts : list ReceivedToken) (r : option (str * Z)) : option (str * Z) :=
  fold_left (fun r t => match t with ReceivedToken.EnvChange (TokenEnvChange.Routing h p) => Some (h, p) | _ => r end) ts r.

(** What [flush_done] makes of the tokens [ts] before the round that ended
    it and of the outcome of that round. *)
Definition done_verdict (ts : list ReceivedToken) (err : option TokenError) (routing : option (str * Z))
    (r : Res (option ReceivedToken)) : Res TokenDone :=
  match r with
  | Ok (Some (ReceivedToken.Done d)) =>
      match err, first_error ts, last_routing ts routing with
      | Some e, _, _ => Err (Server e)
      | None, Some e, _ => Err (Server e)
      | None, None, Some (h, p) => Err (Routing h p)
      | None, None, None => Ok d
      end
  | Ok _ => Err (Protocol "Never got DONE token.")
  | Err e => Err e
  | Panic => Panic
  | OutOfFuel => OutOfFuel
  end.

Lemma flush_done_runs fuel : forall s err routing, wf_stream s -> (length (st_buf s) < fuel)%nat ->
  exists ts s1 r s2, yields s ts s1 /\ forallb (fun t => negb (is_done t)) ts = true /\
    next_token s1 = (r, s2) /\ (forall t, r = Ok (Some t) -> is_done t = true) /\ res_safe (fun _ => True) r /\
    flush_done next_token fuel err routing s = (done_verdict ts err routing r, s2).
Proof.
  induction fuel as [|fuel IH]; intros s err routing W Hf; [lia|].
  destruct (next_token_safe s W) as (r & s1 & E & Hr & W1 & _ & P).
  assert (Stop : (forall t, r = Ok (Some t) -> is_done t = true) ->
    flush_done next_token (S fuel) err routing s = (done_verdict [] err routing r, s1) ->
    exists ts s1 r s2, yields s ts s1 /\ forallb (fun t => negb (is_done t)) ts = true /\
    next_token s1 = (r, s2) /\ (forall t, r = Ok (Some t) -> is_done t = true) /\ res_safe (fun _ => True) r /\
    flush_done next_token (S fuel) err routing s = (done_verdict ts err routing r, s2)).
  { intros Hd Ev. exists [], s, r, s1. repeat split; auto. constructor. }
  assert (Go : forall t err' routing', r = Ok (Some t) -> is_done t = false ->
    flush_done next_token (S fuel) err routing s = flush_done next_token fuel err' routing' s1 ->
    (forall ts r, done_verdict ts err' routing' r = done_verdict (t :: ts) err routing r) ->
    exists ts s1 r s2, yields s ts s1 /\ forallb (fun t => negb (is_done t)) ts = true /\
    next_token s1 = (r, s2) /\ (forall t, r = Ok (Some t) -> is_done t = true) /\ res_safe (fun _ => True) r /\
    flush_done next_token (S fuel) err routing s = (done_verdict ts err routing r, s2)).
  { intros t err' routing' -> Nd Ev V. specialize (P t eq_refl).
    destruct (IH s1 err' routing' W1 ltac:(lia)) as (ts & s2 & r2 & s3 & Y & F & N & D & Sf & R).
    exists (t :: ts), s2, r2, s3. split; [econstructor; eauto|]. split; [cbn; rewrite Nd; exact F|].
    repeat split; auto. rewrite Ev, R, V. reflexivity. }
  destruct r as [[t|]|e| |]; try contradiction.
  - destruct (is_done t) eqn:Nd.
    + apply Stop; [intros ? [= <-]; exact Nd|]. destruct t; try discriminate Nd. cbn [flush_done]. rewrite bind_run, E.
      cbn. destruct err, routing as [[h p]|]; reflexivity.
    + destruct t; try discriminate Nd;
        try (eapply Go; [reflexivity|reflexivity|cbn [flush_done]; rewrite bind_run, E; reflexivity|intros; reflexivity]).
      * destruct e; eapply Go; try reflexivity; try (cbn [flush_done]; rewrite bind_run, E; reflexivity); intros; reflexivity.
      * eapply Go; [reflexivity|reflexivity|cbn [flush_done]; rewrite bind_run, E; reflexivity|].
        intros ts r. destruct err; [reflexivity|]. destruct r as [[[]|]| | |]; reflexivity.
  - apply Stop; [discriminate|]. cbn [flush_done]. rewrite bind_run, E. reflexivity.
  - apply Stop; [discriminate|]. cbn [flush_done]. rewrite bind_run, E. reflexivity.
Qed.

Definition attention_done (t : ReceivedToken) : option TokenDone :=
  match t with
  | ReceivedToken.Done d | ReceivedToken.DoneProc d | ReceivedToken.DoneInProc d =>
      if done_is_attention d then Some d else None
  | _ => None
  end.

Lemma flush_attention_runs fuel : forall s, wf_stream s -> (length (st_buf s) < fuel)%nat ->
  exists ts s1 r s2, yields s ts s1 /\ Forall (fun t => attention_done t = None) ts /\ next_token s1 = (r, s2) /\
    flush_done_attention next_token fuel s =
      (match r with
       | Ok (Some t) => match attention_done t with Some d => Ok d | None => Panic end
       | Ok None => Err (Protocol "Never got a DONE token acknowledging the Attention signal.")
       | Err e => Err e
       | Panic | OutOfFuel => Panic
       end, s2) /\
    match r with Ok (Some t) => attention_done t <> None | Ok None | Err _ => True | Panic | OutOfFuel => False end.
Proof.
  induction fuel as [|fuel IH]; intros s W Hf; [lia|].
  destruct (next_token_safe s W) as (r & s1 & E & Hr & W1 & _ & P). cbn [flush_done_attention]. rewrite bind_run, E.
  destruct r as [[t|]|e| |]; try contradiction.
  - specialize (P t eq_refl). destruct (attention_done t) as [d|] eqn:A.
    + exists [], s, (Ok (Some t)), s1. rewrite A. split; [constructor|]. split; [constructor|]. split; [exact E|].
      split; [|congruence]. destruct t; try discriminate A; revert A; cbn; destruct (done_is_attention _); intros [= <-]; reflexivity.
    + destruct (IH s1 W1 ltac:(lia)) as (ts & s2 & r2 & s3 & Y & F & N & R & G).
      exists (t :: ts), s2, r2, s3. split; [econstructor; eauto|]. split; [constructor; assumption|]. split; [exact N|].
      split; [|exact G]. rewrite <- R. destruct t; try reflexivity; revert A; cbn; destruct (done_is_attention _); (discriminate || reflexivity).
  - exists [], s, (Ok None), s1. repeat split; auto. constructor.
  - exists [], s, (Err e), s1. repeat split; auto. constructor.
Qed.

(** ** Properties *)

(** C5: whatever the server sends, one round of the token stream ends in a
    token, in the end of the response or in an error: it does not panic or
    loop, it takes a prefix of the unread bytes, at least one of them when it
    yields a token, and it leaves the connection's context well formed (a
    packet size between 512 and 32767, an eight-byte transaction descriptor,
    metadata the row decoders accept), on the error paths too. *)
Theorem next_token_total (s : Stream) (W : wf_stream s) :
  exists r s', next_token s = (r, s') /\ wf_stream s' /\ suffix (st_buf s') (st_buf s) /\
    match r with
    | Ok (Some _) => (length (st_buf s') < length (st_buf s))%nat
    | Ok None | Err _ => True
    | Panic | OutOfFuel => False
    end.
Proof.
  destruct (next_token_safe s W) as (r & s' & E & Hr & W' & S' & P). exists r, s'.
  split; [exact E|]. split; [exact W'|]. split; [exact S'|].
  destruct r as [[t|]|e| |]; try exact I; [exact (P t eq_refl)|exact Hr|exact Hr].
Qed.

(** C18: the session state of the driver is a replay of the tokens it handed
    out: after any sequence of tokens the context is the initial one with each
    token's effect applied in order (metadata, negotiated version, packet
    size, transaction descriptor) and nothing else changed, and the error
    remembered is the first ERROR token; when the bytes are used up the stream
    ends with that error if there was one, and cleanly if not. *)
Theorem context_replay (s s' : Stream) (ts : list ReceivedToken) (H : yields s ts s') (He : last_error s = None) :
  st_ctx s' = fold_left (fun c t => apply_token t c) ts (st_ctx s) /\
  (st_buf s' = [] ->
   next_token s' = (match first_error ts with Some e => Err (Server e) | None => Ok None end, s')).
Proof.
  destruct (yields_effect s ts s' H) as [C L]. rewrite He in L. split; [exact C|].
  intros B. unfold next_token, read_token. rewrite B, L. destruct (first_error ts); reflexivity.
Qed.

(** [flush_done] terminates on every response, and its result is a
    function of the tokens: it stops at the first DONE token, the end of the
    response or the first decoding error; at a DONE it reports the first
    server error before it, else the last routing request, else success; a
    response without a DONE is a protocol error. *)
Theorem flush_done_spec (s : Stream) (W : wf_stream s) :
  exists ts s1 r s2, yields s ts s1 /\ forallb (fun t => negb (is_done t)) ts = true /\
    next_token s1 = (r, s2) /\
    flush_done next_token (S (length (st_buf s))) None None s =
      (match r with
       | Ok (Some (ReceivedToken.Done d)) =>
           match first_error ts, last_routing ts None with
           | Some e, _ => Err (Server e)
           | None, Some (h, p) => Err (Routing h p)
           | None, None => Ok d
           end
       | Ok None => Err (Protocol "Never got DONE token.")
       | Err e => Err e
       | _ => Panic
       end, s2) /\
    match r with Ok (Some t) => is_done t = true | Ok None | Err _ => True | Panic | OutOfFuel => False end.
Proof.
  destruct (flush_done_runs (S (length (st_buf s))) s None None W ltac:(lia)) as (ts & s1 & r & s2 & Y & F & N & D & Sf & R).
  exists ts, s1, r, s2. repeat split; auto.
  - rewrite R. destruct r as [[t|]|e| |]; try contradiction; try reflexivity.
    specialize (D t eq_refl). destruct t; try discriminate D. cbn. destruct (first_error ts), (last_routing ts None) as [[]|]; reflexivity.
  - destruct r as [[t|]|e| |]; auto.
Qed.

(** C30: after an Attention the driver drains the response up to the DONE
    token that carries the attention bit: [flush_done_attention] terminates,
    discards every token before that one, whatever its kind and whatever
    errors it reports, and returns exactly that DONE; it fails only when the
    response ends or does not decode. *)
Theorem flush_attention_spec (s : Stream) (W : wf_stream s) :
  exists ts s1 r s2, yields s ts s1 /\ Forall (fun t => attention_done t = None) ts /\ next_token s1 = (r, s2) /\
    match r with
    | Ok (Some t) => exists d, attention_done t = Some d /\ done_is_attention d = true /\
                     flush_done_attention next_token (S (length (st_buf s))) s = (Ok d, s2)
    | Ok None => exists m, flush_done_attention next_token (S (length (st_buf s))) s = (Err (Protocol m), s2)
    | Err e => flush_done_attention next_token (S (length (st_buf s))) s = (Err e, s2)
    | Panic | OutOfFuel => False
    end.
Proof.
  destruct (flush_attention_runs (S (length (st_buf s))) s W ltac:(lia)) as (ts & s1 & r & s2 & Y & F & N & R & G).
  exists ts, s1, r, s2. split; [exact Y|]. split; [exact F|]. split; [exact N|].
  destruct r as [[t|]|e| |]; [|eexists; exact R|exact R|exact G|exact G].
  destruct (attention_done t) as [d|] eqn:A; [|congruence]. exists d. split; [reflexivity|]. split; [|exact R].
  destruct t; try discriminate A; revert A; cbn; destruct (done_is_attention _) eqn:B; congruence.
Qed.
End Stream.

(** ** Witnesses: a small response *)

(** An ENVCHANGE that begins a transaction, an ERROR and the final DONE. *)
Definition sample_response : bytes :=
  [0xE3; 11; 0; 8; 8; 1; 2; 3; 4; 5; 6; 7; 8; 0] ++
  [0xAA] ++ le_bytes 2 (len (error_info_bytes SqlServerN sample_error)) ++ error_info_bytes SqlServerN sample_error ++
  [0xFD; 0; 0; 0; 0; 0; 0; 0; 0; 0; 0; 0; 0].

Definition sample_stream : Stream := mkStream sample_response context_new None.

Lemma wf_sample_stream : wf_stream sample_stream.
Proof.
  split; [|split; [apply wf_context_new|exact I]].
  apply List.Forall_forall. intros x Hx. unfold is_byte.
  assert (B : forallb (fun b => (0 <=? b) && (b <? 256)) sample_response = true) by (vm_compute; reflexivity).
  rewrite forallb_forall in B. specialize (B x Hx). bool_Z. lia.
Qed.

Lemma next_token_total_witness :
  exists r s', next_token (ER := ascii_encoding_rs) sample_stream = (r, s') /\ wf_stream s' /\
    suffix (st_buf s') (st_buf sample_stream) /\
    match r with
    | Ok (Some _) => (length (st_buf s') < length (st_buf sample_stream))%nat
    | Ok None | Err _ => True
    | Panic | OutOfFuel => False
    end.
Proof. exact (next_token_total (ER := ascii_encoding_rs) sample_stream wf_sample_stream). Defined.

Definition begin_token : ReceivedToken :=
  ReceivedToken.EnvChange (TokenEnvChange.BeginTransaction [1; 2; 3; 4; 5; 6; 7; 8]).

(** The whole response: a transaction is begun, an error is reported, and the
    stream ends with that error. *)
Definition sample_tokens : list ReceivedToken := [begin_token; ReceivedToken.Error sample_error; ReceivedToken.Done (mkTokenDone 0 0 0)].
Definition sample_end : Stream :=
  mkStream [] (set_transaction_descriptor [1; 2; 3; 4; 5; 6; 7; 8] context_new) (Some (Server sample_error)).

Lemma context_replay_witness : yields (ER := ascii_encoding_rs) sample_stream sample_tokens sample_end /\
  transaction_desc (st_ctx sample_end) = transaction_desc (apply_token begin_token context_new) /\
  next_token (ER := ascii_encoding_rs) sample_end = (Err (Server sample_error), sample_end).
Proof.
  assert (Y : yields (ER := ascii_encoding_rs) sample_stream sample_tokens sample_end)
    by (do 3 (eapply yields_cons; [vm_compute; reflexivity|]); apply yields_nil).
  destruct (context_replay (ER := ascii_encoding_rs) sample_stream sample_end sample_tokens Y eq_refl) as [C E].
  split; [exact Y|]. split; [rewrite C; reflexivity|exact (E eq_refl)].
Defined.

Lemma flush_done_spec_witness :
  exists ts s1 r s2, yields (ER := ascii_encoding_rs) sample_stream ts s1 /\ forallb (fun t => negb (is_done t)) ts = true /\
    next_token (ER := ascii_encoding_rs) s1 = (r, s2) /\
    flush_done (next_token (ER := ascii_encoding_rs)) (S (length (st_buf sample_stream))) None None sample_stream =
      (match r with
       | Ok (Some (ReceivedToken.Done d)) =>
           match first_error ts, last_routing ts None with
           | Some e, _ => Err (Server e)
           | None, Some (h, p) => Err (Routing h p)
           | None, None => Ok d
           end
       | Ok None => Err (Protocol "Never got DONE token.")
       | Err e => Err e
       | _ => Panic
       end, s2) /\
    match r with Ok (Some t) => is_done t = true | Ok None | Err _ => True | Panic | OutOfFuel => False end.
Proof. exact (flush_done_spec (ER := ascii_encoding_rs) sample_stream wf_sample_stream). Defined.

(** The error of the sample response wins over its DONE. *)
Example flush_done_sample :
  fst (flush_done (next_token (ER := ascii_encoding_rs)) 100 None None sample_stream) = Err (Server sample_error).
Proof. vm_compute. reflexivity. Qed.

Lemma flush_attention_spec_witness :
  exists ts s1 r s2, yields (ER := ascii_encoding_rs) sample_stream ts s1 /\ Forall (fun t => attention_done t = None) ts /\
    next_token (ER := ascii_encoding_rs) s1 = (r, s2) /\
    match r with
    | Ok (Some t) => exists d, attention_done t = Some d /\ done_is_attention d = true /\
                     flush_done_attention (next_token (ER := ascii_encoding_rs)) (S (length (st_buf sample_stream))) sample_stream = (Ok d, s2)
    | Ok None => exists m, flush_done_attention (next_token (ER := ascii_encoding_rs)) (S (length (st_buf sample_stream))) sample_stream
                           = (Err (Protocol m), s2)
    | Err e => flush_done_attention (next_token (ER := ascii_encoding_rs)) (S (length (st_buf sample_stream))) sample_stream = (Err e, s2)
    | Panic | OutOfFuel => False
    end.
Proof. exact (flush_attention_spec (ER := ascii_encoding_rs) sample_stream wf_sample_stream). Defined.

(** ** [RoundTripTimeout]: bounding the wait for each token *)

Inductive Poll (A : Type) := Ready (a : A) | Pending.
Arguments Ready {A} a.
Arguments Pending {A}.

(** [delay]: the instant the timer in it fires at, a [futures_timer::Delay]
    started [timeout] before; [poison] is the flag shared with the
    connection. *)
Record RoundTrip := mkRoundTrip { rt_timeout : option Z; rt_delay : option Z; rt_poison : bool }.

Definition round_trip_new (timeout : option Z) : RoundTrip := mkRoundTrip timeout None false.

Section RoundTrip.
Context {A : Type}.

(** A poll: what polling the inner stream gives, and the instant it is made
    at. *)
Abbreviation Input := (Poll (option (Res A)) * Z)%type.

(** [RoundTripTimeout::poll_next]; a [Delay] is ready from its instant on. *)
Definition poll_next (this : RoundTrip) (inner : Poll (option (Res A))) (now : Z) : Poll (option (Res A)) * RoundTrip :=
  match inner with
  | Ready item => (Ready item, mkRoundTrip (rt_timeout this) None (rt_poison this))
  | Pending =>
      match rt_timeout this with
      | None => (Pending, this)
      | Some timeout =>
          let delay := match rt_delay this with Some d => d | None => now + timeout end in
          if delay <=? now then (Ready (Some (Err (Io TimedOut))), mkRoundTrip (rt_timeout this) None true)
          else (Pending, mkRoundTrip (rt_timeout this) (Some delay) (rt_poison this))
      end
  end.

(** A sequence of polls: the inputs of each, the outputs in order. *)
Fixpoint polls (this : RoundTrip) (ins : list Input) : list (Poll (option (Res A))) * RoundTrip :=
  match ins with
  | [] => ([], this)
  | (inner, now) :: ins =>
      let (out, this) := poll_next this inner now in
      let (outs, this) := polls this ins in
      (out :: outs, this)
  end.

(** Before poll [k] the caller has been told to wait since the instant
    [start]: that of the first poll behind the last one that was answered, if
    every poll from it on was pending. *)
Definition waiting_since (ins : list Input) (outs : list (Poll (option (Res A)))) (k : nat) (start : Z) : Prop :=
  exists j inner, (j <= k)%nat /\ ins !! j = Some (inner, start) /\ (forall i, (j <= i < k)%nat -> outs !! i = Some Pending) /\
    (j = 0%nat \/ exists i x, j = S i /\ outs !! i = Some (Ready x)).

(** The bound has run out at poll [k], made at the instant [now]. *)
Definition overdue (timeout : option Z) (ins : list Input) (outs : list (Poll (option (Res A)))) (k : nat) (now : Z) : Prop :=
  exists bound start, timeout = Some bound /\ waiting_since ins outs k start /\ bound <= now - start.

(** The timer that is running says since when the caller waits. *)
Definition timed (this : RoundTrip) (ins : list Input) (outs : list (Poll (option (Res A)))) : Prop :=
  match rt_timeout this with
  | None => True
  | Some bound =>
      match rt_delay this with
      | Some d => waiting_since ins outs (length outs) (d - bound) /\ exists o, outs = o ++ [Pending]
      | None => outs = [] \/ exists o x, outs = o ++ [Ready x]
      end
  end.

Lemma waiting_unique ins outs k a b : waiting_since ins outs k a -> waiting_since ins outs k b -> a = b.
Proof.
  intros (j & x & Hj & Ej & Pj & Fj) (l & y & Hl & El & Pl & Fl). enough (j = l) as -> by congruence.
  destruct (Nat.lt_trichotomy j l) as [H|[H|H]]; [|exact H|]; exfalso.
  - destruct Fl as [->|(i & z & -> & Ei)]; [lia|]. rewrite (Pj i ltac:(lia)) in Ei. discriminate.
  - destruct Fj as [->|(i & z & -> & Ei)]; [lia|]. rewrite (Pl i ltac:(lia)) in Ei. discriminate.
Qed.

(** What later polls show does not change since when one was waiting. *)
Lemma waiting_app ins outs more k start : (k <= length outs)%nat -> waiting_since ins (outs ++ more) k start <-> waiting_since ins outs k start.
Proof.
  intros Hk. unfold waiting_since. split; intros (j & x & Hj & Ej & Pj & Fj); exists j, x; (split; [exact Hj|]); (split; [exact Ej|]).
  - split.
    + intros i Hi. rewrite <- (Pj i Hi), lookup_app_l by lia. reflexivity.
    + destruct Fj as [->|(i & z & -> & Ei)]; [auto|]. right. exists i, z. rewrite lookup_app_l in Ei by lia. auto.
  - split.
    + intros i Hi. rewrite lookup_app_l by lia. auto.
    + destruct Fj as [->|(i & z & -> & Ei)]; [auto|]. right. exists i, z. rewrite lookup_app_l by lia. auto.
Qed.

(** The first poll after an answer waits from its own instant. *)
Lemma waiting_starts ins outs inner now : ins !! length outs = Some (inner, now) -> (outs = [] \/ exists o x, outs = o ++ [Ready x]) ->
  waiting_since ins outs (length outs) now.
Proof.
  intros Ei F. exists (length outs), inner. split; [lia|]. split; [exact Ei|]. split; [intros i Hi; lia|].
  destruct F as [->|(o & x & ->)]; [auto|]. right. exists (length o), x. split; [rewrite length_app; cbn; lia|]. apply list_lookup_middle. reflexivity.
Qed.

Lemma poll_next_spec this ins outs inner now :
  timed this ins outs -> ins !! length outs = Some (inner, now) ->
  exists out this', poll_next this inner now = (out, this') /\ timed this' ins (outs ++ [out]) /\ rt_timeout this' = rt_timeout this /\
    (inner = Pending /\ overdue (rt_timeout this) ins outs (length outs) now /\ out = Ready (Some (Err (Io TimedOut))) /\ rt_poison this' = true \/
     ~ (inner = Pending /\ overdue (rt_timeout this) ins outs (length outs) now) /\ out = inner /\ rt_poison this' = rt_poison this).
Proof.
  intros T Ei. unfold timed in T. unfold poll_next, overdue. destruct inner as [item|].
  - eexists _, _. split; [reflexivity|]. split; [unfold timed; cbn; destruct (rt_timeout this); [right; eauto|exact I]|].
    split; [reflexivity|]. right. split; [intros [[=] _]|auto].
  - destruct (rt_timeout this) as [bound|] eqn:Et.
    + set (d := match rt_delay this with Some d => d | None => now + bound end).
      assert (Hw : waiting_since ins outs (length outs) (d - bound)).
      { subst d. destruct (rt_delay this) as [d|]; [apply T|]. replace (now + bound - bound) with now by lia. exact (waiting_starts _ _ _ _ Ei T). }
      destruct (Z.leb_spec d now) as [L|L].
      * eexists _, _. split; [reflexivity|]. split; [unfold timed; cbn; right; eauto|]. split; [reflexivity|]. left.
        split; [reflexivity|]. split; [exists bound, (d - bound); split; [reflexivity|]; split; [exact Hw|lia]|auto].
      * eexists _, _. split; [reflexivity|]. split.
        { unfold timed. cbn. split; [|eauto]. destruct Hw as (j & x & Hj & Ej & Pj & Fj). exists j, x. rewrite length_app. cbn [length].
          split; [lia|]. split; [exact Ej|]. split.
          - intros i Hi. destruct (Nat.eq_dec i (length outs)) as [->|]; [apply list_lookup_middle; reflexivity|]. rewrite lookup_app_l by lia. apply Pj. lia.
          - destruct Fj as [->|(i & z & -> & Fi)]; [auto|]. right. exists i, z. rewrite lookup_app_l by lia. auto. }
        split; [reflexivity|]. right. split; [|auto]. intros [_ (b & start & [= <-] & Hs & B)].
        rewrite (waiting_unique _ _ _ _ _ Hs Hw) in B. lia.
    + eexists _, _. split; [reflexivity|]. split; [unfold timed; rewrite Et; exact I|]. split; [exact Et|].
      right. split; [intros [_ (b & start & [=] & _)]|auto].
Qed.

(** What the caller sees at a poll. *)
Definition shown (timeout : option Z) (ins : list Input) (outs : list (Poll (option (Res A)))) (k : nat) : Prop :=
  forall inner now out, ins !! k = Some (inner, now) -> outs !! k = Some out ->
    inner = Pending /\ overdue timeout ins outs k now /\ out = Ready (Some (Err (Io TimedOut))) \/
    ~ (inner = Pending /\ overdue timeout ins outs k now) /\ out = inner.

Definition fires (timeout : option Z) (ins : list Input) (outs : list (Poll (option (Res A)))) (k : nat) : Prop :=
  exists now, ins !! k = Some (Pending, now) /\ overdue timeout ins outs k now.

Lemma overdue_app timeout ins outs more k now : (k <= length outs)%nat -> overdue timeout ins (outs ++ more) k now <-> overdue timeout ins outs k now.
Proof. intros Hk. unfold overdue. setoid_rewrite waiting_app; [reflexivity|exact Hk]. Qed.

Lemma polls_spec ins : forall this pre outs, timed this (pre ++ ins) outs -> length pre = length outs ->
  let (more, this') := polls this ins in
  length more = length ins /\
  (forall k, (length outs <= k)%nat -> shown (rt_timeout this) (pre ++ ins) (outs ++ more) k) /\
  (rt_poison this' = true <-> rt_poison this = true \/ exists k, (length outs <= k)%nat /\ fires (rt_timeout this) (pre ++ ins) (outs ++ more) k).
Proof.
  induction ins as [|[inner now] ins IH]; intros this pre outs T L; cbn [polls].
  - rewrite !app_nil_r. split; [reflexivity|]. split.
    + intros k Hk x n o E. apply lookup_lt_Some in E. lia.
    + split; [auto|]. intros [H|(k & Hk & n & E & _)]; [exact H|]. apply lookup_lt_Some in E. lia.
  - assert (Ei : (pre ++ (inner, now) :: ins) !! length outs = Some (inner, now)) by (apply list_lookup_middle; symmetry; exact L).
    destruct (poll_next_spec this _ outs inner now T Ei) as (out & this1 & -> & T1 & Et & D).
    replace (pre ++ (inner, now) :: ins) with ((pre ++ [(inner, now)]) ++ ins) in * by (rewrite <- app_assoc; reflexivity).
    specialize (IH this1 (pre ++ [(inner, now)]) (outs ++ [out]) T1 ltac:(rewrite !length_app; cbn; lia)).
    destruct (polls this1 ins) as [more this2]. rewrite <- !app_assoc, Et in IH. rewrite <- app_assoc in D, Ei |- *. cbn [app] in *.
    destruct IH as (Lm & Sh & Po). rewrite length_app in Sh, Po. cbn [length] in Sh, Po.
    assert (Ov : overdue (rt_timeout this) (pre ++ (inner, now) :: ins) (outs ++ out :: more) (length outs) now <->
      overdue (rt_timeout this) (pre ++ (inner, now) :: ins) outs (length outs) now) by (apply overdue_app; lia).
    split; [cbn; lia|]. split.
    + intros k Hk. destruct (Nat.eq_dec k (length outs)) as [->|]; [|apply Sh; lia]. intros x n o E1 E2. rewrite Ei in E1. injection E1 as <- <-.
      rewrite list_lookup_middle in E2 by reflexivity. injection E2 as <-. rewrite Ov. destruct D as [(-> & O & -> & _)|(N & -> & _)]; auto.
    + rewrite Po. split.
      * intros [H|(k & Hk & H)]; [|right; exists k; split; [lia|exact H]]. destruct D as [(-> & O & _)|(_ & _ & Ep)]; [|left; congruence].
        right. exists (length outs). split; [lia|]. exists now. rewrite Ov. auto.
      * intros [H|(k & Hk & n & E1 & O)]; [left; destruct D as [(_ & _ & _ & H1)|(_ & _ & ->)]; assumption|].
        destruct (Nat.eq_dec k (length outs)) as [->|]; [|right; exists k; split; [lia|exists n; auto]].
        rewrite Ei in E1. injection E1 as -> ->. destruct D as [(_ & _ & _ & H1)|(N & _)]; [auto|]. elim N. split; [reflexivity|]. apply Ov, O.
Qed.
End RoundTrip.

(** C31: the command timeout bounds the wait for each part of a response, and
    nothing else.  Over any sequence of polls at any instants, the caller is
    shown what the inner stream answers, except at a poll at which the stream
    is pending and the bound is over: there it is shown a timeout.  The bound
    is over when that much time has passed since the first poll after the last
    answer: every answer starts the wait afresh, and the time a slow consumer
    takes between two answers does not count.  The connection is marked
    unusable if and only if that happened, and with no bound configured it
    never does. *)
Theorem round_trip_timeout_spec {A : Type} (timeout : option Z) (ins : list (Poll (option (Res A)) * Z)) :
  let (outs, this) := polls (round_trip_new timeout) ins in
  length outs = length ins /\
  (forall k inner now out, ins !! k = Some (inner, now) -> outs !! k = Some out ->
     inner = Pending /\ overdue timeout ins outs k now /\ out = Ready (Some (Err (Io TimedOut))) \/
     ~ (inner = Pending /\ overdue timeout ins outs k now) /\ out = inner) /\
  (rt_poison this = true <-> exists k now, ins !! k = Some (Pending, now) /\ overdue timeout ins outs k now) /\
  (timeout = None -> outs = map fst ins /\ rt_poison this = false).
Proof.
  assert (T : timed (A := A) (round_trip_new timeout) ([] ++ ins) []) by (unfold timed; cbn; destruct timeout; auto).
  pose proof (polls_spec ins (round_trip_new timeout) [] [] T eq_refl) as P. cbn [rt_timeout rt_poison round_trip_new app length] in P.
  destruct (polls (round_trip_new timeout) ins) as [outs this]. destruct P as (L & Sh & Po).
  assert (Sh' : forall k, shown timeout ins outs k) by (intros k; apply Sh; lia).
  assert (Po' : rt_poison this = true <-> exists k now, ins !! k = Some (Pending, now) /\ overdue timeout ins outs k now).
  { rewrite Po. split; [intros [[=]|(k & _ & n & H)]; eauto|intros (k & n & H); right; exists k; split; [lia|exists n; exact H]]. }
  split; [exact L|]. split; [intros k inner now out E1 E2; exact (Sh' k inner now out E1 E2)|]. split; [exact Po'|].
  intros ->. split.
  - apply list_eq. intros k. rewrite list_lookup_fmap. destruct (ins !! k) as [[inner now]|] eqn:E1.
    + destruct (lookup_lt_is_Some_2 outs k) as [out E2]; [rewrite L; eapply lookup_lt_Some, E1|]. rewrite E2. cbn.
      destruct (Sh' k inner now out E1 E2) as [(_ & (b & s & [=] & _) & _)|[_ ->]]. reflexivity.
    + cbn. apply lookup_ge_None. apply lookup_ge_None in E1. lia.
  - apply not_true_iff_false. rewrite Po'. intros (k & now & _ & b & s & [=] & _).
Qed.

(** A bound of five: an answer at 4 starts the wait afresh, so that the poll at
    6 still waits; the one at 11 does not. *)
Lemma round_trip_timeout_spec_witness :
  let ins := [(Pending, 0); (Ready (Some (Ok tt)), 4); (Pending, 6); (Pending, 11)] in
  fst (polls (round_trip_new (Some 5)) ins) = [Pending; Ready (Some (Ok tt)); Pending; Ready (Some (Err (Io TimedOut)))] /\
  exists k now, ins !! k = Some (Pending, now) /\ overdue (Some 5) ins (fst (polls (round_trip_new (Some 5)) ins)) k now.
Proof.
  intros ins. split; [reflexivity|].
  pose proof (round_trip_timeout_spec (Some 5) ins) as T.
  destruct (polls (round_trip_new (Some 5)) ins) as [outs this] eqn:E. destruct T as (_ & _ & P & _). apply P.
  assert (X : rt_poison (snd (polls (round_trip_new (Some 5)) ins)) = true) by reflexivity. rewrite E in X. exact X.
Defined.
