(* ===== verification/Results.v ===== *)
(** * Results: what a caller gets from a response, [row.rs], [from_sql.rs],
    [result.rs], [tds/stream/query.rs] and [tds/stream/command.rs]

    A [QueryStream] and a [CommandStream] sit on the token stream.  Here the
    token stream is the list of what it still yields, errors included
    ([try_unfold] yields nothing behind an error); [response] below connects
    it with [next_token]. *)

From S2P Require Import Prelude Unicode Collation SqlRead SqlWrite Types TypeInfoCodec Context ColumnDecode Metadata Rows Tokens TokenStream.

(** ** Columns *)

Module ColumnType.
Inductive ColumnType :=
| Null | Bit | Int1 | Int2 | Int4 | Int8 | Datetime4 | Float4 | Float8 | Money | Datetime | Money4 | Guid | Intn | Bitn
| Decimaln | Numericn | Floatn | Datetimen | Daten | Timen | Datetime2 | DatetimeOffsetn | BigVarBin | BigVarChar
| BigBinary | BigChar | NVarchar | NChar | Xml | Udt | Text | Image | NText | SSVariant.
End ColumnType.
Notation ColumnType := ColumnType.ColumnType.

(** The arms of [From<&TypeInfo>] that do not look at the length. *)
Definition column_type_of_var (t : VarLenType) : ColumnType :=
  match t with
  | VarLenType.Guid => ColumnType.Guid
  | VarLenType.Intn => ColumnType.Intn
  | VarLenType.Bitn => ColumnType.Bitn
  | VarLenType.Decimaln => ColumnType.Decimaln
  | VarLenType.Numericn => ColumnType.Numericn
  | VarLenType.Floatn => ColumnType.Floatn
  | VarLenType.Money => ColumnType.Money
  | VarLenType.Datetimen => ColumnType.Datetimen
  | VarLenType.Daten => ColumnType.Daten
  | VarLenType.Timen => ColumnType.Timen
  | VarLenType.Datetime2 => ColumnType.Datetime2
  | VarLenType.DatetimeOffsetn => ColumnType.DatetimeOffsetn
  | VarLenType.BigVarBin => ColumnType.BigVarBin
  | VarLenType.BigVarChar => ColumnType.BigVarChar
  | VarLenType.BigBinary => ColumnType.BigBinary
  | VarLenType.BigChar => ColumnType.BigChar
  | VarLenType.NVarchar => ColumnType.NVarchar
  | VarLenType.NChar => ColumnType.NChar
  | VarLenType.Xml => ColumnType.Xml
  | VarLenType.Udt => ColumnType.Udt
  | VarLenType.Text => ColumnType.Text
  | VarLenType.Image => ColumnType.Image
  | VarLenType.NText => ColumnType.NText
  | VarLenType.SSVariant => ColumnType.SSVariant
  end.

(** [impl From<&TypeInfo> for ColumnType] *)
Definition column_type_of (ti : TypeInfo) : ColumnType :=
  match ti with
  | TypeInfo.FixedLen flt =>
      match flt with
      | FixedLenType.Int1 => ColumnType.Int1
      | FixedLenType.Bit => ColumnType.Bit
      | FixedLenType.Int2 => ColumnType.Int2
      | FixedLenType.Int4 => ColumnType.Int4
      | FixedLenType.Datetime4 => ColumnType.Datetime4
      | FixedLenType.Float4 => ColumnType.Float4
      | FixedLenType.Money => ColumnType.Money
      | FixedLenType.Datetime => ColumnType.Datetime
      | FixedLenType.Float8 => ColumnType.Float8
      | FixedLenType.Money4 => ColumnType.Money4
      | FixedLenType.Int8 => ColumnType.Int8
      | FixedLenType.Null => ColumnType.Null
      end
  | TypeInfo.VarLenSized cx =>
      match vlc_type cx with
      | VarLenType.Intn =>
          let n := vlc_len cx in
          if n =? 1 then ColumnType.Int1 else if n =? 2 then ColumnType.Int2
          else if n =? 4 then ColumnType.Int4 else if n =? 8 then ColumnType.Int8 else ColumnType.Intn
      | VarLenType.Floatn =>
          let n := vlc_len cx in
          if n =? 4 then ColumnType.Float4 else if n =? 8 then ColumnType.Float8 else ColumnType.Floatn
      | t => column_type_of_var t
      end
  | TypeInfo.VarLenSizedPrecision t _ _ _ => column_type_of_var t
  | TypeInfo.Xml _ _ => ColumnType.Xml
  | TypeInfo.Udt _ => ColumnType.Udt
  end.

Record Column := mkColumn { cl_name : str; cl_type : ColumnType }.

(** The columns of a result set, as both streams build them. *)
Definition columns_of (m : TokenColMetaData) : list Column :=
  map (fun x => mkColumn (col_name x) (column_type_of (ty (base x)))) (columns m).

(** ** Rows *)

Record Row := mkRow { row_columns : list Column; row_data : TokenRow; row_result_index : Z }.

(** [impl QueryIdx for usize] *)
Definition idx_usize (i : nat) (row : Row) : option nat := if (i <? length (row_columns row))%nat then Some i else None.

Definition RAW_PREFIX : str := ascii_str "r#".
(** [impl QueryIdx for &str]: the exact name first, then the name behind a raw
    identifier. *)
Definition named (n : str) (c : Column) : bool := bool_decide (cl_name c = n).
Definition idx_str (name : str) (row : Row) : option nat :=
  match position_of (named name) (row_columns row) with
  | Some p => Some p
  | None => match strip_prefix RAW_PREFIX name with Some n => position_of (named n) (row_columns row) | None => None end
  end.

(** [Row::get_column_data], for the index a [QueryIdx] gives. *)
Definition get_column_data (idx : Row -> option nat) (row : Row) : Res ColumnData :=
  res_bind (ok_or (idx row) (Conversion "Could not find column")) (fun i =>
  ok_or (row_data row !! i) (Protocol "row has no data for column index")).

(** ** [FromSql] *)

Definition cannot {A} : Res A := Err (Conversion "cannot interpret the value").
Definition from_sql_bool (d : ColumnData) : Res (option bool) := match d with ColumnData.Bit v => Ok v | _ => cannot end.
Definition from_sql_u8 (d : ColumnData) : Res (option Z) :=
  match d with ColumnData.U8 v => Ok v | ColumnData.I32 None => Ok None | _ => cannot end.
Definition from_sql_i16 (d : ColumnData) : Res (option Z) :=
  match d with ColumnData.I16 v => Ok v | ColumnData.U8 None | ColumnData.I32 None => Ok None | _ => cannot end.
(** [i32::from] of an [i16] keeps the value. *)
Definition from_sql_i32 (d : ColumnData) : Res (option Z) :=
  match d with ColumnData.I32 v => Ok v | ColumnData.I16 v => Ok v | ColumnData.U8 None => Ok None | _ => cannot end.
Definition from_sql_i64 (d : ColumnData) : Res (option Z) :=
  match d with ColumnData.I64 v => Ok v | ColumnData.U8 None | ColumnData.I32 None => Ok None | _ => cannot end.
Definition from_sql_f32 (d : ColumnData) : Res (option Z) := match d with ColumnData.F32 v => Ok v | _ => cannot end.
Definition from_sql_f64 (d : ColumnData) : Res (option Z) := match d with ColumnData.F64 v => Ok v | _ => cannot end.
Definition from_sql_uuid (d : ColumnData) : Res (option bytes) := match d with ColumnData.Guid v => Ok v | _ => cannot end.
Definition from_sql_numeric (d : ColumnData) : Res (option Numeric) := match d with ColumnData.Numeric v => Ok v | _ => cannot end.
Definition from_sql_xml (d : ColumnData) : Res (option XmlData) := match d with ColumnData.Xml v => Ok v | _ => cannot end.
Definition from_sql_str (d : ColumnData) : Res (option str) := match d with ColumnData.String v => Ok v | _ => cannot end.
Definition from_sql_binary (d : ColumnData) : Res (option bytes) := match d with ColumnData.Binary v => Ok v | _ => cannot end.

(** [Row::try_get] and [Row::get], which unwraps it *)
Definition try_get {A} (from_sql : ColumnData -> Res (option A)) (idx : Row -> option nat) (row : Row) : Res (option A) :=
  res_bind (get_column_data idx row) from_sql.
Definition row_get {A} (from_sql : ColumnData -> Res (option A)) (idx : Row -> option nat) (row : Row) : Res (option A) :=
  match try_get from_sql idx row with Ok v => Ok v | Err _ => Panic | r => r end.

(** ** [QueryStream] *)

Record ResultMetadata := mkResultMetadata { rm_columns : list Column; rm_result_index : Z }.
Module QueryItem.
Inductive QueryItem := Row (r : Row) | Metadata (m : ResultMetadata).
End QueryItem.
Notation QueryItem := QueryItem.QueryItem.

Notation tokens := (list (Res ReceivedToken)).

Record QueryStream := mkQueryStream {
  token_stream : tokens;
  qs_columns : option (list Column);
  result_set_index : option Z;
}.

(** [QueryStream::new] *)
Definition query_stream_new (ts : tokens) : QueryStream := mkQueryStream ts None None.

Definition row_before_metadata : Error := Protocol "ROW token arrived before any column metadata".
(** [self.result_set_index.map(|i| i + 1)], then [get_or_insert(0)] *)
Definition next_index (i : option Z) : Z := match i with Some i => i + 1 | None => 0 end.
Definition index_or_0 (i : option Z) : Z := match i with Some i => i | None => 0 end.

(** [Stream::poll_next] of a [QueryStream]. *)
Fixpoint query_next (ts : tokens) (cols : option (list Column)) (idx : option Z) : Res (option QueryItem) * QueryStream :=
  match ts with
  | [] => (Ok None, mkQueryStream [] cols idx)
  | Ok (ReceivedToken.NewResultset m) :: ts =>
      let i := next_index idx in
      (Ok (Some (QueryItem.Metadata (mkResultMetadata (columns_of m) i))), mkQueryStream ts (Some (columns_of m)) (Some i))
  | Ok (ReceivedToken.Row data) :: ts =>
      match cols with
      | None => (Err row_before_metadata, mkQueryStream ts cols idx)
      | Some cs => (Ok (Some (QueryItem.Row (mkRow cs data (index_or_0 idx)))), mkQueryStream ts cols idx)
      end
  | Ok _ :: ts => query_next ts cols idx
  | Err e :: ts => (Err e, mkQueryStream ts cols idx)
  | Panic :: ts => (Panic, mkQueryStream ts cols idx)
  | OutOfFuel :: ts => (OutOfFuel, mkQueryStream ts cols idx)
  end.
Definition query_try_next (s : QueryStream) : Res (option QueryItem) * QueryStream :=
  query_next (token_stream s) (qs_columns s) (result_set_index s).

(** The loop of [QueryStream::columns]: [peek], and drop what is neither
    metadata nor a row.  An error is cloned and stays where it is. *)
Fixpoint query_columns_loop (ts : tokens) (cols : option (list Column)) (idx : option Z) : Res (option (list Column)) * QueryStream :=
  match ts with
  | Ok (ReceivedToken.NewResultset m) :: _ => (Ok (Some (columns_of m)), mkQueryStream ts (Some (columns_of m)) idx)
  | Ok (ReceivedToken.Row _) :: _ | [] => (Ok cols, mkQueryStream ts cols idx)
  | Ok _ :: ts => query_columns_loop ts cols idx
  | Err e :: _ => (Err e, mkQueryStream ts cols idx)
  | Panic :: _ => (Panic, mkQueryStream ts cols idx)
  | OutOfFuel :: _ => (OutOfFuel, mkQueryStream ts cols idx)
  end.
(** [QueryStream::columns] *)
Definition query_columns (s : QueryStream) : Res (option (list Column)) * QueryStream :=
  query_columns_loop (token_stream s) (qs_columns s) (result_set_index s).

(** [QueryStream::forward_to_metadata] *)
Fixpoint forward_loop (ts : tokens) : Res unit * tokens :=
  match ts with
  | Ok (ReceivedToken.NewResultset _) :: _ | [] => (Ok tt, ts)
  | Ok _ :: ts => forward_loop ts
  | Err e :: _ => (Err e, ts)
  | Panic :: _ => (Panic, ts)
  | OutOfFuel :: _ => (OutOfFuel, ts)
  end.
Definition forward_to_metadata (s : QueryStream) : Res unit * QueryStream :=
  let (r, ts) := forward_loop (token_stream s) in (r, mkQueryStream ts (qs_columns s) (result_set_index s)).

Definition push_current (results : list (list Row)) (current : option (list Row)) : list (list Row) :=
  match current with Some rows => results ++ [rows] | None => results end.

(** [collect_results], with one round more than there are tokens. *)
Fixpoint collect_loop (fuel : nat) (s : QueryStream) (results : list (list Row)) (current : option (list Row)) : Res (list (list Row)) :=
  match fuel with
  | O => OutOfFuel
  | S fuel =>
      match query_try_next s with
      | (Ok (Some (QueryItem.Metadata _)), s) => collect_loop fuel s (push_current results current) (Some [])
      | (Ok (Some (QueryItem.Row row)), s) => collect_loop fuel s results (Some (default [] current ++ [row]))
      | (Ok None, _) => Ok (push_current results current)
      | (Err e, _) => Err e
      | (Panic, _) => Panic
      | (OutOfFuel, _) => OutOfFuel
      end
  end.
(** [QueryStream::into_results], [into_first_result], [into_row] *)
Definition into_results (s : QueryStream) : Res (list (list Row)) := collect_loop (S (length (token_stream s))) s [] None.
Definition into_first_result (s : QueryStream) : Res (list Row) := res_map (fun rs => default [] (head rs)) (into_results s).
Definition into_row (s : QueryStream) : Res (option Row) := res_map head (into_first_result s).

(** ** [CommandStream] *)

Record CommandReturnValue := mkCommandReturnValue { crv_name : str; crv_ord : Z; crv_data : ColumnData }.
Module CommandItem.
Inductive CommandItem :=
| Row (r : Row) | Metadata (m : ResultMetadata) | ReturnStatus (n : Z) | ReturnValue (v : CommandReturnValue) | RowsAffected (n : Z).
End CommandItem.
Notation CommandItem := CommandItem.CommandItem.

(** [Stream::poll_next] of a [CommandStream]; its state is that of a
    [QueryStream]. *)
Fixpoint command_next (ts : tokens) (cols : option (list Column)) (idx : option Z) : Res (option CommandItem) * QueryStream :=
  match ts with
  | [] => (Ok None, mkQueryStream [] cols idx)
  | Ok t :: ts =>
      let emit i := (Ok (Some i), mkQueryStream ts cols idx) in
      match t with
      | ReceivedToken.NewResultset m =>
          let i := next_index idx in
          (Ok (Some (CommandItem.Metadata (mkResultMetadata (columns_of m) i))), mkQueryStream ts (Some (columns_of m)) (Some i))
      | ReceivedToken.Row data =>
          match cols with
          | None => (Err row_before_metadata, mkQueryStream ts cols idx)
          | Some cs => emit (CommandItem.Row (mkRow cs data (index_or_0 idx)))
          end
      | ReceivedToken.ReturnStatus rs => emit (CommandItem.ReturnStatus rs)
      | ReceivedToken.ReturnValue rv => emit (CommandItem.ReturnValue (mkCommandReturnValue (param_name rv) (param_ordinal rv) (rv_value rv)))
      | ReceivedToken.DoneProc d =>
          if done_is_final d then command_next ts cols idx else emit (CommandItem.RowsAffected (done_row_count d))
      | ReceivedToken.DoneInProc d | ReceivedToken.Done d => emit (CommandItem.RowsAffected (done_row_count d))
      | _ => command_next ts cols idx
      end
  | Err e :: ts => (Err e, mkQueryStream ts cols idx)
  | Panic :: ts => (Panic, mkQueryStream ts cols idx)
  | OutOfFuel :: ts => (OutOfFuel, mkQueryStream ts cols idx)
  end.

Record CommandResult := mkCommandResult {
  rows_affected : list Z; return_code : Z; return_values : list CommandReturnValue; query_results : list (list Row);
}.

Fixpoint command_loop (fuel : nat) (s : QueryStream) (r : CommandResult) (result : option (list Row)) : Res CommandResult :=
  match fuel with
  | O => OutOfFuel
  | S fuel =>
      match command_next (token_stream s) (qs_columns s) (result_set_index s) with
      | (Ok (Some (CommandItem.Row row)), s) => command_loop fuel s r (Some (match result with None => [row] | Some rows => rows ++ [row] end))
      | (Ok (Some (CommandItem.Metadata _)), s) =>
          command_loop fuel s (mkCommandResult (rows_affected r) (return_code r) (return_values r) (push_current (query_results r) result)) (Some [])
      | (Ok (Some (CommandItem.ReturnStatus rs)), s) =>
          command_loop fuel s (mkCommandResult (rows_affected r) rs (return_values r) (query_results r)) result
      | (Ok (Some (CommandItem.ReturnValue rv)), s) =>
          command_loop fuel s (mkCommandResult (rows_affected r) (return_code r) (return_values r ++ [rv]) (query_results r)) result
      | (Ok (Some (CommandItem.RowsAffected n)), s) =>
          command_loop fuel s (mkCommandResult (rows_affected r ++ [n]) (return_code r) (return_values r) (query_results r)) result
      | (Ok None, _) => Ok (mkCommandResult (rows_affected r) (return_code r) (return_values r) (push_current (query_results r) result))
      | (Err e, _) => Err e
      | (Panic, _) => Panic
      | (OutOfFuel, _) => OutOfFuel
      end
  end.
(** [CommandStream::into_command_result] *)
Definition into_command_result (s : QueryStream) : Res CommandResult :=
  command_loop (S (length (token_stream s))) s (mkCommandResult [] 0 [] []) None.

(** [CommandResult::try_return_value] *)
Definition try_return_value {A} (from_sql : ColumnData -> Res (option A)) (name : str) (r : CommandResult) : Res (option A) :=
  res_bind (ok_or (find (fun p => bool_decide (crv_name p = name)) (return_values r)) (Conversion "Could not find return value"))
    (fun v => from_sql (crv_data v)).

(** ** [ExecuteResult] *)

(** [ExecuteResult::new] *)
Fixpoint execute_result (ts : tokens) : Res (list Z) :=
  match ts with
  | [] => Ok []
  | Ok t :: ts =>
      match t with
      | ReceivedToken.DoneProc d => if done_is_final d then execute_result ts else res_map (cons (done_row_count d)) (execute_result ts)
      | ReceivedToken.DoneInProc d | ReceivedToken.Done d => res_map (cons (done_row_count d)) (execute_result ts)
      | _ => execute_result ts
      end
  | Err e :: _ => Err e
  | Panic :: _ => Panic
  | OutOfFuel :: _ => OutOfFuel
  end.

(** [ExecuteResult::total]: a [u64] sum, checked when overflow checks are on. *)
Definition execute_total (oc : bool) (rows : list Z) : Res Z :=
  foldl (fun acc n => res_bind acc (fun a => arith_u oc 64 (a + n))) (Ok 0) rows.

(** ** The response on the wire *)

(** [try_unfold]: the tokens of a response, the error that ends it included;
    every token takes a byte, so the bytes bound the rounds. *)
Section Response.
Context {ER : EncodingRs}.

Fixpoint response (fuel : nat) (s : Stream) : tokens :=
  match fuel with
  | O => [OutOfFuel]
  | S fuel =>
      match next_token s with
      | (Ok (Some t), s) => Ok t :: response fuel s
      | (Ok None, _) => []
      | (Err e, _) => [Err e]
      | (Panic, _) => [Panic]
      | (OutOfFuel, _) => [OutOfFuel]
      end
  end.
Definition tokens_of (s : Stream) : tokens := response (S (length (st_buf s))) s.
End Response.

(** ** Lemmas: the loops without fuel *)

(** A token the query stream passes over. *)
Definition other (t : ReceivedToken) : bool :=
  match t with ReceivedToken.NewResultset _ | ReceivedToken.Row _ => false | _ => true end.

Fixpoint collect (ts : tokens) (cols : option (list Column)) (idx : option Z) (results : list (list Row)) (current : option (list Row))
    : Res (list (list Row)) :=
  match ts with
  | [] => Ok (push_current results current)
  | Ok (ReceivedToken.NewResultset m) :: ts => collect ts (Some (columns_of m)) (Some (next_index idx)) (push_current results current) (Some [])
  | Ok (ReceivedToken.Row d) :: ts =>
      match cols with
      | None => Err row_before_metadata
      | Some cs => collect ts cols idx results (Some (default [] current ++ [mkRow cs d (index_or_0 idx)]))
      end
  | Ok _ :: ts => collect ts cols idx results current
  | Err e :: _ => Err e
  | Panic :: _ => Panic
  | OutOfFuel :: _ => OutOfFuel
  end.

Lemma collect_loop_eq ts : forall fuel cols idx results current, (length ts < fuel)%nat ->
  collect_loop fuel (mkQueryStream ts cols idx) results current = collect ts cols idx results current.
Proof.
  induction ts as [|[t|e| |] ts IH]; intros [|fuel] cols idx results current Hf; try (cbn in Hf; lia); try reflexivity.
  destruct t; cbn [collect]; try (rewrite <- (IH (S fuel)) by (cbn in Hf; lia); reflexivity);
    unfold collect_loop; fold collect_loop; unfold query_try_next; cbn [token_stream qs_columns result_set_index query_next].
  - apply IH. cbn in Hf; lia.
  - destruct cols; [|reflexivity]. apply IH. cbn in Hf; lia.
Qed.

Lemma into_results_eq ts : into_results (query_stream_new ts) = collect ts None None [] None.
Proof. apply collect_loop_eq. cbn. lia. Qed.

(** The same for a command; [r] is the result so far. *)
Fixpoint command (ts : tokens) (cols : option (list Column)) (idx : option Z) (r : CommandResult) (result : option (list Row)) : Res CommandResult :=
  match ts with
  | [] => Ok (mkCommandResult (rows_affected r) (return_code r) (return_values r) (push_current (query_results r) result))
  | Ok t :: ts =>
      let affected n := command ts cols idx (mkCommandResult (rows_affected r ++ [n]) (return_code r) (return_values r) (query_results r)) result in
      match t with
      | ReceivedToken.NewResultset m =>
          command ts (Some (columns_of m)) (Some (next_index idx))
            (mkCommandResult (rows_affected r) (return_code r) (return_values r) (push_current (query_results r) result)) (Some [])
      | ReceivedToken.Row d =>
          match cols with
          | None => Err row_before_metadata
          | Some cs => command ts cols idx r (Some (default [] result ++ [mkRow cs d (index_or_0 idx)]))
          end
      | ReceivedToken.ReturnStatus rs => command ts cols idx (mkCommandResult (rows_affected r) rs (return_values r) (query_results r)) result
      | ReceivedToken.ReturnValue v =>
          command ts cols idx (mkCommandResult (rows_affected r) (return_code r)
            (return_values r ++ [mkCommandReturnValue (param_name v) (param_ordinal v) (rv_value v)]) (query_results r)) result
      | ReceivedToken.DoneProc d => if done_is_final d then command ts cols idx r result else affected (done_row_count d)
      | ReceivedToken.DoneInProc d | ReceivedToken.Done d => affected (done_row_count d)
      | _ => command ts cols idx r result
      end
  | Err e :: _ => Err e
  | Panic :: _ => Panic
  | OutOfFuel :: _ => OutOfFuel
  end.

Lemma command_loop_eq ts : forall fuel cols idx r result, (length ts < fuel)%nat ->
  command_loop fuel (mkQueryStream ts cols idx) r result = command ts cols idx r result.
Proof.
  induction ts as [|[t|e| |] ts IH]; intros [|fuel] cols idx r result Hf; try (cbn in Hf; lia); try reflexivity.
  assert (Hf' : (length ts < fuel)%nat) by (cbn in Hf; lia).
  destruct t; cbn [command]; try (rewrite <- (IH (S fuel)) by lia; reflexivity);
    unfold command_loop; fold command_loop; cbn [token_stream qs_columns result_set_index command_next]; try (apply IH, Hf').
  - destruct cols; [|reflexivity]. destruct result; apply IH, Hf'.
  - destruct (done_is_final d); [|apply IH, Hf']. rewrite <- (IH (S fuel)) by lia. reflexivity.
Qed.

Lemma into_command_result_eq ts : into_command_result (query_stream_new ts) = command ts None None (mkCommandResult [] 0 [] []) None.
Proof. apply command_loop_eq. cbn. lia. Qed.

Lemma collect_command ts : forall cols idx r current,
  collect ts cols idx (query_results r) current = res_map query_results (command ts cols idx r current).
Proof.
  induction ts as [|[t|e| |] ts IH]; intros cols idx r current; try reflexivity.
  destruct t; cbn [collect command]; try apply IH; try (rewrite <- IH; reflexivity).
  - destruct cols; [apply IH|reflexivity].
  - destruct (done_is_final d); [apply IH|rewrite <- IH; reflexivity].
Qed.

Lemma execute_command ts : forall cols idx r current res,
  command ts cols idx r current = Ok res -> exists l, execute_result ts = Ok l /\ rows_affected res = rows_affected r ++ l.
Proof.
  induction ts as [|[t|e| |] ts IH]; intros cols idx r current res H; try discriminate.
  { injection H as <-. exists []. rewrite app_nil_r. auto. }
  assert (Step : forall n r' res, rows_affected r' = rows_affected r ++ [n] ->
    (exists l, execute_result ts = Ok l /\ rows_affected res = rows_affected r' ++ l) ->
    exists l, res_map (cons n) (execute_result ts) = Ok l /\ rows_affected res = rows_affected r ++ l).
  { intros n r' res' E (l & -> & ->). exists (n :: l). rewrite E, <- app_assoc. auto. }
  destruct t; cbn [command execute_result] in *; try (apply IH in H; exact H).
  - destruct cols; [|discriminate]. apply IH in H; exact H.
  - apply IH in H. eapply Step; [|exact H]. reflexivity.
  - apply IH in H. eapply Step; [|exact H]. reflexivity.
  - destruct (done_is_final d); [apply IH in H; exact H|]. apply IH in H. eapply Step; [|exact H]. reflexivity.
Qed.

(** ** Lemmas: result sets *)

Definition rows_of (body : list ReceivedToken) : list TokenRow :=
  omap (fun t => match t with ReceivedToken.Row d => Some d | _ => None end) body.
Definition no_metadata (t : ReceivedToken) : bool := match t with ReceivedToken.NewResultset _ => false | _ => true end.

(** A result set as the server sends it: its metadata and what follows. *)
Definition set_tokens (set : TokenColMetaData * list ReceivedToken) : list ReceivedToken := ReceivedToken.NewResultset (fst set) :: snd set.
Definition set_rows (i : nat) (set : TokenColMetaData * list ReceivedToken) : list Row :=
  map (fun d => mkRow (columns_of (fst set)) d (Z.of_nat i)) (rows_of (snd set)).

Lemma collect_body cs i results body : forall current rest, Forall (fun t => no_metadata t = true) body ->
  collect (map Ok body ++ rest) (Some cs) (Some i) results (Some current) =
  collect rest (Some cs) (Some i) results (Some (current ++ map (fun d => mkRow cs d i) (rows_of body))).
Proof.
  induction body as [|t body IH]; intros current rest H; [cbn; rewrite app_nil_r; reflexivity|].
  inversion_clear H as [|? ? Ht Hb]. destruct t; try discriminate Ht; cbn [map app collect rows_of omap list_omap]; try (apply IH, Hb).
  cbn [default index_or_0]. rewrite IH by exact Hb. cbn. rewrite <- app_assoc. reflexivity.
Qed.

Lemma collect_sets sets : forall n results current cols,
  Forall (fun set => Forall (fun t => no_metadata t = true) (snd set)) sets ->
  collect (map Ok (concat (map set_tokens sets))) cols (match n with O => None | S n => Some (Z.of_nat n) end) results current =
  Ok (push_current results current ++ imap (fun k => set_rows (n + k)) sets).
Proof.
  induction sets as [|[m body] sets IH]; intros n results current cols H; [cbn; rewrite app_nil_r; reflexivity|].
  inversion_clear H as [|? ? Hb Hs]. cbn [map concat set_tokens fst snd app collect]. rewrite map_app.
  replace (next_index _) with (Z.of_nat n) by (destruct n; cbn [next_index]; lia).
  rewrite collect_body by exact Hb. cbn [app].
  rewrite (IH (S n)) by exact Hs. cbn [push_current imap]. rewrite <- app_assoc. cbn [app]. do 3 f_equal.
  - unfold set_rows. cbn. rewrite Nat.add_0_r. reflexivity.
  - apply imap_ext. intros k x _. cbn. f_equal. lia.
Qed.

Lemma collect_prefix pre : forall rest cols idx results current, Forall (fun t => other t = true) pre ->
  collect (map Ok pre ++ rest) cols idx results current = collect rest cols idx results current.
Proof.
  induction pre as [|t pre IH]; intros rest cols idx results current H; [reflexivity|]. inversion_clear H as [|? ? Ht Hp].
  destruct t; try discriminate Ht; cbn [map app collect]; apply IH, Hp.
Qed.

(** ** Lemmas: rows fit their columns *)

(** Every row has as many values as the metadata before it has columns;
    [meta] is the metadata in force. *)
Fixpoint aligned (meta : option TokenColMetaData) (ts : tokens) : Prop :=
  match ts with
  | [] => True
  | Ok (ReceivedToken.NewResultset m) :: ts => aligned (Some m) ts
  | Ok (ReceivedToken.Row d) :: ts => (exists m, meta = Some m /\ length d = length (columns m)) /\ aligned meta ts
  | _ :: ts => aligned meta ts
  end.

Section Aligned.
Context {ER : EncodingRs}.

Lemma map_m_length {S A B} (f : A -> M S B) l : forall s r s', map_m f l s = (Ok r, s') -> length r = length l.
Proof.
  induction l as [|a l IH]; intros s r s' H; [injection H as <- _; reflexivity|]. cbn [map_m] in H.
  apply bind_ok_inv in H as (x & s1 & _ & H). apply bind_ok_inv in H as (y & s2 & H2 & [= <- _]). cbn. f_equal. eapply IH, H2.
Qed.

Lemma nbc_columns_length ctx bm l : forall i s r s', nbc_columns ctx bm i l s = (Ok r, s') -> length r = length l.
Proof.
  induction l as [|a l IH]; intros i s r s' H; [injection H as <- _; reflexivity|]. cbn [nbc_columns] in H.
  apply bind_ok_inv in H as (x & s1 & _ & H). apply bind_ok_inv in H as (y & s2 & _ & H).
  apply bind_ok_inv in H as (z & s3 & H3 & [= <- _]). cbn. f_equal. eapply IH, H3.
Qed.

Lemma row_decode_length ctx b r b' : row_decode ctx b = (Ok r, b') \/ nbc_row_decode ctx b = (Ok r, b') ->
  exists m, last_meta ctx = Some m /\ length r = length (columns m).
Proof.
  unfold row_decode, nbc_row_decode. destruct (last_meta ctx) as [m|]; [|intros [[=]|[=]]]. intros [H|H]; exists m; (split; [reflexivity|]).
  - eapply map_m_length, H.
  - apply bind_ok_inv in H as (x & s1 & _ & H). eapply nbc_columns_length, H.
Qed.

Lemma next_token_row s d s' : next_token s = (Ok (Some (ReceivedToken.Row d)), s') ->
  exists m, last_meta (st_ctx s) = Some m /\ length d = length (columns m).
Proof.
  unfold next_token. destruct (st_buf s) as [|b buf]; [destruct (last_error s); discriminate|].
  intros H. apply bind_ok_inv in H as (x & s1 & E1 & H). apply on_conn_ok in E1 as [C1 _]. rewrite <- C1. clear C1.
  destruct (token_try_from x) as [ty|]; [|discriminate]. apply bind_ok_inv in H as (y & s2 & E2 & [= -> _]).
  assert (Inv : (exists b', row_decode (st_ctx s1) (st_buf s1) = (Ok d, b') \/ nbc_row_decode (st_ctx s1) (st_buf s1) = (Ok d, b'))).
  { assert (Of : forall c : Decoder TokenRow, (r <- on_conn c ;; ret (ReceivedToken.Row r)) s1 = (Ok (ReceivedToken.Row d), s2) ->
      exists b', c bytes bytes_source (st_ctx s1) (st_buf s1) = (Ok d, b')).
    { intros c Hc. apply bind_ok_inv in Hc as (r & s3 & E3 & [= -> _]). rewrite on_bytes in E3.
      destruct (c _ _ _ _) as [r' b']. injection E3 as -> _. eauto. }
    destruct ty; cbn [get_token] in E2; try (apply Of in E2 as (b' & E2); eauto; fail);
      repeat (apply bind_ok_inv in E2 as (? & ? & ? & E2)); discriminate. }
  destruct Inv as (b' & Inv). apply (row_decode_length _ _ _ _ Inv).
Qed.

Lemma response_aligned fuel : forall s, aligned (last_meta (st_ctx s)) (response fuel s).
Proof.
  induction fuel as [|fuel IH]; intros s; [exact I|]. cbn [response].
  destruct (next_token s) as [[[t|]|e| |] s'] eqn:E; try exact I.
  pose proof (next_token_effect s t s' E) as [C _]. specialize (IH s'). rewrite C in IH.
  destruct t; cbn [aligned]; try exact IH.
  - split; [eapply next_token_row, E|exact IH].
  - destruct e; exact IH.
Qed.

(** The tokens of a response never stand for a panic or a loop. *)
Lemma response_safe fuel : forall s, wf_stream s -> (length (st_buf s) < fuel)%nat ->
  Forall (res_safe (fun _ => True)) (response fuel s).
Proof.
  induction fuel as [|fuel IH]; intros s W L; [lia|]. cbn [response].
  destruct (next_token_safe s W) as (r & s' & -> & Hr & W' & _ & P). destruct r as [[t|]|e| |]; try (repeat constructor; fail); try contradiction.
  constructor; [exact I|]. apply IH; [exact W'|]. specialize (P t eq_refl). lia.
Qed.
End Aligned.

(** What the streams make of aligned tokens. *)
Definition fitted (r : Row) : Prop := length (row_data r) = length (row_columns r).

Lemma collect_fitted ts : forall meta cols idx results current,
  aligned meta ts -> (forall cs, cols = Some cs -> exists m, meta = Some m /\ cs = columns_of m) ->
  Forall (Forall fitted) (push_current results current) ->
  Forall (res_safe (fun _ => True)) ts ->
  res_safe (Forall (Forall fitted)) (collect ts cols idx results current).
Proof.
  induction ts as [|[t|e| |] ts IH]; intros meta cols idx results current A C F S; inversion_clear S as [|? ? S1 S2];
    try exact F; try exact I; try contradiction.
  destruct t; cbn [collect aligned] in *; try (apply (IH meta); auto; fail).
  - apply (IH (Some m)); auto; [intros cs [= <-]; eauto|]. apply Forall_app. auto.
  - destruct A as [(m & -> & L) A]. destruct cols as [cs|]; [|exact I]. apply (IH (Some m)); auto.
    destruct (C cs eq_refl) as (m' & [= <-] & ->). destruct current as [rows|]; cbn [push_current default] in *.
    + apply Forall_app in F as [F1 F2]. inversion_clear F2 as [|? ? F3 _]. apply Forall_app. split; [exact F1|].
      constructor; [|constructor]. apply Forall_app. split; [exact F3|]. constructor; [|constructor].
      unfold fitted, columns_of. cbn. rewrite length_map. exact L.
    + apply Forall_app. split; [exact F|]. constructor; [|constructor]. constructor; [|constructor].
      unfold fitted, columns_of. cbn. rewrite length_map. exact L.
Qed.

(** ** Lemmas: columns by name *)

Lemma fitted_lookup row i : fitted row -> (i < length (row_columns row))%nat -> exists d, row_data row !! i = Some d.
Proof. intros F H. apply lookup_lt_is_Some. rewrite F. exact H. Qed.

Lemma idx_in_range name row i : idx_str name row = Some i -> (i < length (row_columns row))%nat.
Proof.
  unfold idx_str. assert (P : forall n k, position_of (named n) (row_columns row) = Some k -> (k < length (row_columns row))%nat).
  { intros n k H. apply position_of_Some in H as [(c & H & _) _]. eapply lookup_lt_Some, H. }
  destruct (position_of (named name) (row_columns row)) as [k|] eqn:E; [intros [= <-]; eapply P, E|].
  destruct (strip_prefix RAW_PREFIX name); [apply P|discriminate].
Qed.

(** ** Properties *)

(** C20: the rows of a response come back grouped by result set, in order: for
    a response that announces its result sets (anything but rows before the
    first, no metadata inside one), [into_results] returns one list per
    metadata, empty ones included, and each row carries the columns and the
    index of its own set.  [into_first_result] and [into_row] are its head. *)
Theorem into_results_groups (pre : list ReceivedToken) (sets : list (TokenColMetaData * list ReceivedToken))
  (Hp : Forall (fun t => other t = true) pre)
  (Hs : Forall (fun set => Forall (fun t => no_metadata t = true) (snd set)) sets) :
  let s := query_stream_new (map Ok (pre ++ concat (map set_tokens sets))) in
  into_results s = Ok (imap set_rows sets) /\
  into_first_result s = Ok (default [] (head (imap set_rows sets))) /\
  into_row s = Ok (head (default [] (head (imap set_rows sets)))).
Proof.
  intros s. assert (E : into_results s = Ok (imap set_rows sets)).
  { unfold s. rewrite into_results_eq, map_app, collect_prefix by exact Hp. apply (collect_sets sets 0 [] None None Hs). }
  unfold into_row, into_first_result. rewrite E. auto.
Qed.

(** The three ways to read a response agree, on every stream of tokens
    and errors: the result sets of a command are those of a query, with the
    same error when there is one, and the row counts of a command that
    succeeds are those [ExecuteResult] collects. *)
Theorem result_readers_agree (ts : tokens) :
  into_results (query_stream_new ts) = res_map query_results (into_command_result (query_stream_new ts)) /\
  forall r, into_command_result (query_stream_new ts) = Ok r -> execute_result ts = Ok (rows_affected r).
Proof.
  rewrite into_results_eq, into_command_result_eq. split; [apply (collect_command ts None None (mkCommandResult [] 0 [] []))|].
  intros r H. apply execute_command in H as (l & E & ->). exact E.
Qed.

(** C21: rows are as wide as their columns.  Whatever bytes a server sends as
    a response, collecting it ends in an error or in result sets, and every
    row of them has a value for every column: looking up a column by an index
    in range gives its value, and by a name the value of a column that has the
    name or the error that there is no such column. *)
Theorem response_rows_fit {ER : EncodingRs} (s : Stream) (W : wf_stream s) :
  match into_results (query_stream_new (tokens_of s)) with
  | Ok sets => Forall (Forall (fun row =>
      (forall i, (i < length (row_columns row))%nat -> exists d, get_column_data (idx_usize i) row = Ok d /\ row_data row !! i = Some d) /\
      (forall name, match idx_str name row with
                    | Some i => exists d, get_column_data (idx_str name) row = Ok d /\ row_data row !! i = Some d
                    | None => exists m, get_column_data (idx_str name) row = Err (Conversion m)
                    end))) sets
  | Err _ => True
  | Panic | OutOfFuel => False
  end.
Proof.
  rewrite into_results_eq. pose proof (collect_fitted (tokens_of s) (last_meta (st_ctx s)) None None [] None) as F.
  specialize (F (response_aligned _ s) ltac:(discriminate) ltac:(constructor) (response_safe _ s W (Nat.lt_succ_diag_r _))).
  destruct (collect _ _ _ _ _) as [sets|e| |]; try exact F. cbn in F. eapply Forall_impl; [exact F|]. intros rows Hr.
  eapply Forall_impl; [exact Hr|]. intros row Fr. unfold get_column_data, idx_usize. split.
  - intros i Hi. rewrite (proj2 (Nat.ltb_lt _ _) Hi). destruct (fitted_lookup row i Fr Hi) as (d & E). exists d. cbn. rewrite E. auto.
  - intros name. destruct (idx_str name row) as [i|] eqn:E; [|eexists; reflexivity].
    destruct (fitted_lookup row i Fr (idx_in_range _ _ _ E)) as (d & Ed). exists d. cbn. rewrite Ed. auto.
Qed.

(** Asking for the columns first changes nothing that is read later:
    [columns] passes over what the stream would have passed over, returns the
    columns of the set the next item belongs to, and leaves the rest of the
    response as it was. *)
Theorem columns_transparent (s s' : QueryStream) (c : option (list Column)) (H : query_columns s = (Ok c, s')) :
  into_results s' = into_results s /\
  match fst (query_try_next s') with
  | Ok (Some (QueryItem.Metadata m)) => c = Some (rm_columns m)
  | Ok (Some (QueryItem.Row r)) => c = Some (row_columns r)
  | _ => c = qs_columns s
  end.
Proof.
  destruct s as [ts cols idx]. assert (I : forall q, into_results q = collect (token_stream q) (qs_columns q) (result_set_index q) [] None).
  { intros [a b d]. apply collect_loop_eq. cbn. lia. }
  rewrite !I. unfold query_columns in H. cbn [token_stream qs_columns result_set_index] in *. clear I.
  induction ts as [|[t|e| |] ts IH]; try discriminate; [injection H as <- <-; split; reflexivity|].
  destruct t; cbn [query_columns_loop] in H; try (destruct (IH H) as [IH1 IH2]; split; [rewrite IH1; reflexivity|exact IH2]; fail);
    injection H as <- <-; (split; [reflexivity|]); cbn; [reflexivity|]. destruct cols; reflexivity.
Qed.

(** ** Witnesses *)

Definition done_default_token : TokenDone := mkTokenDone 0 0 0.
Definition done_more : TokenDone := mkTokenDone (DoneMore + DoneCount) 0xC1 1.
Definition ab_meta (name : string) : TokenColMetaData := mkTokenColMetaData [int_column name].
Definition int_value (v : Z) : TokenRow := [ColumnData.I32 (Some v)].

(** Two result sets: one with two rows, one with none. *)
Definition two_sets : list (TokenColMetaData * list ReceivedToken) :=
  [(ab_meta "a", [ReceivedToken.Order []; ReceivedToken.Row (int_value 1); ReceivedToken.Row (int_value 2); ReceivedToken.Done done_more]);
   (ab_meta "b", [ReceivedToken.Done done_default_token])].

Lemma into_results_groups_witness :
  let s := query_stream_new (map Ok ([ReceivedToken.DoneInProc done_more] ++ concat (map set_tokens two_sets))) in
  let a := columns_of (ab_meta "a") in
  into_results s = Ok [[mkRow a (int_value 1) 0; mkRow a (int_value 2) 0]; []] /\
  into_row s = Ok (Some (mkRow a (int_value 1) 0)).
Proof.
  intros s a. destruct (into_results_groups [ReceivedToken.DoneInProc done_more] two_sets) as (E1 & _ & E3);
    [repeat constructor|repeat constructor|]. split; [exact E1|exact E3].
Defined.

(** The bytes of a response with one row. *)
Definition response_bytes : bytes :=
  snd (col_metadata_encode (ab_meta "a") []) ++ [TOKEN_ROW; 4; 7; 0; 0; 0] ++ snd (done_encode done_more []).
Definition response_stream : Stream := mkStream response_bytes context_new None.

Lemma wf_response_stream : wf_stream response_stream.
Proof.
  split; [|split; [apply wf_context_new|exact I]]. apply List.Forall_forall. intros x Hx. unfold is_byte.
  assert (B : forallb (fun b => (0 <=? b) && (b <? 256)) response_bytes = true) by (vm_compute; reflexivity).
  rewrite forallb_forall in B. specialize (B x Hx). bool_Z. lia.
Qed.

Lemma response_rows_fit_witness :
  into_results (query_stream_new (tokens_of (ER := ascii_encoding_rs) response_stream)) = Ok [[mkRow (columns_of (ab_meta "a")) (int_value 7) 0]] /\
  exists d, get_column_data (idx_str (ascii_str "r#a")) (mkRow (columns_of (ab_meta "a")) (int_value 7) 0) = Ok d /\ d = ColumnData.I32 (Some 7).
Proof.
  assert (E : into_results (query_stream_new (tokens_of (ER := ascii_encoding_rs) response_stream)) =
    Ok [[mkRow (columns_of (ab_meta "a")) (int_value 7) 0]]) by (vm_compute; reflexivity).
  split; [exact E|]. pose proof (response_rows_fit (ER := ascii_encoding_rs) response_stream wf_response_stream) as H. rewrite E in H.
  inversion_clear H as [|? ? H1 _]. inversion_clear H1 as [|? ? [_ H2] _]. destruct (H2 (ascii_str "r#a")) as (d & Hd & Hl).
  exists d. split; [exact Hd|]. injection Hl as <-. reflexivity.
Defined.

Lemma columns_transparent_witness :
  let s := query_stream_new (map Ok [ReceivedToken.DoneInProc done_more; ReceivedToken.NewResultset (ab_meta "a"); ReceivedToken.Row (int_value 1)]) in
  let s' := mkQueryStream (map Ok [ReceivedToken.NewResultset (ab_meta "a"); ReceivedToken.Row (int_value 1)]) (Some (columns_of (ab_meta "a"))) None in
  query_columns s = (Ok (Some (columns_of (ab_meta "a"))), s') /\ into_results s' = into_results s.
Proof.
  intros s s'. assert (E : query_columns s = (Ok (Some (columns_of (ab_meta "a"))), s')) by reflexivity.
  split; [exact E|]. exact (proj1 (columns_transparent s s' _ E)).
Defined.
