(* ===== verification/Access.v ===== *)
(** * Access: how a caller takes rows and results apart

    The accessors of [row.rs], [result.rs], [tds/stream/query.rs],
    [tds/stream/command.rs], [tds/xml.rs] and [TokenRow], the builder of rows,
    and the streams of rows.  Ownership is not modelled: a borrowing and a
    consuming accessor are one. *)

From S2P Require Import Prelude Unicode Types Context Metadata Rows Tokens TokenStream Results.

(** ** [TokenRow] *)

Definition token_row_new : TokenRow := [].
(** The capacity is only reserved. *)
Definition token_row_with_capacity (capacity : nat) : TokenRow := [].
Definition token_row_clear (r : TokenRow) : TokenRow := [].
Definition token_row_len (r : TokenRow) : Z := len r.
Definition token_row_is_empty (r : TokenRow) : bool := match r with [] => true | _ => false end.
Definition token_row_get (i : nat) (r : TokenRow) : option ColumnData := r !! i.
Definition token_row_push (v : ColumnData) (r : TokenRow) : TokenRow := r ++ [v].

(** ** [XmlData] *)

Definition xml_new (data : str) : XmlData := mkXmlData data None.
Definition set_schema (s : XmlSchema) (x : XmlData) : XmlData := mkXmlData (xml_data x) (Some s).
Definition xml_into_string (x : XmlData) : str := xml_data x.

(** ** [Row] *)

Definition row_cells (r : Row) : list (Column * ColumnData) := zip (row_columns r) (row_data r).
Definition row_len (r : Row) : Z := token_row_len (row_data r).
Definition into_token_row (r : Row) : TokenRow := row_data r.

(** [RowBuilder] *)
Record RowBuilder := mkRowBuilder { rb_columns : list Column; rb_data : TokenRow; rb_result_index : Z }.
Definition row_builder : RowBuilder := mkRowBuilder [] token_row_new 0.
Definition builder_column (name : str) (t : ColumnType) (v : ColumnData) (b : RowBuilder) : RowBuilder :=
  mkRowBuilder (rb_columns b ++ [mkColumn name t]) (token_row_push v (rb_data b)) (rb_result_index b).
Definition builder_result_index (i : Z) (b : RowBuilder) : RowBuilder := mkRowBuilder (rb_columns b) (rb_data b) i.
Definition builder_build (b : RowBuilder) : Row := mkRow (rb_columns b) (rb_data b) (rb_result_index b).

(** ** Items of the streams *)

Definition query_as_metadata (i : QueryItem) : option ResultMetadata := match i with QueryItem.Row _ => None | QueryItem.Metadata m => Some m end.
Definition query_as_row (i : QueryItem) : option Row := match i with QueryItem.Row r => Some r | QueryItem.Metadata _ => None end.
Definition command_as_metadata (i : CommandItem) : option ResultMetadata := match i with CommandItem.Metadata m => Some m | _ => None end.
Definition command_as_row (i : CommandItem) : option Row := match i with CommandItem.Row r => Some r | _ => None end.
Definition as_return_status (i : CommandItem) : option Z := match i with CommandItem.ReturnStatus n => Some n | _ => None end.
Definition as_return_value (i : CommandItem) : option CommandReturnValue := match i with CommandItem.ReturnValue v => Some v | _ => None end.

(** [into_row_stream]: [try_filter_map] keeps the rows, and the errors; one
    round per token. *)
Fixpoint row_stream (fuel : nat) (s : QueryStream) : list (Res Row) :=
  match fuel with
  | O => []
  | S fuel =>
      match query_try_next s with
      | (Ok (Some i), s) => match query_as_row i with Some r => Ok r :: row_stream fuel s | None => row_stream fuel s end
      | (Ok None, _) => []
      | (Err e, _) => [Err e]
      | (Panic, _) => [Panic]
      | (OutOfFuel, _) => [OutOfFuel]
      end
  end.
Definition into_row_stream (s : QueryStream) : list (Res Row) := row_stream (S (length (token_stream s))) s.

Fixpoint command_row_stream (fuel : nat) (s : QueryStream) : list (Res Row) :=
  match fuel with
  | O => []
  | S fuel =>
      match command_next (token_stream s) (qs_columns s) (result_set_index s) with
      | (Ok (Some i), s) => match command_as_row i with Some r => Ok r :: command_row_stream fuel s | None => command_row_stream fuel s end
      | (Ok None, _) => []
      | (Err e, _) => [Err e]
      | (Panic, _) => [Panic]
      | (OutOfFuel, _) => [OutOfFuel]
      end
  end.
Definition command_into_row_stream (s : QueryStream) : list (Res Row) := command_row_stream (S (length (token_stream s))) s.

(** ** [ExecuteResult] and [CommandResult] *)

Definition return_values_len (r : CommandResult) : Z := len (return_values r).
Definition to_query_result (i : nat) (r : CommandResult) : option (list Row) := query_results r !! i.
Definition command_result_rows (r : CommandResult) : list (list Row) := query_results r.

(** ** Lemmas *)

(** The rows of a list of tokens, up to the first error. *)
Fixpoint rows_of (ts : tokens) (cols : option (list Column)) (idx : option Z) : list (Res Row) :=
  match ts with
  | [] => []
  | Ok (ReceivedToken.NewResultset m) :: ts => rows_of ts (Some (columns_of m)) (Some (next_index idx))
  | Ok (ReceivedToken.Row d) :: ts =>
      match cols with None => [Err row_before_metadata] | Some cs => Ok (mkRow cs d (index_or_0 idx)) :: rows_of ts cols idx end
  | Ok _ :: ts => rows_of ts cols idx
  | Err e :: _ => [Err e]
  | Panic :: _ => [Panic]
  | OutOfFuel :: _ => [OutOfFuel]
  end.

Lemma row_stream_eq ts : forall fuel cols idx, (length ts < fuel)%nat -> row_stream fuel (mkQueryStream ts cols idx) = rows_of ts cols idx.
Proof.
  induction ts as [|[t|e| |] ts IH]; intros [|fuel] cols idx Hf; try (cbn in Hf; lia); try reflexivity.
  destruct t; cbn [rows_of]; try (rewrite <- (IH (S fuel)) by (cbn in Hf; lia); reflexivity);
    unfold row_stream; fold row_stream; unfold query_try_next; cbn [token_stream qs_columns result_set_index query_next].
  - cbn [query_as_row]. apply IH. cbn in Hf; lia.
  - destruct cols; [|reflexivity]. cbn [query_as_row]. f_equal. apply IH. cbn in Hf; lia.
Qed.

Lemma command_row_stream_eq ts : forall fuel cols idx, (length ts < fuel)%nat ->
  command_row_stream fuel (mkQueryStream ts cols idx) = rows_of ts cols idx.
Proof.
  induction ts as [|[t|e| |] ts IH]; intros [|fuel] cols idx Hf; try (cbn in Hf; lia); try reflexivity.
  assert (Hf' : (length ts < fuel)%nat) by (cbn in Hf; lia).
  destruct t; cbn [rows_of]; try (rewrite <- (IH (S fuel)) by lia; reflexivity);
    unfold command_row_stream; fold command_row_stream; cbn [token_stream qs_columns result_set_index command_next command_as_row];
    try (apply IH, Hf').
  - destruct cols; [|reflexivity]. cbn [command_as_row]. f_equal. apply IH, Hf'.
  - destruct (done_is_final d); [|apply IH, Hf']. rewrite <- (IH (S fuel)) by lia. reflexivity.
Qed.

(** Collecting is collecting the stream of rows. *)
Lemma collect_rows ts : forall cols idx results current,
  match collect ts cols idx results current with
  | Ok rss => map Ok (concat rss) = map Ok (concat (push_current results current)) ++ rows_of ts cols idx
  | Err e => exists rows, rows_of ts cols idx = map Ok rows ++ [Err e]
  | Panic => exists rows, rows_of ts cols idx = map Ok rows ++ [Panic]
  | OutOfFuel => exists rows, rows_of ts cols idx = map Ok rows ++ [OutOfFuel]
  end.
Proof.
  induction ts as [|[t|e| |] ts IH]; intros cols idx results current; cbn [collect rows_of];
    [rewrite app_nil_r; reflexivity| |exists []; reflexivity..].
  destruct t; try apply IH.
  - specialize (IH (Some (columns_of m)) (Some (next_index idx)) (push_current results current) (Some [])).
    destruct (collect _ _ _ _ _); try exact IH. rewrite IH. cbn [push_current]. rewrite concat_app. cbn. rewrite !app_nil_r. reflexivity.
  - destruct cols as [cs|]; [|exists []; reflexivity].
    specialize (IH (Some cs) idx results (Some (default [] current ++ [mkRow cs r (index_or_0 idx)]))).
    destruct (collect _ _ _ _ _); [|destruct IH as [rows ->]; exists (mkRow cs r (index_or_0 idx) :: rows); reflexivity..].
    rewrite IH. destruct current as [rows|]; cbn [push_current default]; rewrite ?concat_app; cbn; rewrite ?app_nil_r, ?map_app, <- ?app_assoc; reflexivity.
Qed.

(** ** Properties *)

(** Streaming the rows of a response and collecting them are the same:
    [into_row_stream] hands out, for a query and for a command alike, the rows
    of the result sets [into_results] returns, in order, the sets joined; and
    when the response fails it hands out the rows before the failure and then
    the error that [into_results] returns. *)
Theorem row_stream_collects (ts : tokens) :
  command_into_row_stream (query_stream_new ts) = into_row_stream (query_stream_new ts) /\
  match into_results (query_stream_new ts) with
  | Ok rss => into_row_stream (query_stream_new ts) = map Ok (concat rss)
  | Err e => exists rows, into_row_stream (query_stream_new ts) = map Ok rows ++ [Err e]
  | Panic => exists rows, into_row_stream (query_stream_new ts) = map Ok rows ++ [Panic]
  | OutOfFuel => exists rows, into_row_stream (query_stream_new ts) = map Ok rows ++ [OutOfFuel]
  end.
Proof.
  unfold into_row_stream, command_into_row_stream, query_stream_new. cbn [token_stream].
  rewrite row_stream_eq, command_row_stream_eq by lia. split; [reflexivity|]. fold (query_stream_new ts). rewrite into_results_eq.
  pose proof (collect_rows ts None None [] None) as H. destruct (collect ts None None [] None); try exact H. symmetry. exact H.
Qed.

(** A builder's row answers for what was put into it: by position the value of
    that column, by name the value of the first column of that name, in the
    cells every column with its value. *)
Definition build (cells : list (str * ColumnType * ColumnData)) : Row :=
  builder_build (fold_left (fun b '(n, t, v) => builder_column n t v b) cells row_builder).

Lemma build_spec cells : build cells = mkRow (map (fun x => mkColumn (fst (fst x)) (snd (fst x))) cells) (map snd cells) 0.
Proof.
  unfold build. assert (G : forall b, builder_build (fold_left (fun b '(n, t, v) => builder_column n t v b) cells b) =
    mkRow (rb_columns b ++ map (fun x => mkColumn (fst (fst x)) (snd (fst x))) cells) (rb_data b ++ map snd cells) (rb_result_index b)); [|apply G].
  induction cells as [|[[n t] v] cells IH]; intros b; [cbn; rewrite !app_nil_r; reflexivity|]. cbn [fold_left]. rewrite IH.
  unfold builder_column, token_row_push. cbn. rewrite <- !app_assoc. reflexivity.
Qed.

Theorem row_builder_answers (cells : list (str * ColumnType * ColumnData)) (i : nat) (name : str) (t : ColumnType) (v : ColumnData)
  (H : cells !! i = Some (name, t, v)) (First : forall j x, (j < i)%nat -> cells !! j = Some x -> fst (fst x) <> name) :
  get_column_data (idx_usize i) (build cells) = Ok v /\ get_column_data (idx_str name) (build cells) = Ok v /\
  row_cells (build cells) !! i = Some (mkColumn name t, v) /\ row_len (build cells) = len (row_columns (build cells)).
Proof.
  rewrite build_spec. pose proof (lookup_lt_Some _ _ _ H) as L. unfold get_column_data, idx_usize, idx_str, row_cells, row_len, token_row_len.
  cbn [row_columns row_data]. unfold TokenRow. rewrite !length_map, (proj2 (Nat.ltb_lt _ _)) by exact L. cbn [ok_or res_bind].
  assert (Ev : map snd cells !! i = Some v) by (rewrite list_lookup_fmap, H; reflexivity). rewrite Ev. split; [reflexivity|]. split; [|split; [|reflexivity]].
  - assert (P : position_of (named name) (map (fun x => mkColumn (fst (fst x)) (snd (fst x))) cells) = Some i).
    { clear - H First. revert i H First. induction cells as [|[[n u] w] cells IH]; intros [|i] H First; try discriminate; cbn [map position_of].
      - injection H as -> -> ->. unfold named. cbn. rewrite bool_decide_true by reflexivity. reflexivity.
      - unfold named at 1. cbn [cl_name fst snd]. rewrite bool_decide_false by (apply (First 0%nat (n, u, w)); [lia|reflexivity]).
        rewrite (IH i H); [reflexivity|]. intros j x Hj Hx. apply (First (S j) x); [lia|exact Hx]. }
    rewrite P. cbn [ok_or res_bind]. rewrite Ev. reflexivity.
  - apply lookup_zip_with_Some. exists (mkColumn name t), v. split; [reflexivity|]. split; [|exact Ev]. rewrite list_lookup_fmap, H. reflexivity.
Qed.
