(* ===== verification/Chrono.v ===== *)
(** * Chrono: [tds/time/chrono.rs], values to and from the chrono crate

    The crate is a parameter, the class [Chrono]: its dates are day numbers of
    the proleptic Gregorian calendar, its times a second of the day and
    nanoseconds; its laws are what the documentation says of the functions the
    conversions call.  [days_chrono] is an instance. *)

From S2P Require Import Prelude Unicode Types Temporal Results.

Definition NANOS : Z := 1000000000.
Definition DAY_NANOS : Z := 86400 * NANOS.
(** The day number of 9999-12-31. *)
Definition MAX_SQL_DAY : Z := 3652058.

Class Chrono := {
  NaiveDate : Type;
  NaiveTime : Type;
  day_number : NaiveDate -> Z;               (** days from 0001-01-01 *)
  checked_date : Z -> option NaiveDate;
  num_seconds_from_midnight : NaiveTime -> Z;
  nanosecond : NaiveTime -> Z;               (** a second and more is a leap second *)
  midnight_plus : Z -> NaiveTime;            (** midnight plus nanoseconds, wrapping *)
  checked_sub_signed : NaiveDate * NaiveTime -> Z -> option (NaiveDate * NaiveTime);
  checked_date_number : forall n d, checked_date n = Some d <-> day_number d = n;
  checked_date_sql : forall n, 0 <= n <= MAX_SQL_DAY -> is_Some (checked_date n);
  midnight_plus_seconds : forall n, num_seconds_from_midnight (midnight_plus n) = n mod DAY_NANOS / NANOS;
  midnight_plus_nanos : forall n, nanosecond (midnight_plus n) = n mod NANOS;
  checked_sub_signed_spec : forall d t n d' t', checked_sub_signed (d, t) n = Some (d', t') ->
    nanosecond t < NANOS ->
    day_number d' * DAY_NANOS + num_seconds_from_midnight t' * NANOS + nanosecond t' =
    day_number d * DAY_NANOS + num_seconds_from_midnight t * NANOS + nanosecond t - n;
}.

Section Chrono.
Context {C : Chrono}.

(** [from_days] for the start years 1 and 1900 *)
Definition YEAR_1 : Z := 0.
Definition YEAR_1900 : Z := DAYS_YEAR_1_TO_1900.
Definition from_days (n start : Z) : Res NaiveDate :=
  ok_or (checked_date (start + n)) (Protocol "date day offset is out of the representable range").

(** [validate_offset_minutes] *)
Definition validate_offset_minutes (minutes : Z) : Res Z :=
  if (-840 <=? minutes) && (minutes <=? 840) then Ok minutes
  else Err (Protocol "datetimeoffset offset is outside the valid -14:00..=+14:00 range").

(** [nanos_from_increments], with its saturation *)
Definition sat (w v : Z) : Z := Z.min v (2 ^ w - 1).
Definition nanos_from_increments (inc scale : Z) : Z :=
  Z.min (sat 64 (inc * sat 64 (10 ^ Z.max 0 (9 - scale)))) (2 ^ 63 - 1).

(** [from_sec_fragments]; the product stays below 2^63 for a u32. *)
Definition from_sec_fragments (f : Z) : NaiveTime := midnight_plus (f * NANOS / 300).

(** [from_mins]: seconds from midnight *)
Definition from_mins (mins : Z) : Res NaiveTime :=
  if mins <? 86400 then Ok (midnight_plus (mins * NANOS)) else Err (Protocol "smalldatetime seconds-of-day is out of range").

(** [to_days] *)
Definition to_days (d : NaiveDate) (start : Z) : Z := day_number d - start.

(** ** [FromSql] *)

Definition opt_res {A B} (o : option A) (f : A -> Res B) : Res (option B) :=
  match o with Some a => res_map Some (f a) | None => Ok None end.
Definition time_of (t : Time) : NaiveTime := midnight_plus (nanos_from_increments (increments t) (time_scale t)).
Definition datetime2_of (d : DateTime2) : Res (NaiveDate * NaiveTime) :=
  res_map (fun date => (date, time_of (dt2_time d))) (from_days (days (dt2_date d)) YEAR_1).

Definition from_sql_naive_datetime (d : ColumnData) : Res (option (NaiveDate * NaiveTime)) :=
  match d with
  | ColumnData.SmallDateTime o => opt_res o (fun dt =>
      res_bind (from_days (sdt_days dt) YEAR_1900) (fun date => res_map (fun t => (date, t)) (from_mins (sdt_seconds_fragments dt * 60))))
  | ColumnData.DateTime2 o => opt_res o datetime2_of
  | ColumnData.DateTime o => opt_res o (fun dt =>
      res_map (fun date => (date, from_sec_fragments (dt_seconds_fragments dt))) (from_days (dt_days dt) YEAR_1900))
  | _ => cannot
  end.
Definition from_sql_naive_time (d : ColumnData) : Res (option NaiveTime) :=
  match d with ColumnData.Time o => opt_res o (fun t => Ok (time_of t)) | _ => cannot end.
Definition from_sql_naive_date (d : ColumnData) : Res (option NaiveDate) :=
  match d with ColumnData.Date o => opt_res o (fun d => from_days (days d) YEAR_1) | _ => cannot end.

(** [DateTime<Utc>]: the value is its UTC part. *)
Definition from_sql_utc (d : ColumnData) : Res (option (NaiveDate * NaiveTime)) :=
  match d with
  | ColumnData.DateTimeOffset o => opt_res o (fun dto =>
      res_bind (datetime2_of (datetime2 dto)) (fun base =>
      res_bind (validate_offset_minutes (offset dto)) (fun minutes =>
      ok_or (checked_sub_signed base (minutes * 60 * NANOS)) (Protocol "datetimeoffset value is out of the representable range"))))
  | ColumnData.DateTime2 o => opt_res o datetime2_of
  | _ => cannot
  end.

(** [DateTime<FixedOffset>]: the UTC part and the offset in seconds.
    [FixedOffset::east_opt] has every offset below a day. *)
Definition from_sql_fixed (d : ColumnData) : Res (option (NaiveDate * NaiveTime * Z)) :=
  match d with
  | ColumnData.DateTimeOffset o => opt_res o (fun dto =>
      res_bind (datetime2_of (datetime2 dto)) (fun naive =>
      res_map (fun minutes => (naive, minutes * 60)) (validate_offset_minutes (offset dto))))
  | _ => cannot
  end.

(** ** [ToSql] and [IntoSql] *)

Definition nanos_of (t : NaiveTime) : Z := num_seconds_from_midnight t * NANOS + nanosecond t.
Definition time_to (t : NaiveTime) : Time := mkTime (nanos_of t / 100) 7.
Definition date_to (d : NaiveDate) : Date := mkDate (wrap 32 (to_days d YEAR_1)).
Definition to_sql_naive_date (d : NaiveDate) : ColumnData := ColumnData.Date (Some (date_to d)).
Definition to_sql_naive_time (t : NaiveTime) : ColumnData := ColumnData.Time (Some (time_to t)).
Definition to_sql_naive_datetime (dt : NaiveDate * NaiveTime) : ColumnData :=
  ColumnData.DateTime2 (Some (mkDateTime2 (date_to (fst dt)) (time_to (snd dt)))).
Definition to_sql_utc (dt : NaiveDate * NaiveTime) : ColumnData := to_sql_naive_datetime dt.
Definition to_sql_fixed (dt : NaiveDate * NaiveTime) (offset : Z) : ColumnData :=
  ColumnData.DateTimeOffset (Some (mkDateTimeOffset (mkDateTime2 (date_to (fst dt)) (time_to (snd dt))) (to_signed 16 (Z.quot offset 60)))).

(** The conversions by value, [into_sql!], which the source writes out again. *)
Definition into_sql_naive_date (d : NaiveDate) : ColumnData := ColumnData.Date (Some (mkDate (wrap 32 (to_days d YEAR_1)))).
Definition into_sql_naive_time (t : NaiveTime) : ColumnData :=
  let nanos := num_seconds_from_midnight t * NANOS + nanosecond t in ColumnData.Time (Some (mkTime (nanos / 100) 7)).
Definition into_sql_naive_datetime (dt : NaiveDate * NaiveTime) : ColumnData :=
  let nanos := num_seconds_from_midnight (snd dt) * NANOS + nanosecond (snd dt) in
  ColumnData.DateTime2 (Some (mkDateTime2 (mkDate (wrap 32 (to_days (fst dt) YEAR_1))) (mkTime (nanos / 100) 7))).
Definition into_sql_utc (dt : NaiveDate * NaiveTime) : ColumnData :=
  let nanos := num_seconds_from_midnight (snd dt) * NANOS + nanosecond (snd dt) in
  ColumnData.DateTime2 (Some (mkDateTime2 (mkDate (wrap 32 (to_days (fst dt) YEAR_1))) (mkTime (nanos / 100) 7))).
Definition into_sql_fixed (dt : NaiveDate * NaiveTime) (offset : Z) : ColumnData :=
  let nanos := num_seconds_from_midnight (snd dt) * NANOS + nanosecond (snd dt) in
  ColumnData.DateTimeOffset (Some (mkDateTimeOffset
    (mkDateTime2 (mkDate (wrap 32 (to_days (fst dt) YEAR_1))) (mkTime (nanos / 100) 7)) (to_signed 16 (Z.quot offset 60)))).

(** ** Without the [tds73] feature: only [datetime] *)

(** [to_sec_fragments]: an i64 division, which cuts toward zero. *)
Definition to_sec_fragments (t : NaiveTime) : Z := Z.quot (nanos_of t * 300) NANOS.
Definition to_sql_naive_datetime_72 (dt : NaiveDate * NaiveTime) : ColumnData :=
  ColumnData.DateTime (Some (mkDateTime (to_signed 32 (to_days (fst dt) YEAR_1900)) (wrap 32 (to_sec_fragments (snd dt))))).
Definition into_sql_naive_datetime_72 (dt : NaiveDate * NaiveTime) : ColumnData :=
  let days := to_signed 32 (to_days (fst dt) YEAR_1900) in
  let seconds_fragments := to_sec_fragments (snd dt) in ColumnData.DateTime (Some (mkDateTime days (wrap 32 seconds_fragments))).
Definition from_sql_naive_datetime_72 (d : ColumnData) : Res (option (NaiveDate * NaiveTime)) :=
  match d with
  | ColumnData.DateTime o => opt_res o (fun dt =>
      res_map (fun date => (date, from_sec_fragments (dt_seconds_fragments dt))) (from_days (dt_days dt) YEAR_1900))
  | _ => cannot
  end.

(** ** Lemmas *)

(** A value binds as its reference does. *)
Lemma chrono_by_value (d : NaiveDate) (t : NaiveTime) (dt : NaiveDate * NaiveTime) (offset : Z) :
  into_sql_naive_date d = to_sql_naive_date d /\ into_sql_naive_time t = to_sql_naive_time t /\
  into_sql_naive_datetime dt = to_sql_naive_datetime dt /\ into_sql_utc dt = to_sql_utc dt /\
  into_sql_fixed dt offset = to_sql_fixed dt offset /\ into_sql_naive_datetime_72 dt = to_sql_naive_datetime_72 dt.
Proof. repeat split. Qed.

(** The nanoseconds from the start of year 1. *)
Definition instant (dt : NaiveDate * NaiveTime) : Z := day_number (fst dt) * DAY_NANOS + nanos_of (snd dt).

(** A moment of the years 1 to 9999 outside leap seconds. *)
Definition sql_moment (dt : NaiveDate * NaiveTime) : Prop :=
  0 <= day_number (fst dt) <= MAX_SQL_DAY /\ 0 <= num_seconds_from_midnight (snd dt) < 86400 /\ 0 <= nanosecond (snd dt) < NANOS.

Lemma nanos_of_midnight n : 0 <= n < DAY_NANOS -> nanos_of (midnight_plus n) = n.
Proof.
  intros H. unfold nanos_of. rewrite midnight_plus_seconds, midnight_plus_nanos, Z.mod_small by exact H.
  pose proof (Z.div_mod n NANOS ltac:(discriminate)). lia.
Qed.

Lemma nanos_scale_7 inc : 0 <= inc < 864000000000 -> nanos_from_increments inc 7 = inc * 100.
Proof.
  intros H. unfold nanos_from_increments, sat. change (Z.min (10 ^ Z.max 0 (9 - 7)) (2 ^ 64 - 1)) with 100.
  rewrite !Z.min_l; lia.
Qed.

Lemma sql_moment_nanos dt : sql_moment dt -> 0 <= nanos_of (snd dt) < DAY_NANOS.
Proof. intros (_ & H1 & H2). unfold nanos_of, DAY_NANOS, NANOS in *. lia. Qed.

(** What is written is read back, the time cut to the 100 ns of its scale. *)
Lemma datetime2_written dt : sql_moment dt ->
  exists t', datetime2_of (mkDateTime2 (date_to (fst dt)) (time_to (snd dt))) = Ok (fst dt, t') /\
    nanos_of t' = nanos_of (snd dt) / 100 * 100 /\ nanosecond t' < NANOS.
Proof.
  intros H. pose proof (sql_moment_nanos dt H) as N. destruct H as (Hd & _). unfold datetime2_of, from_days, date_to, to_days, YEAR_1, time_of, time_to.
  cbn [dt2_date dt2_time days increments time_scale]. unfold MAX_SQL_DAY in Hd. rewrite Z.sub_0_r, Z.add_0_l, wrap_small by (unfold in_unsigned; lia).
  rewrite (proj2 (checked_date_number _ (fst dt)) eq_refl). cbn [ok_or res_map]. eexists. split; [reflexivity|].
  assert (B : 0 <= nanos_of (snd dt) / 100 < 864000000000).
  { split; [apply Z.div_pos; lia|]. apply Z.div_lt_upper_bound; [lia|]. unfold DAY_NANOS, NANOS in N. lia. }
  rewrite nanos_scale_7 by exact B. pose proof (Z.mul_div_le (nanos_of (snd dt)) 100 ltac:(lia)). split.
  - rewrite nanos_of_midnight by lia. reflexivity.
  - rewrite midnight_plus_nanos. apply Z.mod_pos_bound. reflexivity.
Qed.

Lemma offset_written off : -50400 <= off <= 50400 ->
  validate_offset_minutes (to_signed 16 (Z.quot off 60)) = Ok (Z.quot off 60).
Proof.
  intros H. assert (B : -840 <= Z.quot off 60 <= 840) by (Z.to_euclidean_division_equations; lia).
  rewrite to_signed_in by (lia || (unfold in_signed; cbn; lia)). unfold validate_offset_minutes.
  rewrite !(proj2 (Z.leb_le _ _)) by lia. reflexivity.
Qed.

(** ** Properties *)


(** A [datetimeoffset] means two different moments to the two types it can
    be read as.  On the wire its date and time are UTC: the driver writes the
    UTC part of a [DateTime<FixedOffset>] and takes it back as such; but a
    [DateTime<Utc>] read from the same value is earlier by the offset, so the
    two agree only when the offset is less than a minute. *)
Theorem datetimeoffset_utc_shifted (dt : NaiveDate * NaiveTime) (off : Z) (H : sql_moment dt) (Ho : -50400 <= off <= 50400) :
  exists fixed, from_sql_fixed (to_sql_fixed dt off) = Ok (Some (fixed, Z.quot off 60 * 60)) /\
    instant fixed = day_number (fst dt) * DAY_NANOS + nanos_of (snd dt) / 100 * 100 /\
    match from_sql_utc (to_sql_fixed dt off) with
    | Ok (Some utc) => instant utc = instant fixed - Z.quot off 60 * 60 * NANOS
    | Err _ => True
    | _ => False
    end.
Proof.
  destruct (datetime2_written dt H) as (t' & E & N & L). exists (fst dt, t').
  unfold to_sql_fixed, from_sql_utc, from_sql_fixed, opt_res. cbn [datetime2 offset]. rewrite E. cbn [res_map res_bind]. rewrite offset_written by exact Ho.
  cbn [res_map res_bind]. split; [reflexivity|]. split; [unfold instant; cbn [fst snd]; rewrite N; reflexivity|].
  destruct (checked_sub_signed (fst dt, t') _) as [[d u]|] eqn:S; cbn; [|exact I].
  apply checked_sub_signed_spec in S; [|exact L]. unfold instant, nanos_of. cbn [fst snd]. lia.
Qed.

(** A [datetime] that is read and written back moves.  Read as a
    [NaiveDateTime] and bulk inserted into a [datetime] column again, it is
    cut twice (to nanoseconds, to the fragments of the column), and lands on
    the same 1/300 s only when its fragments are a multiple of three: all the
    others come back one fragment earlier, every time. *)
Theorem datetime_drifts (v : DateTime) (Hd : 0 <= dt_days v <= MAX_SQL_DAY - DAYS_YEAR_1_TO_1900)
  (Hf : 0 <= dt_seconds_fragments v < 25920000) :
  exists dt d2, from_sql_naive_datetime (ColumnData.DateTime (Some v)) = Ok (Some dt) /\
    to_sql_naive_datetime dt = ColumnData.DateTime2 (Some d2) /\
    datetime2_to_datetime d2 =
      Ok (mkDateTime (dt_days v) (if dt_seconds_fragments v mod 3 =? 0 then dt_seconds_fragments v else dt_seconds_fragments v - 1)).
Proof.
  unfold MAX_SQL_DAY, DAYS_YEAR_1_TO_1900 in Hd. set (f := dt_seconds_fragments v) in *.
  destruct (checked_date_sql (YEAR_1900 + dt_days v)) as (date & Ed); [unfold YEAR_1900, DAYS_YEAR_1_TO_1900, MAX_SQL_DAY; lia|].
  pose proof (proj1 (checked_date_number _ _) Ed) as Nd. cbn. unfold from_days. rewrite Ed. cbn [ok_or res_map].
  eexists (_, _), _. split; [reflexivity|]. split; [reflexivity|]. cbn [fst snd]. fold f.
  assert (B : 0 <= f * NANOS / 300 < DAY_NANOS) by (unfold DAY_NANOS, NANOS; Z.to_euclidean_division_equations; lia).
  unfold datetime2_to_datetime, date_to, time_to, from_sec_fragments. cbn [dt2_date dt2_time days time_scale increments].
  rewrite nanos_of_midnight by exact B. unfold to_days, YEAR_1. rewrite Nd. unfold YEAR_1900, DAYS_YEAR_1_TO_1900 in *.
  rewrite Z.sub_0_r, wrap_small by (unfold in_unsigned; lia). rewrite (proj2 (Z.ltb_ge _ _)) by lia. change (9 <? 7) with false. cbv iota.
  replace (693595 + dt_days v - 693595) with (dt_days v) by lia. rewrite to_signed_in by (lia || (unfold in_signed; cbn; lia)).
  change (10 ^ (9 - 7)) with 100. unfold NANOS in *.
  assert (E : f * 1000000000 / 300 / 100 * 100 * 300 / 1000000000 = if f mod 3 =? 0 then f else f - 1).
  { destruct (Z.eqb_spec (f mod 3) 0); Z.to_euclidean_division_equations; lia. }
  rewrite E, wrap_small; [reflexivity|]. unfold in_unsigned. destruct (Z.eqb_spec (f mod 3) 0); [lia|].
  assert (f <> 0) by (intros ->; apply n; reflexivity). lia.
Qed.
End Chrono.

(** ** Witnesses *)

(** Days and times as numbers. *)
#[global, refine] Instance days_chrono : Chrono := {|
  NaiveDate := Z; NaiveTime := Z * Z; day_number := fun d => d; checked_date := Some;
  num_seconds_from_midnight := fst; nanosecond := snd;
  midnight_plus := fun n => (n mod DAY_NANOS / NANOS, n mod NANOS);
  checked_sub_signed := fun '(d, t) n =>
    let i := d * DAY_NANOS + fst t * NANOS + snd t - n in
    Some (i / DAY_NANOS, (i mod DAY_NANOS / NANOS, i mod NANOS));
  checked_date_number := _; checked_date_sql := _; midnight_plus_seconds := _; midnight_plus_nanos := _; checked_sub_signed_spec := _;
|}.
Proof.
  - intros n d. split; congruence.
  - intros n _. eauto.
  - reflexivity.
  - reflexivity.
  - intros d t n d' t' H _. injection H as <- <-. cbn [fst snd]. unfold DAY_NANOS, NANOS. Z.to_euclidean_division_equations. lia.
Defined.

(** 2024-02-29 13:37:00.123456789, two hours east. *)
Definition sample_moment : Z * (Z * Z) := (738944, (49020, 123456789)).
Lemma sample_moment_ok : sql_moment (C := days_chrono) sample_moment.
Proof. repeat split; vm_compute; congruence. Qed.


Lemma datetimeoffset_utc_shifted_witness :
  exists fixed utc, from_sql_fixed (C := days_chrono) (to_sql_fixed (C := days_chrono) sample_moment 7200) = Ok (Some (fixed, 7200)) /\
    from_sql_utc (C := days_chrono) (to_sql_fixed (C := days_chrono) sample_moment 7200) = Ok (Some utc) /\
    instant (C := days_chrono) utc = instant (C := days_chrono) fixed - 7200 * NANOS.
Proof.
  destruct (datetimeoffset_utc_shifted (C := days_chrono) sample_moment 7200 sample_moment_ok ltac:(lia)) as (fixed & E & _ & U).
  assert (X : from_sql_utc (C := days_chrono) (to_sql_fixed (C := days_chrono) sample_moment 7200) = Ok (Some (738944, (41820, 123456700)))) by (vm_compute; reflexivity).
  rewrite X in U. exists fixed, (738944, (41820, 123456700)). split; [exact E|]. split; [exact X|exact U].
Defined.

Lemma datetime_drifts_witness :
  exists dt d2, from_sql_naive_datetime (C := days_chrono) (ColumnData.DateTime (Some (mkDateTime 45000 1))) = Ok (Some dt) /\
    to_sql_naive_datetime (C := days_chrono) dt = ColumnData.DateTime2 (Some d2) /\ datetime2_to_datetime d2 = Ok (mkDateTime 45000 0).
Proof. apply (datetime_drifts (C := days_chrono) (mkDateTime 45000 1)); cbn; unfold MAX_SQL_DAY, DAYS_YEAR_1_TO_1900; lia. Defined.
