(* ===== verification/TimeCrate.v ===== *)
(** * TimeCrate: [tds/time/time.rs], values to and from the time crate

    The crate is a parameter, the class [TimeCrate], with the laws its
    documentation gives: dates are days of the proleptic Gregorian calendar
    within its range, a time plus a duration wraps around midnight, and
    [to_offset] keeps the moment but panics when the local date is out of
    range.  The conversions are those of [chrono.rs] for another crate;
    [crates_read_alike] and [crates_write_alike] say so. *)

From S2P Require Import Prelude Unicode Types Temporal Results Chrono.

Class TimeCrate := {
  TcDate : Type; TcTime : Type; OffsetDateTime : Type;
  tc_day : TcDate -> Z;                       (** days from 0001-01-01 *)
  tc_date_at : Z -> option TcDate;            (** [checked_add] of days *)
  tc_nanos : TcTime -> Z;                     (** since midnight *)
  tc_midnight_plus : Z -> TcTime;             (** midnight plus nanoseconds *)
  (** [date.with_time(time).assume_utc().to_offset(offset)], the offset in
      seconds *)
  odt_at : TcDate -> TcTime -> Z -> Res OffsetDateTime;
  (** the date and time at UTC, and the offset *)
  odt_utc : OffsetDateTime -> Res (TcDate * TcTime);
  odt_offset : OffsetDateTime -> Z;
  tc_date_day : forall n d, tc_date_at n = Some d <-> tc_day d = n;
  tc_date_range : forall n, is_Some (tc_date_at n) <-> -3652425 <= n <= MAX_SQL_DAY;
  tc_midnight_nanos : forall n, tc_nanos (tc_midnight_plus n) = n mod DAY_NANOS;
  tc_nanos_range : forall t, 0 <= tc_nanos t < DAY_NANOS;
  odt_at_spec : forall d t off, -86400 < off < 86400 ->
    let local := (tc_day d * DAY_NANOS + tc_nanos t + off * NANOS) / DAY_NANOS in
    match odt_at d t off with
    | Ok o => odt_utc o = Ok (d, t) /\ odt_offset o = off /\ is_Some (tc_date_at local)
    | Panic => tc_date_at local = None
    | _ => False
    end;
}.

Section TimeCrate.
Context {T : TimeCrate}.

(** ** [FromSql] *)

Definition tc_from_days (n start : Z) : Res TcDate :=
  ok_or (tc_date_at (start + n)) (Protocol "date day offset is out of the representable range").

(** [offset_from_minutes]: [UtcOffset::from_whole_seconds] takes every offset
    below a day. *)
Definition offset_from_minutes (minutes : Z) : Res Z :=
  if negb ((-840 <=? minutes) && (minutes <=? 840)) then Err (Protocol "datetimeoffset offset is outside the valid -14:00..=+14:00 range")
  else Ok (minutes * 60).

(** [nanos_from_increments], with its saturation at u64 *)
Definition tc_nanos_from_increments (inc scale : Z) : Z := sat 64 (inc * sat 64 (10 ^ Z.max 0 (9 - scale))).

Definition from_secs (secs : Z) : Res TcTime :=
  if 86400 <=? secs then Err (Protocol "smalldatetime seconds-of-day is out of range") else Ok (tc_midnight_plus (secs * NANOS)).
Definition tc_from_sec_fragments (f : Z) : TcTime := tc_midnight_plus (f * NANOS / 300).
Definition tc_time_of (t : Time) : TcTime := tc_midnight_plus (tc_nanos_from_increments (increments t) (time_scale t)).

Definition from_sql_primitive (d : ColumnData) : Res (option (TcDate * TcTime)) :=
  match d with
  | ColumnData.SmallDateTime o => opt_res o (fun dt =>
      res_bind (tc_from_days (sdt_days dt) YEAR_1900) (fun date => res_map (fun t => (date, t)) (from_secs (sdt_seconds_fragments dt * 60))))
  | ColumnData.DateTime2 o => opt_res o (fun dt =>
      res_map (fun date => (date, tc_time_of (dt2_time dt))) (tc_from_days (days (dt2_date dt)) YEAR_1))
  | ColumnData.DateTime o => opt_res o (fun dt =>
      res_map (fun date => (date, tc_from_sec_fragments (dt_seconds_fragments dt))) (tc_from_days (dt_days dt) YEAR_1900))
  | _ => cannot
  end.
Definition from_sql_time (d : ColumnData) : Res (option TcTime) :=
  match d with ColumnData.Time o => opt_res o (fun t => Ok (tc_time_of t)) | _ => cannot end.
Definition from_sql_date (d : ColumnData) : Res (option TcDate) :=
  match d with ColumnData.Date o => opt_res o (fun d => tc_from_days (days d) YEAR_1) | _ => cannot end.
Definition from_sql_offset (d : ColumnData) : Res (option OffsetDateTime) :=
  match d with
  | ColumnData.DateTimeOffset o => opt_res o (fun dto =>
      res_bind (tc_from_days (days (dt2_date (datetime2 dto))) YEAR_1) (fun date =>
      let time := tc_time_of (dt2_time (datetime2 dto)) in
      res_bind (offset_from_minutes (offset dto)) (fun offset => odt_at date time offset)))
  | _ => cannot
  end.

(** ** [ToSql]; there is no [IntoSql] *)

(** [super::Date::new(to_days(..) as u32)] asserts that the days fit three
    bytes. *)
Definition tc_date_to (d : TcDate) : Res Date := date_new (wrap 32 (tc_day d - YEAR_1)).
Definition tc_time_to (t : TcTime) : Time := mkTime (tc_nanos t / 100) 7.
Definition to_sql_date (d : TcDate) : Res ColumnData := res_map (fun d => ColumnData.Date (Some d)) (tc_date_to d).
Definition to_sql_time (t : TcTime) : ColumnData := ColumnData.Time (Some (tc_time_to t)).
Definition to_sql_primitive (dt : TcDate * TcTime) : Res ColumnData :=
  res_map (fun d => ColumnData.DateTime2 (Some (mkDateTime2 d (tc_time_to (snd dt))))) (tc_date_to (fst dt)).
Definition to_sql_offset (o : OffsetDateTime) : Res ColumnData :=
  let off := to_signed 16 (Z.quot (odt_offset o) 60) in
  res_bind (odt_utc o) (fun utc =>
  res_map (fun d => ColumnData.DateTimeOffset (Some (mkDateTimeOffset (mkDateTime2 d (tc_time_to (snd utc))) off))) (tc_date_to (fst utc))).

(** ** Without the [tds73] feature *)

Definition tc_to_sec_fragments (t : TcTime) : Z := Z.quot (tc_nanos t * 300) NANOS.
Definition to_sql_primitive_72 (dt : TcDate * TcTime) : ColumnData :=
  ColumnData.DateTime (Some (mkDateTime (to_signed 32 (tc_day (fst dt) - YEAR_1900)) (wrap 32 (tc_to_sec_fragments (snd dt))))).
Definition from_sql_primitive_72 (d : ColumnData) : Res (option (TcDate * TcTime)) :=
  match d with
  | ColumnData.DateTime o => opt_res o (fun dt =>
      res_map (fun date => (date, tc_from_sec_fragments (dt_seconds_fragments dt))) (tc_from_days (dt_days dt) YEAR_1900))
  | _ => cannot
  end.

(** ** Lemmas *)

(** The two crates on the same moment. *)
Context {C : Chrono}.
Definition same_date (a : NaiveDate) (b : TcDate) : Prop := day_number a = tc_day b.
Definition same_time (a : NaiveTime) (b : TcTime) : Prop := nanos_of a = tc_nanos b.
Definition same_moment (a : NaiveDate * NaiveTime) (b : TcDate * TcTime) : Prop := same_date (fst a) (fst b) /\ same_time (snd a) (snd b).

(** Both a value, both no value, or both an error. *)
Definition alike {A B} (R : A -> B -> Prop) (a : Res (option A)) (b : Res (option B)) : Prop :=
  match a, b with
  | Ok (Some x), Ok (Some y) => R x y
  | Ok None, Ok None => True
  | Err _, Err _ => True
  | _, _ => False
  end.

Lemma alike_opt {V A B} (R : A -> B -> Prop) (o : option V) (f : V -> Res A) (g : V -> Res B) :
  (forall v, o = Some v -> alike R (res_map Some (f v)) (res_map Some (g v))) -> alike R (opt_res o f) (opt_res o g).
Proof. intros H. destruct o as [v|]; [|exact I]. apply H. reflexivity. Qed.

Lemma same_midnight n : same_time (midnight_plus n) (tc_midnight_plus n).
Proof.
  unfold same_time, nanos_of. rewrite midnight_plus_seconds, midnight_plus_nanos, tc_midnight_nanos. unfold DAY_NANOS, NANOS.
  Z.to_euclidean_division_equations. lia.
Qed.

(** A time whose nanoseconds both crates can hold; every time on the wire is
    one. *)
Definition readable (t : Time) : Prop := 0 <= increments t /\ increments t * 10 ^ Z.max 0 (9 - time_scale t) < 2 ^ 63.

Lemma same_time_of t : readable t -> same_time (time_of t) (tc_time_of t).
Proof.
  intros [H0 H]. unfold time_of, tc_time_of, nanos_from_increments, tc_nanos_from_increments, sat.
  set (p := 10 ^ Z.max 0 (9 - time_scale t)) in *.
  assert (P1 : 1 <= p) by (unfold p; pose proof (Z.pow_pos_nonneg 10 (Z.max 0 (9 - time_scale t)) ltac:(lia) ltac:(lia)); lia).
  destruct (Z.eq_dec (increments t) 0) as [->|N].
  - rewrite Z.mul_0_l. rewrite (Z.min_l 0 (2 ^ 64 - 1)), (Z.min_l 0) by lia. apply same_midnight.
  - assert (p < 2 ^ 63) by nia. rewrite (Z.min_l p) by lia. rewrite (Z.min_l (increments t * p) (2 ^ 64 - 1)), (Z.min_l (increments t * p)) by lia.
    apply same_midnight.
Qed.

(** A date of the years 1 to 9999. *)
Lemma same_from_days n start : 0 <= start + n <= MAX_SQL_DAY ->
  exists a b, from_days n start = Ok a /\ tc_from_days n start = Ok b /\ same_date a b /\ tc_day b = start + n.
Proof.
  intros H. destruct (checked_date_sql _ H) as (a & Ea). destruct (proj2 (tc_date_range (start + n)) ltac:(unfold MAX_SQL_DAY in *; lia)) as (b & Eb).
  exists a, b. unfold from_days, tc_from_days. rewrite Ea, Eb. split; [reflexivity|]. split; [reflexivity|].
  apply checked_date_number in Ea. apply tc_date_day in Eb. unfold same_date. split; congruence.
Qed.

(** What the server sends for its own types. *)
Definition sql_data (d : ColumnData) : Prop :=
  match d with
  | ColumnData.SmallDateTime (Some v) => 0 <= YEAR_1900 + sdt_days v <= MAX_SQL_DAY
  | ColumnData.DateTime (Some v) => 0 <= YEAR_1900 + dt_days v <= MAX_SQL_DAY
  | ColumnData.DateTime2 (Some v) => 0 <= YEAR_1 + days (dt2_date v) <= MAX_SQL_DAY /\ readable (dt2_time v)
  | ColumnData.DateTimeOffset (Some v) => 0 <= YEAR_1 + days (dt2_date (datetime2 v)) <= MAX_SQL_DAY /\ readable (dt2_time (datetime2 v))
  | ColumnData.Date (Some v) => 0 <= YEAR_1 + days v <= MAX_SQL_DAY
  | ColumnData.Time (Some v) => readable v
  | _ => True
  end.

Lemma alike_datetime d : sql_data d -> alike same_moment (from_sql_naive_datetime d) (from_sql_primitive d).
Proof.
  intros H. destruct d; try exact I; apply alike_opt; intros x ->; cbn [sql_data] in H.
  - destruct (same_from_days _ _ H) as (a & b & -> & -> & S & Db). cbn. split; [exact S|]. apply same_midnight.
  - destruct (same_from_days _ _ H) as (a & b & -> & -> & S & Db). cbn [res_bind]. unfold from_mins, from_secs. rewrite Z.leb_antisym.
    destruct (_ <? 86400); [|exact I]. split; [exact S|]. apply same_midnight.
  - destruct H as [H R]. unfold datetime2_of. destruct (same_from_days _ _ H) as (a & b & -> & -> & S & Db). cbn. split; [exact S|apply same_time_of, R].
Qed.

Lemma offsets_alike m : offset_from_minutes m = res_map (fun m => m * 60) (validate_offset_minutes m).
Proof. unfold offset_from_minutes, validate_offset_minutes. destruct (_ && _); reflexivity. Qed.

Lemma tc_date_to_sql a b : same_date a b -> 0 <= day_number a <= MAX_SQL_DAY -> tc_date_to b = Ok (date_to a).
Proof.
  unfold same_date, tc_date_to, date_to, to_days, YEAR_1, MAX_SQL_DAY. intros <- H. rewrite Z.sub_0_r, wrap_small by (unfold in_unsigned; lia).
  apply date_new_ok. unfold in_unsigned. lia.
Qed.
Lemma tc_time_to_sql a b : same_time a b -> tc_time_to b = time_to a.
Proof. unfold same_time, tc_time_to, time_to. intros ->. reflexivity. Qed.

(** ** Properties *)

(** C14: the two date crates read a value of the server as the same moment:
    on every [date], [time], [datetime], [smalldatetime] and [datetime2] of
    the years 1 to 9999 they give the same date and time of day, no value
    for no value, and an error on the same ones; on a [datetimeoffset] they
    give the same moment and offset and refuse the same offsets, except that
    the time crate panics when the local date is beyond its range. *)
Theorem crates_read_alike (d : ColumnData) (H : sql_data d) :
  alike same_moment (from_sql_naive_datetime d) (from_sql_primitive d) /\
  alike same_time (from_sql_naive_time d) (from_sql_time d) /\
  alike same_date (from_sql_naive_date d) (from_sql_date d) /\
  match from_sql_offset d with
  | Panic => exists v a, d = ColumnData.DateTimeOffset (Some v) /\ from_sql_fixed d = Ok (Some a) /\
               MAX_SQL_DAY * DAY_NANOS < instant (fst a) + snd a * NANOS + DAY_NANOS /\
               tc_date_at ((instant (fst a) + snd a * NANOS) / DAY_NANOS) = None
  | r => alike (fun a o => exists utc, odt_utc o = Ok utc /\ same_moment (fst a) utc /\ odt_offset o = snd a) (from_sql_fixed d) r
  end.
Proof.
  split; [apply alike_datetime, H|]. split; [|split].
  - destruct d; try exact I. apply alike_opt. intros x ->. apply same_time_of, H.
  - destruct d; try exact I. apply alike_opt. intros x ->. destruct (same_from_days _ _ H) as (a & b & -> & -> & S & Db). exact S.
  - destruct d; try exact I. match goal with o : option DateTimeOffset |- _ => destruct o as [dto|]; [|exact I] end. destruct H as [H R].
    unfold from_sql_offset, from_sql_fixed, opt_res, datetime2_of. destruct (same_from_days _ _ H) as (a & b & -> & -> & S & Db). cbn [res_map res_bind].
    rewrite offsets_alike. destruct (validate_offset_minutes (offset dto)) as [m|e| |] eqn:Vm; cbn [res_map res_bind]; try exact I.
    2,3: exfalso; revert Vm; unfold validate_offset_minutes; destruct (_ && _); discriminate.
    assert (Hm : -840 <= m <= 840).
    { revert Vm. unfold validate_offset_minutes. destruct (-840 <=? offset dto) eqn:E1, (offset dto <=? 840) eqn:E2; try discriminate.
      intros [= <-]. apply Z.leb_le in E1, E2. lia. }
    pose proof (odt_at_spec b (tc_time_of (dt2_time (datetime2 dto))) (m * 60) ltac:(lia)) as O. cbn zeta in O.
    pose proof (same_time_of _ R) as St. unfold same_time in St. unfold same_date in S.
    destruct (odt_at b _ (m * 60)) as [o|e| |]; cbn [res_map]; try contradiction.
    + destruct O as (O1 & O2 & _). eexists. split; [exact O1|]. split; [|exact O2]. split; [exact S|exact St].
    + exists dto, (a, time_of (dt2_time (datetime2 dto)), m * 60). split; [reflexivity|]. split; [reflexivity|].
      unfold instant. cbn [fst snd]. rewrite S, St. split; [|exact O].
      match type of O with tc_date_at ?n = None => assert (N : ~ (-3652425 <= n <= MAX_SQL_DAY)) by (intros X; apply tc_date_range in X as [x X]; congruence) end.
      pose proof (tc_nanos_range (tc_time_of (dt2_time (datetime2 dto)))) as Nr.
      rewrite Db in *. unfold YEAR_1, MAX_SQL_DAY, DAY_NANOS, NANOS in *. Z.to_euclidean_division_equations. lia.
Qed.

(** The two crates write the same moment as the same value: of the years 1 to
    9999 and outside leap seconds, [ToSql] gives the same [date], [time],
    [datetime2] and [datetimeoffset], and the same [datetime] in a build
    without [tds73]. *)
Theorem crates_write_alike (a : NaiveDate * NaiveTime) (b : TcDate * TcTime) (o : OffsetDateTime) (H : sql_moment a) (S : same_moment a b)
  (U : odt_utc o = Ok b) :
  to_sql_date (fst b) = Ok (to_sql_naive_date (fst a)) /\ to_sql_time (snd b) = to_sql_naive_time (snd a) /\
  to_sql_primitive b = Ok (to_sql_naive_datetime a) /\ to_sql_offset o = Ok (to_sql_fixed a (odt_offset o)) /\
  to_sql_primitive_72 b = to_sql_naive_datetime_72 a.
Proof.
  destruct S as [Sd St], H as (Hd & _). unfold to_sql_date, to_sql_time, to_sql_primitive, to_sql_offset, to_sql_primitive_72, to_sql_naive_datetime_72.
  rewrite U. cbn [res_bind]. rewrite (tc_date_to_sql _ _ Sd Hd), (tc_time_to_sql _ _ St). do 4 (split; [reflexivity|]).
  unfold tc_to_sec_fragments, to_sec_fragments, to_days. rewrite Sd, St. reflexivity.
Qed.

(** A date before the year 1 is refused by a panic in the time crate's
    conversion; chrono's leaves the days as they are, for [encode] to
    refuse. *)
Lemma early_date_panics d t : -2 ^ 31 <= tc_day d < 0 -> to_sql_date d = Panic /\ to_sql_primitive (d, t) = Panic.
Proof.
  intros H. assert (X : tc_date_to d = Panic).
  { unfold tc_date_to, date_new, YEAR_1. rewrite Z.sub_0_r. unfold wrap. rewrite Z.shiftr_div_pow2 by lia.
    destruct (Z.eqb_spec (tc_day d mod 2 ^ 32 / 2 ^ 24) 0) as [E|]; [|reflexivity]. exfalso. revert E H. generalize (tc_day d). intros z E H.
    change (2 ^ 32) with 4294967296 in E. change (2 ^ 24) with 16777216 in E. Z.to_euclidean_division_equations. lia. }
  unfold to_sql_date, to_sql_primitive. cbn [fst]. rewrite X. auto.
Qed.
End TimeCrate.

(** ** Witnesses *)

(** Days and nanoseconds as numbers, within the years -9999 to 9999. *)
Definition tc_range (n : Z) : bool := (-3652425 <=? n) && (n <=? MAX_SQL_DAY).
Lemma day_nanos_mod n : (0 <=? n mod DAY_NANOS) && (n mod DAY_NANOS <? DAY_NANOS) = true.
Proof. pose proof (Z.mod_pos_bound n DAY_NANOS ltac:(reflexivity)). apply andb_true_iff. split; [apply Z.leb_le|apply Z.ltb_lt]; lia. Qed.
#[global, refine] Instance days_time : TimeCrate := {|
  TcDate := {n : Z | tc_range n = true}; TcTime := {n : Z | (0 <=? n) && (n <? DAY_NANOS) = true};
  OffsetDateTime := {n : Z | tc_range n = true} * {n : Z | (0 <=? n) && (n <? DAY_NANOS) = true} * Z;
  tc_day := proj1_sig; tc_date_at := fun n => match bool_dec (tc_range n) true with left H => Some (exist _ n H) | right _ => None end;
  tc_nanos := proj1_sig; tc_midnight_plus := fun n => exist _ (n mod DAY_NANOS) (day_nanos_mod n);
  odt_at := fun d t off => if bool_dec (tc_range ((proj1_sig d * DAY_NANOS + proj1_sig t + off * NANOS) / DAY_NANOS)) true then Ok (d, t, off) else Panic;
  odt_utc := fun o => Ok (fst o); odt_offset := snd;
|}.
Proof.
  - intros n [d Hd]. cbn. destruct (bool_dec (tc_range n) true) as [H|H].
    + split; [intros [= ->]; reflexivity|]. intros <-. f_equal. f_equal. apply Eqdep_dec.UIP_dec, bool_dec.
    + split; [discriminate|]. intros ->. contradiction.
  - intros n. unfold tc_range. destruct (bool_dec _ true) as [H|H].
    + pose proof H as X. apply andb_true_iff in X as [H1 H2]. apply Z.leb_le in H1, H2. split; [lia|eauto].
    + split; [intros [x X]; discriminate|]. intros X. exfalso. apply H. apply andb_true_iff. rewrite !Z.leb_le. lia.
  - reflexivity.
  - intros [n Hn]. cbn. apply andb_true_iff in Hn as [H1 H2]. apply Z.leb_le in H1. apply Z.ltb_lt in H2. lia.
  - intros d t off _. cbn zeta. destruct (bool_dec _ true); [cbn; eauto|reflexivity].
Defined.

(** 9999-12-31 23:59 UTC, with an offset of one hour. *)
Definition last_minute (off : Z) : ColumnData :=
  ColumnData.DateTimeOffset (Some (mkDateTimeOffset (mkDateTime2 (mkDate MAX_SQL_DAY) (mkTime 863400000000 7)) off)).

Lemma crates_read_alike_witness : sql_data (last_minute 60) /\
  alike (same_moment (T := days_time) (C := days_chrono)) (from_sql_naive_datetime (last_minute 60)) (from_sql_primitive (last_minute 60)) /\
  from_sql_offset (T := days_time) (last_minute 60) = Panic /\ from_sql_fixed (C := days_chrono) (last_minute 60) <> Panic.
Proof.
  assert (H : sql_data (last_minute 60)) by (split; vm_compute; repeat split; congruence).
  split; [exact H|]. split; [exact (proj1 (crates_read_alike (T := days_time) (C := days_chrono) (last_minute 60) H))|].
  split; [vm_cast_no_check (@eq_refl (Res (option (OffsetDateTime (TimeCrate := days_time)))) Panic)|vm_compute; discriminate].
Defined.

Definition write_date : TcDate (TimeCrate := days_time) := exist _ 738944 eq_refl.
Definition write_time : TcTime (TimeCrate := days_time) := exist _ (49020 * NANOS + 123456789) eq_refl.
Lemma crates_write_alike_witness : same_moment (T := days_time) (C := days_chrono) sample_moment (write_date, write_time) /\
  to_sql_primitive (T := days_time) (write_date, write_time) = Ok (to_sql_naive_datetime (C := days_chrono) sample_moment).
Proof.
  assert (S : same_moment (T := days_time) (C := days_chrono) sample_moment (write_date, write_time)) by (split; reflexivity).
  split; [exact S|].
  apply (crates_write_alike (T := days_time) (C := days_chrono) sample_moment (write_date, write_time) (write_date, write_time, 0) sample_moment_ok S eq_refl).
Defined.
