(* ===== verification/Decimals.v ===== *)
(** * Decimals: a [Numeric] as text, as a float, and in other crates

    [Debug] and [Display] of [tds/numeric.rs], [From<Numeric> for f64], and
    the conversions to and from [rust_decimal::Decimal] and
    [bigdecimal::BigDecimal].  The two crates are parameters, with the laws of
    their documentation: a [Decimal] is a sign, a mantissa of 96 bits in three
    words and a scale of at most 28, and [from_i128_with_scale] panics outside
    that; a [BigDecimal] is an integer and an exponent. *)

From S2P Require Import Prelude Unicode Types NumericCodec Money Results.
From Stdlib Require Import Floats.SpecFloat.

(** ** Text *)

(** [{:0pad$}] *)
Definition zero_padded (n : nat) (s : str) : str := repeat 48 (n - length s) ++ s.
(** [impl Debug for Numeric], which [Display] prints *)
Definition numeric_debug (n : Numeric) : str :=
  (if value n <? 0 then ascii_str "-" else []) ++ show_Z (Z.abs (int_part n)) ++ [DOT] ++
  zero_padded (Z.to_nat (scale n)) (show_Z (Z.abs (dec_part n))).
Definition numeric_display (n : Numeric) : str := numeric_debug n.

(** ** Floats *)

(** [impl From<Numeric> for f64]; [as f64] rounds to nearest *)
Definition numeric_to_f64 (n : Numeric) : spec_float :=
  f64_add (f64_div (f64_of_Z (dec_part n)) (f64_of_Z (pow_scale n))) (f64_of_Z (int_part n)).

(** ** [rust_decimal] *)

Class RustDecimal := {
  Decimal : Type;
  dec_lo : Decimal -> Z; dec_mid : Decimal -> Z; dec_hi : Decimal -> Z;
  is_sign_negative : Decimal -> bool;
  dec_scale : Decimal -> Z;
  from_i128_with_scale : Z -> Z -> Res Decimal;
  dec_words : forall d, in_unsigned 32 (dec_lo d) /\ in_unsigned 32 (dec_mid d) /\ in_unsigned 32 (dec_hi d);
  dec_scale_range : forall d, 0 <= dec_scale d <= 28;
  from_i128_spec : forall v s, 0 <= s ->
    match from_i128_with_scale v s with
    | Ok d => Z.abs v < 2 ^ 96 /\ s <= 28 /\ dec_lo d + dec_mid d * 2 ^ 32 + dec_hi d * 2 ^ 64 = Z.abs v /\
              (v <> 0 -> is_sign_negative d = (v <? 0)) /\ dec_scale d = s
    | Panic => ~ (Z.abs v < 2 ^ 96 /\ s <= 28)
    | _ => False
    end;
}.

Section RustDecimal.
Context {R : RustDecimal}.

Definition from_sql_decimal (d : ColumnData) : Res (option Decimal) :=
  match d with
  | ColumnData.Numeric None => Ok None
  | ColumnData.Numeric (Some n) => res_map Some (from_i128_with_scale (value n) (scale n))
  | _ => cannot
  end.
(** [ToSql]: u128 words, cast to i128 *)
Definition decimal_value (d : Decimal) : Z :=
  let v := to_signed 128 (Z.shiftl (dec_hi d) 64 + Z.shiftl (dec_mid d) 32 + dec_lo d) in
  if is_sign_negative d then - v else v.
Definition to_sql_decimal (d : Decimal) : Res ColumnData :=
  res_map (fun n => ColumnData.Numeric (Some n)) (new_with_scale (decimal_value d) (wrap 8 (dec_scale d))).
(** [IntoSql], which the source writes out again *)
Definition into_sql_decimal (d : Decimal) : Res ColumnData :=
  let value := to_signed 128 (Z.shiftl (dec_hi d) 64 + Z.shiftl (dec_mid d) 32 + dec_lo d) in
  let value := if is_sign_negative d then - value else value in
  res_map (fun n => ColumnData.Numeric (Some n)) (new_with_scale value (wrap 8 (dec_scale d))).
Lemma decimal_by_value d : into_sql_decimal d = to_sql_decimal d.
Proof. reflexivity. Qed.
End RustDecimal.

(** ** [bigdecimal] *)

Class BigDecimals := {
  BigDecimal : Type;
  as_bigint_and_exponent : BigDecimal -> Z * Z;
  big_new : Z -> Z -> BigDecimal;
  with_scale_0 : BigDecimal -> BigDecimal;
  big_new_parts : forall i s, as_bigint_and_exponent (big_new i s) = (i, s);
  with_scale_0_parts : forall b, snd (as_bigint_and_exponent b) < 0 ->
    as_bigint_and_exponent (with_scale_0 b) = (fst (as_bigint_and_exponent b) * 10 ^ (- snd (as_bigint_and_exponent b)), 0);
}.

Section BigDecimals.
Context {B : BigDecimals}.

Definition from_sql_bigdecimal (d : ColumnData) : Res (option BigDecimal) :=
  match d with
  | ColumnData.Numeric None => Ok None
  | ColumnData.Numeric (Some n) => Ok (Some (big_new (value n) (scale n)))
  | _ => cannot
  end.
(** [BigInt::to_i128] *)
Definition to_i128 (i : Z) : option Z := if (- 2 ^ 127 <=? i) && (i <? 2 ^ 127) then Some i else None.
Definition to_sql_bigdecimal (b : BigDecimal) : Res ColumnData :=
  let '(int, exp) := as_bigint_and_exponent b in
  let '(int, exp) := if exp <? 0 then as_bigint_and_exponent (with_scale_0 b) else (int, exp) in
  match to_i128 int with
  | None => Panic
  | Some value =>
      let e := Z.max exp 0 in
      if (e <=? 255) && (e <=? MAX_NUMERIC_SCALE) then res_map (fun n => ColumnData.Numeric (Some n)) (new_with_scale value e) else Panic
  end.
Definition into_sql_bigdecimal (b : BigDecimal) : Res ColumnData :=
  let '(int, exp) := as_bigint_and_exponent b in
  let '(int, exp) := if exp <? 0 then as_bigint_and_exponent (with_scale_0 b) else (int, exp) in
  match to_i128 int with
  | None => Panic
  | Some value =>
      let e := Z.max exp 0 in
      if (e <=? 255) && (e <=? MAX_NUMERIC_SCALE) then res_map (fun n => ColumnData.Numeric (Some n)) (new_with_scale value e) else Panic
  end.
Lemma bigdecimal_by_value b : into_sql_bigdecimal b = to_sql_bigdecimal b.
Proof. reflexivity. Qed.
End BigDecimals.

(** ** Lemmas: digits *)

Definition digits_val (s : str) : Z := fold_left (fun acc c => acc * 10 + (c - 48)) s 0.
Definition all_digits (s : str) : Prop := Forall (fun c => is_digit c = true) s.

Lemma digits_val_from s : forall acc, fold_left (fun acc c => acc * 10 + (c - 48)) s acc = acc * 10 ^ Z.of_nat (length s) + digits_val s.
Proof.
  unfold digits_val. induction s as [|c s IH]; intros acc; [cbn; lia|]. cbn [fold_left length]. rewrite IH, (IH (0 * 10 + (c - 48))).
  rewrite Nat2Z.inj_succ, Z.pow_succ_r by lia. lia.
Qed.
Lemma digits_val_app a b : digits_val (a ++ b) = digits_val a * 10 ^ Z.of_nat (length b) + digits_val b.
Proof. unfold digits_val. rewrite fold_left_app. apply digits_val_from. Qed.
Lemma digits_val_zeros k s : digits_val (repeat 48 k ++ s) = digits_val s.
Proof. induction k as [|k IH]; [reflexivity|]. exact IH. Qed.
Lemma zeros_digits k : all_digits (repeat 48 k).
Proof. induction k; constructor; [reflexivity|assumption]. Qed.

(** The digits of a number: their value, and no more of them than the number
    needs. *)
Lemma show_fuel_digits fuel : forall n acc, 0 <= n < 10 ^ Z.of_nat fuel -> (0 < fuel)%nat ->
  exists ds, show_fuel fuel n acc = ds ++ acc /\ ds <> [] /\ all_digits ds /\ digits_val ds = n /\
    forall k, (0 < k)%nat -> n < 10 ^ Z.of_nat k -> (length ds <= k)%nat.
Proof.
  induction fuel as [|fuel IH]; intros n acc Hn Hf; [lia|]. cbn [show_fuel]. destruct (Z.ltb_spec n 10) as [L|L].
  - exists [48 + n]. split; [reflexivity|]. split; [discriminate|]. split; [constructor; [apply is_digit_spec; lia|constructor]|].
    split; [unfold digits_val; cbn; lia|]. intros k Hk _. cbn. lia.
  - rewrite Nat2Z.inj_succ, Z.pow_succ_r in Hn by lia. pose proof (Z.div_mod n 10 ltac:(lia)) as D. pose proof (Z.mod_pos_bound n 10 ltac:(lia)) as B.
    assert (Q : 0 <= n / 10 < 10 ^ Z.of_nat fuel) by (split; [apply Z.div_pos; lia|apply Z.div_lt_upper_bound; lia]).
    assert (Hf' : (0 < fuel)%nat) by (destruct fuel; [cbn in Q; assert (1 <= n / 10) by (apply Z.div_le_lower_bound; lia); lia|lia]).
    destruct (IH (n / 10) ((48 + n mod 10) :: acc) Q Hf') as (ds & E & Ne & Dg & V & K).
    exists (ds ++ [48 + n mod 10]). rewrite E, <- app_assoc. split; [reflexivity|]. split; [destruct ds; discriminate|].
    split; [apply Forall_app; split; [exact Dg|constructor; [apply is_digit_spec; lia|constructor]]|].
    split; [rewrite digits_val_app, V; unfold digits_val; cbn; lia|].
    intros k Hk Hlt. rewrite length_app. cbn. destruct k as [|k]; [lia|]. rewrite Nat2Z.inj_succ, Z.pow_succ_r in Hlt by lia.
    assert (n / 10 < 10 ^ Z.of_nat k) by (apply Z.div_lt_upper_bound; lia).
    destruct k as [|k]; [cbn in *; assert (1 <= n / 10) by (apply Z.div_le_lower_bound; lia); lia|]. specialize (K (S k) ltac:(lia) ltac:(assumption)). lia.
Qed.

(** ** Reading the text of a decimal *)

(** Digits, a dot, digits: the mantissa and how many digits follow the dot. *)
Fixpoint split_dot (s : str) : option (str * str) :=
  match s with
  | [] => None
  | c :: s => if c =? DOT then Some ([], s) else match split_dot s with Some (a, b) => Some (c :: a, b) | None => None end
  end.
Definition read_decimal (s : str) : option (Z * nat) :=
  let '(neg, s) := match s with c :: rest => if c =? 45 then (true, rest) else (false, s) | [] => (false, s) end in
  match split_dot s with
  | Some (a, b) =>
      if forallb is_digit a && forallb is_digit b && negb (bool_decide (a = [])) && negb (bool_decide (b = []))
      then Some ((if neg then -1 else 1) * digits_val (a ++ b), length b) else None
  | None => None
  end.

Lemma split_dot_digits a b : all_digits a -> split_dot (a ++ [DOT] ++ b) = Some (a, b).
Proof.
  induction 1 as [|c a Hc _ IH]; [reflexivity|]. cbn [app split_dot]. cbn [app] in IH. rewrite IH. destruct (Z.eqb_spec c DOT) as [->|]; [discriminate|reflexivity].
Qed.
Lemma all_digits_forallb s : all_digits s -> forallb is_digit s = true.
Proof. induction 1 as [|c s Hc _ IH]; [reflexivity|]. cbn. rewrite Hc. exact IH. Qed.

Lemma read_decimal_written (neg : bool) a b : all_digits a -> all_digits b -> a <> [] -> b <> [] ->
  read_decimal ((if neg then ascii_str "-" else []) ++ a ++ [DOT] ++ b) = Some ((if neg then -1 else 1) * digits_val (a ++ b), length b).
Proof.
  intros Ha Hb Na Nb. unfold read_decimal.
  assert (X : forall c rest, a = c :: rest -> (c =? 45) = false).
  { intros c rest ->. inversion Ha as [|? ? Hc]; subst. destruct (Z.eqb_spec c 45) as [->|]; [discriminate|reflexivity]. }
  assert (Y : (match (if neg then ascii_str "-" else []) ++ a ++ [DOT] ++ b with c :: rest => if c =? 45 then (true, rest) else (false, (if neg then ascii_str "-" else []) ++ a ++ [DOT] ++ b)
     | [] => (false, (if neg then ascii_str "-" else []) ++ a ++ [DOT] ++ b) end) = (neg, a ++ [DOT] ++ b)).
  { destruct neg; [reflexivity|]. destruct a as [|c a]; [congruence|]. cbn [app]. rewrite (X c a eq_refl). reflexivity. }
  rewrite Y, split_dot_digits, !all_digits_forallb by assumption. rewrite !bool_decide_false by assumption. reflexivity.
Qed.

(** The fraction of a decimal, padded to its scale. *)
Lemma fraction_digits n : wf_numeric n -> let s := Z.to_nat (scale n) in
  let b := zero_padded s (show_Z (Z.abs (dec_part n))) in
  all_digits b /\ b <> [] /\ digits_val b = Z.abs (dec_part n) /\ length b = Nat.max 1 s /\
  10 ^ Z.of_nat (length b) = pow_scale n * (if (s =? 0)%nat then 10 else 1) /\ ((s =? 0)%nat = true -> dec_part n = 0).
Proof.
  intros W s. destruct (int_dec_part n W) as (_ & D & A). destruct W as [Wv Ws].
  assert (Es : pow_scale n = 10 ^ Z.of_nat s) by (unfold pow_scale, s; rewrite Z2Nat.id by lia; reflexivity).
  assert (Hs : (s <= 38)%nat) by (unfold s; lia).
  assert (Bd : 0 <= Z.abs (dec_part n) < 10 ^ Z.of_nat 40).
  { split; [lia|]. eapply Z.lt_le_trans; [exact D|]. rewrite Es. apply Z.pow_le_mono_r; lia. }
  destruct (show_fuel_digits 40 _ [] Bd ltac:(lia)) as (b & Eb & Nb & Db & Vb & Kb). unfold show_Z. rewrite Eb, app_nil_r. cbn zeta.
  assert (Lb : length b <> 0%nat) by (destruct b; [congruence|discriminate]).
  assert (D0 : (s =? 0)%nat = true -> dec_part n = 0) by (intros X; apply Nat.eqb_eq in X; rewrite Es, X in D; cbn in D; lia).
  assert (Lz : length (zero_padded s b) = Nat.max 1 s).
  { unfold zero_padded. rewrite length_app, repeat_length. destruct (Nat.eqb_spec s 0) as [Z0|Z0].
    - pose proof (Kb 1%nat ltac:(lia)) as K. rewrite (D0 eq_refl) in K. specialize (K ltac:(cbn; lia)). lia.
    - pose proof (Kb s ltac:(lia) ltac:(lia)). lia. }
  split; [apply Forall_app; split; [apply zeros_digits|exact Db]|]. split; [intros X; rewrite X in Lz; cbn in Lz; lia|].
  split; [unfold zero_padded; rewrite digits_val_zeros; exact Vb|]. split; [exact Lz|]. split; [|exact D0].
  rewrite Lz, Es. destruct (Nat.eqb_spec s 0) as [->|Z0]; [reflexivity|]. rewrite Nat.max_r by lia. lia.
Qed.

(** ** Properties *)

(** The text of a decimal is its exact value: [Display] prints a sign, the
    digits of the integer part, a dot and the fraction in as many digits as
    the scale has (one when the scale is zero), and reading that text back
    gives the number, the smallest i128 included. *)
Theorem numeric_display_exact (n : Numeric) (W : wf_numeric n) :
  exists m k, read_decimal (numeric_display n) = Some (m, k) /\ k = Nat.max 1 (Z.to_nat (scale n)) /\
    m * 10 ^ scale n = value n * 10 ^ Z.of_nat k.
Proof.
  destruct (int_dec_part n W) as (E & _ & A). destruct (pow_scale_fits n W) as [_ Pp].
  destruct (fraction_digits n W) as (Db & Nb & Vb & Lb & Ps & D0). set (b := zero_padded _ _) in *.
  assert (Bi : 0 <= Z.abs (int_part n) < 10 ^ Z.of_nat 40).
  { destruct W as [Wv _]. unfold in_signed in Wv. change (2 ^ (128 - 1)) with 170141183460469231731687303715884105728 in Wv.
    change (10 ^ Z.of_nat 40) with 10000000000000000000000000000000000000000. nia. }
  destruct (show_fuel_digits 40 _ [] Bi ltac:(lia)) as (a & Ea & Na & Da & Va & _). rewrite app_nil_r in Ea.
  unfold numeric_display, numeric_debug. fold b. unfold show_Z. rewrite Ea. rewrite (read_decimal_written (value n <? 0) a b Da Db Na Nb).
  eexists _, _. split; [reflexivity|]. split; [exact Lb|]. rewrite digits_val_app, Va, Vb, Ps. fold (pow_scale n).
  assert (Sg : (if value n <? 0 then -1 else 1) * Z.abs (value n) = value n) by (destruct (Z.ltb_spec (value n) 0); lia).
  destruct (Z.to_nat (scale n) =? 0)%nat; [rewrite (D0 eq_refl) in A |- *|]; nia.
Qed.

(** A decimal without sign and fraction converts to the nearest float. *)
Lemma numeric_to_f64_integer v : 0 <= v -> numeric_to_f64 (mkNumeric v 0) = f64_of_Z v.
Proof.
  intros H. unfold numeric_to_f64, dec_part, int_part, pow_scale. cbn [value scale]. change (10 ^ 0) with 1.
  rewrite Z.quot_1_r, Z.mul_1_r, Z.sub_diag. change (f64_div (f64_of_Z 0) (f64_of_Z 1)) with (S754_zero false).
  unfold f64_add, SFadd. destruct (f64_of_Z v) as [[]| | |] eqn:X; try reflexivity. exfalso. destruct v as [|p|p]; [discriminate| |lia].
  unfold f64_of_Z, binary_normalize, binary_round in X. destruct (shl_align _ _ _) as [mz ez]. unfold binary_round_aux in X.
  destruct (shr_fexp _ _ _ _ _) as [m e]. destruct (shr_fexp 53 1024 (choice_mode _ _ _ _) _ _) as [m' e'] || destruct (shr_fexp _ _ _ _ _) as [m' e'].
  destruct (shr_m m'); try discriminate; destruct (_ <=? _); discriminate.
Qed.

Section Decimal.
Context {R : RustDecimal}.

Lemma decimal_value_spec d : decimal_value d =
  (if is_sign_negative d then -1 else 1) * (dec_lo d + dec_mid d * 2 ^ 32 + dec_hi d * 2 ^ 64) /\ Z.abs (decimal_value d) < 2 ^ 96.
Proof.
  destruct (dec_words d) as (Hl & Hm & Hh). unfold in_unsigned in *. unfold decimal_value. rewrite !Z.shiftl_mul_pow2 by lia.
  change (2 ^ 32) with 4294967296 in *. change (2 ^ 64) with 18446744073709551616. change (2 ^ 96) with 79228162514264337593543950336.
  rewrite to_signed_in by (lia || (unfold in_signed; change (2 ^ (128 - 1)) with 170141183460469231731687303715884105728; lia)).
  destruct (is_sign_negative d); lia.
Qed.

(** A [rust_decimal::Decimal] goes to the server and back unchanged: its
    conversion never panics and writes its exact value and scale, and reading
    that column gives a decimal of the same sign, digits and scale. *)
Theorem decimal_roundtrip (d : Decimal) :
  exists n, to_sql_decimal d = Ok (ColumnData.Numeric (Some n)) /\ wf_numeric n /\ scale n = dec_scale d /\
    value n = (if is_sign_negative d then -1 else 1) * (dec_lo d + dec_mid d * 2 ^ 32 + dec_hi d * 2 ^ 64) /\
    exists d', from_sql_decimal (ColumnData.Numeric (Some n)) = Ok (Some d') /\ decimal_value d' = decimal_value d /\ dec_scale d' = dec_scale d.
Proof.
  destruct (decimal_value_spec d) as [V B]. pose proof (dec_scale_range d) as S. unfold to_sql_decimal.
  rewrite wrap_small by (unfold in_unsigned; lia). unfold new_with_scale, MAX_NUMERIC_SCALE. rewrite (proj2 (Z.leb_le _ _)) by lia.
  eexists. split; [reflexivity|]. cbn [value scale]. split.
  { split; [|cbn; lia]. unfold in_signed. change (2 ^ (128 - 1)) with 170141183460469231731687303715884105728.
    change (2 ^ 96) with 79228162514264337593543950336 in B. cbn [value]. lia. }
  split; [reflexivity|]. split; [exact V|]. unfold from_sql_decimal. cbn [value scale].
  pose proof (from_i128_spec (decimal_value d) (dec_scale d) ltac:(lia)) as F.
  destruct (from_i128_with_scale (decimal_value d) (dec_scale d)) as [d'|e| |]; try contradiction; [|lia].
  destruct F as (_ & _ & Fv & Fs & Fc). exists d'. split; [reflexivity|]. split; [|exact Fc].
  rewrite (proj1 (decimal_value_spec d')), Fv. destruct (Z.eq_dec (decimal_value d) 0) as [Z0|Z0]; [rewrite Z0; cbn; lia|].
  rewrite Fs by exact Z0. destruct (Z.ltb_spec (decimal_value d) 0); lia.
Qed.

(** A decimal of the server with more than 96 bits or more than 28 digits
    behind the point panics the conversion, though [try_get] promises an
    error. *)
Theorem wide_numeric_panics (n : Numeric) (W : wf_numeric n) :
  from_sql_decimal (ColumnData.Numeric (Some n)) = Panic <-> 2 ^ 96 <= Z.abs (value n) \/ 28 < scale n.
Proof.
  destruct W as [_ Ws]. unfold from_sql_decimal. pose proof (from_i128_spec (value n) (scale n) ltac:(lia)) as F.
  destruct (from_i128_with_scale (value n) (scale n)) as [d|e| |]; try contradiction; unfold res_map; split; try discriminate; try lia. reflexivity.
Qed.
End Decimal.

Section Big.
Context {B : BigDecimals}.

(** What a [BigDecimal] denotes, over its decimal places. *)
Definition big_places (b : BigDecimal) : Z := Z.max (snd (as_bigint_and_exponent b)) 0.
Definition big_mantissa (b : BigDecimal) : Z :=
  fst (as_bigint_and_exponent b) * 10 ^ Z.max (- snd (as_bigint_and_exponent b)) 0.

(** A [BigDecimal] is written exactly or not at all: the conversion panics,
    as its documentation says, exactly when the number, written without an
    exponent, overflows an i128 or has more than 38 digits behind the point;
    otherwise the column has its value, and is read back as the same number.
    What comes from the server is always writable. *)
Theorem bigdecimal_roundtrip (b : BigDecimal) (n : Numeric) (W : wf_numeric n) :
  match to_sql_bigdecimal b with
  | Ok d => exists m, d = ColumnData.Numeric (Some m) /\ wf_numeric m /\ value m = big_mantissa b /\ scale m = big_places b /\
              exists b', from_sql_bigdecimal d = Ok (Some b') /\ big_mantissa b' = big_mantissa b /\ big_places b' = big_places b
  | Panic => ~ (in_signed 128 (big_mantissa b) /\ big_places b <= 38)
  | _ => False
  end /\
  exists b', from_sql_bigdecimal (ColumnData.Numeric (Some n)) = Ok (Some b') /\ to_sql_bigdecimal b' = Ok (ColumnData.Numeric (Some n)).
Proof.
  assert (Eq : forall b, to_sql_bigdecimal b =
    if (- 2 ^ 127 <=? big_mantissa b) && (big_mantissa b <? 2 ^ 127) then
      if big_places b <=? 38 then Ok (ColumnData.Numeric (Some (mkNumeric (big_mantissa b) (big_places b)))) else Panic
    else Panic).
  { intros x. unfold to_sql_bigdecimal, big_mantissa, big_places. pose proof (with_scale_0_parts x) as P.
    destruct (as_bigint_and_exponent x) as [i e]. cbn [fst snd] in *. destruct (Z.ltb_spec e 0) as [L|L].
    - rewrite (P L). rewrite (Z.max_l (- e)) by lia. unfold to_i128. destruct (_ && _); [|reflexivity]. rewrite (Z.max_r e 0) by lia. reflexivity.
    - rewrite (Z.max_r (- e)) by lia. change (10 ^ 0) with 1. rewrite Z.mul_1_r. unfold to_i128. destruct (_ && _); [|reflexivity].
      rewrite Z.max_l by lia. unfold new_with_scale, MAX_NUMERIC_SCALE. destruct (Z.leb_spec e 255), (Z.leb_spec e 38); try reflexivity; lia. }
  assert (In : forall v, (- 2 ^ 127 <=? v) && (v <? 2 ^ 127) = true <-> in_signed 128 v).
  { intros v. unfold in_signed. rewrite andb_true_iff, Z.leb_le, Z.ltb_lt. reflexivity. }
  assert (New : forall m, wf_numeric m -> big_mantissa (big_new (value m) (scale m)) = value m /\ big_places (big_new (value m) (scale m)) = scale m).
  { intros m [_ Hs]. unfold big_mantissa, big_places. rewrite big_new_parts. cbn [fst snd]. rewrite Z.max_r, (Z.max_l (scale m)) by lia. change (10 ^ 0) with 1. lia. }
  split.
  - rewrite Eq. destruct (_ && _) eqn:E.
    + apply In in E. destruct (Z.leb_spec (big_places b) 38) as [L|L]; [|lia].
      assert (Wm : wf_numeric (mkNumeric (big_mantissa b) (big_places b))) by (split; [exact E|cbn; unfold big_places in *; lia]).
      eexists. split; [reflexivity|]. split; [exact Wm|]. split; [reflexivity|]. split; [reflexivity|].
      eexists. split; [reflexivity|]. apply (New _ Wm).
    + intros [H _]. apply In in H. congruence.
  - eexists. split; [reflexivity|]. rewrite Eq. destruct (New n W) as [-> ->]. destruct W as [Wv Ws]. rewrite (proj2 (In _) Wv).
    rewrite (proj2 (Z.leb_le _ _)) by lia. destruct n; reflexivity.
Qed.
End Big.

(** ** Witnesses *)

Lemma numeric_display_exact_witness : numeric_display (mkNumeric (-5) 2) = ascii_str "-0.05" /\
  exists m k, read_decimal (numeric_display (mkNumeric (-5) 2)) = Some (m, k) /\ k = 2%nat /\ m = -5.
Proof.
  split; [vm_compute; reflexivity|]. assert (W : wf_numeric (mkNumeric (-5) 2)) by (split; [split; vm_compute; congruence|cbn; lia]).
  destruct (numeric_display_exact (mkNumeric (-5) 2) W) as (m & k & E & -> & V). exists m, 2%nat. split; [exact E|]. split; [reflexivity|].
  change (m * 100 = -5 * 100) in V. lia.
Defined.

(** Sign, words and scale. *)
#[local, refine] Instance toy_decimal : RustDecimal := {|
  Decimal := {x : bool * Z * Z | 0 <= snd (fst x) < 2 ^ 96 /\ 0 <= snd x <= 28};
  dec_lo d := snd (fst (proj1_sig d)) mod 2 ^ 32; dec_mid d := snd (fst (proj1_sig d)) / 2 ^ 32 mod 2 ^ 32;
  dec_hi d := snd (fst (proj1_sig d)) / 2 ^ 64; is_sign_negative d := fst (fst (proj1_sig d)); dec_scale d := snd (proj1_sig d);
  from_i128_with_scale v s :=
    match decide (0 <= Z.abs v < 2 ^ 96 /\ 0 <= s <= 28) with left H => Ok (exist _ (v <? 0, Z.abs v, s) H) | right _ => Panic end |}.
Proof.
  - intros [[[g m] s] [Hm Hs]]. cbn [proj1_sig fst snd] in *. unfold in_unsigned.
    split; [apply Z.mod_pos_bound; reflexivity|]. split; [apply Z.mod_pos_bound; reflexivity|].
    split; [apply Z.div_pos; lia|]. apply Z.div_lt_upper_bound; [reflexivity|]. exact (proj2 Hm).
  - intros [[[g m] s] [Hm Hs]]. exact Hs.
  - intros v s Hs. destruct (decide _) as [H|H]; [|lia]. cbn [proj1_sig fst snd]. split; [lia|]. split; [lia|]. split; [|auto].
    change (2 ^ 32) with 4294967296. change (2 ^ 64) with 18446744073709551616. Z.to_euclidean_division_equations. lia.
Defined.

Definition toy_cents : Decimal (RustDecimal := toy_decimal).
Proof. exists (true, 12345, 2). split; split; vm_compute; congruence. Defined.
Lemma decimal_roundtrip_witness : exists n, to_sql_decimal toy_cents = Ok (ColumnData.Numeric (Some n)) /\ value n = -12345 /\ scale n = 2.
Proof.
  destruct (decimal_roundtrip toy_cents) as (n & E & _ & S & V & _). exists n. split; [exact E|]. split; [rewrite V; vm_compute; reflexivity|rewrite S; reflexivity].
Defined.

Lemma wide_numeric_panics_witness : from_sql_decimal (ColumnData.Numeric (Some (mkNumeric (2 ^ 100) 0))) = Panic.
Proof.
  apply (wide_numeric_panics (mkNumeric (2 ^ 100) 0)); [split; [split; vm_compute; congruence|cbn; lia]|]. left. vm_compute. congruence.
Defined.

#[local, refine] Instance toy_bigdecimal : BigDecimals := {|
  BigDecimal := Z * Z; as_bigint_and_exponent b := b; big_new i s := (i, s); with_scale_0 b := (fst b * 10 ^ (- snd b), 0) |}.
Proof. all: reflexivity. Defined.

(** [9e3] is written as 9000. *)
Lemma bigdecimal_roundtrip_witness : to_sql_bigdecimal (B := toy_bigdecimal) (9, -3) = Ok (ColumnData.Numeric (Some (mkNumeric 9000 0))) /\
  exists b', from_sql_bigdecimal (B := toy_bigdecimal) (ColumnData.Numeric (Some (mkNumeric 9000 0))) = Ok (Some b') /\
    to_sql_bigdecimal (B := toy_bigdecimal) b' = Ok (ColumnData.Numeric (Some (mkNumeric 9000 0))).
Proof.
  split; [vm_compute; reflexivity|]. apply (bigdecimal_roundtrip (B := toy_bigdecimal) (9, -3) (mkNumeric 9000 0)). split; [split; vm_compute; congruence|cbn; lia].
Defined.
