(* ===== verification/Packet.v ===== *)
(** * Packet: the framing, [header.rs], [packet.rs], [decode.rs], [encode.rs]

    A message travels as packets of eight header bytes and a payload; the
    header carries the length of the packet.  [PacketCodec] cuts the byte
    stream into packets, whatever pieces it arrives in. *)

From S2P Require Import Prelude Unicode SqlRead SqlWrite Types.

Definition HEADER_BYTES : Z := 8.

(** ** The header *)

Module PacketType.
Inductive PacketType :=
| SQLBatch | PreTDSv7Login | Rpc | TabularResult | AttentionSignal | BulkLoad | Fat
| TransactionManagerReq | TDSv7Login | Sspi | PreLogin.

Definition ptype_as_u8 (t : PacketType) : Z :=
  match t with
  | SQLBatch => 1
  | PreTDSv7Login => 2
  | Rpc => 3
  | TabularResult => 4
  | AttentionSignal => 6
  | BulkLoad => 7
  | Fat => 8
  | TransactionManagerReq => 14
  | TDSv7Login => 16
  | Sspi => 17
  | PreLogin => 18
  end.

Definition ptype_try_from (n : Z) : option PacketType :=
  uint_try_from ptype_as_u8
    [SQLBatch; PreTDSv7Login; Rpc; TabularResult; AttentionSignal; BulkLoad; Fat; TransactionManagerReq;
     TDSv7Login; Sspi; PreLogin] n.

Lemma ptype_try_from_as_u8 t : ptype_try_from (ptype_as_u8 t) = Some t.
Proof. destruct t; reflexivity. Qed.
Lemma ptype_range t : in_unsigned 8 (ptype_as_u8 t).
Proof. destruct t; unfold in_unsigned; cbn; lia. Qed.
End PacketType.
Notation PacketType := PacketType.PacketType.
Notation ptype_as_u8 := PacketType.ptype_as_u8.
Notation ptype_try_from := PacketType.ptype_try_from.

Module PacketStatus.
Inductive PacketStatus := NormalMessage | EndOfMessage | IgnoreEvent | ResetConnection | ResetConnectionSkipTran.

Definition pstatus_as_u8 (s : PacketStatus) : Z :=
  match s with
  | NormalMessage => 0
  | EndOfMessage => 1
  | IgnoreEvent => 3
  | ResetConnection => 0x08
  | ResetConnectionSkipTran => 0x10
  end.

Definition pstatus_try_from (n : Z) : option PacketStatus :=
  uint_try_from pstatus_as_u8 [NormalMessage; EndOfMessage; IgnoreEvent; ResetConnection; ResetConnectionSkipTran] n.

Lemma pstatus_try_from_as_u8 s : pstatus_try_from (pstatus_as_u8 s) = Some s.
Proof. destruct s; reflexivity. Qed.
Lemma pstatus_range s : in_unsigned 8 (pstatus_as_u8 s).
Proof. destruct s; unfold in_unsigned; cbn; lia. Qed.

#[global] Instance PacketStatus_eq_dec : EqDecision PacketStatus.
Proof. solve_decision. Defined.
End PacketStatus.
Notation PacketStatus := PacketStatus.PacketStatus.
Notation pstatus_as_u8 := PacketStatus.pstatus_as_u8.
Notation pstatus_try_from := PacketStatus.pstatus_try_from.

Record PacketHeader := mkPacketHeader {
  h_type : PacketType;
  h_status : PacketStatus;
  h_length : Z;
  h_spid : Z;
  h_id : Z;
  h_window : Z;
}.

(** [PacketHeader::new]: a panic above [u16::MAX]. *)
Definition header_new (length id : Z) : Res PacketHeader :=
  if length <=? 65535 then Ok (mkPacketHeader PacketType.TDSv7Login PacketStatus.ResetConnection length 0 id 0)
  else Panic.

(** The constructors of the messages: [..Self::new(0, id)] never panics. *)
Definition header_of (t : PacketType) (s : PacketStatus) (id : Z) : PacketHeader := mkPacketHeader t s 0 0 id 0.
Definition header_rpc := header_of PacketType.Rpc PacketStatus.NormalMessage.
Definition header_pre_login := header_of PacketType.PreLogin PacketStatus.EndOfMessage.
Definition header_login := header_of PacketType.TDSv7Login PacketStatus.EndOfMessage.
Definition header_sspi := header_of PacketType.Sspi PacketStatus.EndOfMessage.
Definition header_batch := header_of PacketType.SQLBatch PacketStatus.NormalMessage.
Definition header_bulk_load := header_of PacketType.BulkLoad PacketStatus.NormalMessage.
Definition header_attention := header_of PacketType.AttentionSignal PacketStatus.EndOfMessage.
Definition header_transaction_manager := header_of PacketType.TransactionManagerReq PacketStatus.EndOfMessage.

(** [PacketHeader::set_status] *)
Definition set_status (s : PacketStatus) (h : PacketHeader) : PacketHeader :=
  mkPacketHeader (h_type h) s (h_length h) (h_spid h) (h_id h) (h_window h).

(** [impl Encode for PacketHeader] *)
Definition header_encode (h : PacketHeader) : M bytes unit :=
  put_u8 (ptype_as_u8 (h_type h)) ;;
  put_u8 (pstatus_as_u8 (h_status h)) ;;
  put_u16 (h_length h) ;;
  put_u16 (h_spid h) ;;
  put_u8 (h_id h) ;;
  put_u8 (h_window h).

(** [Buf::get_u8] and [get_u16]: a panic when the buffer is too short. *)
Definition get_be (n : nat) : M bytes Z := fun src =>
  if (n <=? length src)%nat then (Ok (be_val (take n src)), drop n src) else (Panic, src).

(** [impl Decode for PacketHeader] *)
Definition header_decode : M bytes PacketHeader :=
  raw_ty <- get_be 1 ;;
  ty <- lift (ok_or (ptype_try_from raw_ty) (Protocol "header: invalid packet type")) ;;
  raw_status <- get_be 1 ;;
  status <- lift (ok_or (pstatus_try_from raw_status) (Protocol "header: invalid packet status")) ;;
  length <- get_be 2 ;;
  spid <- get_be 2 ;;
  id <- get_be 1 ;;
  window <- get_be 1 ;;
  ret (mkPacketHeader ty status length spid id window).

(** ** Packets *)

Record Packet := mkPacket { p_header : PacketHeader; p_payload : bytes }.

(** [Packet::is_last] *)
Definition is_last (p : Packet) : bool := bool_decide (h_status (p_header p) = PacketStatus.EndOfMessage).

(** [impl Encode for Packet]: the length is written at the absolute positions
    2 and 3 of the output buffer. *)
Definition packet_encode (oc : bool) (p : Packet) : M bytes unit :=
  size <- lift (arith_u oc 16 (wrap 16 (len (p_payload p)) + HEADER_BYTES)) ;;
  header_encode (p_header p) ;;
  put_slice (p_payload p) ;;
  patch 2 (be_bytes 2 size).

(** [impl Decode for Packet] *)
Definition packet_decode : M bytes Packet := fun src =>
  match header_decode src with
  | (Ok h, rest) => (Ok (mkPacket h rest), [])
  | (Err e, rest) => (Err e, rest)
  | (Panic, rest) => (Panic, rest)
  | (OutOfFuel, rest) => (OutOfFuel, rest)
  end.

(** [src.split_to(n)] *)
Definition split_to (n : nat) : M bytes bytes := fun src =>
  if (n <=? length src)%nat then (Ok (take n src), drop n src) else (Panic, src).

(** [PacketCodec::decode]: [None] asks for more bytes. *)
Definition codec_decode_packet : M bytes (option Packet) := fun src =>
  if len src <? HEADER_BYTES then (Ok None, src)
  else
    let length := be_val (take 2 (drop 2 src)) in
    if len src <? length then (Ok None, src)
    else if length <? HEADER_BYTES then (Err (Protocol "Invalid packet length"), src)
    else (h <- header_decode ;;
          payload <- split_to (Z.to_nat (length - HEADER_BYTES)) ;;
          ret (Some (mkPacket h payload))) src.

(** [PacketCodec::decode_eof] *)
Definition codec_decode_eof : M bytes (option Packet) := fun src =>
  match codec_decode_packet src with
  | (Ok None, src') => if len src' =? 0 then (Ok None, src') else (Err (Io OtherIo), src')
  | r => r
  end.

(** [collect_from], up to the decoding of the message: the payloads of the
    packets up to the last one of the message. *)
Fixpoint collect_payloads (packets : list Packet) : bytes :=
  match packets with
  | [] => []
  | p :: ps => p_payload p ++ (if is_last p then [] else collect_payloads ps)
  end.

(** ** Lemmas *)

Definition wf_header (h : PacketHeader) : Prop :=
  in_unsigned 16 (h_length h) /\ in_unsigned 16 (h_spid h) /\ in_unsigned 8 (h_id h) /\ in_unsigned 8 (h_window h).

Definition header_bytes (h : PacketHeader) : bytes :=
  le_bytes 1 (ptype_as_u8 (h_type h)) ++ le_bytes 1 (pstatus_as_u8 (h_status h)) ++ be_bytes 2 (h_length h) ++
  be_bytes 2 (h_spid h) ++ le_bytes 1 (h_id h) ++ le_bytes 1 (h_window h).

Lemma length_header_bytes h : length (header_bytes h) = 8%nat.
Proof. unfold header_bytes. rewrite !length_app, !length_le_bytes, !length_be_bytes. reflexivity. Qed.

Lemma appends_put_u16 v : appends (put_u16 v) (be_bytes 2 v).
Proof. apply appends_put_slice. Qed.
#[export] Hint Resolve appends_put_u16 : tds_appends.

Lemma appends_header h : appends (header_encode h) (header_bytes h).
Proof. unfold header_encode, header_bytes. appends_steps. Qed.

Lemma decodes_get_be n v : in_unsigned (8 * Z.of_nat n) v -> decodes (get_be n) (be_bytes n v) v.
Proof.
  intros H rest. unfold get_be. rewrite length_app, length_be_bytes. rewrite (proj2 (Nat.leb_le _ _)) by lia.
  rewrite take_app_length', drop_app_length' by (rewrite length_be_bytes; reflexivity).
  rewrite be_val_bytes, wrap_small by exact H. reflexivity.
Qed.

Lemma be_bytes_1 v : be_bytes 1 v = le_bytes 1 v.
Proof. reflexivity. Qed.

Lemma decodes_get_u8 v : in_unsigned 8 v -> decodes (get_be 1) (le_bytes 1 v) v.
Proof. rewrite <- be_bytes_1. apply (decodes_get_be 1). Qed.

Lemma decodes_header h : wf_header h -> decodes header_decode (header_bytes h) h.
Proof.
  intros (H1 & H2 & H3 & H4). unfold header_decode, header_bytes.
  eapply decodes_bind; [apply decodes_get_u8, PacketType.ptype_range|].
  eapply decodes_bind_nil; [apply decodes_lift; rewrite PacketType.ptype_try_from_as_u8; reflexivity|].
  eapply decodes_bind; [apply decodes_get_u8, PacketStatus.pstatus_range|].
  eapply decodes_bind_nil; [apply decodes_lift; rewrite PacketStatus.pstatus_try_from_as_u8; reflexivity|].
  eapply decodes_bind; [apply (decodes_get_be 2), H1|].
  eapply decodes_bind; [apply (decodes_get_be 2), H2|].
  eapply decodes_bind; [apply decodes_get_u8, H3|].
  eapply decodes_bind_ret_eq; [apply decodes_get_u8, H4|destruct h; reflexivity].
Qed.

(** The header as it goes out: with the length of the packet. *)
Definition set_length (n : Z) (h : PacketHeader) : PacketHeader :=
  mkPacketHeader (h_type h) (h_status h) n (h_spid h) (h_id h) (h_window h).

Definition packet_bytes (p : Packet) : bytes :=
  header_bytes (set_length (len (p_payload p) + HEADER_BYTES) (p_header p)) ++ p_payload p.

Definition max_payload : Z := 65535 - HEADER_BYTES.

(** Into an empty buffer a packet is written with its length in place. *)
Lemma packet_encode_empty oc p : len (p_payload p) <= max_payload ->
  packet_encode oc p [] = (Ok tt, packet_bytes p).
Proof.
  intros H. unfold max_payload, HEADER_BYTES in *. unfold packet_encode, packet_bytes.
  rewrite wrap_small by (unfold in_unsigned; lia).
  rewrite arith_u_in by (unfold in_unsigned, HEADER_BYTES; lia).
  rewrite (bind_ok (lift (Ok _)) _ [] _ [] eq_refl).
  rewrite (bind_ok _ _ _ _ _ (appends_header (p_header p) [])).
  rewrite (bind_ok _ _ _ _ _ (appends_put_slice (p_payload p) _)). cbn [app].
  set (n := be_bytes 2 (len (p_payload p) + HEADER_BYTES)).
  set (pre := le_bytes 1 (ptype_as_u8 (h_type (p_header p))) ++ le_bytes 1 (pstatus_as_u8 (h_status (p_header p)))).
  set (post := (be_bytes 2 (h_spid (p_header p)) ++ le_bytes 1 (h_id (p_header p)) ++ le_bytes 1 (h_window (p_header p)))
    ++ p_payload p).
  transitivity (patch (len pre) n (pre ++ be_bytes 2 (h_length (p_header p)) ++ post)).
  - reflexivity.
  - rewrite patch_app by (unfold n; rewrite !length_be_bytes; reflexivity).
    unfold header_bytes, pre, post, n, set_length. cbn [h_type h_status h_length h_spid h_id h_window].
    rewrite <- !app_assoc. reflexivity.
Qed.

Lemma set_length_wf n h : in_unsigned 16 n -> wf_header h -> wf_header (set_length n h).
Proof. intros Hn (_ & H). split; [exact Hn|exact H]. Qed.

Lemma length_field h rest : in_unsigned 16 (h_length h) -> be_val (take 2 (drop 2 (header_bytes h ++ rest))) = h_length h.
Proof.
  intros H. unfold header_bytes.
  change (be_val (be_bytes 2 (h_length h)) = h_length h).
  rewrite be_val_bytes, wrap_small by exact H. reflexivity.
Qed.

(** A whole packet in front of the buffer is decoded, whatever follows. *)
Lemma decodes_packet h payload : wf_header h -> h_length h = len payload + HEADER_BYTES ->
  decodes codec_decode_packet (header_bytes h ++ payload) (Some (mkPacket h payload)).
Proof.
  intros Hw Hl rest. rewrite <- app_assoc. unfold codec_decode_packet, HEADER_BYTES in *.
  rewrite !length_app, length_header_bytes, length_field by apply Hw.
  rewrite !(proj2 (Z.ltb_ge _ _)) by lia.
  rewrite (bind_ok _ _ _ _ _ (decodes_header h Hw _)). unfold split_to.
  replace (Z.to_nat (h_length h - 8)) with (length payload) by lia.
  rewrite bind_run, length_app. rewrite (proj2 (Nat.leb_le _ _)) by lia.
  rewrite take_app_length, drop_app_length. reflexivity.
Qed.

(** A decoder that did not run out of bytes does the same with more of them. *)
Definition monotone {A} (c : M bytes A) : Prop :=
  forall src more, fst (c src) <> Panic -> c (src ++ more) = (fst (c src), snd (c src) ++ more).

Lemma monotone_ret {A} (a : A) : monotone (ret a).
Proof. intros src more _. reflexivity. Qed.
Lemma monotone_lift {A} (r : Res A) : monotone (lift r).
Proof. intros src more _. reflexivity. Qed.

Lemma monotone_bind {A B} (c : M bytes A) (k : A -> M bytes B) :
  monotone c -> (forall a, monotone (k a)) -> monotone (bind c k).
Proof.
  intros Hc Hk src more Hp. specialize (Hc src more). unfold bind in *.
  destruct (c src) as [[a|e| |] s1]; cbn [fst snd] in *; try congruence; rewrite Hc by discriminate; try reflexivity.
  apply Hk, Hp.
Qed.

Lemma monotone_get_be n : monotone (get_be n).
Proof.
  intros src more. unfold get_be. rewrite length_app. destruct (Nat.leb_spec n (length src)); [|cbn; congruence].
  intros _. rewrite (proj2 (Nat.leb_le _ _)) by lia. rewrite take_app_le, drop_app_le by lia. reflexivity.
Qed.

Lemma monotone_split_to n : monotone (split_to n).
Proof.
  intros src more. unfold split_to. rewrite length_app. destruct (Nat.leb_spec n (length src)); [|cbn; congruence].
  intros _. rewrite (proj2 (Nat.leb_le _ _)) by lia. rewrite take_app_le, drop_app_le by lia. reflexivity.
Qed.

Lemma monotone_header : monotone header_decode.
Proof. unfold header_decode. repeat (apply monotone_bind; [first [apply monotone_get_be|apply monotone_lift]|intros]). apply monotone_ret. Qed.

(** Eight bytes are enough for a header, and a header takes eight bytes. *)
Lemma header_decode_8 src : (8 <= length src)%nat ->
  match header_decode src with
  | (Ok h, rest) => rest = drop 8 src
  | (Err (Protocol _), _) => True
  | _ => False
  end.
Proof.
  intros H. destruct src as [|b0 [|b1 [|b2 [|b3 [|b4 [|b5 [|b6 [|b7 rest]]]]]]]]; cbn [length] in H; try lia.
  unfold header_decode. rewrite !bind_run.
  change (get_be 1 (b0 :: b1 :: b2 :: b3 :: b4 :: b5 :: b6 :: b7 :: rest)) with
    (@Ok Z (be_val [b0]), b1 :: b2 :: b3 :: b4 :: b5 :: b6 :: b7 :: rest). cbv iota beta.
  unfold bind, lift. destruct (ptype_try_from _); [|exact I]. cbn [ok_or].
  change (get_be 1 (b1 :: b2 :: b3 :: b4 :: b5 :: b6 :: b7 :: rest)) with
    (@Ok Z (be_val [b1]), b2 :: b3 :: b4 :: b5 :: b6 :: b7 :: rest). cbv iota beta.
  destruct (pstatus_try_from _); [reflexivity|exact I].
Qed.

Lemma codec_decode_cases src :
  let n := be_val (take 2 (drop 2 src)) in
  match codec_decode_packet src with
  | (Ok None, s) => s = src /\ (len src < HEADER_BYTES \/ len src < n)
  | (Ok (Some p), rest) => HEADER_BYTES <= n <= len src /\ p_payload p = take (Z.to_nat n - 8) (drop 8 src) /\
                           rest = drop (Z.to_nat n) src
  | (Err (Protocol _), _) => HEADER_BYTES <= len src
  | _ => False
  end.
Proof.
  intros n. unfold codec_decode_packet. destruct (Z.ltb_spec (len src) HEADER_BYTES); [auto|]. fold n.
  destruct (Z.ltb_spec (len src) n); [auto|]. destruct (Z.ltb_spec n HEADER_BYTES); [assumption|].
  unfold HEADER_BYTES in *. rewrite bind_run. pose proof (header_decode_8 src ltac:(lia)) as H8.
  destruct (header_decode src) as [[h|[]| |] rest]; try exact H8; try assumption. subst rest.
  rewrite bind_run. unfold split_to. rewrite length_drop. rewrite (proj2 (Nat.leb_le _ _)) by lia.
  unfold ret. cbn [p_payload]. split; [lia|]. replace (Z.to_nat (n - 8)) with (Z.to_nat n - 8)%nat by lia.
  split; [reflexivity|]. rewrite drop_drop. f_equal. lia.
Qed.

(** ** Properties *)

(** A packet of at most 65527 payload bytes, written into an empty output
    buffer, is decoded from the front of any byte stream to the same packet
    with the length of the whole packet in its header, and what follows it is
    left alone. *)
Theorem packet_roundtrip (oc : bool) (p : Packet) (rest : bytes)
  (Hh : wf_header (p_header p)) (Hl : len (p_payload p) <= max_payload) :
  exists out, packet_encode oc p [] = (Ok tt, out) /\
    codec_decode_packet (out ++ rest) =
      (Ok (Some (mkPacket (set_length (len (p_payload p) + HEADER_BYTES) (p_header p)) (p_payload p))), rest).
Proof.
  exists (packet_bytes p). split; [apply packet_encode_empty, Hl|].
  apply decodes_packet; [|reflexivity].
  apply set_length_wf; [unfold in_unsigned, max_payload, HEADER_BYTES in *; lia|exact Hh].
Qed.

Lemma packet_roundtrip_witness :
  exists out, packet_encode true (mkPacket (header_batch 7) [1; 2; 3]) [] = (Ok tt, out) /\
    codec_decode_packet (out ++ [9]) =
      (Ok (Some (mkPacket (set_length 11 (header_batch 7)) [1; 2; 3])), [9]).
Proof.
  apply (packet_roundtrip true (mkPacket (header_batch 7) [1; 2; 3]) [9]).
  - repeat split; cbn; lia.
  - vm_compute. discriminate.
Defined.

(** C17: the packet decoder does not depend on how the transport cuts the
    stream: on a prefix it either asks for more and takes nothing, or gives
    the packet (or the error) it gives for every longer input, leaving the
    additional bytes; it never panics, and the packet it returns has exactly
    the length its header announced. *)
Theorem codec_incremental (src more : bytes) :
  match codec_decode_packet src with
  | (Ok None, s) => s = src
  | (Ok (Some p), rest) =>
      codec_decode_packet (src ++ more) = (Ok (Some p), rest ++ more) /\
      len (p_payload p) + HEADER_BYTES = be_val (take 2 (drop 2 src)) /\ suffix rest src
  | (Err e, rest) => codec_decode_packet (src ++ more) = (Err e, rest ++ more)
  | (Panic, _) | (OutOfFuel, _) => False
  end.
Proof.
  pose proof (codec_decode_cases src) as C. cbn zeta in C.
  assert (Mono : (exists s, codec_decode_packet src = (Ok None, s)) \/
     codec_decode_packet (src ++ more) = (fst (codec_decode_packet src), snd (codec_decode_packet src) ++ more)).
  { revert C. unfold codec_decode_packet. rewrite length_app, Nat2Z.inj_add.
    destruct (Z.ltb_spec (len src) HEADER_BYTES); [left; eexists; reflexivity|].
    unfold HEADER_BYTES in *. rewrite (proj2 (Z.ltb_ge (len src + len more) _)) by lia.
    rewrite (drop_app_le src more 2), (take_app_le _ more 2) by (rewrite ?length_drop; lia).
    set (n := be_val (take 2 (drop 2 src))). destruct (Z.ltb_spec (len src) n); [left; eexists; reflexivity|].
    rewrite (proj2 (Z.ltb_ge (len src + len more) n)) by lia. destruct (n <? 8); [right; reflexivity|]. intros C. right.
    apply monotone_bind; [apply monotone_header|intros h; apply monotone_bind; [apply monotone_split_to|intros; apply monotone_ret]|].
    intros E. destruct (bind _ _ src) as [r s]. cbn in E. subst r. exact C. }
  destruct (codec_decode_packet src) as [[[p|]|[]| |] rest] eqn:E; try contradiction.
  - destruct C as (Hn & Hp & Hr). destruct Mono as [[s [=]]|Mono]. split; [exact Mono|]. split.
    + rewrite Hp, length_take, length_drop. unfold HEADER_BYTES in *. lia.
    + rewrite Hr. apply read_n_suffix.
  - apply C.
  - destruct Mono as [[s [=]]|Mono]. exact Mono.
Qed.

(** [Packet::encode] computes the length field as a u16: a payload of
    65528 bytes or more overflows it, a panic with overflow checks; without
    them the wrapped length is written, and a reader takes the packet to end
    at the wrong place. *)
Theorem packet_encode_overflow (p : Packet) (H : max_payload < len (p_payload p) < 65536) :
  packet_encode true p [] = (Panic, []) /\
  exists out, packet_encode false p [] = (Ok tt, out) /\ len out = len (p_payload p) + HEADER_BYTES /\
    be_val (take 2 (drop 2 out)) = len out - 65536.
Proof.
  unfold max_payload, HEADER_BYTES in *. unfold packet_encode, HEADER_BYTES.
  rewrite wrap_small by (unfold in_unsigned; lia). unfold arith_u.
  rewrite (proj2 (Z.leb_le 0 _)), (proj2 (Z.ltb_ge _ _)) by lia. split; [reflexivity|].
  set (n := wrap 16 (len (p_payload p) + 8)).
  assert (En : n = len (p_payload p) + 8 - 65536).
  { unfold n, wrap. rewrite <- (Z.mod_small (len (p_payload p) + 8 - 65536) (2 ^ 16)) by lia.
    replace (len (p_payload p) + 8) with ((len (p_payload p) + 8 - 65536) + 1 * 2 ^ 16) at 1 by lia.
    apply Z.mod_add. discriminate. }
  cbn [andb]. rewrite (bind_ok (lift (Ok n)) _ [] _ [] eq_refl).
  rewrite (bind_ok _ _ _ _ _ (appends_header (p_header p) [])).
  rewrite (bind_ok _ _ _ _ _ (appends_put_slice (p_payload p) _)). cbn [app].
  unfold patch. rewrite (proj2 (Z.leb_le _ _)) by (rewrite length_app, length_header_bytes, length_be_bytes; lia).
  eexists. split; [reflexivity|]. split.
  - rewrite !length_app, length_take, length_drop, !length_app, length_header_bytes, length_be_bytes. lia.
  - change (Z.to_nat 2) with 2%nat.
    rewrite (drop_app_length' (take 2 _)) by (rewrite length_take, length_app, length_header_bytes; reflexivity).
    rewrite take_app_length' by (rewrite length_be_bytes; reflexivity).
    rewrite be_val_bytes, wrap_small by (change (8 * Z.of_nat 2) with 16; unfold in_unsigned; lia).
    rewrite !length_app, length_take, length_drop, !length_app, length_header_bytes, length_be_bytes. lia.
Qed.

Lemma packet_encode_overflow_witness :
  let p := mkPacket (header_batch 0) (repeat 0 (Z.to_nat 65530)) in packet_encode true p [] = (Panic, []).
Proof.
  apply (packet_encode_overflow (mkPacket (header_batch 0) (repeat 0 (Z.to_nat 65530)))).
  vm_compute. split; reflexivity.
Defined.
