(* ===== verification/Connection.v ===== *)
(** * Connection: packets in, packets out, [client/connection.rs]

    The transport is the bytes the server has sent and those the client has
    written.  An asynchronous write may complete, fail or be abandoned with
    part of the frame on the wire when its future is dropped: a [script] of
    [Await] outcomes, one per await point, decides.  Reads wait for the
    server, so they see the whole of what it sends ([codec_incremental]). *)

From S2P Require Import Prelude Unicode Collation SqlRead SqlWrite Types TypeInfoCodec Context Packet.

Record Connection := mkConnection {
  c_in : bytes;
  c_out : bytes;
  c_flushed : bool;
  c_ctx : Context;
  c_buf : bytes;
  c_poisoned : bool;
  c_desync : bool;
}.

(** The connection [establish] starts from, and [tls_handshake] after it. *)
Definition connection_new (ctx : Context) (inbound : bytes) : Connection :=
  mkConnection inbound [] false ctx [] false false.

Definition set_in (b : bytes) (c : Connection) : Connection :=
  mkConnection b (c_out c) (c_flushed c) (c_ctx c) (c_buf c) (c_poisoned c) (c_desync c).
Definition set_out (b : bytes) (c : Connection) : Connection :=
  mkConnection (c_in c) b (c_flushed c) (c_ctx c) (c_buf c) (c_poisoned c) (c_desync c).
Definition set_flushed (b : bool) (c : Connection) : Connection :=
  mkConnection (c_in c) (c_out c) b (c_ctx c) (c_buf c) (c_poisoned c) (c_desync c).
Definition set_buf (b : bytes) (c : Connection) : Connection :=
  mkConnection (c_in c) (c_out c) (c_flushed c) (c_ctx c) b (c_poisoned c) (c_desync c).
(** [Connection::poison] and [unpoison] *)
Definition set_poisoned (b : bool) (c : Connection) : Connection :=
  mkConnection (c_in c) (c_out c) (c_flushed c) (c_ctx c) (c_buf c) b (c_desync c).

(** ** Reading *)

(** [Stream for Connection]: the next packet of the transport. *)
Definition next_packet : M Connection (option Packet) := fun c =>
  match codec_decode_eof (c_in c) with
  | (Ok (Some p), rest) => (Ok (Some p), set_flushed (is_last p) (set_in rest c))
  | (Ok None, rest) => (Ok None, set_in rest c)
  | (Err e, rest) => (Err e, set_in rest c)
  | (Panic, rest) => (Panic, set_in rest c)
  | (OutOfFuel, rest) => (OutOfFuel, set_in rest c)
  end.

(** The loop of [poll_read]: packets until [size] bytes are there. *)
Fixpoint fill (fuel : nat) (size : nat) : M Connection unit := fun c =>
  match fuel with
  | O => (OutOfFuel, c)
  | S fuel =>
      match next_packet c with
      | (Ok (Some p), c) =>
          let c := set_buf (c_buf c ++ p_payload p) c in
          if (size <=? length (c_buf c))%nat then (Ok tt, c) else fill fuel size c
      | (Ok None, c) => (Ok tt, c)
      | (Err _, c) => (Err (Io BrokenPipe), c)
      | (Panic, c) => (Panic, c)
      | (OutOfFuel, c) => (OutOfFuel, c)
      end
  end.

(** [AsyncRead::poll_read] into a buffer of [size] bytes: a packet takes
    bytes of the transport, so they bound the rounds. *)
Definition poll_read (size : nat) : M Connection bytes := fun c =>
  let take_out : M Connection bytes := fun c =>
    (Ok (take size (c_buf c)), set_buf (drop size (c_buf c)) c) in
  if (length (c_buf c) <? size)%nat then
    (fill (S (length (c_in c))) size ;;
     (fun c => if (length (c_buf c) <? size)%nat then (Err (Io UnexpectedEof), c) else take_out c)) c
  else take_out c.

(** [Connection::is_eof] *)
Definition is_eof (c : Connection) : bool := c_flushed c && (len (c_buf c) =? 0).

(** [Connection::ensure_not_poisoned] *)
Definition ensure_not_poisoned : M Connection unit := fun c =>
  if c_poisoned c then
    (Err (Protocol "connection was left in an inconsistent state by a cancelled write and can no longer be used; open a new connection"), c)
  else if c_desync c then
    (Err (Protocol "connection was left out of sync with the server by a command timeout (the previous response is only partly read) and can no longer be used; open a new connection"), c)
  else (Ok tt, c).

(** The loop of [flush_stream]: whole packets up to the end of the message. *)
Fixpoint drain (fuel : nat) : M Connection unit := fun c =>
  match fuel with
  | O => (OutOfFuel, c)
  | S fuel =>
      match next_packet c with
      | (Ok (Some p), c) => if is_last p then (Ok tt, c) else drain fuel c
      | (Ok None, c) => (Ok tt, c)
      | (Err e, c) => (Err e, set_poisoned true c)
      | (Panic, c) => (Panic, c)
      | (OutOfFuel, c) => (OutOfFuel, c)
      end
  end.

(** [Connection::flush_stream] *)
Definition flush_stream : M Connection unit :=
  ensure_not_poisoned ;;
  (fun c =>
     let c := set_buf [] c in
     if c_flushed c then (Ok tt, c) else drain (S (length (c_in c))) c).

(** ** Writing *)

(** What an await point of a write does: it completes, it fails, or the
    future is dropped there; [k] bytes of the frame are on the wire when it
    does not complete. *)
Inductive Await := Completes | Fails (e : IoErrorKind) (k : nat) | Dropped (k : nat).

(** A finished future and its result, or one that was dropped. *)
Inductive Outcome (A : Type) := Finished (r : Res A) | Abandoned.
Arguments Finished {A} r.
Arguments Abandoned {A}.

Definition next_await (script : list Await) : Await * list Await :=
  match script with [] => (Completes, []) | a :: s => (a, s) end.

(** [write_to_wire]: [Sink::send] encodes into the empty write buffer of the
    transport and flushes it. *)
Definition write_to_wire (oc : bool) (h : PacketHeader) (data : bytes) (script : list Await) (c : Connection)
    : Outcome unit * list Await * Connection :=
  let c := set_flushed false c in
  match packet_encode oc (mkPacket h data) [] with
  | (Ok _, frame) =>
      let (a, script) := next_await script in
      match a with
      | Completes => (Finished (Ok tt), script, set_out (c_out c ++ frame) c)
      | Fails e k => (Finished (Err (Io e)), script, set_out (c_out c ++ take k frame) c)
      | Dropped k => (Abandoned, script, set_out (c_out c ++ take k frame) c)
      end
  | (Err e, _) => (Finished (Err e), script, c)
  | (Panic, _) => (Finished Panic, script, c)
  | (OutOfFuel, _) => (Finished OutOfFuel, script, c)
  end.

(** [flush_sink]: nothing is left to write, the await may still not
    complete. *)
Definition flush_sink (script : list Await) (c : Connection) : Outcome unit * list Await * Connection :=
  let (a, script) := next_await script in
  match a with
  | Completes => (Finished (Ok tt), script, c)
  | Fails e _ => (Finished (Err (Io e)), script, c)
  | Dropped _ => (Abandoned, script, c)
  end.

(** The loop of [send]: [size] payload bytes per packet, the status of the
    header set for each. *)
Fixpoint write_message (oc : bool) (fuel : nat) (h : PacketHeader) (payload : bytes) (size : nat)
    (script : list Await) (c : Connection) : Outcome unit * list Await * Connection :=
  match payload with
  | [] => (Finished (Ok tt), script, c)
  | _ =>
      match fuel with
      | O => (Finished OutOfFuel, script, c)
      | S fuel =>
          let writable := Nat.min (length payload) size in
          let split_payload := take writable payload in
          let payload := drop writable payload in
          let status := match payload with [] => PacketStatus.EndOfMessage | _ => PacketStatus.NormalMessage end in
          match write_to_wire oc (set_status status h) split_payload script c with
          | (Finished (Ok _), script, c) => write_message oc fuel h payload size script c
          | r => r
          end
      end
  end.

(** [Connection::send] *)
Definition send (oc : bool) (h : PacketHeader) (item : M bytes unit) (script : list Await) (c : Connection)
    : Outcome unit * list Await * Connection :=
  match ensure_not_poisoned c with
  | (Ok _, c) =>
      let c := set_flushed false c in
      match arith_u oc 64 (packet_size (c_ctx c) - HEADER_BYTES) with
      | Ok packet_size =>
          match item [] with
          | (Ok _, payload) =>
              let c := set_poisoned true c in
              match write_message oc (length payload) h payload (Z.to_nat packet_size) script c with
              | (Finished (Ok _), script, c) =>
                  match flush_sink script c with
                  | (Finished (Ok _), script, c) => (Finished (Ok tt), script, set_poisoned false c)
                  | r => r
                  end
              | r => r
              end
          | (Err e, _) => (Finished (Err e), script, c)
          | (Panic, _) => (Finished Panic, script, c)
          | (OutOfFuel, _) => (Finished OutOfFuel, script, c)
          end
      | _ => (Finished Panic, script, c)
      end
  | (r, c) => (Finished r, script, c)
  end.

(** The write of [cancel_request]: the guard, an empty Attention packet, the
    flush.  (The drain that follows is [flush_done_attention].) *)
Definition send_attention (oc : bool) (script : list Await) (c : Connection) : Outcome unit * list Await * Connection :=
  match ensure_not_poisoned c with
  | (Ok _, c) =>
      let (id, ctx) := next_packet_id (c_ctx c) in
      let c := mkConnection (c_in c) (c_out c) (c_flushed c) ctx (c_buf c) true (c_desync c) in
      match write_to_wire oc (header_attention id) [] script c with
      | (Finished (Ok _), script, c) =>
          match flush_sink script c with
          | (Finished (Ok _), script, c) => (Finished (Ok tt), script, set_poisoned false c)
          | r => r
          end
      | r => r
      end
  | (r, c) => (Finished r, script, c)
  end.

(** [frame_sensitive_login]: the frames of a login, built outside the shared
    buffers; [offset] as in the source, with the frames so far to the left. *)
Fixpoint frame_sensitive_login (fuel : nat) (h : PacketHeader) (payload : bytes) (offset size : nat)
    : Res (list bytes) :=
  if (length payload <=? offset)%nat then Ok []
  else match fuel with
       | O => OutOfFuel
       | S fuel =>
           let end_ := Nat.min (length payload) (offset + size) in
           let status := if (end_ =? length payload)%nat then PacketStatus.EndOfMessage else PacketStatus.NormalMessage in
           match (header_encode (set_status status h) ;; put_slice (take (end_ - offset) (drop offset payload)) ;;
                  (fun frame => patch 2 (be_bytes 2 (wrap 16 (len frame))) frame)) [] with
           | (Ok _, frame) => res_map (cons frame) (frame_sensitive_login fuel h payload end_ size)
           | (Err e, _) => Err e
           | (Panic, _) => Panic
           | (OutOfFuel, _) => OutOfFuel
           end
       end.

(** The [write_all] loop of [send_sensitive_login]. *)
Fixpoint write_frames (frames : list bytes) (script : list Await) (c : Connection) : Outcome unit * list Await * Connection :=
  match frames with
  | [] => (Finished (Ok tt), script, c)
  | frame :: frames =>
      let (a, script) := next_await script in
      match a with
      | Completes => write_frames frames script (set_out (c_out c ++ frame) c)
      | Fails e k => (Finished (Err (Io e)), script, set_out (c_out c ++ take k frame) c)
      | Dropped k => (Abandoned, script, set_out (c_out c ++ take k frame) c)
      end
  end.

(** [Connection::send_sensitive_login] *)
Definition send_sensitive_login (oc : bool) (h : PacketHeader) (payload : bytes) (script : list Await) (c : Connection)
    : Outcome unit * list Await * Connection :=
  match ensure_not_poisoned c with
  | (Ok _, c) =>
      let c := set_flushed false c in
      match arith_u oc 64 (packet_size (c_ctx c) - HEADER_BYTES) with
      | Ok packet_size =>
          match frame_sensitive_login (length payload) h payload 0 (Z.to_nat packet_size) with
          | Ok frames =>
              let c := set_poisoned true c in
              match write_frames frames script c with
              | (Finished (Ok _), script, c) =>
                  match flush_sink script c with
                  | (Finished (Ok _), script, c) => (Finished (Ok tt), script, set_poisoned false c)
                  | r => r
                  end
              | r => r
              end
          | r => (Finished (res_map (fun _ => tt) r), script, c)
          end
      | _ => (Finished Panic, script, c)
      end
  | (r, c) => (Finished r, script, c)
  end.

(** ** Lemmas: reading *)

(** A packet as a server frames it. *)
Definition wire_packet (p : Packet) : Prop :=
  wf_header (p_header p) /\ h_length (p_header p) = len (p_payload p) + HEADER_BYTES.
Definition raw (p : Packet) : bytes := header_bytes (p_header p) ++ p_payload p.
Definition raws (ps : list Packet) : bytes := concat (map raw ps).

Lemma next_packet_cons p ps rest c : wire_packet p -> c_in c = raws (p :: ps) ++ rest ->
  next_packet c = (Ok (Some p), set_flushed (is_last p) (set_in (raws ps ++ rest) c)).
Proof.
  intros [Hw Hl] E. unfold next_packet, codec_decode_eof. rewrite E. cbn [raws map concat]. rewrite <- app_assoc.
  unfold raw. rewrite (decodes_packet _ _ Hw Hl). destruct p; reflexivity.
Qed.

Lemma next_packet_nil c : c_in c = [] -> next_packet c = (Ok None, set_in [] c).
Proof. intros E. unfold next_packet. rewrite E. reflexivity. Qed.

Lemma length_raws ps : (length ps <= length (raws ps))%nat.
Proof.
  induction ps as [|p ps IH]; [cbn; lia|]. cbn [raws map concat]. unfold raw at 1.
  rewrite !length_app, length_header_bytes. unfold raws in IH. cbn [length]. lia.
Qed.

(** The bytes a connection still has to deliver: its buffer and the payloads
    of the packets on the wire. *)
Definition framed (ps : list Packet) (c : Connection) : Prop := Forall wire_packet ps /\ c_in c = raws ps.
Definition stream_of (ps : list Packet) (c : Connection) : bytes := c_buf c ++ concat (map p_payload ps).

Lemma fill_spec fuel : forall ps c n, framed ps c -> (length ps < fuel)%nat -> (length (c_buf c) < n)%nat ->
  exists ps' c', fill fuel n c = (Ok tt, c') /\ framed ps' c' /\ stream_of ps' c' = stream_of ps c /\
    ((n <= length (c_buf c'))%nat \/ ps' = []).
Proof.
  induction fuel as [|fuel IH]; intros ps c n [Fp Fi] Hf Hn; [lia|]. cbn [fill]. destruct ps as [|p ps].
  - rewrite next_packet_nil by exact Fi. eexists [], _. split; [reflexivity|]. split; [split; [constructor|reflexivity]|].
    split; [reflexivity|auto].
  - inversion_clear Fp as [|? ? Hp Fp']. rewrite (next_packet_cons p ps [] c Hp) by (rewrite app_nil_r; exact Fi).
    rewrite app_nil_r. set (c1 := set_buf _ _).
    assert (F1 : framed ps c1) by (split; [exact Fp'|reflexivity]).
    assert (S1 : stream_of ps c1 = stream_of (p :: ps) c) by (unfold stream_of, c1; cbn; rewrite <- app_assoc; reflexivity).
    destruct (Nat.leb_spec n (length (c_buf c1))).
    + exists ps, c1. auto.
    + destruct (IH ps c1 n F1 ltac:(cbn in Hf; lia) ltac:(lia)) as (ps' & c' & E & F' & S' & O).
      exists ps', c'. split; [exact E|]. split; [exact F'|]. split; [congruence|exact O].
Qed.

Lemma drain_spec fuel : forall ps last rest c, Forall wire_packet ps -> Forall (fun p => is_last p = false) ps ->
  wire_packet last -> is_last last = true -> c_in c = raws (ps ++ [last]) ++ rest -> (length ps < fuel)%nat ->
  exists c', drain fuel c = (Ok tt, c') /\ c' = set_flushed true (set_in rest c).
Proof.
  induction fuel as [|fuel IH]; intros ps last rest c Fp Fn Hl Hlast E Hf; [lia|]. cbn [drain].
  destruct ps as [|p ps].
  - cbn [app] in E. rewrite (next_packet_cons last [] rest c Hl E), Hlast. eexists. split; reflexivity.
  - inversion_clear Fp as [|? ? Hp Fp']. inversion_clear Fn as [|? ? Hn Fn'].
    change ((p :: ps) ++ [last]) with (p :: (ps ++ [last])) in E.
    rewrite (next_packet_cons p (ps ++ [last]) rest c Hp E), Hn.
    destruct (IH ps last rest (set_flushed false (set_in (raws (ps ++ [last]) ++ rest) c)) Fp' Fn' Hl Hlast eq_refl
      ltac:(cbn in Hf; lia)) as (c' & E' & ->). eexists. split; [exact E'|reflexivity].
Qed.

(** ** Lemmas: writing *)

(** The packets of a message. *)
Fixpoint message_packets (fuel : nat) (h : PacketHeader) (payload : bytes) (size : nat) : list Packet :=
  match payload with
  | [] => []
  | _ =>
      match fuel with
      | O => []
      | S fuel =>
          let writable := Nat.min (length payload) size in
          let rest := drop writable payload in
          mkPacket (set_status (match rest with [] => PacketStatus.EndOfMessage | _ => PacketStatus.NormalMessage end) h)
            (take writable payload) :: message_packets fuel h rest size
      end
  end.

Definition message (h : PacketHeader) (payload : bytes) (size : nat) : bytes :=
  concat (map packet_bytes (message_packets (length payload) h payload size)).

(** What a write may leave alone. *)
Definition same_but_out (c c' : Connection) : Prop :=
  c_in c' = c_in c /\ c_ctx c' = c_ctx c /\ c_buf c' = c_buf c /\ c_poisoned c' = c_poisoned c /\ c_desync c' = c_desync c.

Lemma write_to_wire_spec oc h data script c : len data <= max_payload ->
  exists o s' c', write_to_wire oc h data script c = (o, s', c') /\ same_but_out c c' /\
    exists w, c_out c' = c_out c ++ w /\ prefix w (packet_bytes (mkPacket h data)) /\
      match o with
      | Finished (Ok _) => w = packet_bytes (mkPacket h data)
      | Finished (Err (Io _)) | Abandoned => True
      | _ => False
      end.
Proof.
  intros H. unfold write_to_wire. rewrite packet_encode_empty by exact H.
  destruct (next_await script) as [[|e k|k] s']; (do 3 eexists; split; [reflexivity|]; split; [repeat split|]).
  - eexists. split; [reflexivity|]. split; [exists []; symmetry; apply app_nil_r|reflexivity].
  - eexists. split; [reflexivity|]. split; [apply prefix_take|exact I].
  - eexists. split; [reflexivity|]. split; [apply prefix_take|exact I].
Qed.

Lemma same_trans a b c : same_but_out a b -> same_but_out b c -> same_but_out a c.
Proof. unfold same_but_out. intuition congruence. Qed.

Lemma write_message_spec oc fuel : forall h payload size script c,
  (0 < size)%nat -> Z.of_nat size <= max_payload -> (length payload <= fuel)%nat ->
  exists o s' c', write_message oc fuel h payload size script c = (o, s', c') /\ same_but_out c c' /\
    exists w, c_out c' = c_out c ++ w /\ prefix w (concat (map packet_bytes (message_packets fuel h payload size))) /\
      match o with
      | Finished (Ok _) => w = concat (map packet_bytes (message_packets fuel h payload size))
      | Finished (Err (Io _)) | Abandoned => True
      | _ => False
      end.
Proof.
  induction fuel as [|fuel IH]; intros h payload size script c Hs Hm Hf.
  - destruct payload; [|cbn in Hf; lia]. do 3 eexists. split; [reflexivity|]. split; [repeat split|].
    exists []. cbn. rewrite app_nil_r. auto.
  - destruct payload as [|b payload'].
    { do 3 eexists. split; [reflexivity|]. split; [repeat split|]. exists []. cbn. rewrite app_nil_r. auto. }
    set (payload := b :: payload') in *. cbn [write_message message_packets]. fold payload.
    set (wr := Nat.min (length payload) size). assert (Hl : (1 <= length payload)%nat) by (unfold payload; cbn; lia).
    set (st := match drop wr payload with [] => _ | _ => _ end).
    destruct (write_to_wire_spec oc (set_status st h) (take wr payload) script c) as (o & s1 & c1 & E & Sm & w & Ew & Pw & Ow).
    { rewrite length_take. lia. }
    rewrite E. cbn [map concat]. set (p := mkPacket (set_status st h) (take wr payload)) in *.
    destruct o as [[[]|e| |]|]; try contradiction.
    + destruct (IH h (drop wr payload) size s1 c1 Hs Hm ltac:(rewrite length_drop; lia))
        as (o2 & s2 & c2 & E2 & Sm2 & w2 & Ew2 & Pw2 & Ow2).
      rewrite E2. do 3 eexists. split; [reflexivity|]. split; [eapply same_trans; eauto|].
      exists (w ++ w2). rewrite Ew2, Ew, <- app_assoc. split; [reflexivity|]. rewrite Ow in *. split; [apply prefix_app, Pw2|].
      destruct o2 as [[[]|[]| |]|]; try exact Ow2; try exact I. rewrite Ow2. reflexivity.
    + do 3 eexists. split; [reflexivity|]. split; [exact Sm|]. exists w. split; [exact Ew|].
      split; [apply prefix_app_r, Pw|]. destruct e; try contradiction. exact I.
    + do 3 eexists. split; [reflexivity|]. split; [exact Sm|]. exists w. split; [exact Ew|].
      split; [apply prefix_app_r, Pw|exact I].
Qed.

Lemma message_packets_step fuel h payload size : payload <> [] ->
  message_packets (S fuel) h payload size =
    let wr := Nat.min (length payload) size in
    mkPacket (set_status (match drop wr payload with [] => PacketStatus.EndOfMessage | _ => PacketStatus.NormalMessage end) h)
      (take wr payload) :: message_packets fuel h (drop wr payload) size.
Proof. destruct payload; [congruence|reflexivity]. Qed.

(** The packets of a message carry its payload in order, each full but the
    last, and only the last ends the message. *)
Lemma message_packets_spec fuel : forall h payload size, (0 < size)%nat -> (length payload <= fuel)%nat ->
  concat (map p_payload (message_packets fuel h payload size)) = payload /\
  collect_payloads (message_packets fuel h payload size) = payload /\
  Forall (fun p => (0 < length (p_payload p) <= size)%nat /\ h_type (p_header p) = h_type h)
    (message_packets fuel h payload size) /\
  (payload <> [] -> exists ps last, message_packets fuel h payload size = ps ++ [last] /\
     Forall (fun p => is_last p = false /\ length (p_payload p) = size) ps /\ is_last last = true).
Proof.
  induction fuel as [|fuel IH]; intros h payload size Hs Hf.
  - destruct payload; [|cbn in Hf; lia]. repeat split; try constructor. congruence.
  - destruct (decide (payload = [])) as [->|Hne]; [repeat split; try constructor; congruence|].
    rewrite message_packets_step by exact Hne. cbn zeta. set (wr := Nat.min (length payload) size).
    assert (Hl : (1 <= length payload)%nat) by (destruct payload; [congruence|cbn; lia]).
    destruct (IH h (drop wr payload) size Hs ltac:(rewrite length_drop; lia)) as (I1 & I2 & I3 & I4).
    cbn [map concat collect_payloads p_payload]. rewrite I1, I2. split; [apply take_drop|].
    split; [|split].
    + destruct (drop wr payload) as [|x r] eqn:Ed.
      * change (take wr payload ++ [] = payload). rewrite <- Ed. apply take_drop.
      * change (take wr payload ++ (x :: r) = payload). rewrite <- Ed. apply take_drop.
    + constructor; [|exact I3]. cbn. rewrite length_take. split; [lia|reflexivity].
    + intros _. destruct (drop wr payload) as [|x r] eqn:Ed.
      * exists [], (mkPacket (set_status PacketStatus.EndOfMessage h) (take wr payload)).
        split; [destruct fuel; reflexivity|]. split; [apply List.Forall_nil|reflexivity].
      * destruct I4 as (ps & last & E & F & L); [discriminate|]. rewrite E. eexists (_ :: ps), last.
        split; [reflexivity|]. split; [|exact L]. constructor; [|exact F]. cbn. split; [reflexivity|].
        rewrite length_take. assert (0 < length (drop wr payload))%nat by (rewrite Ed; cbn; lia).
        rewrite length_drop in *. lia.
Qed.

(** The frames of [frame_sensitive_login] are the packets of [send]. *)
Lemma login_frame h data : len data <= max_payload ->
  (header_encode h ;; put_slice data ;; (fun frame => patch 2 (be_bytes 2 (wrap 16 (len frame))) frame)) []
  = (Ok tt, packet_bytes (mkPacket h data)).
Proof.
  intros H. rewrite <- (packet_encode_empty true) by exact H. unfold packet_encode. cbn [p_payload p_header].
  unfold max_payload, HEADER_BYTES in *. rewrite (wrap_small 16 (len data)) by (unfold in_unsigned; lia).
  rewrite arith_u_in by (unfold in_unsigned; lia). rewrite (bind_ok (lift (Ok _)) _ [] _ [] eq_refl).
  rewrite !(bind_ok _ _ _ _ _ (appends_header h [])).
  rewrite !(bind_ok _ _ _ _ _ (appends_put_slice data _)). cbn [app].
  rewrite length_app, length_header_bytes. do 3 f_equal. rewrite wrap_small by (unfold in_unsigned; lia). lia.
Qed.

Lemma frame_sensitive_spec fuel : forall h payload offset size, (0 < size)%nat -> Z.of_nat size <= max_payload ->
  (length payload - offset <= fuel)%nat -> (offset <= length payload)%nat ->
  frame_sensitive_login fuel h payload offset size =
    Ok (map packet_bytes (message_packets fuel h (drop offset payload) size)).
Proof.
  induction fuel as [|fuel IH]; intros h payload offset size Hs Hm Hf Ho; cbn [frame_sensitive_login].
  - rewrite (proj2 (Nat.leb_le _ _)) by lia. rewrite drop_ge by lia. reflexivity.
  - destruct (Nat.leb_spec (length payload) offset); [rewrite drop_ge by lia; reflexivity|].
    set (e := Nat.min (length payload) (offset + size)).
    assert (Ld : length (drop offset payload) = (length payload - offset)%nat) by apply length_drop.
    rewrite login_frame by (rewrite length_take, Ld; unfold e; lia).
    rewrite IH by (unfold e; lia). cbn [res_map]. f_equal.
    assert (Ew : Nat.min (length (drop offset payload)) size = (e - offset)%nat) by (unfold e; lia).
    rewrite message_packets_step by (intros Hn; rewrite Hn in Ld; cbn in Ld; lia). cbn zeta. rewrite Ew, drop_drop.
    replace (offset + (e - offset))%nat with e by (unfold e; lia). cbn [map]. do 4 f_equal.
    destruct (Nat.eqb_spec e (length payload)) as [Ee|Ee].
    + rewrite Ee, drop_ge by lia. reflexivity.
    + destruct (drop e payload) eqn:De; [|reflexivity]. apply (f_equal length) in De. rewrite length_drop in De.
      cbn in De. unfold e in *. lia.
Qed.

(** ** The wire is never torn *)

(** A whole message: the packets of a payload, or an Attention. *)
Inductive whole : bytes -> Prop :=
| whole_message h payload size : (0 < size)%nat -> Z.of_nat size <= max_payload -> whole (message h payload size)
| whole_attention id : whole (packet_bytes (mkPacket (header_attention id) [])).

(** Everything written so far: whole messages, and at most a part of one more
    message, which only a poisoned connection has. *)
Definition wire_inv (c : Connection) : Prop :=
  exists msgs m part, Forall whole msgs /\ whole m /\ prefix part m /\ c_out c = concat msgs ++ part /\
    (c_poisoned c = false -> part = []).

Definition set_ctx (ctx : Context) (c : Connection) : Connection :=
  mkConnection (c_in c) (c_out c) (c_flushed c) ctx (c_buf c) (c_poisoned c) (c_desync c).
Definition set_desync (c : Connection) : Connection :=
  mkConnection (c_in c) (c_out c) (c_flushed c) (c_ctx c) (c_buf c) (c_poisoned c) true.

(** One use of the connection: a message or an Attention is sent, with any
    header, item and script; a read; a flush; a change of the session state by
    the token stream; a command timeout. *)
Inductive conn_step (oc : bool) : Connection -> Connection -> Prop :=
| step_send h item script o s' c c' : send oc h item script c = (o, s', c') -> conn_step oc c c'
| step_login h payload script o s' c c' : send_sensitive_login oc h payload script c = (o, s', c') -> conn_step oc c c'
| step_attention script o s' c c' : send_attention oc script c = (o, s', c') -> conn_step oc c c'
| step_read n r c c' : poll_read n c = (r, c') -> conn_step oc c c'
| step_flush r c c' : flush_stream c = (r, c') -> conn_step oc c c'
| step_context ctx c : wf_context ctx -> conn_step oc c (set_ctx ctx c)
| step_timeout c : conn_step oc c (set_desync c).

Inductive conn_steps (oc : bool) : Connection -> Connection -> Prop :=
| steps_nil c : conn_steps oc c c
| steps_cons c1 c2 c3 : conn_steps oc c1 c2 -> conn_step oc c2 c3 -> conn_steps oc c1 c3.

(** Reading writes nothing. *)
Definition keeps_out (c c' : Connection) : Prop :=
  c_out c' = c_out c /\ c_ctx c' = c_ctx c /\ (c_poisoned c = true -> c_poisoned c' = true).

Lemma keeps_trans a b c : keeps_out a b -> keeps_out b c -> keeps_out a c.
Proof. unfold keeps_out. intuition congruence. Qed.

Lemma next_packet_keeps c r c' : next_packet c = (r, c') -> keeps_out c c'.
Proof.
  unfold next_packet. destruct (codec_decode_eof (c_in c)) as [[[p|]|e| |] rest]; intros [= _ <-]; repeat split; auto.
Qed.

Lemma fill_keeps fuel : forall n c r c', fill fuel n c = (r, c') -> keeps_out c c'.
Proof.
  induction fuel as [|fuel IH]; intros n c r c'; cbn [fill]; [intros [= _ <-]; repeat split; auto|].
  destruct (next_packet c) as [[[p|]|e| |] c1] eqn:E; apply next_packet_keeps in E;
    try (intros [= _ <-]; exact E).
  assert (K : keeps_out c (set_buf (c_buf c1 ++ p_payload p) c1)) by exact E.
  destruct (n <=? _)%nat; [intros [= _ <-]; exact K|]. intros H. apply IH in H. eapply keeps_trans; eauto.
Qed.

Lemma poll_read_keeps n c r c' : poll_read n c = (r, c') -> keeps_out c c'.
Proof.
  unfold poll_read. destruct (_ <? n)%nat; [|intros [= _ <-]; repeat split; auto].
  rewrite bind_run. destruct (fill _ n c) as [[[]|e| |] c1] eqn:E; apply fill_keeps in E; try (intros [= _ <-]; exact E).
  destruct (_ <? n)%nat; intros [= _ <-]; exact E.
Qed.

Lemma drain_keeps fuel : forall c r c', drain fuel c = (r, c') -> keeps_out c c'.
Proof.
  induction fuel as [|fuel IH]; intros c r c'; cbn [drain]; [intros [= _ <-]; repeat split; auto|].
  destruct (next_packet c) as [[[p|]|e| |] c1] eqn:E; apply next_packet_keeps in E; try (intros [= _ <-]; exact E).
  - destruct (is_last p); [intros [= _ <-]; exact E|]. intros H. apply IH in H. eapply keeps_trans; eauto.
  - intros [= _ <-]. destruct E as (E1 & E2 & _). repeat split; auto.
Qed.

Lemma ensure_cases c : ensure_not_poisoned c = (Ok tt, c) /\ c_poisoned c = false /\ c_desync c = false \/
  exists m, ensure_not_poisoned c = (Err (Protocol m), c).
Proof. unfold ensure_not_poisoned. destruct (c_poisoned c), (c_desync c); eauto. Qed.

Lemma flush_stream_keeps c r c' : flush_stream c = (r, c') -> keeps_out c c'.
Proof.
  unfold flush_stream. rewrite bind_run.
  destruct (ensure_cases c) as [(-> & _)|(m & ->)]; [|intros [= _ <-]; repeat split; auto].
  destruct (c_flushed _); [intros [= _ <-]; repeat split; auto|]. intros H. apply drain_keeps in H. exact H.
Qed.

Lemma wire_inv_same c c' : c_out c' = c_out c -> (c_poisoned c = true -> c_poisoned c' = true) ->
  wire_inv c -> wire_inv c'.
Proof.
  intros E P (msgs & m & part & H1 & H2 & H3 & H4 & H5). exists msgs, m, part. rewrite E.
  repeat split; auto. intros Hf. apply H5. destruct (c_poisoned c); [rewrite P in Hf by reflexivity; exact Hf|reflexivity].
Qed.

Lemma wire_inv_keeps c c' : keeps_out c c' -> wire_inv c -> wire_inv c'.
Proof. intros (E & _ & P). apply wire_inv_same; assumption. Qed.

(** A clean connection that writes a prefix [w] of a whole message [m]. *)
Lemma wire_inv_write c c' m w : wire_inv c -> c_poisoned c = false -> whole m -> prefix w m -> c_out c' = c_out c ++ w ->
  (c_poisoned c' = false -> w = m) -> wire_inv c'.
Proof.
  intros (msgs & m0 & part & H1 & H2 & H3 & H4 & H5) Hc Hm Hw E Hp. rewrite (H5 Hc), app_nil_r in H4.
  destruct (c_poisoned c') eqn:P.
  - exists msgs, m, w. rewrite E, H4. repeat split; auto. rewrite P. discriminate.
  - rewrite (Hp eq_refl) in E. exists (msgs ++ [m]), m, []. split; [apply Forall_app; auto|]. split; [exact Hm|].
    split; [apply prefix_nil|]. split; [|reflexivity].
    rewrite E, H4, concat_app. cbn. rewrite !app_nil_r. reflexivity.
Qed.

(** What the last step of a send does with the poison. *)
Lemma flush_sink_cases script c :
  (exists s', flush_sink script c = (Finished (Ok tt), s', c)) \/
  (exists o s', flush_sink script c = (o, s', c) /\ match o with Finished (Err (Io _)) | Abandoned => True | _ => False end).
Proof.
  unfold flush_sink. destruct (next_await script) as [[|e k|k] s']; [left; eauto|right|right];
    do 2 eexists; (split; [reflexivity|exact I]).
Qed.

Lemma packet_room ctx : wf_context ctx ->
  (0 < Z.to_nat (packet_size ctx - HEADER_BYTES))%nat /\ Z.of_nat (Z.to_nat (packet_size ctx - HEADER_BYTES)) <= max_payload /\
  forall oc, arith_u oc 64 (packet_size ctx - HEADER_BYTES) = Ok (packet_size ctx - HEADER_BYTES).
Proof.
  intros W. pose proof (wf_packet_size _ W) as H. unfold MIN_PACKET_SIZE, MAX_PACKET_SIZE, max_payload, HEADER_BYTES in *.
  split; [lia|]. split; [lia|]. intros oc. apply arith_u_in. unfold in_unsigned. lia.
Qed.

(** The outcomes of [send] on a usable connection. *)
Lemma send_spec oc h item script c : wf_context (c_ctx c) -> c_poisoned c = false -> c_desync c = false ->
  exists o s' c', send oc h item script c = (o, s', c') /\ c_ctx c' = c_ctx c /\
    match item [] with
    | (Ok _, payload) =>
        let m := message h payload (Z.to_nat (packet_size (c_ctx c) - HEADER_BYTES)) in
        exists w, c_out c' = c_out c ++ w /\ prefix w m /\
          match o with
          | Finished (Ok _) => w = m /\ c_poisoned c' = false
          | Finished (Err (Io _)) | Abandoned => c_poisoned c' = true
          | _ => False
          end
    | (r, _) => o = Finished (res_map (fun _ => tt) r) /\ c_out c' = c_out c /\ c_poisoned c' = false
    end.
Proof.
  intros W P D. unfold send, ensure_not_poisoned. rewrite P, D.
  destruct (packet_room _ W) as (R1 & R2 & R3). cbn [c_ctx set_flushed]. rewrite R3.
  destruct (item []) as [[u|e| |] payload]; try (do 3 eexists; split; [reflexivity|]; split; [reflexivity|]; repeat split; auto; fail).
  cbn zeta. set (size := Z.to_nat _) in *. set (c1 := set_poisoned true (set_flushed false c)).
  destruct (write_message_spec oc (length payload) h payload size script c1 R1 R2 (le_n _))
    as (o & s1 & c2 & E & (S1 & S2 & S3 & S4 & S5) & w & Ew & Pw & Ow). rewrite E.
  change (c_out c1) with (c_out c) in Ew. change (c_poisoned c1) with true in S4. change (c_ctx c1) with (c_ctx c) in S2.
  fold (message h payload size) in Pw, Ow.
  destruct o as [[[]|e| |]|]; try contradiction.
  - destruct (flush_sink_cases s1 c2) as [(s2 & ->)|(o2 & s2 & -> & Ho)].
    + do 3 eexists. split; [reflexivity|]. split; [exact S2|]. exists w. repeat split; auto.
    + destruct o2 as [[[]|[]| |]|]; try contradiction; (do 3 eexists; split; [reflexivity|]; split; [exact S2|]; exists w; auto).
  - destruct e; try contradiction. do 3 eexists. split; [reflexivity|]. split; [exact S2|]. exists w. auto.
  - do 3 eexists. split; [reflexivity|]. split; [exact S2|]. exists w. auto.
Qed.

Lemma write_frames_spec frames : forall script c,
  exists o s' c', write_frames frames script c = (o, s', c') /\ same_but_out c c' /\
    exists w, c_out c' = c_out c ++ w /\ prefix w (concat frames) /\
      match o with
      | Finished (Ok _) => w = concat frames
      | Finished (Err (Io _)) | Abandoned => True
      | _ => False
      end.
Proof.
  induction frames as [|f fs IH]; intros script c; cbn [write_frames concat].
  - do 3 eexists. split; [reflexivity|]. split; [repeat split|]. exists []. rewrite app_nil_r. auto.
  - destruct (next_await script) as [[|e k|k] s1].
    + destruct (IH s1 (set_out (c_out c ++ f) c)) as (o & s2 & c2 & E & Sm & w & Ew & Pw & Ow).
      rewrite E. do 3 eexists. split; [reflexivity|]. split; [exact Sm|]. exists (f ++ w).
      rewrite Ew. cbn [c_out set_out]. rewrite <- app_assoc. split; [reflexivity|]. split; [apply prefix_app, Pw|].
      destruct o as [[[]|[]| |]|]; try exact Ow; try exact I. rewrite Ow. reflexivity.
    + do 3 eexists. split; [reflexivity|]. split; [repeat split|]. eexists. split; [reflexivity|].
      split; [apply prefix_app_r, prefix_take|exact I].
    + do 3 eexists. split; [reflexivity|]. split; [repeat split|]. eexists. split; [reflexivity|].
      split; [apply prefix_app_r, prefix_take|exact I].
Qed.

Lemma send_sensitive_spec oc h payload script c : wf_context (c_ctx c) -> c_poisoned c = false -> c_desync c = false ->
  exists o s' c', send_sensitive_login oc h payload script c = (o, s', c') /\ c_ctx c' = c_ctx c /\
    exists w, let m := message h payload (Z.to_nat (packet_size (c_ctx c) - HEADER_BYTES)) in
      c_out c' = c_out c ++ w /\ prefix w m /\
      match o with
      | Finished (Ok _) => w = m /\ c_poisoned c' = false
      | Finished (Err (Io _)) | Abandoned => c_poisoned c' = true
      | _ => False
      end.
Proof.
  intros W P D. unfold send_sensitive_login, ensure_not_poisoned. rewrite P, D.
  destruct (packet_room _ W) as (R1 & R2 & R3). cbn [c_ctx set_flushed]. rewrite R3.
  set (size := Z.to_nat _) in *. rewrite (frame_sensitive_spec (length payload) h payload 0 size R1 R2) by lia.
  rewrite drop_0. cbn zeta. fold (message h payload size).
  set (c1 := set_poisoned true (set_flushed false c)).
  destruct (write_frames_spec (map packet_bytes (message_packets (length payload) h payload size)) script c1)
    as (o & s1 & c2 & E & (_ & S2 & _ & S4 & _) & w & Ew & Pw & Ow). rewrite E.
  change (c_out c1) with (c_out c) in Ew. change (c_poisoned c1) with true in S4. change (c_ctx c1) with (c_ctx c) in S2.
  fold (message h payload size) in Pw, Ow.
  destruct o as [[[]|e| |]|]; try contradiction.
  - destruct (flush_sink_cases s1 c2) as [(s2 & ->)|(o2 & s2 & -> & Ho)].
    + do 3 eexists. split; [reflexivity|]. split; [exact S2|]. exists w. repeat split; auto.
    + destruct o2 as [[[]|[]| |]|]; try contradiction; (do 3 eexists; split; [reflexivity|]; split; [exact S2|]; exists w; auto).
  - destruct e; try contradiction. do 3 eexists. split; [reflexivity|]. split; [exact S2|]. exists w. auto.
  - do 3 eexists. split; [reflexivity|]. split; [exact S2|]. exists w. auto.
Qed.

Lemma send_attention_spec oc script c : c_poisoned c = false -> c_desync c = false ->
  exists o s' c', send_attention oc script c = (o, s', c') /\ c_ctx c' = snd (next_packet_id (c_ctx c)) /\
    exists w, let m := packet_bytes (mkPacket (header_attention (packet_id (c_ctx c))) []) in
      c_out c' = c_out c ++ w /\ prefix w m /\
      match o with
      | Finished (Ok _) => w = m /\ c_poisoned c' = false
      | Finished (Err (Io _)) | Abandoned => c_poisoned c' = true
      | _ => False
      end.
Proof.
  intros P D. unfold send_attention, ensure_not_poisoned. rewrite P, D. cbn [next_packet_id fst snd].
  set (id := packet_id (c_ctx c)). set (c1 := mkConnection _ _ _ _ _ _ _).
  destruct (write_to_wire_spec oc (header_attention id) [] script c1) as (o & s1 & c2 & E & (_ & S2 & _ & S4 & _) & w & Ew & Pw & Ow).
  { vm_compute. discriminate. }
  rewrite E. cbn zeta. change (c_poisoned c1) with true in S4. change (c_out c1) with (c_out c) in Ew.
  destruct o as [[[]|e| |]|]; try contradiction.
  - destruct (flush_sink_cases s1 c2) as [(s2 & ->)|(o2 & s2 & -> & Ho)].
    + do 3 eexists. split; [reflexivity|]. split; [exact S2|]. exists w. repeat split; auto.
    + destruct o2 as [[[]|[]| |]|]; try contradiction; (do 3 eexists; split; [reflexivity|]; split; [exact S2|]; exists w; auto).
  - destruct e; try contradiction. do 3 eexists. split; [reflexivity|]. split; [exact S2|]. exists w. auto.
  - do 3 eexists. split; [reflexivity|]. split; [exact S2|]. exists w. auto.
Qed.

(** A connection that is poisoned or out of sync writes nothing. *)
Lemma dead_send oc h item script c : c_poisoned c || c_desync c = true ->
  exists m, send oc h item script c = (Finished (Err (Protocol m)), script, c) /\
            (forall h' p, send_sensitive_login oc h' p script c = (Finished (Err (Protocol m)), script, c)) /\
            send_attention oc script c = (Finished (Err (Protocol m)), script, c) /\
            flush_stream c = (Err (Protocol m), c).
Proof.
  intros H. unfold send, send_attention, send_sensitive_login, flush_stream, ensure_not_poisoned, bind.
  destruct (c_poisoned c); [eexists; repeat split|]. destruct (c_desync c); [eexists; repeat split|discriminate].
Qed.

Lemma usable_cases c : c_poisoned c || c_desync c = true \/ c_poisoned c = false /\ c_desync c = false.
Proof. destruct (c_poisoned c), (c_desync c); auto. Qed.

Lemma conn_step_inv oc c c' : conn_step oc c c' -> wf_context (c_ctx c) /\ wire_inv c -> wf_context (c_ctx c') /\ wire_inv c'.
Proof.
  intros H [W I]. destruct H as [h item script o s' c c' E|h payload script o s' c c' E|script o s' c c' E|n r c c' E|r c c' E|ctx c Wc|c].
  - destruct (usable_cases c) as [Hd|[P D]].
    + destruct (dead_send oc h item script c Hd) as (m & E1 & _). rewrite E in E1. injection E1 as _ _ ->. auto.
    + destruct (send_spec oc h item script c W P D) as (o' & s2 & c2 & E2 & Ec & X). rewrite E in E2. injection E2 as <- <- <-.
      rewrite Ec. split; [exact W|]. destruct (item []) as [[u|e| |] payload];
        try (destruct X as (_ & X1 & X2); apply (wire_inv_keeps c); [|exact I]; repeat split; auto; congruence).
      destruct X as (w & X1 & X2 & X3). destruct (packet_room _ W) as (R1 & R2 & _).
      apply (wire_inv_write c c' _ w I P (whole_message h payload _ R1 R2) X2 X1).
      intros Hp. destruct o as [[[]|[]| |]|]; try contradiction; try congruence. apply X3.
  - destruct (usable_cases c) as [Hd|[P D]].
    + destruct (dead_send oc h (ret tt) script c Hd) as (m & _ & E1 & _). rewrite E1 in E. injection E as _ _ ->. auto.
    + destruct (send_sensitive_spec oc h payload script c W P D) as (o' & s2 & c2 & E2 & Ec & w & X1 & X2 & X3).
      rewrite E in E2. injection E2 as <- <- <-. rewrite Ec. split; [exact W|].
      destruct (packet_room _ W) as (R1 & R2 & _).
      apply (wire_inv_write c c' _ w I P (whole_message h payload _ R1 R2) X2 X1).
      intros Hp. destruct o as [[[]|[]| |]|]; try contradiction; try congruence. apply X3.
  - destruct (usable_cases c) as [Hd|[P D]].
    + destruct (dead_send oc (header_batch 0) (ret tt) script c Hd) as (m & _ & _ & E1 & _). rewrite E in E1. injection E1 as _ _ ->. auto.
    + destruct (send_attention_spec oc script c P D) as (o' & s2 & c2 & E2 & Ec & w & X1 & X2 & X3).
      rewrite E in E2. injection E2 as <- <- <-. rewrite Ec. split; [apply wf_next_packet_id, W|].
      apply (wire_inv_write c c' _ w I P (whole_attention _) X2 X1).
      intros Hp. destruct o as [[[]|[]| |]|]; try contradiction; try congruence. apply X3.
  - apply poll_read_keeps in E. split; [|eapply wire_inv_keeps; eauto]. destruct E as (_ & -> & _). exact W.
  - apply flush_stream_keeps in E. split; [|eapply wire_inv_keeps; eauto]. destruct E as (_ & -> & _). exact W.
  - split; [exact Wc|]. apply (wire_inv_same c); auto.
  - split; [exact W|]. apply (wire_inv_same c); auto.
Qed.

Lemma conn_steps_inv oc c c' : conn_steps oc c c' -> wf_context (c_ctx c) /\ wire_inv c -> wf_context (c_ctx c') /\ wire_inv c'.
Proof. induction 1 as [c|c1 c2 c3 _ IH H]; auto. intros I. eapply conn_step_inv; eauto. Qed.

(** The packets a client sends are packets a server can decode. *)
Lemma packet_bytes_raw p : packet_bytes p = raw (mkPacket (set_length (len (p_payload p) + HEADER_BYTES) (p_header p)) (p_payload p)).
Proof. reflexivity. Qed.

(** A packet as it stands on the wire, with the length its header carries there. *)
Definition sent (p : Packet) : Packet := mkPacket (set_length (len (p_payload p) + HEADER_BYTES) (p_header p)) (p_payload p).

Lemma raws_sent ps : concat (map packet_bytes ps) = raws (map sent ps).
Proof. induction ps as [|p ps IH]; [reflexivity|]. cbn [map concat]. rewrite IH. reflexivity. Qed.

Lemma len_raw p : len (raw p) = len (p_payload p) + HEADER_BYTES.
Proof. unfold raw. rewrite length_app, length_header_bytes. unfold HEADER_BYTES. lia. Qed.

Lemma collect_sent ps : collect_payloads (map sent ps) = collect_payloads ps.
Proof. induction ps as [|p ps IH]; [reflexivity|]. cbn [map collect_payloads]. rewrite IH. reflexivity. Qed.

Lemma sent_wire p : wf_header (p_header p) -> len (p_payload p) <= max_payload -> wire_packet (sent p).
Proof.
  intros H L. split; [|reflexivity]. apply set_length_wf; [|exact H].
  unfold in_unsigned, max_payload, HEADER_BYTES in *. lia.
Qed.

Lemma message_packets_wf fuel : forall h payload size, wf_header h ->
  Forall (fun p => wf_header (p_header p)) (message_packets fuel h payload size).
Proof.
  induction fuel as [|fuel IH]; intros h payload size H; destruct payload; try constructor; [exact H|apply IH, H].
Qed.

(** A send whose awaits all complete. *)
Lemma write_message_calm oc fuel : forall h payload size c, (length payload <= fuel)%nat -> (0 < size)%nat ->
  Z.of_nat size <= max_payload -> exists c', write_message oc fuel h payload size [] c = (Finished (Ok tt), [], c').
Proof.
  induction fuel as [|fuel IH]; intros h payload size c Hf Hs Hm; (destruct payload as [|b payload']; [eexists; reflexivity|]);
    [cbn in Hf; lia|].
  set (payload := b :: payload') in *. cbn [write_message]. fold payload. unfold write_to_wire.
  assert (1 <= length payload)%nat by (unfold payload; cbn; lia).
  rewrite packet_encode_empty by (cbn [p_payload]; rewrite ?length_take; lia). cbn [next_await].
  apply IH; auto. rewrite length_drop. lia.
Qed.

Lemma send_undisturbed oc h item payload c : wf_context (c_ctx c) -> c_poisoned c = false -> c_desync c = false ->
  item [] = (Ok tt, payload) ->
  exists c', send oc h item [] c = (Finished (Ok tt), [], c') /\ c_ctx c' = c_ctx c /\ c_poisoned c' = false /\
    c_out c' = c_out c ++ message h payload (Z.to_nat (packet_size (c_ctx c) - HEADER_BYTES)).
Proof.
  intros W P D Hi. destruct (send_spec oc h item [] c W P D) as (o & s' & c' & E & Ec & X).
  destruct (packet_room _ W) as (R1 & R2 & R3).
  rewrite Hi in X. destruct X as (w & X1 & _ & X3).
  assert (O : o = Finished (Ok tt) /\ s' = []).
  { revert E. unfold send, ensure_not_poisoned. rewrite P, D. cbn [c_ctx set_flushed]. rewrite R3, Hi.
    destruct (write_message_calm oc (length payload) h payload _ (set_poisoned true (set_flushed false c)) (le_n _) R1 R2)
      as (c1 & ->). intros [= <- <- _]. auto. }
  destruct O as [-> ->]. destruct X3 as [X3 X4]. rewrite X3 in X1. eauto.
Qed.

(** A write takes nothing from the inbound side. *)
Lemma write_message_in oc fuel : forall h payload size script c o s' c',
  write_message oc fuel h payload size script c = (o, s', c') -> c_in c' = c_in c /\ c_buf c' = c_buf c.
Proof.
  induction fuel as [|fuel IH]; intros h payload size script c o s' c'; (destruct payload as [|b p]; [intros [= _ _ <-]; auto|]);
    cbn [write_message]; [intros [= _ _ <-]; auto|].
  set (w := write_to_wire _ _ _ _ _). assert (W : c_in (snd w) = c_in c /\ c_buf (snd w) = c_buf c).
  { unfold w, write_to_wire. destruct (packet_encode _ _ _) as [[]]; try (cbn; auto; fail).
    destruct (next_await script) as [[] ]; cbn; auto. }
  destruct w as [[[[u|e| |]|] s1] c1]; cbn [snd] in W; try (intros [= _ _ <-]; exact W).
  intros H. apply IH in H. destruct H, W. split; congruence.
Qed.

Lemma send_in oc h item script c o s' c' : send oc h item script c = (o, s', c') -> c_in c' = c_in c /\ c_buf c' = c_buf c.
Proof.
  unfold send. destruct (ensure_cases c) as [(-> & _)|(m & ->)]; [|intros [= _ _ <-]; auto].
  destruct (arith_u _ _ _); try (intros [= _ _ <-]; auto; fail). destruct (item []) as [[u|e| |] payload]; try (intros [= _ _ <-]; auto; fail).
  destruct (write_message _ _ _ _ _ _ _) as [[o1 s1] c1] eqn:E. apply write_message_in in E. cbn [c_in c_buf set_poisoned set_flushed] in E.
  destruct o1 as [[v|e| |]|]; try (intros [= _ _ <-]; exact E). unfold flush_sink. destruct (next_await s1) as [[] ]; intros [= _ _ <-]; exact E.
Qed.

Lemma send_attention_in oc script c o s' c' : send_attention oc script c = (o, s', c') -> c_in c' = c_in c /\ c_buf c' = c_buf c.
Proof.
  unfold send_attention. destruct (ensure_cases c) as [(-> & _)|(m & ->)]; [|intros [= _ _ <-]; auto].
  destruct (next_packet_id (c_ctx c)) as [id ctx]. unfold write_to_wire. destruct (packet_encode _ _ _) as [[u|e| |] b]; try (intros [= _ _ <-]; auto; fail).
  destruct (next_await script) as [[] s1]; try (intros [= _ _ <-]; auto; fail).
  unfold flush_sink. destruct (next_await s1) as [[] ]; intros [= _ _ <-]; auto.
Qed.

(** A send that completes leaves the connection waiting for its response. *)
Lemma write_message_waits oc fuel : forall h payload size script c o s' c',
  write_message oc fuel h payload size script c = (o, s', c') -> c_flushed c = false -> c_flushed c' = false /\ c_desync c' = c_desync c.
Proof.
  induction fuel as [|fuel IH]; intros h payload size script c o s' c'; (destruct payload as [|b p]; [intros [= _ _ <-]; auto|]);
    cbn [write_message]; [intros [= _ _ <-]; auto|].
  set (w := write_to_wire _ _ _ _ _). assert (W : c_flushed (snd w) = false /\ c_desync (snd w) = c_desync c).
  { unfold w, write_to_wire. destruct (packet_encode _ _ _) as [[]]; try (cbn; auto; fail).
    destruct (next_await script) as [[] ]; cbn; auto. }
  destruct w as [[[[u|e| |]|] s1] c1]; cbn [snd] in W; try (intros [= _ _ <-] _; exact W).
  intros H _. apply IH in H as [H1 H2]; [|apply W]. destruct W. split; congruence.
Qed.

Lemma send_waits oc h item script c s' c' : send oc h item script c = (Finished (Ok tt), s', c') ->
  c_flushed c' = false /\ c_poisoned c' = false /\ c_desync c' = c_desync c.
Proof.
  unfold send. destruct (ensure_cases c) as [(-> & _)|(m & ->)]; [|discriminate].
  destruct (arith_u _ _ _); try discriminate. destruct (item []) as [[u|e| |] payload]; try discriminate.
  destruct (write_message _ _ _ _ _ _ _) as [[o1 s1] c1] eqn:E. apply write_message_waits in E as [E1 E2]; [|reflexivity].
  destruct o1 as [[v|e| |]|]; try discriminate. unfold flush_sink. destruct (next_await s1) as [[] ]; try discriminate.
  intros [= _ <-]. auto.
Qed.

Lemma write_frames_calm frames : forall c, exists c', write_frames frames [] c = (Finished (Ok tt), [], c').
Proof. induction frames as [|f fs IH]; intros c; [eexists; reflexivity|]. apply IH. Qed.

Lemma login_undisturbed oc h payload c : wf_context (c_ctx c) -> c_poisoned c = false -> c_desync c = false ->
  exists c', send_sensitive_login oc h payload [] c = (Finished (Ok tt), [], c') /\ c_poisoned c' = false /\
    c_out c' = c_out c ++ message h payload (Z.to_nat (packet_size (c_ctx c) - HEADER_BYTES)).
Proof.
  intros W P D. destruct (send_sensitive_spec oc h payload [] c W P D) as (o & s' & c' & E & _ & w & X1 & _ & X3).
  destruct (packet_room _ W) as (R1 & R2 & R3).
  assert (O : o = Finished (Ok tt) /\ s' = []).
  { revert E. unfold send_sensitive_login, ensure_not_poisoned. rewrite P, D. cbn [c_ctx set_flushed]. rewrite R3.
    rewrite (frame_sensitive_spec (length payload) h payload 0 _ R1 R2) by lia.
    edestruct write_frames_calm as (c1 & ->). intros [= <- <- _]. auto. }
  destruct O as [-> ->]. destruct X3 as [X3 X4]. rewrite X3 in X1. eauto.
Qed.

(** ** Properties *)

(** The wire never carries a torn message followed by another one: take a
    new connection and use it in any way, with messages, logins and Attentions whose
    writes complete, fail, or are abandoned at any await point with any part
    of a frame already written, with reads, flushes, session changes and
    command timeouts in between; what has been written is always a sequence
    of whole messages, with at most a part of one more at its end, and that
    part is there only if the connection refuses every further write. *)
Theorem wire_never_torn (oc : bool) (ctx : Context) (inbound : bytes) (c : Connection)
  (W : wf_context ctx) (H : conn_steps oc (connection_new ctx inbound) c) :
  exists msgs m part, Forall whole msgs /\ whole m /\ prefix part m /\ c_out c = concat msgs ++ part /\
    (part <> [] -> forall h item payload script, exists e,
       send oc h item script c = (Finished (Err (Protocol e)), script, c) /\
       send_sensitive_login oc h payload script c = (Finished (Err (Protocol e)), script, c) /\
       send_attention oc script c = (Finished (Err (Protocol e)), script, c)).
Proof.
  destruct (conn_steps_inv oc _ _ H) as (_ & msgs & m & part & H1 & H2 & H3 & H4 & H5).
  { split; [exact W|]. exists [], (packet_bytes (mkPacket (header_attention 0) [])), [].
    split; [apply List.Forall_nil|]. split; [apply whole_attention|]. split; [apply prefix_nil|]. split; reflexivity. }
  exists msgs, m, part. repeat split; auto. intros Hn h item payload script.
  destruct (c_poisoned c) eqn:P; [|elim Hn; auto].
  destruct (dead_send oc h item script c) as (e & E1 & E2 & E3 & _); [rewrite P; reflexivity|]. eauto.
Qed.

(** A send that is not disturbed puts one message on the wire, cut into
    packets no larger than the negotiated packet size: a reader that decodes
    them gets packets of the header's type, all full but the last, only the
    last marked as the end of the message, whose payloads joined together are
    the encoded item; an item that encodes to nothing sends nothing. *)
Theorem send_delivers (oc : bool) (h : PacketHeader) (item : M bytes unit) (payload : bytes) (c : Connection)
  (W : wf_context (c_ctx c)) (Hh : wf_header h) (Hp : c_poisoned c = false) (Hd : c_desync c = false)
  (Hi : item [] = (Ok tt, payload)) :
  exists c' ps, send oc h item [] c = (Finished (Ok tt), [], c') /\ c_poisoned c' = false /\
    c_out c' = c_out c ++ raws ps /\ Forall wire_packet ps /\
    Forall (fun p => len (raw p) <= packet_size (c_ctx c) /\ h_type (p_header p) = h_type h) ps /\
    collect_payloads ps = payload /\
    (payload = [] -> ps = []) /\
    (payload <> [] -> exists init last, ps = init ++ [last] /\ is_last last = true /\
       Forall (fun p => is_last p = false /\ len (raw p) = packet_size (c_ctx c)) init).
Proof.
  destruct (send_undisturbed oc h item payload c W Hp Hd Hi) as (c' & E & Ec & Ep & Eo).
  destruct (packet_room _ W) as (R1 & R2 & _). set (size := Z.to_nat (packet_size (c_ctx c) - HEADER_BYTES)) in *.
  destruct (message_packets_spec (length payload) h payload size R1 (le_n _)) as (_ & M2 & M3 & M4).
  pose proof (message_packets_wf (length payload) h payload size Hh) as M5.
  assert (Es : Z.of_nat size = packet_size (c_ctx c) - HEADER_BYTES).
  { pose proof (wf_packet_size _ W). unfold size, MIN_PACKET_SIZE, HEADER_BYTES in *. lia. }
  exists c', (map sent (message_packets (length payload) h payload size)).
  split; [exact E|]. split; [exact Ep|]. split; [rewrite Eo; f_equal; apply raws_sent|].
  split.
  { rewrite List.Forall_map. rewrite !Forall_forall in *. intros p Hpi. apply sent_wire; [auto|].
    destruct (M3 p Hpi) as [B _]. lia. }
  split.
  { rewrite List.Forall_map. rewrite !Forall_forall in *. intros p Hpi. destruct (M3 p Hpi) as [B T].
    rewrite len_raw. cbn [sent p_payload p_header]. split; [lia|exact T]. }
  split; [rewrite collect_sent; exact M2|]. split; [intros ->; reflexivity|].
  intros Hne. destruct (M4 Hne) as (ps & last & El & F & L). rewrite El, map_app.
  exists (map sent ps), (sent last). split; [reflexivity|]. split; [exact L|].
  rewrite List.Forall_map. rewrite !Forall_forall in *. intros p Hpi. destruct (F p Hpi) as [F1 F2].
  split; [exact F1|]. rewrite len_raw. cbn [sent p_payload]. lia.
Qed.

(** Reading through a connection is reading the bytes the server put
    into its packets: with any well-framed packets still to come, a read of
    [n] bytes returns what reading [n] bytes of the payloads in order (after
    what is already buffered) returns, an unexpected end of file included,
    and leaves the connection with exactly the bytes that are left.  So a
    value may straddle packets anywhere and every decoder of the byte stream
    speaks about the connection too. *)
Theorem poll_read_refines (n : nat) (ps : list Packet) (c : Connection) (F : framed ps c) :
  exists ps' c', poll_read n c = (fst (read_n n (stream_of ps c)), c') /\ framed ps' c' /\
    stream_of ps' c' = snd (read_n n (stream_of ps c)).
Proof.
  rewrite read_n_bytes. unfold poll_read.
  assert (Out : forall ps' c', framed ps' c' -> stream_of ps' c' = stream_of ps c -> (n <= length (c_buf c'))%nat ->
    exists ps'' c'', (Ok (take n (c_buf c')), set_buf (drop n (c_buf c')) c') =
      (fst (if (n <=? length (stream_of ps c))%nat then (Ok (take n (stream_of ps c)), drop n (stream_of ps c))
            else (Err (Io UnexpectedEof), stream_of ps c)), c'') /\ framed ps'' c'' /\
      stream_of ps'' c'' = snd (if (n <=? length (stream_of ps c))%nat then (Ok (take n (stream_of ps c)), drop n (stream_of ps c))
            else (Err (Io UnexpectedEof), stream_of ps c))).
  { intros ps' c' F' S' L. rewrite <- S'. unfold stream_of at 1 2 3 4 5 6 7 8. rewrite length_app.
    rewrite (proj2 (Nat.leb_le _ _)) by lia. rewrite take_app_le, drop_app_le by lia.
    eexists ps', _. split; [reflexivity|]. split; [exact F'|reflexivity]. }
  destruct (Nat.ltb_spec (length (c_buf c)) n); [|apply (Out ps c F eq_refl); lia].
  assert (Hfuel : (length ps < S (length (c_in c)))%nat) by (destruct F as [_ ->]; pose proof (length_raws ps); lia).
  destruct (fill_spec _ ps c n F Hfuel ltac:(lia)) as (ps' & c' & E & F' & S' & O).
  rewrite bind_run, E. destruct (Nat.ltb_spec (length (c_buf c')) n); [|apply (Out ps' c' F' S'); lia].
  destruct O as [O| ->]; [lia|]. exists [], c'.
  assert (Sb : stream_of ps c = c_buf c') by (rewrite <- S'; unfold stream_of; cbn; apply app_nil_r).
  rewrite Sb, (proj2 (Nat.leb_gt _ _)) by lia. split; [reflexivity|]. split; [exact F'|].
  unfold stream_of. cbn. apply app_nil_r.
Qed.

(** Flushing resynchronises the connection: whatever part of a response
    was left unread, [flush_stream] discards the buffer and every packet up
    to the one that ends the message and not one byte beyond it, so the next
    read starts at the next message; a drained connection is at end of
    response, and one that had already seen the end reads nothing more. *)
Theorem flush_stream_resyncs (ps : list Packet) (last : Packet) (rest : bytes) (c : Connection)
  (Hp : c_poisoned c = false) (Hd : c_desync c = false) (Fp : Forall wire_packet ps)
  (Fn : Forall (fun p => is_last p = false) ps) (Hl : wire_packet last) (Hlast : is_last last = true) :
  (c_flushed c = false -> c_in c = raws (ps ++ [last]) ++ rest ->
     exists c', flush_stream c = (Ok tt, c') /\ c_in c' = rest /\ is_eof c' = true /\ c_poisoned c' = false) /\
  (c_flushed c = true -> exists c', flush_stream c = (Ok tt, c') /\ c_in c' = c_in c /\ is_eof c' = true).
Proof.
  unfold flush_stream. rewrite bind_run. unfold ensure_not_poisoned. rewrite Hp, Hd. cbn [c_flushed set_buf].
  split; intros Ef; [intros E|]; rewrite Ef.
  - destruct (drain_spec (S (length (c_in c))) ps last rest (set_buf [] c) Fp Fn Hl Hlast E) as (c' & E' & ->).
    + rewrite E, length_app. pose proof (length_raws (ps ++ [last])) as L. rewrite length_app in L. cbn in L. lia.
    + eexists. split; [exact E'|]. repeat split. exact Hp.
  - eexists. split; [reflexivity|]. unfold is_eof. cbn. rewrite Ef. auto.
Qed.

(** A login that is framed outside the shared buffers is on the wire what
    an ordinary send of the same payload is: the frames, joined, are the
    packets of the message, in order; so the server cannot tell the two write
    paths apart, and both hand the payload over whole. *)
Theorem sensitive_login_equiv (oc : bool) (h : PacketHeader) (payload : bytes) (c : Connection)
  (W : wf_context (c_ctx c)) (Hp : c_poisoned c = false) (Hd : c_desync c = false) :
  exists c1 c2, send oc h (put_slice payload) [] c = (Finished (Ok tt), [], c1) /\
    send_sensitive_login oc h payload [] c = (Finished (Ok tt), [], c2) /\
    c_out c1 = c_out c2 /\ c_poisoned c1 = false /\ c_poisoned c2 = false.
Proof.
  destruct (send_undisturbed oc h (put_slice payload) payload c W Hp Hd (appends_put_slice payload [])) as (c1 & E1 & _ & P1 & O1).
  destruct (login_undisturbed oc h payload c W Hp Hd) as (c2 & E2 & P2 & O2).
  exists c1, c2. rewrite O1, O2. auto.
Qed.

(** ** Witnesses *)

Definition ctx0 : Context := context_new.
Definition conn0 : Connection := connection_new ctx0 [].

(** A batch whose second packet is dropped half way, and the connection that
    is left. *)
Definition conn_torn : Connection :=
  let '(_, _, c) := send true (header_batch 1) (put_slice (repeat 7 5000)) [Completes; Dropped 3] conn0 in c.

Lemma wire_never_torn_witness : conn_steps true conn0 conn_torn /\ c_poisoned conn_torn = true /\ len (c_out conn_torn) = 4099 /\
  exists msgs m part, Forall whole msgs /\ whole m /\ prefix part m /\ c_out conn_torn = concat msgs ++ part /\
    (part <> [] -> forall h item payload script, exists e,
       send true h item script conn_torn = (Finished (Err (Protocol e)), script, conn_torn) /\
       send_sensitive_login true h payload script conn_torn = (Finished (Err (Protocol e)), script, conn_torn) /\
       send_attention true script conn_torn = (Finished (Err (Protocol e)), script, conn_torn)).
Proof.
  assert (H : conn_steps true conn0 conn_torn).
  { eapply steps_cons; [apply steps_nil|]. eapply (step_send true (header_batch 1) (put_slice (repeat 7 5000)) [Completes; Dropped 3]).
    vm_compute. reflexivity. }
  split; [exact H|]. split; [vm_compute; reflexivity|]. split; [vm_compute; reflexivity|].
  apply (wire_never_torn true ctx0 [] conn_torn wf_context_new H).
Defined.

Lemma send_delivers_witness :
  exists c' ps, send true (header_batch 1) (put_slice (repeat 7 5000)) [] conn0 = (Finished (Ok tt), [], c') /\
    c_poisoned c' = false /\ c_out c' = raws ps /\ Forall wire_packet ps /\
    collect_payloads ps = repeat 7 5000.
Proof.
  destruct (send_delivers true (header_batch 1) (put_slice (repeat 7 5000)) (repeat 7 5000) conn0 wf_context_new)
    as (c' & ps & H1 & H2 & H3 & H4 & _ & H6 & _).
  - repeat split; vm_compute; congruence.
  - reflexivity.
  - reflexivity.
  - reflexivity.
  - exists c', ps. auto.
Defined.

(** Two packets of a response, and a connection that is to read them. *)
Definition packets0 : list Packet :=
  [ sent (mkPacket (set_status PacketStatus.NormalMessage (header_batch 1)) [1; 2; 3]); sent (mkPacket (header_login 2) [4; 5]) ].
Definition conn_reading : Connection := connection_new ctx0 (raws packets0).

Lemma packets0_wire : Forall wire_packet packets0.
Proof. repeat constructor; vm_compute; congruence. Qed.

Lemma poll_read_refines_witness : framed packets0 conn_reading /\
  exists ps' c', poll_read 4 conn_reading = (Ok [1; 2; 3; 4], c') /\ framed ps' c' /\ stream_of ps' c' = [5].
Proof.
  assert (F : framed packets0 conn_reading) by (split; [exact packets0_wire|reflexivity]).
  split; [exact F|]. destruct (poll_read_refines 4 packets0 conn_reading F) as (ps' & c' & H1 & H2 & H3).
  exists ps', c'. split; [exact H1|]. split; [exact H2|exact H3].
Defined.

Lemma flush_stream_resyncs_witness :
  exists c', flush_stream (connection_new ctx0 (raws packets0 ++ [9])) = (Ok tt, c') /\ c_in c' = [9] /\ is_eof c' = true.
Proof.
  pose proof packets0_wire as F. inversion_clear F as [|? ? F1 F2]. inversion_clear F2 as [|? ? F3 _].
  destruct (flush_stream_resyncs [sent (mkPacket (set_status PacketStatus.NormalMessage (header_batch 1)) [1; 2; 3])]
    (sent (mkPacket (header_login 2) [4; 5])) [9] (connection_new ctx0 (raws packets0 ++ [9])) eq_refl eq_refl) as [H _].
  - repeat constructor; apply F1.
  - repeat constructor.
  - exact F3.
  - reflexivity.
  - destruct (H eq_refl eq_refl) as (c' & E1 & E2 & E3 & _). exists c'. auto.
Defined.

Lemma sensitive_login_equiv_witness :
  exists c1 c2, send true (header_login 1) (put_slice (repeat 7 5000)) [] conn0 = (Finished (Ok tt), [], c1) /\
    send_sensitive_login true (header_login 1) (repeat 7 5000) [] conn0 = (Finished (Ok tt), [], c2) /\
    c_out c1 = c_out c2 /\ c_poisoned c1 = false /\ c_poisoned c2 = false.
Proof.
  apply (sensitive_login_equiv true (header_login 1) (repeat 7 5000) conn0 wf_context_new); reflexivity.
Defined.
