(* ===== verification/Sources.v ===== *)
(** * Sources: a decoder does the same on any source

    The decoders are generic in what they read from ([SqlReadBytes]) and the
    steps of a token stream in what they run on ([TokenSource]).  Two sources
    that hand out the same bytes are therefore decoded alike: for any relation
    between them that a read preserves, every decoder, and with it a round of
    the token stream, preserves it and gives the same result.  A read that
    fails on both sides may fail differently; it ends the decoder there. *)

From S2P Require Import Prelude Unicode Collation SqlRead SqlWrite Types TypeInfoCodec NumericCodec Temporal Money Context ColumnDecode Metadata Rows Tokens TokenStream.

(** ** Programs over related states *)

Definition failed {A} (r : Res A) : Prop := forall a, r <> Ok a.

(** The same result and related states; or both have failed, in states
    related by [fault]. *)
Definition alike {R1 R2} (rel fault : R1 -> R2 -> Prop) {A} (m1 : M R1 A) (m2 : M R2 A) : Prop := forall r1 r2, rel r1 r2 ->
  (fst (m1 r1) = fst (m2 r2) /\ rel (snd (m1 r1)) (snd (m2 r2))) \/
  (failed (fst (m1 r1)) /\ failed (fst (m2 r2)) /\ fault (snd (m1 r1)) (snd (m2 r2))).

(** A decoder that keeps every relation that reads keep. *)
Definition parametric {A} (c : Decoder A) : Prop :=
  forall (R1 R2 : Type) (S1 : SqlReadBytes R1) (S2 : SqlReadBytes R2) (rel fault : R1 -> R2 -> Prop),
    (forall n, alike rel fault (read_n n) (read_n n)) -> (forall r1 r2, rel r1 r2 -> unread r1 = unread r2) ->
    forall ctx, alike rel fault (c R1 S1 ctx) (c R2 S2 ctx).

Section Programs.
Context {R1 R2 : Type} (rel fault : R1 -> R2 -> Prop).
#[local] Abbreviation alike := (alike rel fault).

Lemma alike_ret {A} (a : A) : alike (ret a) (ret a).
Proof. intros r1 r2 H. left. auto. Qed.
Lemma alike_lift {A} (r : Res A) : alike (lift r) (lift r).
Proof. intros r1 r2 H. left. auto. Qed.
Lemma alike_fail {A} e : alike (fail (A := A) e) (fail e).
Proof. intros r1 r2 H. left. auto. Qed.
Lemma alike_panic {A} : alike (panic (A := A)) panic.
Proof. intros r1 r2 H. left. auto. Qed.
Lemma alike_out_of_fuel {A} : alike (out_of_fuel (A := A)) out_of_fuel.
Proof. intros r1 r2 H. left. auto. Qed.

Lemma alike_bind {A B} (m1 : M R1 A) m2 (k1 : A -> M R1 B) k2 :
  alike m1 m2 -> (forall a, alike (k1 a) (k2 a)) -> alike (bind m1 k1) (bind m2 k2).
Proof.
  intros Hm Hk r1 r2 H. specialize (Hm r1 r2 H). rewrite !bind_run. destruct (m1 r1) as [x s1], (m2 r2) as [y s2].
  cbn [fst snd] in Hm. destruct Hm as [[<- H']|(Fx & Fy & H')].
  - destruct x as [a|e| |]; [apply Hk, H'|left; auto..].
  - right. destruct x as [a|e| |]; [destruct (Fx a eq_refl)|..]; (destruct y as [a'|e'| |]; [destruct (Fy a' eq_refl)|..]);
      (split; [intros ? X; discriminate X|]; split; [intros ? X; discriminate X|exact H']).
Qed.

Lemma alike_repeat {A} n (m1 : M R1 A) m2 : alike m1 m2 -> alike (repeat_m n m1) (repeat_m n m2).
Proof.
  intros H. induction n as [|n IH]; cbn [repeat_m]; [apply alike_ret|]. apply alike_bind; [exact H|intros a].
  apply alike_bind; [exact IH|intros l; apply alike_ret].
Qed.
Lemma alike_map {A B} (f1 : A -> M R1 B) f2 l : (forall a, alike (f1 a) (f2 a)) -> alike (map_m f1 l) (map_m f2 l).
Proof.
  intros H. induction l as [|a l IH]; cbn [map_m]; [apply alike_ret|]. apply alike_bind; [apply H|intros b].
  apply alike_bind; [exact IH|intros bs; apply alike_ret].
Qed.
End Programs.

Create HintDb tds_alike.
#[export] Hint Resolve alike_ret alike_lift alike_fail alike_panic alike_out_of_fuel : tds_alike.

(** Along the structure of a program; both sides branch on the same value. *)
Ltac alike_step :=
  match goal with
  | |- alike _ _ (bind _ _) _ => apply alike_bind
  | |- alike _ _ (repeat_m _ _) _ => apply alike_repeat
  | |- alike _ _ (map_m _ _) _ => apply alike_map
  | |- forall _, _ => intros ?
  | |- alike _ _ (match ?x with _ => _ end) _ => destruct x
  | |- alike _ _ _ _ => solve [eauto with tds_alike]
  end.
Ltac alike_steps := cbv zeta; repeat alike_step.

(** ** The decoders *)

Section Decoders.
Context {R1 R2 : Type} {S1 : SqlReadBytes R1} {S2 : SqlReadBytes R2} (rel fault : R1 -> R2 -> Prop)
  (Hr : forall n, alike rel fault (read_n n) (read_n n)) (Hu : forall r1 r2, rel r1 r2 -> unread r1 = unread r2).
#[local] Abbreviation alike := (alike rel fault).
#[local] Hint Resolve Hr : tds_alike.

(** [sql_read_bytes.rs] *)
Lemma alike_uint_le n : alike (read_uint_le n) (read_uint_le n).
Proof using Hr. unfold read_uint_le. alike_steps. Qed.
Lemma alike_uint_be n : alike (read_uint_be n) (read_uint_be n).
Proof using Hr. unfold read_uint_be. alike_steps. Qed.
Lemma alike_sint_le n : alike (read_sint_le n) (read_sint_le n).
Proof using Hr. unfold read_sint_le. alike_steps. Qed.
#[local] Hint Resolve alike_uint_le alike_uint_be alike_sint_le : tds_alike.
#[local] Hint Unfold read_u8 read_i8 read_u16_le read_u32_le read_u64_le read_u32 read_i16_le read_i32_le read_i64_le read_f32_le read_f64_le : tds_alike.
Lemma alike_b_varchar : alike read_b_varchar read_b_varchar.
Proof using Hr. unfold read_b_varchar, read_varchar. alike_steps. Qed.
Lemma alike_us_varchar : alike read_us_varchar read_us_varchar.
Proof using Hr. unfold read_us_varchar, read_varchar. alike_steps. Qed.
Lemma alike_bytes_into fuel : forall dst n cap, alike (read_bytes_into fuel dst n cap) (read_bytes_into fuel dst n cap).
Proof using Hr. induction fuel as [|fuel IH]; intros dst n cap; cbn [read_bytes_into]; alike_steps. Qed.
Lemma alike_bytes n : alike (read_bytes n) (read_bytes n).
Proof using Hr. apply alike_bytes_into. Qed.
#[local] Hint Resolve alike_b_varchar alike_us_varchar alike_bytes_into alike_bytes : tds_alike.

(** A loop whose fuel is the input that is left. *)
Lemma alike_unread {A} (f1 : nat -> M R1 A) f2 : (forall n, alike (f1 n) (f2 n)) ->
  alike (fun r => f1 (S (unread r)) r) (fun r => f2 (S (unread r)) r).
Proof using Hu. intros H r1 r2 Hrel. rewrite (Hu r1 r2 Hrel). apply H, Hrel. Qed.

(** [type_info.rs], [numeric.rs], [time.rs], [money.rs] *)
Lemma alike_decode_len v : alike (decode_len v) (decode_len v).
Proof using Hr. unfold decode_len. alike_steps. Qed.
Lemma alike_collation : alike read_collation read_collation.
Proof using Hr. unfold read_collation. alike_steps. Qed.
#[local] Hint Resolve alike_decode_len alike_collation : tds_alike.
Lemma alike_typeinfo : alike typeinfo_decode typeinfo_decode.
Proof using Hr. unfold typeinfo_decode. alike_steps. Qed.
Lemma alike_numeric s : alike (numeric_decode s) (numeric_decode s).
Proof using Hr. unfold numeric_decode. alike_steps. Qed.
Lemma alike_datetime_value : alike datetime_decode datetime_decode.
Proof using Hr. unfold datetime_decode. alike_steps. Qed.
Lemma alike_smalldatetime : alike smalldatetime_decode smalldatetime_decode.
Proof using Hr. unfold smalldatetime_decode. alike_steps. Qed.
Lemma alike_date : alike date_decode date_decode.
Proof using Hr. unfold date_decode. alike_steps. Qed.
Lemma alike_time n rlen : alike (time_decode n rlen) (time_decode n rlen).
Proof using Hr. unfold time_decode. alike_steps. Qed.
#[local] Hint Resolve alike_typeinfo alike_numeric alike_datetime_value alike_smalldatetime alike_date alike_time : tds_alike.
Lemma alike_datetime2 n rlen : alike (datetime2_decode n rlen) (datetime2_decode n rlen).
Proof using Hr. unfold datetime2_decode. alike_steps. Qed.
#[local] Hint Resolve alike_datetime2 : tds_alike.
Lemma alike_datetimeoffset n rlen : alike (datetimeoffset_decode n rlen) (datetimeoffset_decode n rlen).
Proof using Hr. unfold datetimeoffset_decode. alike_steps. Qed.
Lemma alike_money n : alike (money_decode n) (money_decode n).
Proof using Hr. unfold money_decode. alike_steps. Qed.
#[local] Hint Resolve alike_datetimeoffset alike_money : tds_alike.

(** [column_data/*.rs] *)
Lemma alike_plp_chunks fuel : forall data, alike (plp_chunks fuel data) (plp_chunks fuel data).
Proof using Hr. induction fuel as [|fuel IH]; intros data; cbn [plp_chunks]; alike_steps. Qed.
Lemma alike_plp n : alike (plp_decode n) (plp_decode n).
Proof using Hr Hu.
  assert (C : alike (fun r => plp_chunks (S (unread r)) [] r) (fun r => plp_chunks (S (unread r)) [] r)).
  { apply (alike_unread (fun n => plp_chunks n []) (fun n => plp_chunks n [])). intros fuel. apply alike_plp_chunks. }
  unfold plp_decode. alike_steps.
Qed.
#[local] Hint Resolve alike_plp : tds_alike.
Lemma alike_datetimen rlen n : alike (datetimen_decode rlen n) (datetimen_decode rlen n).
Proof using Hr. unfold datetimen_decode. alike_steps. Qed.
Lemma alike_text_pointer n : alike (skip_text_pointer n) (skip_text_pointer n).
Proof using Hr. unfold skip_text_pointer. alike_steps. Qed.
#[local] Hint Resolve alike_datetimen alike_text_pointer : tds_alike.
Lemma alike_fixed_len t : alike (fixed_len_decode t) (fixed_len_decode t).
Proof using Hr. unfold fixed_len_decode. alike_steps. Qed.
#[local] Hint Resolve alike_fixed_len : tds_alike.

Context {ER : EncodingRs} (ctx : Context).
Lemma alike_string t n c : alike (string_decode ctx t n c) (string_decode ctx t n c).
Proof using Hr Hu. unfold string_decode. alike_steps. Qed.
Lemma alike_text c : alike (text_decode ctx c) (text_decode ctx c).
Proof using Hr. unfold text_decode. alike_steps. Qed.
#[local] Hint Resolve alike_string alike_text : tds_alike.
Lemma alike_variant_numeric n s : alike (variant_numeric n s) (variant_numeric n s).
Proof using Hr. unfold variant_numeric. alike_steps. Qed.
#[local] Hint Resolve alike_variant_numeric : tds_alike.
Lemma alike_variant_var v p n : alike (variant_var ctx v p n) (variant_var ctx v p n).
Proof using Hr. unfold variant_var, check_prop_bytes, check_data_len. alike_steps. Qed.
#[local] Hint Resolve alike_variant_var : tds_alike.
Lemma alike_sql_variant : alike (sql_variant_decode ctx) (sql_variant_decode ctx).
Proof using Hr. unfold sql_variant_decode. alike_steps. Qed.
#[local] Hint Resolve alike_sql_variant : tds_alike.
Lemma alike_var_len cx : alike (var_len_decode ctx cx) (var_len_decode ctx cx).
Proof using Hr Hu.
  unfold var_len_decode, bit_decode, int_decode, float_decode, guid_decode, date_column_decode, time_column_decode, datetime2_column_decode,
    datetimeoffset_column_decode, binary_decode, image_decode. alike_steps.
Qed.
#[local] Hint Resolve alike_var_len : tds_alike.
Lemma alike_column t : alike (column_decode ctx t) (column_decode ctx t).
Proof using Hr Hu. unfold column_decode, xml_decode, udt_decode. alike_steps. Qed.
#[local] Hint Resolve alike_column : tds_alike.

(** Metadata and rows *)
Lemma alike_base : alike base_decode base_decode.
Proof using Hr. unfold base_decode. alike_steps. Qed.
#[local] Hint Resolve alike_base : tds_alike.
Lemma alike_col_metadata : alike col_metadata_decode col_metadata_decode.
Proof using Hr. unfold col_metadata_decode, column_meta_decode. alike_steps. Qed.
Lemma alike_alt_metadata : alike alt_metadata_decode alt_metadata_decode.
Proof using Hr. unfold alt_metadata_decode, alt_column_decode. alike_steps. Qed.
Lemma alike_row : alike (row_decode ctx) (row_decode ctx).
Proof using Hr Hu. unfold row_decode. alike_steps. Qed.
Lemma alike_nbc_columns bitmap cols : forall i, alike (nbc_columns ctx bitmap i cols) (nbc_columns ctx bitmap i cols).
Proof using Hr Hu. induction cols as [|c cols IH]; intros i; cbn [nbc_columns]; alike_steps. Qed.
#[local] Hint Resolve alike_nbc_columns : tds_alike.
Lemma alike_nbc_row : alike (nbc_row_decode ctx) (nbc_row_decode ctx).
Proof using Hr Hu. unfold nbc_row_decode, bitmap_decode. alike_steps. Qed.
Lemma alike_alt_row id m : alike (alt_row_decode ctx id m) (alt_row_decode ctx id m).
Proof using Hr Hu. unfold alt_row_decode. alike_steps. Qed.
Lemma alike_return_value : alike (return_value_decode ctx) (return_value_decode ctx).
Proof using Hr Hu. unfold return_value_decode. alike_steps. Qed.

(** The other tokens *)
Lemma alike_within {A} n (parse : M bytes A) : alike (within n parse) (within n parse).
Proof using Hr. unfold within. alike_steps. Qed.
Lemma alike_units n e : alike (read_units n e) (read_units n e).
Proof using Hr. unfold read_units. alike_steps. Qed.
#[local] Hint Resolve alike_within alike_units : tds_alike.
Lemma alike_order : alike order_decode order_decode.
Proof using Hr. unfold order_decode. alike_steps. Qed.
Lemma alike_col_info_entries fuel : forall left, alike (col_info_entries fuel left) (col_info_entries fuel left).
Proof using Hr. induction fuel as [|fuel IH]; intros left; cbn [col_info_entries]; unfold col_info_entry; alike_steps. Qed.
#[local] Hint Resolve alike_col_info_entries : tds_alike.
Lemma alike_col_info : alike col_info_decode col_info_decode.
Proof using Hr. unfold col_info_decode. alike_steps. Qed.
Lemma alike_tab_name : alike tab_name_decode tab_name_decode.
Proof using Hr. unfold tab_name_decode. alike_steps. Qed.
Lemma alike_done : alike (done_decode ctx) (done_decode ctx).
Proof using Hr. unfold done_decode. alike_steps. Qed.
Lemma alike_error_info : alike (error_info_decode ctx) (error_info_decode ctx).
Proof using Hr. unfold error_info_decode. alike_steps. Qed.
Lemma alike_login_ack : alike login_ack_decode login_ack_decode.
Proof using Hr. unfold login_ack_decode. alike_steps. Qed.
Lemma alike_feature_acks fuel : alike (feature_acks fuel) (feature_acks fuel).
Proof using Hr. induction fuel as [|fuel IH]; cbn [feature_acks]; alike_steps. Qed.
Lemma alike_feature_ext_ack : alike feature_ext_ack_decode feature_ext_ack_decode.
Proof using Hr Hu. apply alike_unread. exact alike_feature_acks. Qed.
Lemma alike_fed_auth_info : alike fed_auth_info_decode fed_auth_info_decode.
Proof using Hr. unfold fed_auth_info_decode. alike_steps. Qed.
Lemma alike_session_state : alike session_state_decode session_state_decode.
Proof using Hr. unfold session_state_decode. alike_steps. Qed.
Lemma alike_sspi : alike sspi_decode sspi_decode.
Proof using Hr. unfold sspi_decode. alike_steps. Qed.
Lemma alike_env_change : alike env_change_decode env_change_decode.
Proof using Hr. unfold env_change_decode. alike_steps. Qed.
Lemma alike_u8 : alike read_u8 read_u8.
Proof using Hr. apply alike_uint_le. Qed.
Lemma alike_u16_le : alike read_u16_le read_u16_le.
Proof using Hr. apply alike_uint_le. Qed.
Lemma alike_u32_le : alike read_u32_le read_u32_le.
Proof using Hr. apply alike_uint_le. Qed.
End Decoders.

#[export] Hint Resolve alike_u8 alike_u16_le alike_u32_le alike_col_metadata alike_alt_metadata alike_row alike_nbc_row alike_alt_row alike_return_value
  alike_order alike_col_info alike_tab_name alike_done alike_error_info alike_login_ack alike_feature_ext_ack alike_fed_auth_info
  alike_session_state alike_sspi alike_env_change : tds_alike.
#[export] Hint Extern 1 (parametric _) => (intros ? ? ? ? ? ? ? ? ?; eauto with tds_alike) : tds_alike.

(** ** The rounds of a token stream *)

Section Tokens.
Context {ER : EncodingRs} {T1 T2 : Type} `{!TokenSource T1} `{!TokenSource T2} (rel fault : T1 -> T2 -> Prop)
  (Hc : forall A (c : Decoder A), parametric c -> alike rel fault (on_conn c) (on_conn c))
  (Hx : forall t1 t2, rel t1 t2 -> conn_context t1 = conn_context t2)
  (Hf : forall f, alike rel fault (update_ctx f) (update_ctx f))
  (He : forall e, alike rel fault (remember_error e) (remember_error e)).
#[local] Hint Resolve Hc Hf He : tds_alike.

Lemma alike_alt_meta id :
  alike rel fault (fun t => (ok_or (alt_meta id (conn_context t)) (Protocol "ALTROW for unknown compute id"), t))
                  (fun t => (ok_or (alt_meta id (conn_context t)) (Protocol "ALTROW for unknown compute id"), t)).
Proof using Hx. intros t1 t2 H. left. cbn. rewrite (Hx t1 t2 H). auto. Qed.

Lemma alike_get_token ty : alike rel fault (get_token ty) (get_token ty).
Proof using Hc Hx Hf He.
  pose proof alike_alt_meta as Ha. destruct ty; cbn [get_token];
    unfold get_return_status, get_col_metadata, get_alt_col_metadata, get_row, get_alt_row, get_nbc_row, get_done_value, get_done_proc_value,
      get_done_in_proc_value, get_return_value, get_error, get_order, get_col_info, get_tab_name, get_env_change, get_info, get_login_ack,
      get_sspi, get_session_state, get_fed_auth_info, get_feature_ext_ack; alike_steps.
Qed.

Lemma alike_read_token : alike rel fault read_token read_token.
Proof using Hc Hx Hf He. unfold read_token. pose proof alike_get_token as Hg. alike_steps. Qed.
End Tokens.
