(* ===== verification/Reader.v ===== *)
(** * Reader: the token stream over a connection

    [TokenStream.v] decodes the bytes of a response; here the stream sits on
    the connection, which takes packets from the transport as the decoders
    ask for bytes and knows the end of a message by its last packet.  The
    connection is a source ([SqlReadBytes]) whose reads are [poll_read], so
    the decoders and the steps of the token stream run on it as they are. *)

From S2P Require Import Prelude Unicode Collation SqlRead SqlWrite Types TypeInfoCodec Context Metadata Rows Tokens TokenStream Results Packet Connection Sources ColumnDecode ColumnEncode ColumnRoundtrip.

(** ** The bytes a connection can deliver *)

(** The packets the transport holds, up to the first that is not one. *)
Fixpoint packets_in (fuel : nat) (b : bytes) : list Packet :=
  match fuel with
  | O => []
  | S fuel => match codec_decode_eof b with (Ok (Some p), rest) => p :: packets_in fuel rest | _ => [] end
  end.
Definition available (c : Connection) : bytes :=
  c_buf c ++ concat (map p_payload (packets_in (length (c_in c)) (c_in c))).

(** [TokenStream]: the connection and the first error of the server. *)
Record Reader := mkReader { rd_conn : Connection; rd_error : option Error }.

(** [TokenStream::new] *)
Definition reader_new (c : Connection) : Reader := mkReader c None.

(** [impl SqlReadBytes for Connection]: a read of [n] bytes is a [poll_read]
    into a buffer of that size. *)
#[export] Instance connection_source : SqlReadBytes Connection := {
  read_n := poll_read;
  unread c := length (available c);
}.

(** A decoder runs on the connection of the stream. *)
#[export] Instance connection_stream : TokenSource Reader := {
  on_conn A c := fun t => match c Connection _ (c_ctx (rd_conn t)) (rd_conn t) with (r, conn) => (r, mkReader conn (rd_error t)) end;
  conn_context t := c_ctx (rd_conn t);
  update_ctx f := fun t => (Ok tt, mkReader (set_ctx (f (c_ctx (rd_conn t))) (rd_conn t)) (rd_error t));
  remember_error e := fun t => (Ok tt, mkReader (rd_conn t) (match rd_error t with None => Some e | Some x => Some x end));
}.

Section Rounds.
Context {ER : EncodingRs}.

(** One round of [TokenStream::try_unfold]. *)
Definition stream_next : M Reader (option ReceivedToken) := fun t =>
  if is_eof (rd_conn t) then match rd_error t with None => (Ok None, t) | Some e => (Err e, t) end
  else read_token t.
End Rounds.

(** ** Streams of tokens *)

Section Pull.
Context {St : Type} (next : M St (option ReceivedToken)).

(** What [k] rounds of a stream hand out; nothing follows an end or an
    error. *)
Fixpoint pull (k : nat) (s : St) : tokens * St :=
  match k with
  | O => ([], s)
  | S k =>
      match next s with
      | (Ok (Some t), s) => let (ts, s) := pull k s in (Ok t :: ts, s)
      | (Ok None, s) => ([], s)
      | (Err e, s) => ([Err e], s)
      | (Panic, s) => ([Panic], s)
      | (OutOfFuel, s) => ([OutOfFuel], s)
      end
  end.

(** [QueryStream::forward_to_metadata] on the stream below it: the rounds up
    to the metadata that is left peeked, or the end. *)
Fixpoint forward (fuel : nat) : M St (option ReceivedToken) :=
  match fuel with
  | O => out_of_fuel
  | S fuel =>
      t <- next ;;
      match t with
      | Some (ReceivedToken.NewResultset m) => ret (Some (ReceivedToken.NewResultset m))
      | None => ret None
      | Some _ => forward fuel
      end
  end.
End Pull.

(** ** Lemmas: a message on the wire *)

Lemma packets_in_raws ps : Forall wire_packet ps -> forall fuel, (length ps <= fuel)%nat -> packets_in fuel (raws ps) = ps.
Proof.
  induction 1 as [|p ps [Hw Hl] F IH]; intros [|fuel] Hf; try reflexivity; [cbn in Hf; lia|].
  cbn [packets_in]. unfold codec_decode_eof. cbn [raws map concat]. unfold raw at 1.
  pose proof (decodes_packet _ _ Hw Hl (raws ps)) as E. unfold raws in E at 1. rewrite E.
  change (concat (map raw ps)) with (raws ps). rewrite IH by (cbn in Hf; lia). destruct p; reflexivity.
Qed.

Lemma available_framed ps c : framed ps c -> available c = stream_of ps c.
Proof. intros [F E]. unfold available, stream_of. rewrite E, packets_in_raws by (exact F || apply length_raws). reflexivity. Qed.

(** ** Lemmas: reads *)

(** [poll_read] up to the copy out of the buffer. *)
Definition top_up (n : nat) (c : Connection) : Res unit * Connection :=
  if (length (c_buf c) <? n)%nat then fill (S (length (c_in c))) n c else (Ok tt, c).

Lemma poll_read_top_up n c : poll_read n c =
  match top_up n c with
  | (Ok _, c') => if (length (c_buf c') <? n)%nat then (Err (Io UnexpectedEof), c') else (Ok (take n (c_buf c')), set_buf (drop n (c_buf c')) c')
  | (Err e, c') => (Err e, c')
  | (Panic, c') => (Panic, c')
  | (OutOfFuel, c') => (OutOfFuel, c')
  end.
Proof.
  unfold poll_read, top_up. destruct (length (c_buf c) <? n)%nat eqn:E; [|rewrite E; reflexivity].
  rewrite bind_run. destruct (fill _ n c) as [[]]; reflexivity.
Qed.

(** The rest of one message: nothing behind its last packet, which has a
    payload. *)
Definition ends_well (ps : list Packet) (c : Connection) : Prop :=
  match ps with
  | [] => c_flushed c = true
  | _ => c_flushed c = false /\ exists init last, ps = init ++ [last] /\ Forall (fun p => is_last p = false) init /\
           is_last last = true /\ p_payload last <> []
  end.

(** The connection apart from its inbound side. *)
Definition same_side (c c' : Connection) : Prop :=
  c_out c' = c_out c /\ c_ctx c' = c_ctx c /\ c_poisoned c' = c_poisoned c /\ c_desync c' = c_desync c.

Lemma same_side_trans a b c : same_side a b -> same_side b c -> same_side a c.
Proof. unfold same_side. intuition congruence. Qed.

(** Reading [n] bytes takes whole packets, enough of them or all. *)
Lemma fill_message fuel : forall ps c n, framed ps c -> ends_well ps c -> (length ps < fuel)%nat -> (length (c_buf c) < n)%nat ->
  exists ps' c', fill fuel n c = (Ok tt, c') /\ framed ps' c' /\ ends_well ps' c' /\ stream_of ps' c' = stream_of ps c /\
    ((n <= length (c_buf c'))%nat \/ ps' = []) /\ same_side c c'.
Proof.
  induction fuel as [|fuel IH]; intros ps c n [Fp Fi] W Hf Hn; [lia|]. cbn [fill]. destruct ps as [|p ps].
  - rewrite next_packet_nil by exact Fi. eexists [], _. split; [reflexivity|]. repeat split; auto. 
  - inversion_clear Fp as [|? ? Hp Fp']. rewrite (next_packet_cons p ps [] c Hp) by (rewrite app_nil_r; exact Fi).
    rewrite app_nil_r. set (c1 := set_buf _ _).
    assert (F1 : framed ps c1) by (split; [exact Fp'|reflexivity]).
    assert (S1 : stream_of ps c1 = stream_of (p :: ps) c) by (unfold stream_of, c1; cbn; rewrite <- app_assoc; reflexivity).
    assert (W1 : ends_well ps c1).
    { destruct W as (_ & init & last & E & Fn & L & N). destruct init as [|q init]; injection E as -> ->.
      - exact L.
      - inversion_clear Fn as [|? ? Q Fn']. destruct (init ++ [last]) as [|x l] eqn:X; [destruct init; discriminate|].
        split; [exact Q|]. exists init, last. auto. }
    assert (O1 : same_side c c1) by (repeat split).
    destruct (Nat.leb_spec n (length (c_buf c1))).
    + exists ps, c1. auto 10.
    + destruct (IH ps c1 n F1 W1 ltac:(cbn in Hf; lia) ltac:(lia)) as (ps' & c' & E & F' & W' & S' & O & K).
      exists ps', c'. repeat split; auto; try apply F'; try congruence; apply K.
Qed.

Lemma poll_read_message n ps c : framed ps c -> ends_well ps c ->
  exists ps' c', poll_read n c = (fst (read_n n (stream_of ps c)), c') /\ framed ps' c' /\ ends_well ps' c' /\
    stream_of ps' c' = snd (read_n n (stream_of ps c)) /\ same_side c c'.
Proof.
  intros F W. rewrite !read_n_bytes. unfold poll_read.
  assert (Out : forall ps' c', framed ps' c' -> ends_well ps' c' -> stream_of ps' c' = stream_of ps c -> same_side c c' ->
    (n <= length (c_buf c'))%nat ->
    exists ps'' c'', (Ok (take n (c_buf c')), set_buf (drop n (c_buf c')) c') =
      (fst (if (n <=? length (stream_of ps c))%nat then (Ok (take n (stream_of ps c)), drop n (stream_of ps c))
            else (Err (Io UnexpectedEof), stream_of ps c)), c'') /\ framed ps'' c'' /\ ends_well ps'' c'' /\
      stream_of ps'' c'' = snd (if (n <=? length (stream_of ps c))%nat then (Ok (take n (stream_of ps c)), drop n (stream_of ps c))
            else (Err (Io UnexpectedEof), stream_of ps c)) /\ same_side c c'').
  { intros ps' c' F' W' S' K L. rewrite <- S'. unfold stream_of at 1 2 3 4 5 6 7 8. rewrite length_app.
    rewrite (proj2 (Nat.leb_le _ _)) by lia. rewrite take_app_le, drop_app_le by lia.
    eexists ps', _. split; [reflexivity|]. repeat split; try apply F'; try apply K. exact W'. }
  destruct (Nat.ltb_spec (length (c_buf c)) n); [|apply (Out ps c F W eq_refl); [repeat split|lia]].
  assert (Hfuel : (length ps < S (length (c_in c)))%nat) by (destruct F as [_ ->]; pose proof (length_raws ps); lia).
  destruct (fill_message _ ps c n F W Hfuel ltac:(lia)) as (ps' & c' & E & F' & W' & S' & O & K).
  rewrite bind_run, E. destruct (Nat.ltb_spec (length (c_buf c')) n); [|apply (Out ps' c' F' W' S' K); lia].
  destruct O as [O| ->]; [lia|]. exists [], c'.
  assert (Sb : stream_of ps c = c_buf c') by (rewrite <- S'; unfold stream_of; cbn; apply app_nil_r).
  rewrite Sb, (proj2 (Nat.leb_gt _ _)) by lia. split; [reflexivity|]. split; [exact F'|]. split; [exact W'|]. split; [|exact K].
  unfold stream_of. cbn. apply app_nil_r.
Qed.

(** ** The simulation *)

(** A stream of bytes and a reader at the same place of a response. *)
Definition reading (s : Stream) (t : Reader) : Prop :=
  exists ps, framed ps (rd_conn t) /\ ends_well ps (rd_conn t) /\ stream_of ps (rd_conn t) = st_buf s /\
    c_ctx (rd_conn t) = st_ctx s /\ rd_error t = last_error s.

(** The same step on both sides: the same result, and again the same place;
    nothing is written. *)
Definition simulates {A} (m : M Stream A) (m' : M Reader A) : Prop :=
  forall s t, reading s t -> wf_stream s -> exists r s' t', m s = (r, s') /\ m' t = (r, t') /\ reading s' t' /\ wf_stream s' /\
    c_out (rd_conn t') = c_out (rd_conn t) /\ c_poisoned (rd_conn t') = c_poisoned (rd_conn t) /\ c_desync (rd_conn t') = c_desync (rd_conn t).

Lemma sim_ret {A} (a : A) : simulates (ret a) (ret a).
Proof. intros s t R W. exists (Ok a), s, t. auto 10. Qed.
Lemma sim_fail {A} e : simulates (A := A) (fail e) (fail e).
Proof. intros s t R W. exists (Err e), s, t. auto 10. Qed.
Lemma sim_out_of_fuel {A} : simulates (A := A) out_of_fuel out_of_fuel.
Proof. intros s t R W. exists OutOfFuel, s, t. auto 10. Qed.
Lemma sim_bind {A B} (m : M Stream A) m' (k : A -> M Stream B) k' :
  simulates m m' -> (forall a, simulates (k a) (k' a)) -> simulates (bind m k) (bind m' k').
Proof.
  intros Hm Hk s t R W. destruct (Hm s t R W) as (r & s1 & t1 & E & E' & R1 & W1 & O1 & P1 & D1). rewrite !bind_run, E, E'.
  destruct r as [a|e| |]; [|eexists _, s1, t1; eauto 10..].
  destruct (Hk a s1 t1 R1 W1) as (r2 & s2 & t2 & E2 & E2' & R2 & W2 & O2 & P2 & D2). exists r2, s2, t2. repeat split; auto; congruence || apply W2.
Qed.

(** The loops go along with the rounds. *)
Section Loops.
Context (next : M Stream (option ReceivedToken)) (next' : M Reader (option ReceivedToken)) (Hn : simulates next next').

Lemma sim_flush_done fuel : forall err routing, simulates (flush_done next fuel err routing) (flush_done next' fuel err routing).
Proof using Hn.
  induction fuel as [|fuel IH]; intros err routing; cbn [flush_done]; [apply sim_out_of_fuel|]. apply sim_bind; [exact Hn|].
  intros [[]|]; auto using sim_fail; [destruct err, routing as [[h p]|]; auto using sim_fail, sim_ret|destruct e; auto].
Qed.

Lemma sim_flush_attention fuel : simulates (flush_done_attention next fuel) (flush_done_attention next' fuel).
Proof using Hn.
  induction fuel as [|fuel IH]; cbn [flush_done_attention]; [apply sim_out_of_fuel|]. apply sim_bind; [exact Hn|].
  intros [[]|]; auto using sim_fail; destruct (done_is_attention d); auto using sim_ret.
Qed.

Lemma sim_flush_sspi fuel : forall err, simulates (flush_sspi next fuel err) (flush_sspi next' fuel err).
Proof using Hn.
  induction fuel as [|fuel IH]; intros err; cbn [flush_sspi]; [apply sim_out_of_fuel|]. apply sim_bind; [exact Hn|].
  intros [[]|]; auto using sim_fail, sim_ret. destruct err; auto using sim_fail.
Qed.

Lemma sim_forward fuel : simulates (forward next fuel) (forward next' fuel).
Proof using Hn.
  induction fuel as [|fuel IH]; cbn [forward]; [apply sim_out_of_fuel|]. apply sim_bind; [exact Hn|].
  intros [[]|]; auto using sim_ret.
Qed.
End Loops.

Section Refinement.
Context {ER : EncodingRs}.

Lemma st_safe_read_token : st_safe read_token (fun _ => True).
Proof.
  eapply st_safe_bind; [apply st_safe_on_conn; intros; apply safe_u8|intros b _].
  destruct (token_try_from b) as [ty|]; [|apply st_safe_fail].
  eapply st_safe_bind; [apply st_safe_get_token|intros t _]. apply st_safe_ret. exact I.
Qed.

(** The bytes of the rest of a response and a connection that holds them; the
    connection is [c0] apart from its inbound side. *)
Definition holds (c0 : Connection) (b : bytes) (c : Connection) : Prop :=
  exists ps, framed ps c /\ ends_well ps c /\ stream_of ps c = b /\ same_side c0 c.
(** Both streams at the same place. *)
Definition in_step (t0 : Reader) (s : Stream) (t : Reader) : Prop :=
  reading s t /\ c_out (rd_conn t) = c_out (rd_conn t0) /\ c_poisoned (rd_conn t) = c_poisoned (rd_conn t0) /\
  c_desync (rd_conn t) = c_desync (rd_conn t0).

Lemma holds_read c0 n : alike (holds c0) (fun _ _ => False) (read_n n) (read_n n).
Proof.
  intros b c (ps & F & W & <- & K). left. destruct (poll_read_message n ps c F W) as (ps' & c' & E & F' & W' & S' & K').
  cbn [read_n connection_source]. rewrite E. split; [reflexivity|]. exists ps'. split; [exact F'|]. split; [exact W'|].
  split; [exact S'|exact (same_side_trans _ _ _ K K')].
Qed.

Lemma in_step_conn t0 A (c : Decoder A) : parametric c -> alike (in_step t0) (fun _ _ => False) (on_conn c) (on_conn c).
Proof.
  intros P s t ((ps & F & W & Sb & C & E) & O). left.
  assert (H : holds (rd_conn t) (st_buf s) (rd_conn t)) by (exists ps; repeat split; auto; apply F).
  destruct (P bytes Connection _ _ (holds (rd_conn t)) (fun _ _ => False) (holds_read _)
    (fun b c' '(ex_intro _ ps' (conj F' (conj _ (conj S' _)))) => eq_sym (f_equal length (eq_trans (available_framed ps' c' F') S')))
    (st_ctx s) _ _ H) as [[Er Hr]|(_ & _ & [])].
  cbn [on_conn bytes_stream connection_stream]. rewrite C. destruct (c bytes _ _ _) as [r b], (c Connection _ _ _) as [r' conn].
  cbn [fst snd] in *. subst r'. split; [reflexivity|]. destruct Hr as (ps' & F' & W' & S' & K1 & K2 & K3 & K4).
  split; [exists ps'; cbn [rd_conn st_buf st_ctx rd_error last_error]; rewrite K2; auto 10|]. cbn [rd_conn]. rewrite K1, K3, K4. exact O.
Qed.

Lemma in_step_context t0 s t : in_step t0 s t -> conn_context s = conn_context t.
Proof. intros ((ps & _ & _ & _ & C & _) & _). symmetry. exact C. Qed.
Lemma in_step_update t0 f : alike (in_step t0) (fun _ _ => False) (update_ctx f) (update_ctx f).
Proof.
  intros s t ((ps & F & W & Sb & C & E) & O). left. split; [reflexivity|]. split; [|exact O].
  exists ps. cbn. rewrite C. repeat split; auto; apply F.
Qed.
Lemma in_step_remember t0 e : alike (in_step t0) (fun _ _ => False) (remember_error e) (remember_error e).
Proof.
  intros s t ((ps & F & W & Sb & C & E) & O). left. split; [reflexivity|]. split; [|exact O].
  exists ps. cbn. rewrite E. repeat split; auto; apply F.
Qed.

(** A round on the connection is the round on the bytes. *)
Lemma sim_read_token : simulates read_token read_token.
Proof.
  intros s t R W. destruct (st_safe_read_token s W) as (r & s' & Es & _ & W' & _).
  destruct (alike_read_token (in_step t) (fun _ _ => False) (in_step_conn t) (in_step_context t) (in_step_update t) (in_step_remember t)
    s t (conj R (conj eq_refl (conj eq_refl eq_refl)))) as [[E (R' & O & P & D)]|(_ & _ & [])].
  rewrite Es in E, R'. cbn [fst snd] in E, R'. exists r, s', (snd (read_token t)). split; [exact Es|].
  split; [rewrite E; apply surjective_pairing|]. auto.
Qed.

(** At the end of the response exactly when its bytes are used up. *)
Lemma eof_reading s t : reading s t -> is_eof (rd_conn t) = true <-> st_buf s = [].
Proof.
  intros (ps & F & W & Sb & _). rewrite <- Sb. unfold is_eof, stream_of. destruct ps as [|p ps].
  - cbn in W. rewrite W. cbn [map concat andb]. rewrite app_nil_r. destruct (c_buf (rd_conn t)); [split; reflexivity|split; discriminate].
  - destruct W as (Fl & init & last & E & _ & _ & N). rewrite Fl, E, map_app, concat_app. cbn. rewrite app_nil_r.
    split; [discriminate|]. intros X. apply app_eq_nil in X as [_ X]. apply app_eq_nil in X as [_ X]. contradiction.
Qed.

Lemma sim_next : simulates next_token stream_next.
Proof.
  intros s t R W. pose proof (eof_reading s t R) as B. unfold next_token, stream_next.
  assert (E : rd_error t = last_error s) by (destruct R as (ps & _ & _ & _ & _ & E); exact E). rewrite E.
  destruct (is_eof (rd_conn t)).
  - rewrite (proj1 B eq_refl). destruct (last_error s); eexists _, s, t; auto 10.
  - destruct (st_buf s) eqn:Eb; [discriminate (proj2 B eq_refl)|]. exact (sim_read_token s t R W).
Qed.

(** What the caller pulls out of a response. *)
Lemma pull_sim k : forall s t, reading s t -> wf_stream s -> exists ts s' t', pull next_token k s = (ts, s') /\ pull stream_next k t = (ts, t') /\
  reading s' t' /\ wf_stream s' /\
  c_out (rd_conn t') = c_out (rd_conn t) /\ c_poisoned (rd_conn t') = c_poisoned (rd_conn t) /\ c_desync (rd_conn t') = c_desync (rd_conn t).
Proof.
  induction k as [|k IH]; intros s t R W; cbn [pull]; [exists [], s, t; auto 10|].
  destruct (sim_next s t R W) as (r & s1 & t1 & -> & -> & R1 & W1 & O1 & P1 & D1).
  destruct r as [[x|]|e| |]; [|eexists _, s1, t1; auto 10..].
  destruct (IH s1 t1 R1 W1) as (ts & s2 & t2 & -> & -> & R2 & W2 & O2 & P2 & D2). eexists _, s2, t2. repeat split; eauto; congruence || apply W2.
Qed.

(** The tokens of a pull, and what they did to the session. *)
Lemma pull_yields k : forall s, exists ts s1 last, yields s ts s1 /\ fst (pull next_token k s) = map Ok ts ++ last /\ (length last <= 1)%nat /\
  (forall t, In (Ok t) last -> False) /\ (last = [] -> pull next_token k s = (map Ok ts, snd (pull next_token k s))).
Proof.
  induction k as [|k IH]; intros s; [exists [], s, []; repeat split; auto; constructor|]. cbn [pull].
  destruct (next_token s) as [[[x|]|e| |] s1] eqn:E.
  - destruct (IH s1) as (ts & s2 & last & Y & F & L & N & D). destruct (pull next_token k s1) as [ts' s'] eqn:Ep. cbn [fst snd] in *.
    exists (x :: ts), s2, last. split; [econstructor; eauto|]. cbn. rewrite F. repeat split; auto. intros X. specialize (D X). injection D as ->. congruence.
  - exists [], s, []. repeat split; auto; constructor.
  - exists [], s, [Err e]. repeat split; auto; try constructor; try discriminate. intros t [X|[]]; discriminate X.
  - exists [], s, [Panic]. repeat split; auto; try constructor; try discriminate. intros t [X|[]]; discriminate X.
  - exists [], s, [OutOfFuel]. repeat split; auto; try constructor; try discriminate. intros t [X|[]]; discriminate X.
Qed.

(** As many rounds as there are bytes give the whole response. *)
Lemma pull_all k : forall s, wf_stream s -> (length (st_buf s) < k)%nat -> fst (pull next_token k s) = response k s.
Proof.
  induction k as [|k IH]; intros s W Hk; [lia|]. cbn [pull response].
  destruct (next_token_safe s W) as (r & s1 & -> & Hr & W1 & _ & P).
  destruct r as [[x|]|e| |]; try reflexivity. specialize (P x eq_refl). specialize (IH s1 W1 ltac:(lia)).
  destruct (pull next_token k s1). cbn in *. congruence.
Qed.

(** The bytes of a response, before anything of it is read. *)
Definition response_stream (ps : list Packet) (c : Connection) : Stream := mkStream (stream_of ps c) (c_ctx c) None.

Lemma reading_start ps c : framed ps c -> ends_well ps c -> reading (response_stream ps c) (reader_new c).
Proof. intros F W. exists ps. auto. Qed.

(** ** Properties *)

(** C11: reading a response through a connection is decoding its bytes: however
    the server cuts a response into packets, any number of rounds of the token
    stream over the connection hand out what the same rounds over the joined
    payloads hand out, tokens and errors, [flush_done] and the drain after an
    Attention included; the session, the remembered error and the unread rest
    are the same, the stream ends exactly where the bytes of the message do,
    and the outbound side is not touched. *)
Theorem reader_refines (ps : list Packet) (c : Connection) (k : nat) (F : framed ps c) (W : ends_well ps c)
  (Wb : wf_bytes (stream_of ps c)) (Wc : wf_context (c_ctx c)) :
  (exists ts s' t' ps', pull next_token k (response_stream ps c) = (ts, s') /\ pull stream_next k (reader_new c) = (ts, t') /\
     framed ps' (rd_conn t') /\ stream_of ps' (rd_conn t') = st_buf s' /\ c_ctx (rd_conn t') = st_ctx s' /\ rd_error t' = last_error s' /\
     (is_eof (rd_conn t') = true <-> st_buf s' = []) /\ c_out (rd_conn t') = c_out c) /\
  fst (flush_done stream_next k None None (reader_new c)) = fst (flush_done next_token k None None (response_stream ps c)) /\
  fst (flush_done_attention stream_next k (reader_new c)) = fst (flush_done_attention next_token k (response_stream ps c)).
Proof.
  pose proof (reading_start ps c F W) as R. assert (Ws : wf_stream (response_stream ps c)) by (split; [exact Wb|split; [exact Wc|exact I]]).
  split; [|split].
  - destruct (pull_sim k _ _ R Ws) as (ts & s' & t' & E & E' & R' & _ & O & _). exists ts, s', t'. pose proof (eof_reading s' t' R') as B.
    destruct R' as (ps' & F' & _ & S' & C' & L'). exists ps'. auto 10.
  - destruct (sim_flush_done _ _ sim_next k None None _ _ R Ws) as (r & s' & t' & -> & -> & _). reflexivity.
  - destruct (sim_flush_attention _ _ sim_next k _ _ R Ws) as (r & s' & t' & -> & -> & _). reflexivity.
Qed.
End Refinement.

(** ** Witnesses *)

(** A DONE cut in two by a packet boundary. *)
Definition done_packets : list Packet :=
  [sent (mkPacket (set_status PacketStatus.NormalMessage (header_batch 1)) [0xFD; 0x10; 0; 0xC1]);
   sent (mkPacket (header_login 2) [0; 5; 0; 0; 0; 0; 0; 0; 0])].
Definition conn_done : Connection := connection_new context_new (raws done_packets).

Lemma done_packets_wire : Forall wire_packet done_packets.
Proof. repeat constructor; vm_compute; congruence. Qed.

Lemma reader_refines_witness :
  framed done_packets conn_done /\ ends_well done_packets conn_done /\
  exists t', pull (stream_next (ER := ascii_encoding_rs)) 3 (reader_new conn_done) = ([Ok (ReceivedToken.Done (mkTokenDone 16 193 5))], t') /\
    is_eof (rd_conn t') = true.
Proof.
  assert (F : framed done_packets conn_done) by (split; [exact done_packets_wire|reflexivity]).
  assert (W : ends_well done_packets conn_done).
  { split; [reflexivity|]. eexists [_], _. split; [reflexivity|]. split; [repeat constructor|]. split; [reflexivity|discriminate]. }
  split; [exact F|]. split; [exact W|].
  destruct (reader_refines (ER := ascii_encoding_rs) done_packets conn_done 3 F W) as [(ts & s' & t' & ps' & E & E' & _ & _ & _ & _ & B & _) _];
    [repeat constructor; lia|exact wf_context_new|].
  exists t'. vm_compute in E. injection E as <- <-. split; [exact E'|apply B; reflexivity].
Defined.
