(* ===== verification/Tls.v ===== *)
(** * Tls: [client/tls.rs], the wrapper of the TLS handshake

    While the TLS handshake runs, its records travel inside PRELOGIN packets:
    [TlsPreloginWrapper] strips the packet headers from what it reads and
    wraps what it writes.  It is polled, so every operation can stop half way
    and is resumed by the next poll from the state it left.  The stream below
    is a list of what its polls answer: not ready, ready for at most some
    bytes, or a failure; an exhausted list is a stream that is not ready. *)

From S2P Require Import Prelude Unicode SqlRead SqlWrite Types Context Packet Connection.

Inductive Poll (A : Type) := Pending | Ready (a : A).
Arguments Pending {A}.
Arguments Ready {A} a.

(** [Moves n]: a read of at most [S n] bytes, of none only at the end of the
    input; a write that takes at most [n] bytes; a flush that is done. *)
Inductive IoEvent := NotReady | Moves (n : nat) | Fails.

Record TlsPreloginWrapper := mkWrapper {
  pending_handshake : bool;
  header_read : bytes;   (** [header_buf[..header_pos]] *)
  read_remaining : Z;
  wr_buf : bytes;
  header_written : bool;
}.

Definition header_size : nat := Z.to_nat HEADER_BYTES.

(** [TlsPreloginWrapper::new], [handshake_complete] *)
Definition wrapper_new : TlsPreloginWrapper := mkWrapper true [] 0 (repeat 0 header_size) false.
Definition handshake_complete (w : TlsPreloginWrapper) : TlsPreloginWrapper :=
  mkWrapper false (header_read w) (read_remaining w) (wr_buf w) (header_written w).

(** One poll of the stream below for at most [k] bytes. *)
Definition inner_read (k : nat) (events : list IoEvent) (input : bytes) : Poll (Res bytes) * list IoEvent * bytes :=
  match events with
  | [] => (Pending, [], input)
  | NotReady :: events => (Pending, events, input)
  | Fails :: events => (Ready (Err (Io OtherIo)), events, input)
  | Moves n :: events => (Ready (Ok (take (Nat.min (S n) k) input)), events, drop (Nat.min (S n) k) input)
  end.

(** The loop that fills the header; [Ready (Ok false)] is the end of the input. *)
Fixpoint header_loop (events : list IoEvent) (hb input : bytes) : Poll (Res bool) * list IoEvent * bytes * bytes :=
  if (header_size <=? length hb)%nat then (Ready (Ok true), events, hb, input)
  else
    match events with
    | [] => (Pending, [], hb, input)
    | NotReady :: events => (Pending, events, hb, input)
    | Fails :: events => (Ready (Err (Io OtherIo)), events, hb, input)
    | Moves n :: events =>
        let k := Nat.min (S n) (header_size - length hb) in
        match take k input with
        | [] => (Ready (Ok false), events, hb, input)
        | got => header_loop events (hb ++ got) (drop k input)
        end
    end.

(** What a full header says: the size of the payload. *)
Definition header_payload (hb : bytes) : Res Z :=
  match fst (header_decode hb) with
  | Ok h =>
      match h_type h with
      | PacketType.PreLogin => if h_length h <? HEADER_BYTES then Err (Io InvalidData) else Ok (h_length h - HEADER_BYTES)
      | _ => Err (Io InvalidData)
      end
  | Err _ => Err (Io OtherIo)
  | Panic => Panic
  | OutOfFuel => OutOfFuel
  end.

(** The payload part of [poll_read]. *)
Definition read_payload (n : nat) (w : TlsPreloginWrapper) (events : list IoEvent) (input : bytes)
    : Poll (Res bytes) * list IoEvent * TlsPreloginWrapper * bytes :=
  let max_read := Nat.min (Z.to_nat (read_remaining w)) n in
  match inner_read max_read events input with
  | (Ready (Ok got), events, input) =>
      let remaining := read_remaining w - len got in
      (Ready (Ok got), events, mkWrapper (pending_handshake w) (if remaining =? 0 then [] else header_read w) remaining (wr_buf w) (header_written w), input)
  | (r, events, input) => (r, events, w, input)
  end.

(** [poll_read] with a buffer of [n] bytes *)
Definition wrapper_poll_read (n : nat) (w : TlsPreloginWrapper) (events : list IoEvent) (input : bytes)
    : Poll (Res bytes) * list IoEvent * TlsPreloginWrapper * bytes :=
  if negb (pending_handshake w) then
    let '(r, events, input) := inner_read n events input in (r, events, w, input)
  else if (length (header_read w) <? header_size)%nat then
    match header_loop events (header_read w) input with
    | (Pending, events, hb, input) => (Pending, events, mkWrapper (pending_handshake w) hb (read_remaining w) (wr_buf w) (header_written w), input)
    | (Ready (Ok true), events, hb, input) =>
        let w := mkWrapper (pending_handshake w) hb (read_remaining w) (wr_buf w) (header_written w) in
        match header_payload hb with
        | Ok remaining => read_payload n (mkWrapper (pending_handshake w) hb remaining (wr_buf w) (header_written w)) events input
        | Err e => (Ready (Err e), events, w, input)
        | Panic => (Ready Panic, events, w, input)
        | OutOfFuel => (Ready OutOfFuel, events, w, input)
        end
    | (Ready (Ok false), events, hb, input) => (Ready (Ok []), events, mkWrapper (pending_handshake w) hb (read_remaining w) (wr_buf w) (header_written w), input)
    | (Ready (Err e), events, hb, input) => (Ready (Err e), events, mkWrapper (pending_handshake w) hb (read_remaining w) (wr_buf w) (header_written w), input)
    | (Ready Panic, events, hb, input) => (Ready Panic, events, w, input)
    | (Ready OutOfFuel, events, hb, input) => (Ready OutOfFuel, events, w, input)
    end
  else read_payload n w events input.

(** ** Writing *)

(** [poll_write] *)
Definition inner_write (buf : bytes) (events : list IoEvent) (out : bytes) : Poll (Res Z) * list IoEvent * bytes :=
  match events with
  | [] => (Pending, [], out)
  | NotReady :: events => (Pending, events, out)
  | Fails :: events => (Ready (Err (Io OtherIo)), events, out)
  | Moves n :: events => (Ready (Ok (len (take n buf))), events, out ++ take n buf)
  end.
Definition wrapper_poll_write (buf : bytes) (w : TlsPreloginWrapper) (events : list IoEvent) (out : bytes)
    : Poll (Res Z) * list IoEvent * TlsPreloginWrapper * bytes :=
  if negb (pending_handshake w) then
    let '(r, events, out) := inner_write buf events out in (r, events, w, out)
  else (Ready (Ok (len buf)), events, mkWrapper (pending_handshake w) (header_read w) (read_remaining w) (wr_buf w ++ buf) (header_written w), out).

(** The loop of [poll_flush] over what is buffered. *)
Fixpoint write_loop (events : list IoEvent) (wr out : bytes) : Poll (Res unit) * list IoEvent * bytes * bytes :=
  match wr with
  | [] => (Ready (Ok tt), events, wr, out)
  | _ =>
      match events with
      | [] => (Pending, [], wr, out)
      | NotReady :: events => (Pending, events, wr, out)
      | Fails :: events => (Ready (Err (Io OtherIo)), events, wr, out)
      | Moves n :: events => write_loop events (drop n wr) (out ++ take n wr)
      end
  end.

(** The header of a flight, written over the first bytes of the buffer. *)
Definition flight_header (wr : bytes) : Res bytes :=
  res_map (fun h => header_bytes (mkPacketHeader PacketType.PreLogin PacketStatus.EndOfMessage (h_length h) (h_spid h) (h_id h) (h_window h)) ++ drop header_size wr)
    (header_new (len wr) 0).

(** The flush of the stream below. *)
Definition inner_flush (events : list IoEvent) : Poll (Res unit) * list IoEvent :=
  match events with
  | [] => (Pending, [])
  | NotReady :: events => (Pending, events)
  | Fails :: events => (Ready (Err (Io OtherIo)), events)
  | Moves _ :: events => (Ready (Ok tt), events)
  end.

(** [poll_flush] *)
Definition wrapper_poll_flush (w : TlsPreloginWrapper) (events : list IoEvent) (out : bytes)
    : Poll (Res unit) * list IoEvent * TlsPreloginWrapper * bytes :=
  if pending_handshake w && (header_size <? length (wr_buf w))%nat then
    match (if header_written w then Ok (wr_buf w) else flight_header (wr_buf w)) with
    | Ok wr =>
        let set wr written := mkWrapper (pending_handshake w) (header_read w) (read_remaining w) wr written in
        match write_loop events wr out with
        | (Ready (Ok _), events, _, out) =>
            let (r, events) := inner_flush events in (r, events, set (repeat 0 header_size) false, out)
        | (r, events, wr, out) => (r, events, set wr true, out)
        end
    | Err e => (Ready (Err e), events, w, out)
    | Panic => (Ready Panic, events, w, out)
    | OutOfFuel => (Ready OutOfFuel, events, w, out)
    end
  else let (r, events) := inner_flush events in (r, events, w, out).

(** ** Lemmas: reading *)

(** A packet of the handshake: a PRELOGIN packet that carries something. *)
Definition handshake_packet (p : Packet) : Prop :=
  wire_packet p /\ h_type (p_header p) = PacketType.PreLogin /\ p_payload p <> [].

(** Where the wrapper is in a stream of such packets, and the payload that is
    still to be handed over. *)
Inductive positioned : TlsPreloginWrapper -> bytes -> bytes -> Prop :=
| at_header hb rem wr hw input ps : Forall handshake_packet ps -> hb ++ input = raws ps -> (length hb < header_size)%nat ->
    positioned (mkWrapper true hb rem wr hw) input (concat (map p_payload ps))
| at_payload hb rem wr hw q ps : Forall handshake_packet ps -> length hb = header_size -> q <> [] -> rem = len q ->
    positioned (mkWrapper true hb rem wr hw) (q ++ raws ps) (q ++ concat (map p_payload ps)).

Lemma header_loop_spec events : forall hb input, (length hb <= header_size)%nat ->
  let '(r, events', hb', input') := header_loop events hb input in
  hb' ++ input' = hb ++ input /\ (length hb' <= header_size)%nat /\
  match r with
  | Pending => (length hb' < header_size)%nat
  | Ready (Ok true) => length hb' = header_size
  | Ready (Ok false) => (length hb' < header_size)%nat /\ input' = []
  | Ready (Err _) => In Fails events /\ (length hb' < header_size)%nat
  | Ready _ => False
  end /\ (In Fails events' -> In Fails events).
Proof.
  assert (Unf : forall ev hb input, header_loop ev hb input =
    if (header_size <=? length hb)%nat then (Ready (Ok true), ev, hb, input)
    else match ev with
      | [] => (Pending, [], hb, input) | NotReady :: ev => (Pending, ev, hb, input) | Fails :: ev => (Ready (Err (Io OtherIo)), ev, hb, input)
      | Moves n :: ev => match take (Nat.min (S n) (header_size - length hb)) input with
          | [] => (Ready (Ok false), ev, hb, input)
          | got => header_loop ev (hb ++ got) (drop (Nat.min (S n) (header_size - length hb)) input) end
      end) by (intros [|[]]; reflexivity).
  induction events as [|e events IH]; intros hb input L; rewrite Unf; destruct (Nat.leb_spec header_size (length hb)) as [G|G]; try (repeat split; auto; lia).
  destruct e as [|n|]; try (repeat split; cbn; auto; lia). set (k := Nat.min (S n) (header_size - length hb)).
  destruct (take k input) as [|x got] eqn:T.
  - repeat split; try lia; [|cbn; auto]. destruct input as [|y input]; [reflexivity|]. assert (0 < k)%nat by lia. destruct k; [lia|discriminate].
  - assert (Lk : (length (x :: got) <= k)%nat) by (rewrite <- T, length_take; lia).
    specialize (IH (hb ++ x :: got) (drop k input)). rewrite length_app in IH. specialize (IH ltac:(lia)).
    destruct (header_loop events (hb ++ x :: got) (drop k input)) as [[[r ev'] hb'] input']. destruct IH as (E & B & R & F).
    split; [rewrite E, <- app_assoc, <- T, take_drop; reflexivity|]. split; [exact B|]. split; [|cbn; auto].
    destruct r as [|[[]| | |]]; try exact R. destruct R. split; [right; assumption|assumption].
Qed.

Lemma full_header hb input ps : Forall handshake_packet ps -> hb ++ input = raws ps -> length hb = header_size ->
  exists p ps', ps = p :: ps' /\ handshake_packet p /\ Forall handshake_packet ps' /\
    input = p_payload p ++ raws ps' /\ header_payload hb = Ok (len (p_payload p)).
Proof.
  intros F E L. destruct ps as [|p ps]; [apply app_eq_nil in E as [-> _]; discriminate|]. apply Forall_cons in F as [Hp F]. exists p, ps.
  change (raws (p :: ps)) with ((header_bytes (p_header p) ++ p_payload p) ++ raws ps) in E. rewrite <- app_assoc in E.
  apply app_inj_1 in E as [-> ->]; [|rewrite L, length_header_bytes; reflexivity].
  split; [reflexivity|]. split; [exact Hp|]. split; [exact F|]. split; [reflexivity|]. destruct Hp as ((W & Hl) & Ht & _). unfold header_payload.
  pose proof (decodes_header _ W []) as D. rewrite app_nil_r in D. rewrite D. cbn [fst]. rewrite Ht, Hl.
  rewrite (proj2 (Z.ltb_ge _ _)) by lia. f_equal. lia.
Qed.

(** The state a poll leaves, and what it hands over. *)
Definition step_ok (n : nat) (events : list IoEvent) (todo : bytes) (r : Poll (Res bytes)) (w' : TlsPreloginWrapper) (input' : bytes) : Prop :=
  match r with
  | Pending => positioned w' input' todo
  | Ready (Ok got) => exists todo', todo = got ++ todo' /\ positioned w' input' todo' /\ (length got <= n)%nat /\ (got = [] -> (0 < n)%nat -> todo = [])
  | Ready (Err _) => In Fails events /\ positioned w' input' todo
  | Ready _ => False
  end.

Lemma read_payload_spec n hb rem wr hw q ps events : Forall handshake_packet ps -> length hb = header_size -> q <> [] -> rem = len q ->
  let '(r, _, w', input') := read_payload n (mkWrapper true hb rem wr hw) events (q ++ raws ps) in
  step_ok n events (q ++ concat (map p_payload ps)) r w' input'.
Proof.
  intros F L Q ->. assert (P : positioned (mkWrapper true hb (len q) wr hw) (q ++ raws ps) (q ++ concat (map p_payload ps))) by (apply at_payload; auto).
  unfold read_payload. cbn [read_remaining pending_handshake header_read wr_buf header_written]. rewrite Nat2Z.id.
  destruct events as [|[|k|] events]; cbn [inner_read step_ok]; [exact P|exact P| |split; [left; reflexivity|exact P]].
  set (m := Nat.min (S k) (Nat.min (length q) n)). assert (Lq : (0 < length q)%nat) by (destruct q; [congruence|cbn; lia]). assert (Hm : (m <= length q)%nat /\ (m <= n)%nat /\ ((0 < n)%nat -> (0 < m)%nat)) by (unfold m; lia).
  rewrite take_app_le, drop_app_le by lia. exists (drop m q ++ concat (map p_payload ps)). split; [rewrite app_assoc, take_drop; reflexivity|]. split.
  - rewrite length_take, Nat.min_l by lia. destruct (Z.eqb_spec (len q - Z.of_nat m) 0) as [Z0|Z0].
    + rewrite drop_ge by lia. cbn [app]. apply at_header; [exact F|reflexivity|change header_size with 8%nat; cbn; lia].
    + apply at_payload; try assumption.
      * intros X. apply (f_equal length) in X. rewrite length_drop in X. cbn [length] in X. lia.
      * rewrite length_drop. lia.
  - split; [rewrite length_take; lia|]. intros X Hn. apply (f_equal length) in X. rewrite length_take in X. cbn [length] in X. lia.
Qed.

(** One poll, from any position in a stream of handshake packets. *)
Lemma poll_read_positioned n w events input todo : positioned w input todo ->
  let '(r, _, w', input') := wrapper_poll_read n w events input in step_ok n events todo r w' input'.
Proof.
  intros P. destruct P as [hb rem wr hw input ps F E L|hb rem wr hw q ps F L Q R].
  - unfold wrapper_poll_read. cbn [pending_handshake negb header_read read_remaining wr_buf header_written]. rewrite (proj2 (Nat.ltb_lt _ _) L).
    pose proof (header_loop_spec events hb input ltac:(lia)) as H. destruct (header_loop events hb input) as [[[r ev'] hb'] input'].
    destruct H as (E' & B & R & Fs). rewrite E in E'. destruct r as [|[[]|e| |]]; try contradiction.
    + cbn [step_ok]. apply at_header; assumption.
    + destruct (full_header hb' input' ps F E' R) as (p & ps' & -> & Hp & F' & -> & ->).
      pose proof (read_payload_spec n hb' (len (p_payload p)) wr hw (p_payload p) ps' ev' F' R ltac:(apply Hp) eq_refl) as S.
      destruct (read_payload _ _ _ _) as [[[r ev''] w'] input'']. cbn [map concat]. unfold step_ok in *.
      destruct r as [|[]]; try exact S. destruct S. auto.
    + destruct R as [R ->]. rewrite app_nil_r in E'. assert (ps = []) as ->.
      { destruct ps as [|p ps]; [reflexivity|]. apply (f_equal length) in E'. change (raws (p :: ps)) with ((header_bytes (p_header p) ++ p_payload p) ++ raws ps) in E'.
        rewrite !length_app, length_header_bytes in E'. change header_size with 8%nat in R. lia. }
      cbn [step_ok]. exists []. split; [reflexivity|]. split; [|split; [cbn; lia|reflexivity]]. apply (at_header hb' rem wr hw [] []); [constructor|rewrite app_nil_r; exact E'|exact R].
    + destruct R as [R Lh]. split; [exact R|]. apply at_header; assumption.
  - unfold wrapper_poll_read. cbn [pending_handshake negb header_read]. rewrite L, Nat.ltb_irrefl. apply read_payload_spec; assumption.
Qed.

(** Whatever is read, a poll does not panic. *)
Lemma poll_read_safe n w events input : (length (header_read w) <= header_size)%nat ->
  match fst (fst (fst (wrapper_poll_read n w events input))) with Ready Panic | Ready OutOfFuel => False | _ => True end.
Proof.
  assert (Rp : forall n w ev inp, match fst (fst (fst (read_payload n w ev inp))) with Ready Panic | Ready OutOfFuel => False | _ => True end).
  { intros m v ev inp. unfold read_payload. destruct ev as [|[]]; exact I. }
  intros L. unfold wrapper_poll_read. destruct (pending_handshake w); cbn [negb]; [|destruct events as [|[]]; exact I].
  destruct (Nat.ltb_spec (length (header_read w)) header_size); [|apply Rp].
  pose proof (header_loop_spec events (header_read w) input L) as H'. destruct (header_loop events (header_read w) input) as [[[r ev'] hb'] input'].
  destruct H' as (_ & _ & R & _). destruct r as [|[[]| | |]]; try exact I; try contradiction.
  unfold header_payload. pose proof (header_decode_8 hb' ltac:(change header_size with 8%nat in R; lia)) as D.
  destruct (header_decode hb') as [[h|e| |] rest]; cbn [fst]; try contradiction; try exact I.
  destruct (h_type h); try exact I. destruct (h_length h <? HEADER_BYTES); [exact I|]. apply Rp.
Qed.

(** A sequence of polls, each with its buffer size and what the stream below
    answers during it; the bytes handed over. *)
Fixpoint read_polls (polls : list (nat * list IoEvent)) (w : TlsPreloginWrapper) (input : bytes) : bytes * TlsPreloginWrapper * bytes :=
  match polls with
  | [] => ([], w, input)
  | (n, events) :: polls =>
      let '(r, _, w, input) := wrapper_poll_read n w events input in
      let '(got, w, input) := read_polls polls w input in
      ((match r with Ready (Ok bs) => bs | _ => [] end) ++ got, w, input)
  end.

(** A stream that stays ready fills the header. *)
Lemma header_loop_ready events : forall hb input, Forall (fun e => exists k, e = Moves k) events -> (length hb <= header_size)%nat ->
  (header_size - length hb < length events)%nat ->
  let '(r, events', hb', _) := header_loop events hb input in
  r <> Pending /\ Forall (fun e => exists k, e = Moves k) events' /\ (match r with Ready (Ok true) => events' <> [] | _ => True end).
Proof.
  induction events as [|e events IH]; intros hb input F L N; [cbn [length] in N; lia|]. pose proof F as F0. apply Forall_cons in F as [(k & ->) F]. cbn [header_loop].
  destruct (Nat.leb_spec header_size (length hb)) as [G|G]; [split; [discriminate|]; split; [exact F0|discriminate]|].
  set (m := Nat.min (S k) (header_size - length hb)). destruct (take m input) as [|x got] eqn:T; [split; [discriminate|]; split; [exact F|exact I]|].
  assert (Lk : (length (x :: got) <= m)%nat) by (rewrite <- T, length_take; lia). apply IH; [exact F|rewrite length_app; lia|].
  rewrite length_app. cbn [length] in *. lia.
Qed.

(** ** Lemmas: writing *)

Lemma write_loop_spec events : forall wr out,
  let '(r, _, wr', out') := write_loop events wr out in
  (exists done, wr = done ++ wr' /\ out' = out ++ done) /\
  match r with Ready (Ok _) => wr' = [] | Pending => wr' <> [] | Ready (Err _) => In Fails events | Ready _ => False end.
Proof.
  assert (Unf : forall ev wr out, write_loop ev wr out =
    match wr with [] => (Ready (Ok tt), ev, wr, out)
    | _ => match ev with [] => (Pending, [], wr, out) | NotReady :: ev => (Pending, ev, wr, out) | Fails :: ev => (Ready (Err (Io OtherIo)), ev, wr, out)
           | Moves n :: ev => write_loop ev (drop n wr) (out ++ take n wr) end end) by (intros [|[]]; reflexivity).
  assert (Stay : forall wr out : bytes, exists done, wr = done ++ wr /\ out = out ++ done) by (intros wr out; exists []; rewrite app_nil_r; auto).
  induction events as [|e events IH]; intros wr out; rewrite Unf; destruct wr as [|x wr]; try (split; [apply Stay|]; reflexivity || discriminate).
  destruct e as [|n|]; [split; [apply Stay|discriminate]| |split; [apply Stay|left; reflexivity]].
  specialize (IH (drop n (x :: wr)) (out ++ take n (x :: wr))). destruct (write_loop events _ _) as [[[r ev'] wr'] out'].
  destruct IH as [(done & E & ->) R]. split; [exists (take n (x :: wr) ++ done); rewrite <- app_assoc, <- E, take_drop, app_assoc; auto|].
  destruct r as [|[]]; try exact R. right. exact R.
Qed.

Lemma write_loop_fails events : forall wr out, In Fails (snd (fst (fst (write_loop events wr out)))) -> In Fails events.
Proof.
  induction events as [|e events IH]; intros [|x wr] out H; try exact H. destruct e as [|n|]; cbn [write_loop] in H.
  - right. exact H.
  - right. exact (IH _ _ H).
  - left. reflexivity.
Qed.

(** A flight of the handshake, as it has to arrive. *)
Definition flight (data : bytes) : bytes := packet_bytes (mkPacket (header_pre_login 0) data).

Lemma flight_header_spec zeros data : length zeros = header_size -> len data + HEADER_BYTES <= 65535 -> flight_header (zeros ++ data) = Ok (flight data).
Proof.
  intros Lz Ld. unfold flight_header, header_new. rewrite length_app, Lz. change (Z.of_nat (header_size + length data)) with (Z.of_nat (8 + length data)).
  rewrite Nat2Z.inj_add. change (Z.of_nat 8) with HEADER_BYTES. rewrite (proj2 (Z.leb_le _ _)) by lia. cbn [res_map h_length h_spid h_id h_window].
  unfold flight, packet_bytes. cbn [p_payload p_header]. rewrite drop_app_length' by (symmetry; exact Lz). do 3 f_equal. unfold set_length. cbn. f_equal. lia.
Qed.

(** The polls of one flush, until one is ready. *)
Fixpoint flush_polls (polls : list (list IoEvent)) (w : TlsPreloginWrapper) (out : bytes) : Poll (Res unit) * TlsPreloginWrapper * bytes :=
  match polls with
  | [] => (Pending, w, out)
  | events :: polls =>
      match wrapper_poll_flush w events out with
      | (Pending, _, w, out) => flush_polls polls w out
      | (r, _, w, out) => (r, w, out)
      end
  end.

(** Half way through a flush: what of the flight is written, and what is left
    of it in the buffer. *)
Inductive flushing (data out0 : bytes) : TlsPreloginWrapper -> bytes -> Prop :=
| flush_start hb rem : flushing data out0 (mkWrapper true hb rem (repeat 0 header_size ++ data) false) out0
| flush_mid hb rem sent tail : flight data = sent ++ tail -> tail <> [] -> flushing data out0 (mkWrapper true hb rem tail true) (out0 ++ sent)
| flush_end hb rem : flushing data out0 (mkWrapper true hb rem (repeat 0 header_size) false) (out0 ++ flight data).

(** What a flush that is ready has done. *)
Definition flushed (data out0 : bytes) (w' : TlsPreloginWrapper) (out' : bytes) : Prop :=
  out' = out0 ++ flight data /\ wr_buf w' = repeat 0 header_size /\ header_written w' = false \/
  exists sent tail, flight data = sent ++ tail /\ (0 < length tail <= header_size)%nat /\ out' = out0 ++ sent /\ wr_buf w' = tail /\ header_written w' = true.

Lemma poll_flush_step data out0 w events out : data <> [] -> len data + HEADER_BYTES <= 65535 -> flushing data out0 w out ->
  let '(r, _, w', out') := wrapper_poll_flush w events out in
  match r with
  | Pending => flushing data out0 w' out'
  | Ready (Ok _) => flushed data out0 w' out'
  | Ready (Err _) => In Fails events
  | Ready _ => False
  end.
Proof.
  intros Hd Ld F.
  assert (Loop : forall hb rem wr sent, flight data = sent ++ wr ->
    let '(r, _, w', out') := match write_loop events wr (out0 ++ sent) with
      | (Ready (Ok _), ev, _, o) => let (r, ev) := inner_flush ev in (r, ev, mkWrapper true hb rem (repeat 0 header_size) false, o)
      | (r, ev, wr, o) => (r, ev, mkWrapper true hb rem wr true, o) end in
    match r with Pending => flushing data out0 w' out' | Ready (Ok _) => flushed data out0 w' out' | Ready (Err _) => In Fails events | Ready _ => False end).
  { intros hb rem wr sent E. pose proof (write_loop_fails events wr (out0 ++ sent)) as Fs. pose proof (write_loop_spec events wr (out0 ++ sent)) as W.
    destruct (write_loop events wr (out0 ++ sent)) as [[[r ev] wr'] o]. destruct W as [(done & -> & ->) R]. cbn [fst snd] in Fs. rewrite <- app_assoc.
    destruct r as [|[[]|e| |]]; try contradiction.
    - apply flush_mid; [rewrite <- app_assoc; exact E|exact R].
    - subst wr'. rewrite app_nil_r in E. rewrite <- E. destruct ev as [|[|n|] ev]; cbn [inner_flush]; try apply flush_end.
      + left. auto.
      + apply Fs. left. reflexivity.
    - exact R. }
  destruct F as [hb rem|hb rem sent tail E T|hb rem]; unfold wrapper_poll_flush; cbn [pending_handshake header_written wr_buf header_read read_remaining].
  - assert (Ln : (header_size <? length (repeat 0%Z header_size ++ data))%nat = true).
    { apply Nat.ltb_lt. rewrite length_app, repeat_length. destruct data; [congruence|cbn [length]; lia]. }
    rewrite Ln. cbn [andb]. rewrite flight_header_spec by (apply repeat_length || exact Ld).
    specialize (Loop hb rem (flight data) [] eq_refl). rewrite app_nil_r in Loop. exact Loop.
  - destruct (Nat.ltb_spec header_size (length tail)) as [G|G]; cbn [andb].
    + exact (Loop hb rem tail sent E).
    + destruct events as [|[|n|] events]; cbn [inner_flush]; try (apply flush_mid; assumption); [|left; reflexivity].
      right. exists sent, tail. split; [exact E|]. split; [destruct tail; [congruence|cbn [length] in *; lia]|]. auto.
  - rewrite repeat_length, Nat.ltb_irrefl. cbn [andb]. destruct events as [|[|n|] events]; cbn [inner_flush]; try apply flush_end; [left; auto|left; reflexivity].
Qed.

(** ** Properties *)

(** During the handshake the TLS layer reads the payloads and nothing
    else.  From any position in a stream of PRELOGIN packets (in the middle of
    a header too), over any sequence of polls, whatever the buffer sizes and
    however the transport cuts the bytes and stalls in between, the bytes
    handed over are the next bytes of the concatenated payloads and the
    wrapper is at the position behind them; no poll fails unless the transport
    does, and none reports the end of the stream before it. *)
Theorem handshake_read_refines (polls : list (nat * list IoEvent)) (w : TlsPreloginWrapper) (input todo : bytes)
  (P : positioned w input todo) (Hn : Forall (fun p => (0 < fst p)%nat) polls) :
  let '(got, w', input') := read_polls polls w input in
  exists todo', todo = got ++ todo' /\ positioned w' input' todo' /\
  forall n events, (0 < n)%nat ->
    match fst (fst (fst (wrapper_poll_read n w' events input'))) with
    | Ready (Ok []) => todo' = []
    | Ready (Err _) => In Fails events
    | Ready Panic | Ready OutOfFuel => False
    | _ => True
    end.
Proof.
  revert w input todo P. induction Hn as [|[n events] polls Hn _ IH]; intros w input todo P; cbn [read_polls].
  - exists todo. split; [reflexivity|]. split; [exact P|]. intros n events Hn. pose proof (poll_read_positioned n w events input todo P) as S.
    destruct (wrapper_poll_read n w events input) as [[[r ev] w'] input']. cbn [fst]. destruct r as [|[[|x got]| | |]]; cbn [step_ok] in S; try exact I; try exact S.
    + destruct S as (todo' & _ & _ & _ & E). exact (E eq_refl Hn).
    + apply S.
  - cbn [fst] in Hn. pose proof (poll_read_positioned n w events input todo P) as S.
    destruct (wrapper_poll_read n w events input) as [[[r ev] w1] input1]. cbn [step_ok] in S.
    assert (G : exists todo1, todo = (match r with Ready (Ok bs) => bs | _ => [] end) ++ todo1 /\ positioned w1 input1 todo1).
    { destruct r as [|[got| | |]]; try contradiction; [exists todo; auto| |exists todo; destruct S; auto]. destruct S as (t & E & Pt & _). exists t. auto. }
    destruct G as (todo1 & -> & P1). specialize (IH w1 input1 todo1 P1). destruct (read_polls polls w1 input1) as [[got w'] input'].
    destruct IH as (todo' & -> & P' & R). exists todo'. rewrite <- app_assoc. auto.
Qed.

(** C27: reading makes progress: from any position with payload to come, a poll
    during which the transport is ready nine times hands over at least one
    byte; stalls in between only postpone it. *)
Theorem handshake_read_progress (n : nat) (w : TlsPreloginWrapper) (input todo : bytes) (events : list IoEvent)
  (Hn : (0 < n)%nat) (P : positioned w input todo) (Ht : todo <> [])
  (Hr : Forall (fun e => exists k, e = Moves k) events) (He : (header_size < length events)%nat) :
  exists x got, fst (fst (fst (wrapper_poll_read n w events input))) = Ready (Ok (x :: got)).
Proof.
  assert (Ready_ : forall r, fst (fst (fst (wrapper_poll_read n w events input))) = r -> r <> Pending -> exists x got, r = Ready (Ok (x :: got))).
  { intros r E N. pose proof (poll_read_positioned n w events input todo P) as S. destruct (wrapper_poll_read n w events input) as [[[r' ev] w'] input'].
    cbn [fst] in E. subst r'. destruct r as [|[[|x got]| | |]]; cbn [step_ok] in S; try congruence; try contradiction; eauto.
    - destruct S as (todo' & _ & _ & _ & E). specialize (E eq_refl Hn). congruence.
    - destruct S as [S _]. rewrite List.Forall_forall in Hr. destruct (Hr _ S) as (k & X). discriminate. }
  apply Ready_; [reflexivity|]. unfold wrapper_poll_read. clear Ready_.
  assert (Pay : forall v inp ev, ev <> [] -> Forall (fun e => exists k, e = Moves k) ev -> fst (fst (fst (read_payload n v ev inp))) <> Pending).
  { intros v inp [|e ev] N F; [congruence|]. apply Forall_cons in F as [(k & ->) _]. discriminate. }
  destruct P as [hb rem wr hw input ps F E L|hb rem wr hw q ps F L Q R]; cbn [pending_handshake negb header_read read_remaining wr_buf header_written].
  - rewrite (proj2 (Nat.ltb_lt _ _) L). pose proof (header_loop_ready events hb input Hr ltac:(lia) ltac:(lia)) as H.
    pose proof (header_loop_spec events hb input ltac:(lia)) as H'. destruct (header_loop events hb input) as [[[r ev'] hb'] input'].
    destruct H as (N & Fe & Ne), H' as (_ & _ & R & _). destruct r as [|[[]| | |]]; try congruence; try contradiction; try discriminate.
    destruct (header_payload hb'); try discriminate. apply Pay; assumption.
  - rewrite L, Nat.ltb_irrefl. apply Pay; [destruct events; [cbn in He; lia|discriminate]|exact Hr].
Qed.

(** Flushing a flight of the handshake.  Over any sequence of polls, the
    bytes written are the start of one PRELOGIN packet that ends its message,
    with the right length in front; when the flush is ready the whole packet is
    out and the buffer is empty for the next flight, except when an earlier
    poll stopped with at most eight bytes left: those are not sent by the polls
    that follow, although they report success.  A flush that is ready at its
    first poll sends everything. *)
Theorem handshake_flush (data out0 : bytes) (hb : bytes) (rem : Z) (polls : list (list IoEvent))
  (Hd : data <> []) (Ld : len data + HEADER_BYTES <= 65535) :
  let '(r, w', out') := flush_polls polls (mkWrapper true hb rem (repeat 0 header_size ++ data) false) out0 in
  match r with
  | Pending => prefix out' (out0 ++ flight data)
  | Ready (Ok _) => flushed data out0 w' out' /\
      (forall events, polls = [events] -> out' = out0 ++ flight data /\ wr_buf w' = repeat 0 header_size)
  | Ready (Err _) => exists events, In events polls /\ In Fails events
  | Ready _ => False
  end.
Proof.
  assert (G : forall polls w out, flushing data out0 w out ->
    let '(r, w', out') := flush_polls polls w out in
    match r with
    | Pending => flushing data out0 w' out' | Ready (Ok _) => flushed data out0 w' out'
    | Ready (Err _) => exists events, In events polls /\ In Fails events | Ready _ => False end).
  { clear polls. induction polls as [|events polls IH]; intros w out F; [exact F|]. cbn [flush_polls]. pose proof (poll_flush_step data out0 w events out Hd Ld F) as S.
    destruct (wrapper_poll_flush w events out) as [[[r ev] w1] out1]. destruct r as [|[[]| | |]]; try exact S.
    - specialize (IH w1 out1 S). destruct (flush_polls polls w1 out1) as [[r w'] out']. destruct r as [|[[]| | |]]; try exact IH.
      destruct IH as (e' & I1 & I2). exists e'. split; [right; exact I1|exact I2].
    - exists events. split; [left; reflexivity|exact S]. }
  pose proof (G polls _ _ (flush_start data out0 hb rem)) as H. destruct (flush_polls polls _ out0) as [[r w'] out'] eqn:E. destruct r as [|[[]| | |]]; try exact H.
  - inversion H; subst; [apply prefix_app_r; reflexivity|exists tail; rewrite <- app_assoc; congruence|reflexivity].
  - split; [exact H|]. intros events ->. destruct H as [(H1 & H2 & _)|(sent & tail & _ & _ & _ & _ & X)]; [auto|]. exfalso.
    cbn [flush_polls] in E. unfold wrapper_poll_flush in E. cbn [pending_handshake header_written wr_buf header_read read_remaining] in E.
    assert (Ln : (header_size <? length (repeat 0%Z header_size ++ data))%nat = true).
    { apply Nat.ltb_lt. rewrite length_app, repeat_length. destruct data; [congruence|cbn [length]; lia]. }
    rewrite Ln in E. cbn [andb] in E. rewrite flight_header_spec in E by (apply repeat_length || exact Ld).
    pose proof (write_loop_spec events (flight data) out0) as W. destruct (write_loop events (flight data) out0) as [[[r ev] wr] o]. destruct W as [_ W].
    destruct r as [|[[]| | |]]; try contradiction; try discriminate. destruct ev as [|[|k|] ev]; cbn [inner_flush] in E; try discriminate.
    injection E as <- <-. discriminate.
Qed.

(** ** Witnesses *)

(** Two packets of a handshake; the first poll stops inside the first header. *)
Definition handshake_packets : list Packet :=
  [sent (mkPacket (header_pre_login 0) [22; 3; 1]); sent (mkPacket (header_pre_login 0) [4; 5])].

Lemma wrapper_new_positioned : positioned wrapper_new (raws handshake_packets) [22; 3; 1; 4; 5].
Proof.
  apply (at_header [] 0 (repeat 0 header_size) false (raws handshake_packets) handshake_packets); [|reflexivity|change header_size with 8%nat; cbn; lia].
  repeat constructor; try (vm_compute; congruence); discriminate.
Qed.

Lemma handshake_read_refines_witness :
  let polls := [(16%nat, [Moves 2; NotReady]); (2%nat, [Moves 9; Moves 9]); (16%nat, [Moves 9]); (16%nat, [Moves 9; Moves 0])] in
  fst (fst (read_polls polls wrapper_new (raws handshake_packets))) = [22; 3; 1; 4] /\
  exists todo', [22; 3; 1; 4; 5] = [22; 3; 1; 4] ++ todo'.
Proof.
  intros polls. split; [vm_compute; reflexivity|].
  pose proof (handshake_read_refines polls wrapper_new (raws handshake_packets) [22; 3; 1; 4; 5] wrapper_new_positioned) as H.
  specialize (H ltac:(repeat constructor; cbn; lia)). assert (G : fst (fst (read_polls polls wrapper_new (raws handshake_packets))) = [22; 3; 1; 4]) by (vm_compute; reflexivity).
  destruct (read_polls polls wrapper_new (raws handshake_packets)) as [[got w'] input']. cbn [fst] in G. subst got. destruct H as (todo' & E & _). eauto.
Defined.

Lemma handshake_read_progress_witness :
  exists x got, fst (fst (fst (wrapper_poll_read 16 wrapper_new (repeat (Moves 0) 9) (raws handshake_packets)))) = Ready (Ok (x :: got)).
Proof.
  apply (handshake_read_progress 16 wrapper_new (raws handshake_packets) [22; 3; 1; 4; 5] (repeat (Moves 0) 9)).
  - lia.
  - exact wrapper_new_positioned.
  - discriminate.
  - repeat constructor; eexists; reflexivity.
  - change header_size with 8%nat. cbn. lia.
Defined.

Lemma handshake_flush_witness :
  exists w', flush_polls [[Moves 2; NotReady]; [Moves 100; Moves 0]] (mkWrapper true [] 0 (repeat 0 header_size ++ [22; 3; 1]) false) [] =
    (Ready (Ok tt), w', flight [22; 3; 1]) /\ flushed [22; 3; 1] [] w' (flight [22; 3; 1]).
Proof.
  pose proof (handshake_flush [22; 3; 1] [] [] 0 [[Moves 2; NotReady]; [Moves 100; Moves 0]] ltac:(discriminate) ltac:(vm_compute; discriminate)) as H.
  assert (E : flush_polls [[Moves 2; NotReady]; [Moves 100; Moves 0]] (mkWrapper true [] 0 (repeat 0 header_size ++ [22; 3; 1]) false) [] =
    (Ready (Ok tt), mkWrapper true [] 0 (repeat 0 header_size) false, flight [22; 3; 1])) by (vm_compute; reflexivity).
  rewrite E in H. destruct H as [H _]. eexists. split; [exact E|exact H].
Defined.

(** The transport takes all of a packet but its last two bytes and stalls: the
    polls that follow report success and never send them. *)
Lemma flush_loses_tail :
  let '(r, w', out') := flush_polls [[Moves 9; NotReady]; [Moves 100]] (mkWrapper true [] 0 (repeat 0 header_size ++ [22; 3; 1]) false) [] in
  r = Ready (Ok tt) /\ flight [22; 3; 1] = out' ++ [3; 1] /\ wr_buf w' = [3; 1].
Proof. vm_compute. auto. Qed.
