(* ===== verification/Transport.v ===== *)
(** * Transport: the stack of streams below a connection

    [MaybeTlsStream] and [TlsPreloginWrapper] of [client/tls.rs], the streams
    of [client/tls_stream/*.rs] and the parts of [client/connection.rs] that
    build and take down the stack: a socket, the handshake wrapper around it,
    the TLS library above.  The library is a parameter.  A poll of one of its
    futures is a finite tree of polls of the stream it was given ([Calls]), and
    ends in an answer and a new state of the library: nothing else is known of
    it, so the theorems hold for every library and whatever it computes.  The
    same tree runs over the wrapper, over the bare socket and over a plain
    stream of bytes, and the theorems compare the three. *)

From S2P Require Import Prelude Unicode SqlRead SqlWrite Types Context Packet Connection PreLogin Tls.

(** ** Streams *)

(** [futures_util::io::AsyncRead] and [AsyncWrite] *)
Class AsyncStream (S : Type) := {
  poll_read : nat -> S -> Poll (Res bytes) * S;
  poll_write : bytes -> S -> Poll (Res Z) * S;
  poll_flush : S -> Poll (Res unit) * S;
  poll_close : S -> Poll (Res unit) * S
}.

(** The stream the caller connected: what its polls answer, the bytes of the
    server to read, the bytes written, and whether it is closed. *)
Record Socket := mkSocket { s_events : list IoEvent; s_in : bytes; s_out : bytes; s_closed : bool }.

Definition refill (events : list IoEvent) (s : Socket) : Socket := mkSocket events (s_in s) (s_out s) (s_closed s).

#[export] Instance socket_stream : AsyncStream Socket := {
  poll_read n s := let '(r, events, input) := inner_read n (s_events s) (s_in s) in (r, mkSocket events input (s_out s) (s_closed s));
  poll_write buf s := let '(r, events, out) := inner_write buf (s_events s) (s_out s) in (r, mkSocket events (s_in s) out (s_closed s));
  poll_flush s := let (r, events) := inner_flush (s_events s) in (r, refill events s);
  poll_close s := let (r, events) := inner_flush (s_events s) in
    (r, mkSocket events (s_in s) (s_out s) (match r with Ready (Ok _) => true | _ => s_closed s end))
}.

(** [TlsPreloginWrapper] with its [stream : Option<S>]; a use of it when it is
    taken is the panic of [unwrap]. *)
Record Wrapped := mkWrapped { stream : option Socket; wrapper : TlsPreloginWrapper }.

(** The four polls of [TlsPreloginWrapper]; in the handshake a write does not
    touch the stream. *)
#[export] Instance wrapped_stream : AsyncStream Wrapped := {
  poll_read n x :=
    match stream x with
    | None => (Ready Panic, x)
    | Some s => let '(r, events, w, input) := wrapper_poll_read n (wrapper x) (s_events s) (s_in s) in
                (r, mkWrapped (Some (mkSocket events input (s_out s) (s_closed s))) w)
    end;
  poll_write buf x :=
    match stream x with
    | None => if pending_handshake (wrapper x)
              then let '(r, _, w, _) := wrapper_poll_write buf (wrapper x) [] [] in (r, mkWrapped None w)
              else (Ready Panic, x)
    | Some s => let '(r, events, w, out) := wrapper_poll_write buf (wrapper x) (s_events s) (s_out s) in
                (r, mkWrapped (Some (mkSocket events (s_in s) out (s_closed s))) w)
    end;
  poll_flush x :=
    match stream x with
    | None => (Ready Panic, x)
    | Some s => let '(r, events, w, out) := wrapper_poll_flush (wrapper x) (s_events s) (s_out s) in
                (r, mkWrapped (Some (mkSocket events (s_in s) out (s_closed s))) w)
    end;
  poll_close x :=
    match stream x with
    | None => (Ready Panic, x)
    | Some s => let (r, s) := poll_close s in (r, mkWrapped (Some s) (wrapper x))
    end
}.

Definition wrap_socket (s : Socket) : Wrapped := mkWrapped (Some s) wrapper_new.
Definition complete (x : Wrapped) : Wrapped := mkWrapped (stream x) (handshake_complete (wrapper x)).
Definition wrapped_refill (events : list IoEvent) (x : Wrapped) : Wrapped := mkWrapped (option_map (refill events) (stream x)) (wrapper x).

(** ** The TLS library *)

(** What one poll of the library asks of the stream below. *)
Inductive Calls (A : Type) : Type :=
| Returns (a : A)
| CallRead (n : nat) (k : Poll (Res bytes) -> Calls A)
| CallWrite (buf : bytes) (k : Poll (Res Z) -> Calls A)
| CallFlush (k : Poll (Res unit) -> Calls A)
| CallClose (k : Poll (Res unit) -> Calls A).
Arguments Returns {A} a.
Arguments CallRead {A} n k.
Arguments CallWrite {A} buf k.
Arguments CallFlush {A} k.
Arguments CallClose {A} k.

Fixpoint run {S A} `{AsyncStream S} (p : Calls A) (s : S) : A * S :=
  match p with
  | Returns a => (a, s)
  | CallRead n k => let (r, s) := poll_read n s in run (k r) s
  | CallWrite buf k => let (r, s) := poll_write buf s in run (k r) s
  | CallFlush k => let (r, s) := poll_flush s in run (k r) s
  | CallClose k => let (r, s) := poll_close s in run (k r) s
  end.

(** tokio-rustls, async-native-tls or opentls: a poll of the handshake future
    and the four polls of the stream it ends in. *)
Class TlsLibrary := {
  TlsSession : Type;
  lib_connect : TlsSession -> Calls (Poll (Res unit) * TlsSession);
  lib_read : nat -> TlsSession -> Calls (Poll (Res bytes) * TlsSession);
  lib_write : bytes -> TlsSession -> Calls (Poll (Res Z) * TlsSession);
  lib_flush : TlsSession -> Calls (Poll (Res unit) * TlsSession);
  lib_close : TlsSession -> Calls (Poll (Res unit) * TlsSession)
}.

Section Stack.
Context {L : TlsLibrary}.

(** [tls_stream::TlsStream<TlsPreloginWrapper<S>>] *)
Record TlsStream := mkTlsStream { session : TlsSession; inner : Wrapped }.

Definition over {A} (p : TlsSession -> Calls (A * TlsSession)) (t : TlsStream) : A * TlsStream :=
  let '((a, session), inner) := run (p (session t)) (inner t) in (a, mkTlsStream session inner).

#[export] Instance tls_stream : AsyncStream TlsStream := {
  poll_read n := over (lib_read n);
  poll_write buf := over (lib_write buf);
  poll_flush := over lib_flush;
  poll_close := over lib_close
}.

(** [create_tls_stream(config, stream).await]: the polls of the handshake
    future until one is ready, with what the socket answers during each; no
    more polls is a handshake still under way. *)
Fixpoint create_tls_stream (polls : list (list IoEvent)) (session : TlsSession) (x : Wrapped) : Poll (Res TlsStream) * Wrapped :=
  match polls with
  | [] => (Pending, x)
  | events :: polls =>
      let '((r, session), x) := run (lib_connect session) (wrapped_refill events x) in
      match r with
      | Pending => create_tls_stream polls session x
      | Ready r => (Ready (res_map (fun _ => mkTlsStream session x) r), x)
      end
  end.

(** [MaybeTlsStream] *)
Inductive MaybeTls := RawStream (s : Socket) | OverTls (t : TlsStream).

(** One poll through the enum. *)
Definition dispatch {A} (raw : Socket -> A * Socket) (tls : TlsStream -> A * TlsStream) (m : MaybeTls) : A * MaybeTls :=
  match m with
  | RawStream s => let (a, s) := raw s in (a, RawStream s)
  | OverTls t => let (a, t) := tls t in (a, OverTls t)
  end.
#[export] Instance maybe_tls_stream : AsyncStream MaybeTls := {
  poll_read n := dispatch (poll_read n) (poll_read n);
  poll_write buf := dispatch (poll_write buf) (poll_write buf);
  poll_flush := dispatch poll_flush poll_flush;
  poll_close := dispatch poll_close poll_close
}.

(** [MaybeTlsStream::into_inner] *)
Definition into_inner (m : MaybeTls) : Res Socket :=
  match m with
  | RawStream s => Ok s
  | OverTls t => match stream (inner t) with Some s => Ok s | None => Panic end
  end.

(** The transport [establish] starts with. *)
Definition initial_stack (config : EncryptionLevel) (polls : list (list IoEvent)) (start : TlsSession) (tcp : Socket) : Poll (Res MaybeTls) :=
  match config with
  | EncryptionLevel.Strict =>
      match fst (create_tls_stream polls start (complete (wrap_socket tcp))) with
      | Pending => Pending
      | Ready r => Ready (res_map OverTls r)
      end
  | _ => Ready (Ok (RawStream tcp))
  end.

(** [Connection::tls_handshake], on the transport *)
Definition handshake_stack (encryption : EncryptionLevel) (polls : list (list IoEvent)) (start : TlsSession) (m : MaybeTls) : Poll (Res MaybeTls) :=
  match encryption with
  | EncryptionLevel.NotSupported | EncryptionLevel.Strict => Ready (Ok m)
  | EncryptionLevel.Off | EncryptionLevel.On | EncryptionLevel.Required =>
      match m with
      | RawStream tcp =>
          match fst (create_tls_stream polls start (wrap_socket tcp)) with
          | Pending => Pending
          | Ready r => Ready (res_map (fun t => OverTls (mkTlsStream (session t) (complete (inner t)))) r)
          end
      | OverTls _ => Ready Panic
      end
  end.

(** [Connection::post_login_encryption], on the transport *)
Definition post_login_stack (encryption : EncryptionLevel) (m : MaybeTls) : Res MaybeTls :=
  match encryption with EncryptionLevel.Off => res_map RawStream (into_inner m) | _ => Ok m end.

(** The kind of a transport, what PreLogin.v keeps of it. *)
Definition kind (m : MaybeTls) : MaybeTlsStream := match m with RawStream _ => Raw | OverTls _ => PreLogin.TlsStream end.
End Stack.

(** ** The plain stream

    What the library should see during the handshake: bytes to read, bytes
    written and not flushed, and the flights flushed so far.  A read may stall,
    fail with the transport or hand over any first part of what is there, all
    of it at the end only; a write is taken whole. *)
Record Plain := mkPlain { pl_in : bytes; pl_buf : bytes; pl_sent : list bytes }.

Inductive plain_read (n : nat) : bytes -> Poll (Res bytes) -> bytes -> Prop :=
| read_pending todo : plain_read n todo Pending todo
| read_fails todo e : plain_read n todo (Ready (Err e)) todo
| read_some got rest : (length got <= n)%nat -> (got = [] -> (0 < n)%nat -> rest = []) ->
    plain_read n (got ++ rest) (Ready (Ok got)) rest.

(** The flush of what is buffered: a flight, if there is anything. *)
Definition plain_flush (s : Plain) : Plain :=
  mkPlain (pl_in s) [] (match pl_buf s with [] => pl_sent s | data => pl_sent s ++ [data] end).

Inductive plain_run {A} : Calls A -> Plain -> A -> Plain -> Prop :=
| plain_returns a s : plain_run (Returns a) s a s
| plain_reads n k s r rest a s' : plain_read n (pl_in s) r rest ->
    plain_run (k r) (mkPlain rest (pl_buf s) (pl_sent s)) a s' -> plain_run (CallRead n k) s a s'
| plain_writes buf k s a s' : plain_run (k (Ready (Ok (len buf)))) (mkPlain (pl_in s) (pl_buf s ++ buf) (pl_sent s)) a s' ->
    plain_run (CallWrite buf k) s a s'
| plain_flushes k s a s' : plain_run (k (Ready (Ok tt))) (plain_flush s) a s' -> plain_run (CallFlush k) s a s'
| plain_closes k s r a s' : plain_run (k r) s a s' -> plain_run (CallClose k) s a s'.

(** The flushes of a run are done when they return. *)
Fixpoint flushes_done {S A} `{AsyncStream S} (p : Calls A) (s : S) : bool :=
  match p with
  | Returns _ => true
  | CallRead n k => let (r, s) := poll_read n s in flushes_done (k r) s
  | CallWrite buf k => let (r, s) := poll_write buf s in flushes_done (k r) s
  | CallFlush k => let (r, s) := poll_flush s in match r with Ready (Ok _) => flushes_done (k r) s | _ => false end
  | CallClose k => let (r, s) := poll_close s in flushes_done (k r) s
  end.

(** ** Lemmas: one poll *)

(** The write side does not matter for the position. *)
Lemma positioned_wr w input todo wr hw : positioned w input todo -> positioned (mkWrapper true (header_read w) (read_remaining w) wr hw) input todo.
Proof. intros []; [apply at_header|apply at_payload]; auto. Qed.

Lemma step_plain n events todo r w' input' : step_ok n events todo r w' input' -> exists rest, plain_read n todo r rest /\ positioned w' input' rest.
Proof.
  destruct r as [|[got|e| |]]; cbn [step_ok]; try contradiction.
  - exists todo. split; [constructor|assumption].
  - intros (rest & E & P & Ln & E0). exists rest. split; [|exact P]. rewrite E. apply read_some; [exact Ln|].
    intros -> N. rewrite (E0 eq_refl N) in E. symmetry. exact E.
  - intros [_ P]. exists todo. split; [constructor|exact P].
Qed.

(** Reading leaves the write side alone. *)
Lemma poll_read_keeps_writes n w events input :
  let '(_, _, w', _) := wrapper_poll_read n w events input in wr_buf w' = wr_buf w /\ header_written w' = header_written w.
Proof.
  assert (Rp : forall w events input, let '(_, _, w', _) := read_payload n w events input in wr_buf w' = wr_buf w /\ header_written w' = header_written w).
  { intros v ev inp. unfold read_payload. destruct ev as [|[]]; cbn [inner_read]; auto. }
  unfold wrapper_poll_read. destruct (negb _); [destruct events as [|[]]; cbn; auto|]. destruct (_ <? _)%nat; [|apply Rp].
  destruct (header_loop events (header_read w) input) as [[[r ev] hb] inp]. destruct r as [|[[]| | |]]; auto.
  destruct (header_payload hb); auto. exact (Rp (mkWrapper _ hb _ _ _) ev inp).
Qed.

Lemma flight_header_fits zeros data wr : length zeros = header_size -> flight_header (zeros ++ data) = Ok wr -> wr = flight data.
Proof.
  intros Lz H. destruct (Z_le_gt_dec (len data + HEADER_BYTES) 65535) as [Ld|Ld].
  - rewrite flight_header_spec in H by assumption. congruence.
  - exfalso. unfold flight_header, header_new in H. rewrite length_app, Lz in H.
    rewrite (proj2 (Z.leb_gt _ _)) in H by (change header_size with 8%nat; change HEADER_BYTES with 8 in Ld; lia). discriminate.
Qed.

(** A flush that is done at once: the buffer is out as one packet. *)
Lemma poll_flush_done w events out data : pending_handshake w = true -> wr_buf w = repeat 0 header_size ++ data -> header_written w = false ->
  let '(r, _, w', out') := wrapper_poll_flush w events out in
  forall u, r = Ready (Ok u) ->
    w' = mkWrapper true (header_read w) (read_remaining w) (repeat 0 header_size) false /\
    out' = out ++ (match data with [] => [] | _ => flight data end).
Proof.
  intros P B H. unfold wrapper_poll_flush. rewrite P, B, H. cbn [andb]. rewrite length_app, repeat_length. destruct data as [|d data].
  - cbn [length]. rewrite Nat.add_0_r, Nat.ltb_irrefl. destruct (inner_flush events) as [r ev]. intros u _.
    rewrite !app_nil_r in *. split; [|reflexivity]. destruct w as [p hb rem wr hw]. cbn in *. congruence.
  - rewrite (proj2 (Nat.ltb_lt _ _)) by (cbn [length]; lia).
    destruct (flight_header (repeat 0 header_size ++ d :: data)) as [wr| | |] eqn:F; try (intros u X; discriminate).
    apply flight_header_fits in F as ->; [|apply repeat_length]. pose proof (write_loop_spec events (flight (d :: data)) out) as W.
    destruct (write_loop events (flight (d :: data)) out) as [[[r ev] wr'] o]. destruct W as [(done & E & ->) R].
    destruct r as [|[[]| | |]]; try (intros u X; discriminate). subst wr'. rewrite app_nil_r in E. subst done.
    destruct (inner_flush ev) as [r ev']. intros u _. auto.
Qed.

(** ** Lemmas: runs *)

(** Over a wrapper whose handshake is complete, a run is a run over the socket. *)
Lemma run_complete {A} (p : Calls A) : forall s w, pending_handshake w = false ->
  run p (mkWrapped (Some s) w) = (fst (run p s), mkWrapped (Some (snd (run p s))) w).
Proof.
  induction p as [a|n k IH|buf k IH|k IH|k IH]; intros s w P; cbn [run].
  - reflexivity.
  - cbn [poll_read wrapped_stream socket_stream stream wrapper]. unfold wrapper_poll_read. rewrite P. cbn [negb].
    destruct (inner_read n (s_events s) (s_in s)) as [[r ev] inp]. apply IH, P.
  - cbn [poll_write wrapped_stream socket_stream stream wrapper]. unfold wrapper_poll_write. rewrite P. cbn [negb].
    destruct (inner_write buf (s_events s) (s_out s)) as [[r ev] out]. apply IH, P.
  - cbn [poll_flush wrapped_stream socket_stream stream wrapper]. unfold wrapper_poll_flush. rewrite P. cbn [andb].
    destruct (inner_flush (s_events s)) as [r ev]. apply IH, P.
  - cbn [poll_close wrapped_stream socket_stream stream wrapper]. destruct (inner_flush (s_events s)) as [r ev]. apply IH, P.
Qed.

(** The plain stream a wrapper in the handshake stands for. *)
Definition abstracts (out0 : bytes) (pl : Plain) (x : Wrapped) : Prop :=
  exists s w, x = mkWrapped (Some s) w /\ positioned w (s_in s) (pl_in pl) /\
    wr_buf w = repeat 0 header_size ++ pl_buf pl /\ header_written w = false /\
    s_out s = out0 ++ concat (map flight (pl_sent pl)).

Lemma positioned_pending w input todo : positioned w input todo -> pending_handshake w = true.
Proof. intros []; reflexivity. Qed.

Lemma abstracts_refill out0 pl x events : abstracts out0 pl x -> abstracts out0 pl (wrapped_refill events x).
Proof. intros (s & w & -> & P & B & H & O). exists (refill events s), w. auto. Qed.

(** Over a wrapper in the handshake, a run is a run over the plain stream. *)
Lemma run_plain {A} out0 (p : Calls A) : forall pl x, abstracts out0 pl x -> flushes_done p x = true ->
  exists pl', plain_run p pl (fst (run p x)) pl' /\ abstracts out0 pl' (snd (run p x)).
Proof.
  assert (In : forall pl s w, positioned w (s_in s) (pl_in pl) -> wr_buf w = repeat 0 header_size ++ pl_buf pl -> header_written w = false ->
    s_out s = out0 ++ concat (map flight (pl_sent pl)) -> abstracts out0 pl (mkWrapped (Some s) w)) by (intros pl s w; exists s, w; auto).
  induction p as [a|n k IH|buf k IH|k IH|k IH]; intros pl x Ab D; cbn [run flushes_done] in *;
    [exists pl; split; [constructor|exact Ab]|destruct Ab as (s & w & -> & P & B & H & O)..].
  - cbn [poll_read wrapped_stream stream wrapper] in *.
    pose proof (poll_read_positioned n w (s_events s) (s_in s) (pl_in pl) P) as St. pose proof (poll_read_keeps_writes n w (s_events s) (s_in s)) as Kp.
    destruct (wrapper_poll_read n w (s_events s) (s_in s)) as [[[r ev] w'] inp]. destruct Kp as [Kb Kh]. apply step_plain in St as (rest & R & P').
    edestruct (fun ab => IH r (mkPlain rest (pl_buf pl) (pl_sent pl)) _ ab D) as (pl' & Rn & Ab'); [apply In; cbn; congruence|].
    exists pl'. split; [exact (plain_reads n k pl r rest _ pl' R Rn)|exact Ab'].
  - cbn [poll_write wrapped_stream stream wrapper] in *. unfold wrapper_poll_write in *.
    rewrite (positioned_pending _ _ _ P) in *. cbn [negb] in *.
    edestruct (fun ab => IH _ (mkPlain (pl_in pl) (pl_buf pl ++ buf) (pl_sent pl)) _ ab D) as (pl' & Rn & Ab').
    { apply In; cbn; [exact (positioned_wr _ _ _ _ _ P)|rewrite B, <- app_assoc; reflexivity|exact H|exact O]. }
    exists pl'. split; [apply plain_writes; exact Rn|exact Ab'].
  - cbn [poll_flush wrapped_stream stream wrapper] in *.
    pose proof (poll_flush_done w (s_events s) (s_out s) (pl_buf pl) (positioned_pending _ _ _ P) B H) as F.
    destruct (wrapper_poll_flush w (s_events s) (s_out s)) as [[[r ev] w'] o]. destruct r as [|[[]| | |]]; try discriminate. destruct (F tt eq_refl) as [-> ->].
    edestruct (fun ab => IH _ (plain_flush pl) _ ab D) as (pl' & Rn & Ab').
    { apply In; cbn; [exact (positioned_wr _ _ _ _ _ P)|symmetry; apply app_nil_r|reflexivity|]. rewrite O.
      destruct (pl_buf pl); [apply app_nil_r|]. rewrite map_app, concat_app, <- app_assoc. cbn [map concat]. rewrite app_nil_r. reflexivity. }
    exists pl'. split; [apply plain_flushes; exact Rn|exact Ab'].
  - cbn [poll_close wrapped_stream socket_stream stream wrapper] in *. destruct (inner_flush (s_events s)) as [r ev].
    edestruct (fun ab => IH r pl _ ab D) as (pl' & Rn & Ab'); [apply In; assumption|].
    exists pl'. split; [apply (plain_closes k pl r); exact Rn|exact Ab'].
Qed.

(** ** The library over a bare socket *)

Section Session.
Context {L : TlsLibrary}.

Definition direct_over {A} (p : TlsSession -> Calls (A * TlsSession)) (t : TlsSession * Socket) : A * (TlsSession * Socket) :=
  let '((a, session), s) := run (p (fst t)) (snd t) in (a, (session, s)).
#[export] Instance direct_stream : AsyncStream (TlsSession * Socket) := {
  poll_read n := direct_over (lib_read n);
  poll_write buf := direct_over (lib_write buf);
  poll_flush := direct_over lib_flush;
  poll_close := direct_over lib_close
}.

(** The polls of the handshake future on a bare socket. *)
Fixpoint direct_connect (polls : list (list IoEvent)) (session : TlsSession) (s : Socket) : Poll (Res (TlsSession * Socket)) * Socket :=
  match polls with
  | [] => (Pending, s)
  | events :: polls =>
      let '((r, session), s) := run (lib_connect session) (refill events s) in
      match r with
      | Pending => direct_connect polls session s
      | Ready r => (Ready (res_map (fun _ => (session, s)) r), s)
      end
  end.

(** The library's stream over the wrapper [w] around a socket. *)
Definition stacked (w : TlsPreloginWrapper) (t : TlsSession * Socket) : TlsStream := mkTlsStream (fst t) (mkWrapped (Some (snd t)) w).

(** A transport that carries TDS: the socket, or the library over a wrapper
    that passes through. *)
Definition sound (m : MaybeTls) : Prop :=
  match m with
  | RawStream _ => True
  | OverTls t => exists w s, t = stacked w (session t, s) /\ pending_handshake w = false
  end.

(** The polls of the handshake, all of whose flushes are done. *)
Fixpoint handshake_flushes (polls : list (list IoEvent)) (session : TlsSession) (x : Wrapped) : bool :=
  match polls with
  | [] => true
  | events :: polls =>
      flushes_done (lib_connect session) (wrapped_refill events x) &&
      match run (lib_connect session) (wrapped_refill events x) with
      | ((Pending, session), x) => handshake_flushes polls session x
      | _ => true
      end
  end.

(** The handshake over the plain stream: polls that wait and one that is ready. *)
Inductive plain_handshake : TlsSession -> Plain -> Res unit -> TlsSession -> Plain -> Prop :=
| plain_ready session pl r session' pl' : plain_run (lib_connect session) pl (Ready r, session') pl' -> plain_handshake session pl r session' pl'
| plain_waits session pl session1 pl1 r session' pl' : plain_run (lib_connect session) pl (Pending, session1) pl1 ->
    plain_handshake session1 pl1 r session' pl' -> plain_handshake session pl r session' pl'.

(** ** Lemmas: the stack *)

Lemma over_stacked {A} (p : TlsSession -> Calls (A * TlsSession)) w t : pending_handshake w = false ->
  over p (stacked w t) = (fst (direct_over p t), stacked w (snd (direct_over p t))).
Proof.
  intros P. unfold over, direct_over, stacked. cbn [session inner]. rewrite run_complete by exact P.
  destruct (run (p (fst t)) (snd t)) as [[a session] s]. reflexivity.
Qed.

Lemma run_stacked {A} (p : Calls A) : forall w t, pending_handshake w = false ->
  run p (OverTls (stacked w t)) = (fst (run p t), OverTls (stacked w (snd (run p t)))).
Proof.
  induction p as [a|n k IH|buf k IH|k IH|k IH]; intros w t P; cbn [run];
    [reflexivity|cbn [poll_read poll_write poll_flush poll_close maybe_tls_stream dispatch tls_stream direct_stream];
     rewrite over_stacked by exact P; destruct (direct_over _ t) as [r t']; cbn [fst snd]; apply IH, P..].
Qed.

Lemma run_raw {A} (p : Calls A) : forall s, run p (RawStream s) = (fst (run p s), RawStream (snd (run p s))).
Proof.
  induction p as [a|n k IH|buf k IH|k IH|k IH]; intros s; cbn [run]; [reflexivity|cbn [poll_read poll_write poll_flush poll_close maybe_tls_stream dispatch]..].
  - destruct (poll_read n s) as [r s']. apply IH.
  - destruct (poll_write buf s) as [r s']. apply IH.
  - destruct (poll_flush s) as [r s']. apply IH.
  - destruct (poll_close s) as [r s']. apply IH.
Qed.

Lemma run_sound {A} (p : Calls A) m : sound m -> sound (snd (run p m)) /\ kind (snd (run p m)) = kind m.
Proof.
  destruct m as [s|t]; intros S; [rewrite run_raw; split; [exact I|reflexivity]|]. destruct S as (w & s & -> & P). cbn [stacked session fst] in *.
  rewrite run_stacked by exact P. split; [|reflexivity]. destruct (run p (session t, s)) as [a t']. exists w, (snd t'). split; [reflexivity|exact P].
Qed.

Lemma create_complete polls : forall session s w, pending_handshake w = false ->
  fst (create_tls_stream polls session (mkWrapped (Some s) w)) =
  match fst (direct_connect polls session s) with Pending => Pending | Ready r => Ready (res_map (stacked w) r) end.
Proof.
  induction polls as [|events polls IH]; intros session s w P; [reflexivity|]. cbn [create_tls_stream direct_connect].
  change (wrapped_refill events (mkWrapped (Some s) w)) with (mkWrapped (Some (refill events s)) w). rewrite run_complete by exact P. destruct (run (lib_connect session) (refill events s)) as [[r session'] s']. cbn [fst snd].
  destruct r as [|r]; [apply IH, P|]. destruct r; reflexivity.
Qed.

(** A run over a wrapper leaves a socket in it. *)
Lemma run_keeps_socket {A} (p : Calls A) : forall x s w, x = mkWrapped (Some s) w -> exists s' w', snd (run p x) = mkWrapped (Some s') w'.
Proof.
  induction p as [a|n k IH|buf k IH|k IH|k IH]; intros x s w ->; cbn [run poll_read poll_write poll_flush poll_close wrapped_stream stream wrapper]; [eauto|..].
  - destruct (wrapper_poll_read n w (s_events s) (s_in s)) as [[[r ev] w'] inp]. eapply IH. reflexivity.
  - destruct (wrapper_poll_write buf w (s_events s) (s_out s)) as [[[r ev] w'] out]. eapply IH. reflexivity.
  - destruct (wrapper_poll_flush w (s_events s) (s_out s)) as [[[r ev] w'] out]. eapply IH. reflexivity.
  - destruct (poll_close s) as [r s']. eapply IH. reflexivity.
Qed.

Lemma create_socket polls : forall session x s w, x = mkWrapped (Some s) w ->
  forall t, fst (create_tls_stream polls session x) = Ready (Ok t) -> exists w' s', inner t = mkWrapped (Some s') w'.
Proof.
  induction polls as [|events polls IH]; intros session x s w -> t E; [discriminate|]. cbn [create_tls_stream] in E.
  destruct (run_keeps_socket (lib_connect session) (wrapped_refill events (mkWrapped (Some s) w)) _ _ eq_refl) as (s' & w' & R).
  destruct (run (lib_connect session) (wrapped_refill events (mkWrapped (Some s) w))) as [[r session'] x']. cbn [snd] in R. subst x'.
  destruct r as [|[u| | |]]; try discriminate; [exact (IH _ _ _ _ eq_refl t E)|]. injection E as <-. cbn. eauto.
Qed.

Lemma create_plain out0 polls : forall session x pl, abstracts out0 pl x -> handshake_flushes polls session x = true ->
  match fst (create_tls_stream polls session x) with
  | Pending => True
  | Ready r => exists session' pl', plain_handshake session pl (res_map (fun _ => tt) r) session' pl' /\
      forall t, r = Ok t -> Transport.session t = session' /\ abstracts out0 pl' (inner t)
  end.
Proof.
  induction polls as [|events polls IH]; intros session x pl Ab D; [exact I|]. cbn [create_tls_stream handshake_flushes] in *.
  apply andb_prop in D as [D D']. destruct (run_plain out0 (lib_connect session) pl _ (abstracts_refill out0 pl x events Ab) D) as (pl1 & R & Ab1).
  destruct (run (lib_connect session) (wrapped_refill events x)) as [[r session1] x1]. cbn [fst snd] in *. destruct r as [|r].
  - specialize (IH session1 x1 pl1 Ab1 D'). destruct (fst (create_tls_stream polls session1 x1)) as [|r]; [exact I|].
    destruct IH as (session' & pl' & H & T). exists session', pl'. split; [exact (plain_waits _ _ _ _ _ _ _ R H)|exact T].
  - exists session1, pl1. split; [apply plain_ready; destruct r as [[]| | |]; exact R|]. intros t E. destruct r; try discriminate. injection E as <-. auto.
Qed.
End Session.

(** ** Properties *)

(** C26: the TLS library does not notice the packets of the handshake.
    Whatever the library is, over a server that sends PRELOGIN packets,
    however the socket cuts and stalls the reads, and if it takes each flush at
    once (see [flush_loses_tail] for one it does not), the polls of its handshake future
    are a handshake over a plain stream of the payloads: the same answers of
    every read and write, the same outcome and state of the library.  What
    reached the socket is every flight the library flushed, each as one
    PRELOGIN packet.  After a success the wrapper steps aside: any program over
    the transport runs as over the library on the bare socket, and the socket
    can be had back. *)
Theorem handshake_transparent {L : TlsLibrary} (encryption : EncryptionLevel) (polls : list (list IoEvent)) (start : TlsSession) (tcp : Socket) (ps : list Packet)
  (He : In encryption [EncryptionLevel.Off; EncryptionLevel.On; EncryptionLevel.Required])
  (F : Forall handshake_packet ps) (Hi : s_in tcp = raws ps) (D : handshake_flushes polls start (wrap_socket tcp) = true) :
  match handshake_stack encryption polls start (RawStream tcp) with
  | Pending => True
  | Ready r =>
      exists session' pl', plain_handshake start (mkPlain (concat (map p_payload ps)) [] []) (res_map (fun _ => tt) r) session' pl' /\
      forall m, r = Ok m -> exists w s, m = OverTls (stacked w (session', s)) /\
        s_out s = s_out tcp ++ concat (map flight (pl_sent pl')) /\ into_inner m = Ok s /\
        forall A (p : Calls A) (x : TlsSession * Socket), run p (OverTls (stacked w x)) = (fst (run p x), OverTls (stacked w (snd (run p x))))
  end.
Proof.
  assert (Ab : abstracts (s_out tcp) (mkPlain (concat (map p_payload ps)) [] []) (wrap_socket tcp)).
  { exists tcp, wrapper_new. split; [reflexivity|]. cbn [pl_in pl_buf pl_sent map concat]. rewrite !app_nil_r. repeat split.
    apply at_header; [exact F|exact Hi|change header_size with 8%nat; cbn; lia]. }
  replace (handshake_stack encryption polls start (RawStream tcp)) with
    (match fst (create_tls_stream polls start (wrap_socket tcp)) with
     | Pending => Pending
     | Ready r => Ready (res_map (fun t => OverTls (mkTlsStream (session t) (complete (inner t)))) r) end)
    by (destruct He as [<-|[<-|[<-|[]]]]; reflexivity).
  pose proof (create_plain _ polls start _ _ Ab D) as C. destruct (fst (create_tls_stream polls start (wrap_socket tcp))) as [|r]; [exact I|].
  destruct C as (session' & pl' & H & T). exists session', pl'. split; [destruct r; exact H|]. intros m E. apply res_map_ok in E as (t & -> & <-).
  destruct (T t eq_refl) as [Es (s & w & Ei & _ & _ & _ & O)]. exists (handshake_complete w), s. unfold complete. rewrite Ei, Es. repeat split; [exact O|].
  intros A p x. apply run_stacked. reflexivity.
Qed.

(** The transports of a connection.  From the transport it starts with,
    through what the PRELOGIN and the login do with it, to the one left after
    the login, every transport is the bare socket or the library over a wrapper
    that passes everything through, of the kind the negotiation says, and
    taking the socket back out of TLS after the login finds it. *)
Theorem transport_stages {L : TlsLibrary} (config encryption : EncryptionLevel) (server : PreloginMessage) (polls0 polls1 : list (list IoEvent))
  (start : TlsSession) (tcp : Socket) (m0 m1 : MaybeTls) (A B : Type) (prelogin : Calls A) (login : Calls B)
  (Hn : negotiated_encryption true server config = Ok encryption)
  (H0 : initial_stack config polls0 start tcp = Ready (Ok m0))
  (H1 : handshake_stack encryption polls1 start (snd (run prelogin m0)) = Ready (Ok m1)) :
  exists m2, post_login_stack encryption (snd (run login m1)) = Ok m2 /\ Forall sound [m0; m1; m2] /\
    establish_encryption true config (Ok tt) server = Ok (kind m0, kind m1, kind m2).
Proof.
  assert (S0 : sound m0 /\ initial_transport true config (Ok tt) = Ok (kind m0)).
  { destruct config; cbn in H0; try (injection H0 as <-; split; [exact I|reflexivity]).
    unfold complete, wrap_socket in H0. cbn [stream wrapper] in H0. rewrite create_complete in H0 by reflexivity.
    destruct (fst (direct_connect polls0 start tcp)) as [|r]; [discriminate|]. destruct r as [[session s]| | |]; try discriminate.
    injection H0 as <-. split; [|reflexivity]. eexists _, s. split; reflexivity. }
  destruct S0 as [S0 K0]. pose proof (run_sound prelogin m0 S0) as [S0' K0']. set (m0' := snd (run prelogin m0)) in *.
  assert (S1 : sound m1 /\ tls_handshake true config encryption (Ok tt) (kind m0') = Ok (kind m1)).
  { destruct encryption; cbn in H1; try (injection H1 as <-; split; [exact S0'|reflexivity]); destruct m0' as [s|t]; try discriminate;
      (destruct (create_tls_stream polls1 start (wrap_socket s)) as [[|[t| | |]] x] eqn:C; try discriminate; injection H1 as <-; split; [|reflexivity]);
      destruct (create_socket polls1 start (wrap_socket s) s wrapper_new eq_refl t ltac:(rewrite C; reflexivity)) as (w & s' & E);
      exists (handshake_complete w), s'; (split; [|reflexivity]); unfold complete, stacked; rewrite E; reflexivity. }
  destruct S1 as [S1 K1]. pose proof (run_sound login m1 S1) as [S1' K1']. set (m1' := snd (run login m1)) in *.
  assert (S2 : exists m2, post_login_stack encryption m1' = Ok m2 /\ sound m2 /\ kind m2 = post_login_encryption true encryption (kind m1)).
  { rewrite <- K1'. destruct encryption; cbn; try solve [exists m1'; auto]. destruct m1' as [s|t]; cbn; [exists (RawStream s); cbn; auto|].
    destruct S1' as (w & s & -> & _). exists (RawStream s). cbn. auto. }
  destruct S2 as (m2 & P2 & S2 & K2). exists m2. split; [exact P2|]. split; [auto|].
  unfold establish_encryption. rewrite K0. cbn [res_bind]. rewrite Hn. cbn [res_bind]. rewrite <- K0', K1. cbn [res_bind]. rewrite K0', K2. reflexivity.
Qed.

(** ** Witnesses *)

(** A library that greets, waits for an answer of any length and then hides
    every byte behind an exclusive or. *)
Definition hide (b : bytes) : bytes := map (fun x => Z.lxor x 90) b.
Definition greet (r : Poll (Res bytes)) : Calls (Poll (Res unit) * bool) :=
  match r with
  | Pending => Returns (Pending, true)
  | Ready (Ok []) => Returns (Ready (Err (Io UnexpectedEof)), true)
  | Ready r => Returns (Ready (res_map (fun _ => tt) r), true)
  end.
#[local] Instance xor_library : TlsLibrary := {
  TlsSession := bool;
  lib_connect greeted := if greeted then CallRead 16 greet else CallWrite [22; 3] (fun _ => CallFlush (fun _ => CallRead 16 greet));
  lib_read n greeted := CallRead n (fun r => Returns (match r with Ready (Ok got) => Ready (Ok (hide got)) | r => r end, greeted));
  lib_write buf greeted := CallWrite (hide buf) (fun r => Returns (r, greeted));
  lib_flush greeted := CallFlush (fun r => Returns (r, greeted));
  lib_close greeted := CallClose (fun r => Returns (r, greeted))
}.

(** The server's first packet arrives in two parts, the second poll goes on
    in the middle of its header. *)
Definition xor_polls : list (list IoEvent) := [[Moves 99; Moves 0; Moves 3; NotReady]; [Moves 99; Moves 99]].
Definition xor_socket : Socket := mkSocket [] (raws handshake_packets) [7] false.

Definition unmet : @TlsSession xor_library := false.

Lemma handshake_transparent_witness :
  exists t, handshake_stack EncryptionLevel.On xor_polls unmet (RawStream xor_socket) = Ready (Ok (OverTls t)) /\
  exists session' pl', plain_handshake unmet (mkPlain [22; 3; 1; 4; 5] [] []) (Ok tt) session' pl'.
Proof.
  pose proof (handshake_transparent EncryptionLevel.On xor_polls unmet xor_socket handshake_packets ltac:(cbn; auto)
    ltac:(repeat constructor; try (vm_compute; congruence); discriminate) eq_refl ltac:(vm_compute; reflexivity)) as T.
  set (r := handshake_stack EncryptionLevel.On xor_polls unmet (RawStream xor_socket)) in *.
  assert (E : exists t, r = Ready (Ok (OverTls t))) by (eexists; vm_compute; reflexivity). destruct E as [t E]. rewrite E in T.
  destruct T as (session' & pl' & H & _). exists t. split; [exact E|]. exists session', pl'. exact H.
Defined.

Lemma transport_stages_witness :
  exists m1 m2, handshake_stack EncryptionLevel.Off xor_polls unmet (RawStream xor_socket) = Ready (Ok m1) /\
  post_login_stack EncryptionLevel.Off m1 = Ok m2 /\ Forall sound [RawStream xor_socket; m1; m2].
Proof.
  set (r := handshake_stack EncryptionLevel.Off xor_polls unmet (RawStream xor_socket)).
  assert (E : exists m1, r = Ready (Ok m1)) by (eexists; vm_compute; reflexivity). destruct E as [m1 E].
  destruct (transport_stages EncryptionLevel.Off EncryptionLevel.Off (mkPreloginMessage 0 0 EncryptionLevel.Off None 0 false None false None) [] xor_polls unmet xor_socket
    (RawStream xor_socket) m1 unit unit (Returns tt) (Returns tt) eq_refl eq_refl E) as (m2 & P & S & _).
  exists m1, m2. auto.
Defined.
