(* ===== verification/Client.v ===== *)
(** * Client: the requests of [client.rs], [query.rs] and [command.rs]

    What an operation of [Client] puts on the wire: the SQL text and the
    parameters it builds, and the order of flushing, numbering and sending.
    [str::to_lowercase] of the standard library is Unicode data and a
    parameter. *)

From S2P Require Import Prelude Unicode Collation SqlRead SqlWrite Types TypeInfoCodec NumericCodec Temporal Money Context ColumnDecode ColumnEncode ColumnRoundtrip ParamRoundtrip Metadata Rows Identifiers Requests Tokens TokenStream Results Packet Connection.
From Stdlib Require Import Floats.SpecFloat.

(** ** Text *)

Definition MAX_NVARCHAR_SIZE : Z := 2 ^ 30.

(** [ColumnData::type_name] *)
Definition param_type_name (d : ColumnData) : str :=
  match d with
  | ColumnData.U8 _ => ascii_str "tinyint"
  | ColumnData.I16 _ => ascii_str "smallint"
  | ColumnData.I32 _ => ascii_str "int"
  | ColumnData.I64 _ => ascii_str "bigint"
  | ColumnData.F32 _ => ascii_str "float(24)"
  | ColumnData.F64 _ => ascii_str "float(53)"
  | ColumnData.Bit _ => ascii_str "bit"
  | ColumnData.String None => ascii_str "nvarchar(4000)"
  | ColumnData.String (Some s) =>
      if str_len s <=? 4000 then ascii_str "nvarchar(4000)"
      else if str_len s <=? MAX_NVARCHAR_SIZE then ascii_str "nvarchar(max)"
      else ascii_str "ntext(max)"
  | ColumnData.Guid _ => ascii_str "uniqueidentifier"
  | ColumnData.Binary (Some b) => if len b <=? 8000 then ascii_str "varbinary(8000)" else ascii_str "varbinary(max)"
  | ColumnData.Binary None => ascii_str "varbinary(max)"
  | ColumnData.Numeric (Some n) => ascii_str "numeric(" ++ show_Z (precision n) ++ ascii_str "," ++ show_Z (scale n) ++ ascii_str ")"
  | ColumnData.Numeric None => ascii_str "numeric"
  | ColumnData.Xml _ => ascii_str "xml"
  | ColumnData.DateTime _ => ascii_str "datetime"
  | ColumnData.SmallDateTime _ => ascii_str "smalldatetime"
  | ColumnData.Time _ => ascii_str "time"
  | ColumnData.Date _ => ascii_str "date"
  | ColumnData.DateTime2 _ => ascii_str "datetime2"
  | ColumnData.DateTimeOffset _ => ascii_str "datetimeoffset"
  end.

(** [Client::rpc_params] *)
Definition rpc_params_of (query : str) : list RpcParam :=
  [ mkRpcParam (ascii_str "stmt") 0 (Scalar (ColumnData.String (Some query)));
    mkRpcParam (ascii_str "params") 0 (Scalar (ColumnData.I32 (Some 0))) ].

(** [@P{i}] *)
Definition placeholder (i : Z) : str := ascii_str "@P" ++ show_Z i.

(** The loop of [rpc_perform_query] over the parameters, from index [i]. *)
Fixpoint declare_params (i : Z) (params : list ColumnData) (param_str : str) (rpc_params : list RpcParam) : str * list RpcParam :=
  match params with
  | [] => (param_str, rpc_params)
  | p :: params =>
      let param_str := if 0 <? i then param_str ++ [COMMA] else param_str in
      let param_str := param_str ++ ascii_str "@P" ++ show_Z (i + 1) ++ [SPACE] in
      let param_str := param_str ++ param_type_name p in
      declare_params (i + 1) params param_str (rpc_params ++ [mkRpcParam (placeholder (i + 1)) 0 (Scalar p)])
  end.

(** [rpc_params.iter_mut().find(|x| x.name == "params")] and the assignment *)
Fixpoint set_declaration (decl : str) (ps : list RpcParam) : list RpcParam :=
  match ps with
  | [] => []
  | p :: ps =>
      if bool_decide (Requests.param_name p = ascii_str "params")
      then mkRpcParam (Requests.param_name p) (param_flags p) (Scalar (ColumnData.String (Some decl))) :: ps
      else p :: set_declaration decl ps
  end.

(** The parameters [rpc_perform_query] sends. *)
Definition perform_params (rpc_params : list RpcParam) (params : list ColumnData) : list RpcParam :=
  let (param_str, rpc_params) := declare_params 0 params [] rpc_params in set_declaration param_str rpc_params.

(** [Query::placeholders] *)
Definition placeholders (first : Z) (count : nat) : str :=
  fold_left (fun out index => (if (0 <? index)%nat then out ++ ascii_str ", " else out) ++ placeholder (first + Z.of_nat index)) (seq 0 count) [].

(** ** [bulk_options.rs] and the text of a bulk insert *)

Definition KeepIdentity : Z := 2 ^ 0.
Definition CheckConstraints : Z := 2 ^ 1.
Definition TableLock : Z := 2 ^ 2.
Definition KeepNulls : Z := 2 ^ 3.
Definition FireTriggers : Z := 2 ^ 4.
Inductive SortOrder := Ascending | Descending.

(** [build_insert_bulk_sql] *)
Definition build_insert_bulk_sql (table col_data : str) (options : Z) (order_hints : list (str * SortOrder)) : str :=
  let clause (f : Z) (s : string) := if contains options f then [ascii_str s] else [] in
  let clauses := clause CheckConstraints "CHECK_CONSTRAINTS"%string ++ clause TableLock "TABLOCK"%string
                 ++ clause KeepNulls "KEEP_NULLS"%string ++ clause FireTriggers "FIRE_TRIGGERS"%string in
  let clauses :=
    match order_hints with
    | [] => clauses
    | _ =>
        let hints := iterator_join (ascii_str ", ")
          (map (fun '(col, order) => col ++ [SPACE] ++ ascii_str (match order with Ascending => "ASC" | Descending => "DESC" end)) order_hints) in
        clauses ++ [ascii_str "ORDER(" ++ hints ++ [RPAREN]]
    end in
  let query := ascii_str "INSERT BULK " ++ table ++ ascii_str " (" ++ col_data ++ [RPAREN] in
  match clauses with [] => query | _ => query ++ ascii_str " WITH (" ++ join (ascii_str ", ") clauses ++ [RPAREN] end.

(** [declares_collation] *)
Definition declares_collation (t : TypeInfo) : bool :=
  match t with
  | TypeInfo.VarLenSized cx =>
      match vlc_type cx with
      | VarLenType.BigChar | VarLenType.BigVarChar | VarLenType.Text | VarLenType.NChar | VarLenType.NVarchar | VarLenType.NText => true
      | _ => false
      end
  | _ => false
  end.

(** [column_collation]: the exact name, else the only one that matches without
    case. *)
Definition column_collation (to_lowercase : str -> str) (name : str) (collations : list (str * option str)) : option str :=
  let row :=
    match find (fun '(n, _) => bool_decide (n = name)) collations with
    | Some row => Some row
    | None =>
        match List.filter (fun '(n, _) => bool_decide (to_lowercase n = to_lowercase name)) collations with
        | [row] => Some row
        | _ => None
        end
    end in
  match row with Some (_, collation) => collation | None => None end.

(** [bulk_column_list]; a type the [Display] of a column refuses makes
    [format!] panic. *)
Fixpoint bulk_column_items (to_lowercase : str -> str) (columns : list MetaDataColumn) (collations : list (str * option str)) : Res (list str) :=
  match columns with
  | [] => Ok []
  | column :: columns =>
      match display_column column with
      | None => Panic
      | Some item =>
          res_bind (if declares_collation (ty (base column)) then
                      match column_collation to_lowercase (col_name column) collations with
                      | Some collation => res_map (fun _ => item ++ ascii_str " COLLATE " ++ collation) (validate_collation_name collation)
                      | None => Ok item
                      end
                    else Ok item) (fun item =>
          res_map (cons item) (bulk_column_items to_lowercase columns collations))
      end
  end.
Definition bulk_column_list (to_lowercase : str -> str) (columns : list MetaDataColumn) (collations : list (str * option str)) : Res str :=
  res_map (join (ascii_str ", ")) (bulk_column_items to_lowercase columns collations).

(** [bulk_column_is_target] *)
Definition bulk_column_is_target (b : BaseMetaDataColumn) (keep_identity : bool) : bool :=
  is_updateable b || (keep_identity && is_identity b).

(** The fold of [fetch_column_metadata]: the first metadata, and the name and
    the collation of every row. *)
Definition row_string (row : TokenRow) (i : nat) : option str :=
  match row !! i with Some (ColumnData.String s) => s | _ => None end.
Fixpoint fetch_fold (ts : tokens) (columns : option (list MetaDataColumn)) (collations : list (str * option str))
    : Res (option (list MetaDataColumn) * list (str * option str)) :=
  match ts with
  | [] => Ok (columns, collations)
  | Ok t :: ts =>
      match t with
      | ReceivedToken.NewResultset m =>
          fetch_fold ts (match columns with None => Some (Context.columns m) | Some _ => columns end) collations
      | ReceivedToken.Row row =>
          fetch_fold ts columns (match row_string row 1 with Some name => collations ++ [(name, row_string row 3)] | None => collations end)
      | _ => fetch_fold ts columns collations
      end
  | Err e :: _ => Err e
  | Panic :: _ => Panic
  | OutOfFuel :: _ => OutOfFuel
  end.
Definition fetch_result (ts : tokens) : Res (list MetaDataColumn * list (str * option str)) :=
  res_bind (fetch_fold ts None []) (fun '(columns, collations) =>
  res_map (fun c => (c, collations)) (ok_or columns (Protocol "expecting column metadata from query but not found"))).

(** The query of [fetch_column_metadata]. *)
Definition fetch_query (table : str) (columns : list str) (collations : bool) (version : FeatureLevel) : str :=
  let query := ascii_str "SELECT TOP 0 " ++ join (ascii_str ", ") columns ++ ascii_str " FROM " ++ table in
  if collations then query ++ ascii_str "; " ++ table_collations_sql table version else query.

(** The fold of [query_run_for_metadata]: the last metadata. *)
Fixpoint metadata_fold (ts : tokens) (columns : option (list MetaDataColumn)) : Res (option (list MetaDataColumn)) :=
  match ts with
  | [] => Ok columns
  | Ok (ReceivedToken.NewResultset m) :: ts => metadata_fold ts (Some (Context.columns m))
  | Ok _ :: ts => metadata_fold ts columns
  | Err e :: _ => Err e
  | Panic :: _ => Panic
  | OutOfFuel :: _ => OutOfFuel
  end.

(** ** Operations *)

(** The checks of [bulk_insert_with_options] and of [column_metadata] (which
    has no hints). *)
Definition validate_bulk (oc : bool) (alnum : Z -> bool) (table : str) (columns : list str) (order_hints : list (str * SortOrder)) : Res unit :=
  res_bind (validate_sql_identifier oc alnum table) (fun _ =>
  res_bind (fold_left (fun r c => res_bind r (fun _ => validate_sql_identifier oc alnum c)) columns (Ok tt)) (fun _ =>
  fold_left (fun r '(c, _) => res_bind r (fun _ => validate_sql_identifier oc alnum c)) order_hints (Ok tt))).

(** The targets of a bulk insert: the columns it keeps, with their table. *)
Definition bulk_targets (table : str) (options : Z) (columns : list MetaDataColumn) : list MetaDataColumn :=
  map (fun c => mkMetaDataColumn (mkBaseMetaDataColumn (flags (base c)) (ty (base c)) (Some table)) (col_name c))
    (List.filter (fun c => bulk_column_is_target (base c) (contains options KeepIdentity)) columns).

(** The statement [bulk_insert_with_options] sends for the columns the server
    described. *)
Definition bulk_statement (to_lowercase : str -> str) (table : str) (options : Z) (order_hints : list (str * SortOrder))
    (columns : list MetaDataColumn) (collations : list (str * option str)) : Res str :=
  res_map (fun col_data => build_insert_bulk_sql table col_data options order_hints)
    (bulk_column_list to_lowercase (bulk_targets table options columns) collations).

(** Build a message from the session state, take a packet id, send. *)
Definition post (oc : bool) (header : Z -> PacketHeader) (item : Context -> M bytes unit) (script : list Await) (c : Connection)
    : Outcome unit * list Await * Connection :=
  let message := item (c_ctx c) in
  let (id, ctx) := next_packet_id (c_ctx c) in
  send oc (header id) message script (set_ctx ctx c).

(** A request: drain what is left of the last response, then post. *)
Definition request (oc : bool) (header : Z -> PacketHeader) (item : Context -> M bytes unit) (script : list Await) (c : Connection)
    : Outcome unit * list Await * Connection :=
  match flush_stream c with
  | (Ok _, c) => post oc header item script c
  | (Err e, c) => (Finished (Err e), script, c)
  | (Panic, c) => (Finished Panic, script, c)
  | (OutOfFuel, c) => (Finished OutOfFuel, script, c)
  end.

(** The request of [Client::simple_query], [query_run_for_metadata] and
    [fetch_column_metadata]. *)
Definition simple_query_request (oc : bool) (query : str) : list Await -> Connection -> Outcome unit * list Await * Connection :=
  request oc header_batch (fun ctx => batch_encode (mkBatchRequest query (transaction_desc ctx))).

Section Rpc.
Context {ER : EncodingRs} (oc : bool) (powi10 : Z -> spec_float).

(** The request of [Client::query] and [Client::execute] ([rpc_params], then
    [rpc_perform_query]). *)
Definition execute_request (query : str) (params : list ColumnData) : list Await -> Connection -> Outcome unit * list Await * Connection :=
  request oc header_rpc (fun ctx =>
    rpc_encode oc powi10 (rpc_new (ProcId ExecuteSQL) (perform_params (rpc_params_of query) params) (transaction_desc ctx))).

(** The request of [Command::exec] ([rpc_run_command]). *)
Definition command_request (name : str) (params : list RpcParam) : list Await -> Connection -> Outcome unit * list Await * Connection :=
  request oc header_rpc (fun ctx => rpc_encode oc powi10 (rpc_new (ProcName name) params (transaction_desc ctx))).
End Rpc.

(** [begin_transaction], [commit_transaction], [rollback_transaction] and
    [save_transaction] up to the answer: the descriptor is taken before the
    flush. *)
Definition transaction_request (oc : bool) (body : TransactionRequestBody) (script : list Await) (c : Connection)
    : Outcome unit * list Await * Connection :=
  let req := mkTransactionManagerRequest (transaction_desc (c_ctx c)) body in
  request oc header_transaction_manager (fun _ => transaction_encode req) script c.

(** ** [Command] *)

Inductive CommandParamData := CpScalar (d : ColumnData) | CpTable (rows : list (list ColumnData)) (db_type : str).
Record CommandParam := mkCommandParam { cp_name : str; cp_out : bool; cp_data : CommandParamData }.

(** [bind_param], [bind_out_param], [bind_table] *)
Definition bind_param (name : str) (d : ColumnData) (ps : list CommandParam) : list CommandParam := ps ++ [mkCommandParam name false (CpScalar d)].
Definition bind_out_param (name : str) (d : ColumnData) (ps : list CommandParam) : list CommandParam := ps ++ [mkCommandParam name true (CpScalar d)].
Definition bind_table (name : str) (rows : list (list ColumnData)) (db_type : str) (ps : list CommandParam) : list CommandParam :=
  ps ++ [mkCommandParam name false (CpTable rows db_type)].

(** The query that resolves the columns of a table type. *)
Definition tvp_metadata_query (db_type : str) : str := ascii_str "DECLARE @P AS " ++ db_type ++ ascii_str ";SELECT TOP 0 * FROM @P".

(** [Command::build_rpc_params]; [metadata] is the answer to the query. *)
Fixpoint build_rpc_params (oc : bool) (alnum : Z -> bool) (metadata : str -> Res (option (list MetaDataColumn))) (ps : list CommandParam)
    : Res (list RpcParam) :=
  match ps with
  | [] => Ok []
  | p :: ps =>
      res_bind
        match cp_data p with
        | CpScalar d => Ok (Scalar d)
        | CpTable rows db_type =>
            res_bind (validate_sql_identifier oc alnum db_type) (fun _ =>
            res_map (fun cm => Table (match cm with Some cm => with_metadata cm (tvp_new db_type rows) | None => tvp_new db_type rows end))
              (metadata (tvp_metadata_query db_type)))
        end (fun v =>
      res_map (cons (mkRpcParam (cp_name p) (if cp_out p then ByRefValue else 0) v)) (build_rpc_params oc alnum metadata ps))
  end.

(** ** Lemmas: a request on the wire *)

(** What is unread on the inbound side before [rest]: the end of a response,
    or nothing. *)
Definition unread (rest : bytes) (c : Connection) : Prop :=
  c_flushed c = true /\ c_in c = rest \/
  c_flushed c = false /\ exists ps last, Forall wire_packet ps /\ Forall (fun p => is_last p = false) ps /\
    wire_packet last /\ is_last last = true /\ c_in c = raws (ps ++ [last]) ++ rest.

Lemma flush_unread rest c : c_poisoned c = false -> c_desync c = false -> unread rest c ->
  exists c', flush_stream c = (Ok tt, c') /\ c_in c' = rest /\ c_buf c' = [] /\ c_out c' = c_out c /\ c_ctx c' = c_ctx c /\
    c_poisoned c' = false /\ c_desync c' = false.
Proof.
  intros P D U. unfold flush_stream. rewrite bind_run. unfold ensure_not_poisoned. rewrite P, D. cbn [c_flushed set_buf].
  destruct U as [[F E]|(F & ps & last & F1 & F2 & F3 & F4 & E)]; rewrite F.
  - eexists. split; [reflexivity|]. cbn. auto 10.
  - destruct (drain_spec (S (length (c_in c))) ps last rest (set_buf [] c) F1 F2 F3 F4 E) as (c' & E' & ->).
    + rewrite E, length_app. pose proof (length_raws (ps ++ [last])) as L. rewrite length_app in L. cbn in L. lia.
    + eexists. split; [exact E'|]. cbn. auto 10.
Qed.

(** An undisturbed write of a message leaves the inbound side alone. *)
Lemma post_delivers oc header item payload c : wf_context (c_ctx c) -> c_poisoned c = false -> c_desync c = false ->
  item (c_ctx c) [] = (Ok tt, payload) -> wf_header (header (packet_id (c_ctx c))) ->
  exists c' qs, post oc header item [] c = (Finished (Ok tt), [], c') /\ c_out c' = c_out c ++ raws qs /\ Forall wire_packet qs /\
    collect_payloads qs = payload /\ c_in c' = c_in c /\ c_buf c' = c_buf c /\ c_ctx c' = snd (next_packet_id (c_ctx c)) /\
    c_flushed c' = false /\ c_poisoned c' = false /\ c_desync c' = false.
Proof.
  intros W P D Hi Hh. unfold post. cbn [next_packet_id]. set (ctx := mkContext _ _ _ _ _ _ _ _ _ _). pose proof (wf_next_packet_id _ W) as W'. fold ctx in W'.
  destruct (send_undisturbed oc (header (packet_id (c_ctx c))) (item (c_ctx c)) payload (set_ctx ctx c) W' P D Hi) as (c2 & E2 & C2 & _ & O2).
  destruct (packet_room _ W') as (R1 & R2 & _). cbn [c_ctx set_ctx] in *.
  destruct (message_packets_spec (length payload) (header (packet_id (c_ctx c))) payload _ R1 (le_n _)) as (_ & M2 & M3 & _).
  pose proof (message_packets_wf (length payload) _ payload (Z.to_nat (packet_size ctx - HEADER_BYTES)) Hh) as M5.
  apply send_in in E2 as I2. cbn [c_in c_buf set_ctx] in I2. destruct I2 as [I2 B2].
  pose proof (send_waits _ _ _ _ _ _ _ E2) as (F2 & P2 & D2). cbn [c_desync set_ctx] in D2.
  exists c2, (map sent (message_packets (length payload) (header (packet_id (c_ctx c))) payload (Z.to_nat (packet_size ctx - HEADER_BYTES)))).
  split; [exact E2|]. split; [rewrite O2, <- raws_sent; reflexivity|]. split.
  { rewrite List.Forall_map. rewrite !Forall_forall in *. intros p Hp. apply sent_wire; [auto|]. destruct (M3 p Hp) as [B _]. lia. }
  rewrite collect_sent. split; [exact M2|]. rewrite D2. auto 10.
Qed.

(** An undisturbed request drains the rest of the last response, writes its
    message, and leaves the inbound side at the next response. *)
Lemma request_delivers oc header item rest payload c : wf_context (c_ctx c) -> c_poisoned c = false -> c_desync c = false -> unread rest c ->
  item (c_ctx c) [] = (Ok tt, payload) -> wf_header (header (packet_id (c_ctx c))) ->
  exists c' qs, request oc header item [] c = (Finished (Ok tt), [], c') /\ c_out c' = c_out c ++ raws qs /\ Forall wire_packet qs /\
    collect_payloads qs = payload /\ c_in c' = rest /\ c_buf c' = [] /\ c_ctx c' = snd (next_packet_id (c_ctx c)) /\
    c_flushed c' = false /\ c_poisoned c' = false /\ c_desync c' = false.
Proof.
  intros W P D U Hi Hh. destruct (flush_unread rest c P D U) as (c1 & E1 & <- & <- & <- & C1 & P1 & D1). unfold request. rewrite E1. rewrite <- C1 in *.
  exact (post_delivers oc header item payload c1 W P1 D1 Hi Hh).
Qed.

(** A request on a connection that can no longer be used writes nothing. *)
Lemma request_dead oc header item script c : c_poisoned c || c_desync c = true ->
  exists e, request oc header item script c = (Finished (Err (Protocol e)), script, c).
Proof.
  intros H. destruct (dead_send oc (header_batch 0) (ret tt) script c H) as (m & _ & _ & _ & E). exists m. unfold request. rewrite E. reflexivity.
Qed.

(** Flushing never looks into the packets it drops: the session state stays
    what it was, whatever ENVCHANGE tokens they carry. *)
Lemma flush_keeps_session c r c' : flush_stream c = (r, c') -> c_ctx c' = c_ctx c.
Proof. intros H. apply (flush_stream_keeps c r c' H). Qed.

(** ** Lemmas: declarations *)

Lemma param_type_name_ascii d : sent_param d -> ascii (param_type_name d) /\ (length (param_type_name d) <= 90)%nat.
Proof.
  assert (Lit : forall s, ascii (ascii_str s) -> (length (ascii_str s) <= 90)%nat -> ascii (ascii_str s) /\ (length (ascii_str s) <= 90)%nat) by auto.
  intros H. destruct d as [o|o|o|o|o|o|o|o|o|o|o|o|o|o|o|o|o|o]; cbn [param_type_name];
    try (apply Lit; [ascii_lit|cbn; lia]); destruct o as [v|]; try (apply Lit; [ascii_lit|cbn; lia]); cbn [param_type_name].
  - destruct (str_len v <=? 4000); [|destruct (str_len v <=? MAX_NVARCHAR_SIZE)]; apply Lit; solve [ascii_lit|cbn; lia].
  - destruct (len v <=? 8000); apply Lit; solve [ascii_lit|cbn; lia].
  - destruct H as [(W & _ & _)|H]; [|discriminate]. destruct (precision_spec v W) as [[P _] _]. destruct W as [_ [S _]].
    destruct (show_Z_ascii (precision v) ltac:(lia)) as [A1 L1], (show_Z_ascii (scale v) ltac:(lia)) as [A2 L2]. split.
    + repeat apply ascii_app; first [assumption|ascii_lit].
    + rewrite !length_app. change (length (ascii_str "numeric(")) with 8%nat. change (length (ascii_str ",")) with 1%nat.
      change (length (ascii_str ")")) with 1%nat. lia.
Qed.

(** What the loop of [rpc_perform_query] declares and binds. *)
Fixpoint declared (i : Z) (vs : list ColumnData) : list str :=
  match vs with [] => [] | v :: vs => (placeholder i ++ [SPACE] ++ param_type_name v) :: declared (i + 1) vs end.
Fixpoint bound (i : Z) (vs : list ColumnData) : list RpcParam :=
  match vs with [] => [] | v :: vs => mkRpcParam (placeholder i) 0 (Scalar v) :: bound (i + 1) vs end.

Lemma join_snoc sep l a : join sep (l ++ [a]) = match l with [] => a | _ => join sep l ++ sep ++ a end.
Proof.
  induction l as [|b l IH]; [reflexivity|]. cbn [app join]. rewrite IH. destruct l as [|c l]; [reflexivity|]. cbn [app]. rewrite <- !app_assoc. reflexivity.
Qed.

Lemma declare_params_spec vs : forall i done ps, i = len done ->
  declare_params i vs (join [COMMA] done) ps = (join [COMMA] (done ++ declared (i + 1) vs), ps ++ bound (i + 1) vs).
Proof.
  induction vs as [|v vs IH]; intros i done ps Hi; cbn [declare_params declared bound]; [rewrite !app_nil_r; reflexivity|].
  match goal with |- declare_params _ _ ?t _ = _ => replace t with (join [COMMA] (done ++ [placeholder (i + 1) ++ [SPACE] ++ param_type_name v])) end.
  - rewrite IH by (rewrite length_app; cbn; lia). rewrite <- !app_assoc. reflexivity.
  - rewrite join_snoc. unfold placeholder. destruct done as [|d done]; [cbn in Hi; subst i; cbn [Z.ltb]; rewrite <- !app_assoc; reflexivity|].
    rewrite (proj2 (Z.ltb_lt _ _)) by (cbn [length] in Hi; lia). rewrite <- !app_assoc. reflexivity.
Qed.

(** The text and the parameters of [sp_executesql]. *)
Lemma perform_params_spec q vs :
  perform_params (rpc_params_of q) vs =
  [mkRpcParam (ascii_str "stmt") 0 (Scalar (ColumnData.String (Some q)));
   mkRpcParam (ascii_str "params") 0 (Scalar (ColumnData.String (Some (join [COMMA] (declared 1 vs)))))] ++ bound 1 vs.
Proof. unfold perform_params. rewrite (declare_params_spec vs 0 [] _ eq_refl). reflexivity. Qed.

Lemma join_ascii sep l k : ascii sep -> (length sep <= 1)%nat -> Forall (fun a => ascii a /\ (length a <= k)%nat) l ->
  ascii (join sep l) /\ (length (join sep l) <= length l * (k + 1))%nat.
Proof.
  intros Hs Ls. induction 1 as [|a l [Ha La] F [I1 I2]]; [split; [constructor|cbn; lia]|]. cbn [join].
  destruct l as [|b l]; [split; [exact Ha|cbn; lia]|]. split; [auto using ascii_app|]. rewrite !length_app. cbn [length] in *. lia.
Qed.

Lemma declared_ascii vs : forall i, 0 <= i -> Forall sent_param vs ->
  Forall (fun a => ascii a /\ (length a <= 133)%nat) (declared i vs) /\ length (declared i vs) = length vs.
Proof.
  induction vs as [|v vs IH]; intros i Hi F; [split; [constructor|reflexivity]|]. apply Forall_cons in F as [Hv F].
  destruct (IH (i + 1) ltac:(lia) F) as [I1 I2], (param_type_name_ascii v Hv) as [A L], (show_Z_ascii i Hi) as [A' L']. cbn [declared].
  split; [|cbn [length]; lia]. constructor; [|exact I1]. unfold placeholder. split.
  - repeat apply ascii_app; first [assumption|ascii_lit|repeat constructor; lia].
  - rewrite !length_app. change (length (ascii_str "@P")) with 2%nat. cbn [length]. lia.
Qed.

Lemma placeholder_short i : 0 <= i -> short_name (placeholder i).
Proof.
  intros Hi. destruct (show_Z_ascii i Hi) as [A L]. assert (P : ascii (placeholder i)) by (apply ascii_app; [ascii_lit|exact A]).
  split; [apply ascii_wf, P|]. rewrite ascii_units by exact P. unfold placeholder. rewrite length_app. change (length (ascii_str "@P")) with 2%nat. lia.
Qed.

Lemma bound_fits {ER : EncodingRs} vs : forall i, 0 <= i -> Forall sent_param vs ->
  Forall2 fits_rpc_param (bound i vs) (map (fun v => SeenScalar (as_seen v)) vs).
Proof.
  induction vs as [|v vs IH]; intros i Hi F; [constructor|]. apply Forall_cons in F as [Hv F]. constructor; [|apply IH; [lia|exact F]].
  split; [apply placeholder_short, Hi|]. split; [split; vm_compute; congruence|]. split; [exact Hv|reflexivity].
Qed.

Lemma declared_imap vs : forall i, declared i vs = imap (fun k v => placeholder (i + Z.of_nat k) ++ [SPACE] ++ param_type_name v) vs.
Proof.
  induction vs as [|v vs IH]; intros i; [reflexivity|]. cbn [declared imap]. rewrite Z.add_0_r, IH. f_equal. apply imap_ext. intros k w _. cbn [compose].
  do 2 f_equal. lia.
Qed.
Lemma seen_bound vs : forall i,
  zip_with (fun p v => (Requests.param_name p, param_flags p, v)) (bound i vs) (map (fun v => SeenScalar (as_seen v)) vs) =
  imap (fun k v => (placeholder (i + Z.of_nat k), 0, SeenScalar (as_seen v))) vs.
Proof.
  induction vs as [|v vs IH]; intros i; [reflexivity|]. cbn [bound imap map zip_with Requests.param_name param_flags]. rewrite Z.add_0_r, IH. f_equal.
  apply imap_ext. intros k w _. cbn [compose]. do 2 f_equal. f_equal. lia.
Qed.
Lemma length_bound vs : forall i, length (bound i vs) = length vs.
Proof. induction vs as [|v vs IH]; intros i; [reflexivity|]. cbn. rewrite IH. reflexivity. Qed.

Lemma wf_header_of t s c : wf_context c -> wf_header (header_of t s (packet_id c)).
Proof. intros W. destruct (wf_packet_id _ W). repeat split; cbn; lia. Qed.

Section OnWire.
Context {ER : EncodingRs} (oc : bool) (powi10 : Z -> spec_float) (server : Context).

(** The texts and values of [sp_executesql] are parameters a server reads. *)
Lemma perform_params_fit q vs : wf_str q -> 2 * len (encode_utf16 q) <= MAX_PLP_SIZE -> Forall sent_param vs -> (length vs <= 2100)%nat ->
  Forall2 fits_rpc_param (perform_params (rpc_params_of q) vs)
    (SeenScalar (ColumnData.String (Some q)) :: SeenScalar (ColumnData.String (Some (join [COMMA] (declared 1 vs)))) ::
     map (fun v => SeenScalar (as_seen v)) vs).
Proof.
  intros Hq Lq F L. rewrite perform_params_spec. destruct (declared_ascii vs 1 ltac:(lia) F) as [A N].
  destruct (join_ascii [COMMA] (declared 1 vs) 133 ltac:(ascii_lit) ltac:(cbn; lia) A) as [A' L'].
  assert (Name : forall s, ascii (ascii_str s) -> len (ascii_str s) <= 255 -> short_name (ascii_str s)).
  { intros s Hs Ls. split; [apply ascii_wf, Hs|rewrite ascii_units; assumption]. }
  repeat (constructor; [split; [apply Name; [ascii_lit|vm_compute; discriminate]|split; [split; vm_compute; congruence|split; [left; split|reflexivity]]]|]).
  - exact Hq.
  - exact Lq.
  - apply ascii_wf, A'.
  - rewrite ascii_units by exact A'. rewrite N in L'. change MAX_PLP_SIZE with 2147483647. lia.
  - apply bound_fits; [lia|exact F].
Qed.

(** C10: [Client::query] and [Client::execute], end to end: on a usable
    connection, whatever is still unread of the last response, they drain it,
    and the packets they write carry one RPC message that a server reads as a
    call of [sp_executesql] (procedure 10) in the current transaction, with
    the statement, the declarations [@P1 type,@P2 type,...] in the order of
    the arguments, and every argument under its placeholder with its value,
    except that a null string, binary, decimal, XML, date or time, which has no
    type on the wire, is read as a null integer (its declaration still has its
    type); nothing is left over and the inbound side is at the next response.
    It holds for up to the 2100 arguments the server takes, each in the range
    of its type, no empty XML document, no decimal of 39 digits, and texts
    within a PLP chunk. *)
Theorem execute_on_wire (q : str) (vs : list ColumnData) (rest : bytes) (c : Connection)
  (W : wf_context (c_ctx c)) (P : c_poisoned c = false) (D : c_desync c = false) (U : unread rest c)
  (Hq : wf_str q) (Lq : 2 * len (encode_utf16 q) <= MAX_PLP_SIZE) (Hvs : Forall sent_param vs) (Lvs : (length vs <= 2100)%nat) :
  exists c' qs, execute_request oc powi10 q vs [] c = (Finished (Ok tt), [], c') /\
    c_out c' = c_out c ++ raws qs /\ Forall wire_packet qs /\ c_in c' = rest /\ c_buf c' = [] /\
    read_rpc server (2 + length vs) (collect_payloads qs) =
      (Ok (transaction_desc (c_ctx c), inr 10, 0,
           (ascii_str "stmt", 0, SeenScalar (ColumnData.String (Some q))) ::
           (ascii_str "params", 0, SeenScalar (ColumnData.String (Some
              (join [COMMA] (imap (fun k v => placeholder (1 + Z.of_nat k) ++ [SPACE] ++ param_type_name v) vs))))) ::
           imap (fun k v => (placeholder (1 + Z.of_nat k), 0, SeenScalar (as_seen v))) vs), []).
Proof.
  set (r := rpc_new (ProcId ExecuteSQL) (perform_params (rpc_params_of q) vs) (transaction_desc (c_ctx c))).
  destruct (rpc_roundtrip oc powi10 server r _ (proj2 (wf_transaction_desc _ W)) ltac:(split; vm_compute; congruence) I
    (perform_params_fit q vs Hq Lq Hvs Lvs)) as (out & A & R).
  specialize (A []). specialize (R []). rewrite app_nil_r in R.
  destruct (request_delivers oc header_rpc (fun ctx => rpc_encode oc powi10 (rpc_new (ProcId ExecuteSQL) (perform_params (rpc_params_of q) vs)
    (transaction_desc ctx))) rest out c W P D U A (wf_header_of _ _ _ W)) as (c' & qs & E & O & Fq & Cq & I' & B' & _).
  exists c', qs. split; [exact E|]. split; [exact O|]. split; [exact Fq|]. split; [exact I'|]. split; [exact B'|]. rewrite Cq.
  revert R. subst r. cbn [rpc_new Requests.rpc_params rpc_transaction_desc proc_id rpc_flags]. rewrite perform_params_spec, <- declared_imap.
  cbn [app zip_with Requests.param_name param_flags]. rewrite <- seen_bound. cbn [length]. rewrite length_bound. intros R. exact R.
Qed.
End OnWire.

(** [Client::simple_query] and the transaction operations, end to end: on
    a usable connection, whatever is still unread of the last response, they
    drain it and write one message, which a server reads as the SQL text, or
    as the transaction manager request with its savepoint or transaction
    name, under the current transaction descriptor. *)
Theorem batch_on_wire (oc : bool) (text : str) (body : TransactionRequestBody) (rest : bytes) (c : Connection)
  (W : wf_context (c_ctx c)) (P : c_poisoned c = false) (D : c_desync c = false) (U : unread rest c) (Ht : wf_str text)
  (Hn : match body with BodyBegin _ s | BodyCommit s | BodyRollback s | BodySave s => short_name s end) :
  (exists c' qs, simple_query_request oc text [] c = (Finished (Ok tt), [], c') /\
     c_out c' = c_out c ++ raws qs /\ Forall wire_packet qs /\ c_in c' = rest /\ c_buf c' = [] /\
     read_batch (collect_payloads qs) = (Ok (transaction_desc (c_ctx c), text), [])) /\
  (exists c' qs, transaction_request oc body [] c = (Finished (Ok tt), [], c') /\
     c_out c' = c_out c ++ raws qs /\ Forall wire_packet qs /\ c_in c' = rest /\ c_buf c' = [] /\
     read_transaction (collect_payloads qs) = (Ok (transaction_desc (c_ctx c), body), [])).
Proof.
  pose proof (proj2 (wf_transaction_desc _ W)) as Hd. split.
  - destruct (batch_body text _ Hd Ht) as (out & A & R).
    destruct (request_delivers oc header_batch (fun ctx => batch_encode (mkBatchRequest text (transaction_desc ctx))) rest out c W P D U
      (A []) (wf_header_of _ _ _ W)) as (c' & qs & E & O & Fq & Cq & I' & B' & _).
    exists c', qs. rewrite Cq. auto 10.
  - destruct (transaction_body (mkTransactionManagerRequest (transaction_desc (c_ctx c)) body) Hn Hd) as (out & A & R).
    destruct (request_delivers oc header_transaction_manager (fun _ => transaction_encode (mkTransactionManagerRequest (transaction_desc (c_ctx c)) body))
      rest out c W P D U (A []) (wf_header_of _ _ _ W)) as (c' & qs & E & O & Fq & Cq & I' & B' & _).
    specialize (R []). rewrite app_nil_r in R. exists c', qs. rewrite Cq. auto 10.
Qed.

(** ** Bulk insert *)

(** The specification of the statement, on the bits and bytes of the
    protocol.  The columns that can be written: read/write (bit 2 of the
    flags) or of unknown status (bit 3), and the identity columns (bit 4) when
    the options keep identities (bit 0). *)
Definition writable (options : Z) (column : MetaDataColumn) : bool :=
  let f := flags (base column) in Z.testbit f 2 || Z.testbit f 3 || (Z.testbit options 0 && Z.testbit f 4).

(** The character columns: text, ntext, varchar, char, nvarchar and nchar by
    the byte of their type. *)
Definition character_type (t : TypeInfo) : Prop :=
  match t with
  | TypeInfo.VarLenSized cx => In (var_as_u8 (vlc_type cx)) [0x23; 0x63; 0xA7; 0xAF; 0xE7; 0xEF]
  | _ => False
  end.

(** The collation the server listed for a name: that of the first row with
    exactly this name; if there is none, that of the only row with this name
    up to case; if there is no such row or more than one, none. *)
Inductive listed (lower : str -> str) (collations : list (str * option str)) (name : str) : option str -> Prop :=
  | listed_exact before o after : collations = before ++ (name, o) :: after -> ~ In name (map fst before) -> listed lower collations name o
  | listed_folded before n o after : collations = before ++ (n, o) :: after -> ~ In name (map fst collations) -> lower n = lower name ->
      Forall (fun r => lower (fst r) <> lower name) (before ++ after) -> listed lower collations name o
  | listed_none : ~ In name (map fst collations) -> Forall (fun r => lower (fst r) <> lower name) collations -> listed lower collations name None
  | listed_ambiguous before r between s after : ~ In name (map fst collations) -> collations = before ++ r :: between ++ s :: after ->
      lower (fst r) = lower name -> lower (fst s) = lower name -> listed lower collations name None.

(** The part of a column in the statement: its name in brackets and its type,
    and for a character column with a collation listed the COLLATE clause. *)
Definition bulk_item (lower : str -> str) (collations : list (str * option str)) (column : MetaDataColumn) (item : str) : Prop :=
  exists type, type_name (ty (base column)) = Some type /\
    let definition := ascii_str "[" ++ escape_bracket (col_name column) ++ ascii_str "] " ++ type in
    (character_type (ty (base column)) /\ exists collation, listed lower collations (col_name column) (Some collation) /\
       item = definition ++ ascii_str " COLLATE " ++ collation /\ collation <> [] /\
       Forall (fun ch => is_ascii_alphanumeric ch || (ch =? 95) = true) collation) \/
    ((~ character_type (ty (base column)) \/ listed lower collations (col_name column) None) /\ item = definition).

(** What follows WITH: the options by their bits, then the order hints. *)
Definition with_clauses (options : Z) (order_hints : list (str * SortOrder)) : list str :=
  omap (fun '(bit, keyword) => if Z.testbit options bit then Some (ascii_str keyword) else None)
    [(1, "CHECK_CONSTRAINTS"%string); (2, "TABLOCK"%string); (3, "KEEP_NULLS"%string); (4, "FIRE_TRIGGERS"%string)] ++
  match order_hints with
  | [] => []
  | _ => [ascii_str "ORDER(" ++ join (ascii_str ", ")
           (map (fun '(col, order) => col ++ ascii_str (match order with Ascending => " ASC" | Descending => " DESC" end)) order_hints) ++ ascii_str ")"]
  end.

Lemma contains_bit x k : 0 <= k -> contains x (2 ^ k) = Z.testbit x k.
Proof.
  intros Hk. unfold contains. destruct (Z.testbit x k) eqn:B.
  - apply Z.eqb_eq. apply Z.bits_inj'. intros i Hi. rewrite Z.land_spec, Z.pow2_bits_eqb by exact Hk.
    destruct (Z.eqb_spec k i) as [->|]; [rewrite B; reflexivity|apply andb_false_r].
  - apply Z.eqb_neq. intros E. apply (f_equal (fun y => Z.testbit y k)) in E. rewrite Z.land_spec, Z.pow2_bits_true, B in E by exact Hk. discriminate.
Qed.

Lemma is_target_writable options c : bulk_column_is_target (base c) (contains options KeepIdentity) = writable options c.
Proof.
  unfold bulk_column_is_target, is_updateable, is_identity, writable, KeepIdentity, Updateable, UpdateableUnknown, Identity.
  rewrite !contains_bit by lia. reflexivity.
Qed.

Lemma declares_collation_spec t : reflect (character_type t) (declares_collation t).
Proof.
  apply iff_reflect. destruct t as [f|[v n co]| | | ]; cbn; try (split; [intros []|discriminate]).
  destruct v; cbn; split; intros H; try reflexivity; try discriminate; try tauto; repeat (destruct H as [H|H]; [discriminate|]); destruct H.
Qed.

Lemma filter_none {A} (f : A -> bool) l : List.filter f l = [] -> Forall (fun y => f y = false) l.
Proof. induction l as [|y l IH]; cbn; [constructor|]. destruct (f y) eqn:E; [discriminate|]. constructor; auto. Qed.
Lemma filter_first {A} (f : A -> bool) x xs l : List.filter f l = x :: xs ->
  exists before after, l = before ++ x :: after /\ f x = true /\ Forall (fun y => f y = false) before /\ List.filter f after = xs.
Proof.
  induction l as [|y l IH]; cbn; [discriminate|]. destruct (f y) eqn:E.
  - intros [= -> <-]. exists [], l. auto.
  - intros H. destruct (IH H) as (b & a & -> & X & F & G). exists (y :: b), a. auto.
Qed.
Lemma find_first {A} (f : A -> bool) x l : find f l = Some x ->
  exists before after, l = before ++ x :: after /\ f x = true /\ Forall (fun y => f y = false) before.
Proof.
  induction l as [|y l IH]; cbn; [discriminate|]. destruct (f y) eqn:E.
  - intros [= ->]. exists [], l. auto.
  - intros H. destruct (IH H) as (b & a & -> & X & F). exists (y :: b), a. auto.
Qed.
Lemma names_absent (name : str) (rows : list (str * option str)) :
  Forall (fun y => (let '(n, _) := y in bool_decide (n = name)) = false) rows -> ~ In name (map fst rows).
Proof. induction 1 as [|[n o] rows E _ IH]; [intros []|]. apply bool_decide_eq_false in E. intros [X|X]; [exact (E X)|exact (IH X)]. Qed.

Lemma column_collation_listed lower name collations : listed lower collations name (column_collation lower name collations).
Proof.
  assert (Other : forall rows : list (str * option str), Forall (fun y => (let '(n, _) := y in bool_decide (lower n = lower name)) = false) rows ->
    Forall (fun r => lower (fst r) <> lower name) rows).
  { intros rows F. eapply Forall_impl; [exact F|]. intros [n o] E. exact (proj1 (bool_decide_eq_false _) E). }
  unfold column_collation. destruct (find _ collations) as [[n o]|] eqn:F.
  - apply find_first in F as (b & a & -> & E & Fb). apply bool_decide_eq_true in E as ->. exact (listed_exact _ _ _ b o a eq_refl (names_absent _ _ Fb)).
  - assert (N : ~ In name (map fst collations)) by (apply names_absent, List.Forall_forall; intros [n o] X; exact (List.find_none _ _ F _ X)).
    destruct (List.filter _ collations) as [|[n o] rows] eqn:G; [exact (listed_none _ _ _ N (Other _ (filter_none _ _ G)))|].
    apply filter_first in G as (b & a & -> & En & Fb & Fa). apply bool_decide_eq_true in En. destruct rows as [|[m p] rows].
    + apply (listed_folded _ _ _ b n o a eq_refl N En), Forall_app. split; [exact (Other _ Fb)|exact (Other _ (filter_none _ _ Fa))].
    + apply filter_first in Fa as (b' & a' & -> & Es & _). apply bool_decide_eq_true in Es.
      exact (listed_ambiguous _ _ _ b (n, o) b' (m, p) a' N eq_refl En Es).
Qed.

Lemma validate_collation_inv cl : validate_collation_name cl = Ok tt ->
  cl <> [] /\ Forall (fun ch => is_ascii_alphanumeric ch || (ch =? 95) = true) cl.
Proof.
  unfold validate_collation_name. destruct (bool_decide_reflect (cl = [])) as [|N]; [discriminate|]. cbn [negb andb].
  destruct (forallb _ cl) eqn:E; [|discriminate]. intros _. split; [exact N|]. apply List.Forall_forall. apply List.forallb_forall, E.
Qed.

Lemma bulk_column_items_spec lower collations columns : forall items, bulk_column_items lower columns collations = Ok items ->
  Forall2 (bulk_item lower collations) columns items.
Proof.
  induction columns as [|column columns IH]; intros items H; cbn [bulk_column_items] in H; [injection H as <-; constructor|].
  unfold display_column, quote_ident in H. destruct (type_name _) as [type|] eqn:Dt; [|discriminate].
  apply res_bind_ok in H as (item & Hi & H). apply res_map_ok in H as (items' & H & <-). constructor; [|apply IH, H].
  exists type. split; [exact Dt|]. cbv zeta.
  replace (ascii_str "[" ++ escape_bracket (col_name column) ++ ascii_str "] " ++ type)
    with (([91] ++ escape_bracket (col_name column) ++ [BRACKET]) ++ ascii_str " " ++ type) by (rewrite <- !app_assoc; reflexivity).
  pose proof (column_collation_listed lower (col_name column) collations) as L.
  destruct (declares_collation_spec (ty (base column))) as [C|C]; [|right; injection Hi as <-; auto].
  destruct (column_collation _ _ _) as [cl|]; [|right; injection Hi as <-; auto].
  left. split; [exact C|]. exists cl. split; [exact L|]. apply res_map_ok in Hi as ([] & V & <-). split; [reflexivity|exact (validate_collation_inv cl V)].
Qed.

(** Recording the table on the columns changes nothing in the statement. *)
Lemma bulk_targets_items lower collations table options columns items :
  Forall2 (bulk_item lower collations) (bulk_targets table options columns) items ->
  Forall2 (bulk_item lower collations) (List.filter (writable options) columns) items.
Proof.
  unfold bulk_targets. rewrite (filter_ext _ (writable options) (is_target_writable options)).
  intros F. apply (proj1 (Forall2_fmap_l (fun c => mkMetaDataColumn (mkBaseMetaDataColumn (flags (base c)) (ty (base c)) (Some table)) (col_name c)) _ _ _)) in F.
  exact F.
Qed.

Lemma build_insert_bulk_sql_spec table data options hints : build_insert_bulk_sql table data options hints =
  ascii_str "INSERT BULK " ++ table ++ ascii_str " (" ++ data ++ ascii_str ")" ++
  match with_clauses options hints with [] => [] | cs => ascii_str " WITH (" ++ join (ascii_str ", ") cs ++ ascii_str ")" end.
Proof.
  unfold build_insert_bulk_sql, CheckConstraints, TableLock, KeepNulls, FireTriggers. rewrite !contains_bit by lia. cbv zeta.
  match goal with |- match ?l with [] => _ | _ :: _ => _ end = _ => assert (E : l = with_clauses options hints) end.
  { unfold with_clauses. cbn [omap list_omap]. destruct hints as [|h hints].
    - rewrite app_nil_r. destruct (Z.testbit options 1), (Z.testbit options 2), (Z.testbit options 3), (Z.testbit options 4); reflexivity.
    - rewrite iterator_join_eq, (map_ext _ (fun '(col, order) => col ++ ascii_str (match order with Ascending => " ASC" | Descending => " DESC" end)))
        by (intros [c []]; reflexivity).
      destruct (Z.testbit options 1), (Z.testbit options 2), (Z.testbit options 3), (Z.testbit options 4); reflexivity. }
  rewrite E. destruct (with_clauses options hints); rewrite ?app_nil_r, <- ?app_assoc; reflexivity.
Qed.

(** C29: the statement of a bulk insert: when it is built, it is INSERT BULK,
    the table, and in order the columns that can be written (those whose flags
    say read/write or unknown, and with the option to keep identities the
    identity ones), each as its name in brackets and its type; a COLLATE
    clause is added to the text, ntext, varchar, char, nvarchar and nchar
    columns the server listed a collation for, and to no other, with that
    collation's name, which is made of letters, digits and underscores only;
    the clauses behind WITH are those of the options and the order hints. *)
Theorem bulk_statement_columns (lower : str -> str) (table : str) (options : Z) (order_hints : list (str * SortOrder))
  (columns : list MetaDataColumn) (collations : list (str * option str)) (sql : str)
  (H : bulk_statement lower table options order_hints columns collations = Ok sql) :
  exists items, Forall2 (bulk_item lower collations) (List.filter (writable options) columns) items /\
    sql = ascii_str "INSERT BULK " ++ table ++ ascii_str " (" ++ join (ascii_str ", ") items ++ ascii_str ")" ++
      match with_clauses options order_hints with [] => [] | clauses => ascii_str " WITH (" ++ join (ascii_str ", ") clauses ++ ascii_str ")" end.
Proof.
  apply res_map_ok in H as (data & H & <-). apply res_map_ok in H as (items & H & <-). exists items. split; [|apply build_insert_bulk_sql_spec].
  apply (bulk_targets_items _ _ table), bulk_column_items_spec, H.
Qed.

(** ** Witnesses *)

(** A connection with the two packets of a response unread. *)
Lemma conn_reading_unread : unread [] conn_reading.
Proof.
  right. split; [reflexivity|]. pose proof packets0_wire as F. inversion_clear F as [|? ? F1 F2]. inversion_clear F2 as [|? ? F3 _].
  exists [sent (mkPacket (set_status PacketStatus.NormalMessage (header_batch 1)) [1; 2; 3])], (sent (mkPacket (header_login 2) [4; 5])).
  repeat split; try reflexivity; try apply F3; repeat constructor; apply F1.
Qed.

Lemma execute_on_wire_witness :
  exists c' qs, execute_request (ER := ascii_encoding_rs) true (fun _ => S754_nan) (ascii_str "SELECT @P1")
      [ColumnData.I32 (Some 7); ColumnData.String None] [] conn_reading = (Finished (Ok tt), [], c') /\
    c_out c' = raws qs /\ Forall wire_packet qs /\ c_in c' = [] /\ c_buf c' = [] /\
    read_rpc (ER := ascii_encoding_rs) context_new 4 (collect_payloads qs) =
      (Ok (transaction_desc context_new, inr 10, 0,
           [(ascii_str "stmt", 0, SeenScalar (ColumnData.String (Some (ascii_str "SELECT @P1"))));
            (ascii_str "params", 0, SeenScalar (ColumnData.String (Some (ascii_str "@P1 int,@P2 nvarchar(4000)"))));
            (ascii_str "@P1", 0, SeenScalar (ColumnData.I32 (Some 7))); (ascii_str "@P2", 0, SeenScalar (ColumnData.I32 None))]), []).
Proof.
  destruct (execute_on_wire (ER := ascii_encoding_rs) true (fun _ => S754_nan) context_new (ascii_str "SELECT @P1")
    [ColumnData.I32 (Some 7); ColumnData.String None] [] conn_reading
    wf_context_new eq_refl eq_refl conn_reading_unread (ascii_str_wf _) ltac:(vm_compute; discriminate)
    ltac:(constructor; [left; split; vm_compute; congruence|constructor; [right; reflexivity|constructor]]) ltac:(cbn; lia)) as (c' & qs & H). exists c', qs. exact H.
Defined.

Lemma batch_on_wire_witness :
  exists c' qs, simple_query_request true (ascii_str "SELECT 1") [] conn_reading = (Finished (Ok tt), [], c') /\
     c_out c' = raws qs /\ Forall wire_packet qs /\ c_in c' = [] /\ c_buf c' = [] /\
     read_batch (collect_payloads qs) = (Ok (transaction_desc context_new, ascii_str "SELECT 1"), []).
Proof.
  assert (Hn : short_name (ascii_str "sp")) by (split; [apply ascii_str_wf|vm_compute; discriminate]).
  assert (Ht : wf_str (ascii_str "SELECT 1")) by apply ascii_str_wf.
  destruct (batch_on_wire true (ascii_str "SELECT 1") (BodySave (ascii_str "sp")) [] conn_reading wf_context_new eq_refl eq_refl
    conn_reading_unread Ht Hn) as [(c' & qs & H) _].
  exists c', qs. exact H.
Defined.

(** An identity, a computed column, and a varchar column. *)
Definition statement_columns : list MetaDataColumn :=
  [mkMetaDataColumn (mkBaseMetaDataColumn Identity (TypeInfo.FixedLen FixedLenType.Int4) None) (ascii_str "id");
   mkMetaDataColumn (mkBaseMetaDataColumn Computed (TypeInfo.FixedLen FixedLenType.Int4) None) (ascii_str "twice");
   mkMetaDataColumn (mkBaseMetaDataColumn Updateable (vls VarLenType.BigVarChar 20 None) None) (ascii_str "Name")].

Lemma bulk_statement_columns_witness :
  let collations := [(ascii_str "Name", Some (ascii_str "Latin1_General_CI_AS"))] in
  exists items, Forall2 (bulk_item id collations) (List.filter (writable 5) statement_columns) items /\ length items = 2%nat /\
    ascii_str "INSERT BULK dbo.t ([id] int, [Name] varchar(20) COLLATE Latin1_General_CI_AS) WITH (TABLOCK, ORDER(id ASC))" =
      ascii_str "INSERT BULK " ++ ascii_str "dbo.t" ++ ascii_str " (" ++ join (ascii_str ", ") items ++ ascii_str ")" ++
      ascii_str " WITH (TABLOCK, ORDER(id ASC))".
Proof.
  intros collations.
  destruct (bulk_statement_columns id (ascii_str "dbo.t") (Z.lor KeepIdentity TableLock) [(ascii_str "id", Ascending)] statement_columns collations
    (ascii_str "INSERT BULK dbo.t ([id] int, [Name] varchar(20) COLLATE Latin1_General_CI_AS) WITH (TABLOCK, ORDER(id ASC))")
    ltac:(vm_compute; reflexivity)) as (items & F & E).
  exists items. split; [exact F|]. split; [|exact E]. apply Forall2_length in F. rewrite <- F. vm_compute. reflexivity.
Defined.
