(* ===== verification/BulkLoad.v ===== *)
(** * BulkLoad: a bulk insert, [tds/codec/bulk_load.rs]

    A bulk load is one message written in pieces: the rows are encoded into a
    buffer and full packets leave as soon as they are there.  This file
    models [BulkLoadRequest] on top of [Connection] and shows that the pieces
    make the message a single send would have made, whatever rows could not
    be encoded. *)

From S2P Require Import Prelude Unicode Collation SqlRead SqlWrite Types TypeInfoCodec NumericCodec Temporal Money Context ColumnDecode ColumnEncode ColumnRoundtrip Metadata Rows Tokens Packet Connection.
From Stdlib Require Import Floats.SpecFloat.

Record BulkLoadRequest := mkBulkLoadRequest {
  bl_connection : Connection;
  bl_packet_id : Z;
  bl_buf : bytes;
  bl_columns : list MetaDataColumn;
}.

Definition bl_set_connection (c : Connection) (r : BulkLoadRequest) : BulkLoadRequest :=
  mkBulkLoadRequest c (bl_packet_id r) (bl_buf r) (bl_columns r).
Definition bl_set_buf (b : bytes) (r : BulkLoadRequest) : BulkLoadRequest :=
  mkBulkLoadRequest (bl_connection r) (bl_packet_id r) b (bl_columns r).

(** [BulkLoadRequest::new]: the id is taken before the metadata is
    encoded. *)
Definition bulk_new (columns : list MetaDataColumn) (c : Connection) : Res BulkLoadRequest * Connection :=
  let (id, ctx) := next_packet_id (c_ctx c) in
  let c := set_ctx ctx c in
  match col_metadata_encode (mkTokenColMetaData columns) [] with
  | (Ok _, buf) => (Ok (mkBulkLoadRequest c id buf columns), c)
  | (Err e, _) => (Err e, c)
  | (Panic, _) => (Panic, c)
  | (OutOfFuel, _) => (OutOfFuel, c)
  end.

Section Load.
Context {ER : EncodingRs} (oc : bool) (powi10 : Z -> spec_float).

(** The loop of [write_packets]: full packets while more than one packet is
    buffered. *)
Fixpoint write_full (fuel : nat) (size : nat) (script : list Await) (r : BulkLoadRequest)
    : Outcome unit * list Await * BulkLoadRequest :=
  if (length (bl_buf r) <=? size)%nat then (Finished (Ok tt), script, r)
  else match fuel with
       | O => (Finished OutOfFuel, script, r)
       | S fuel =>
           let data := take size (bl_buf r) in
           let r := bl_set_buf (drop size (bl_buf r)) r in
           match write_to_wire oc (header_bulk_load (bl_packet_id r)) data script (bl_connection r) with
           | (Finished (Ok _), script, c) => write_full fuel size script (bl_set_connection c r)
           | (o, script, c) => (o, script, bl_set_connection c r)
           end
       end.

(** [BulkLoadRequest::write_packets] *)
Definition write_packets (script : list Await) (r : BulkLoadRequest) : Outcome unit * list Await * BulkLoadRequest :=
  match arith_u oc 64 (packet_size (c_ctx (bl_connection r)) - HEADER_BYTES) with
  | Ok size =>
      let size := Z.to_nat size in
      if (length (bl_buf r) <=? size)%nat then (Finished (Ok tt), script, r)
      else
        let r := bl_set_connection (set_poisoned true (bl_connection r)) r in
        match write_full (length (bl_buf r)) size script r with
        | (Finished (Ok _), script, r) =>
            (Finished (Ok tt), script, bl_set_connection (set_poisoned false (bl_connection r)) r)
        | o => o
        end
  | _ => (Finished Panic, script, r)
  end.

(** [BulkLoadRequest::send] *)
Definition bulk_send (row : TokenRow) (script : list Await) (r : BulkLoadRequest)
    : Outcome unit * list Await * BulkLoadRequest :=
  match ensure_not_poisoned (bl_connection r) with
  | (Ok _, _) =>
      let start := length (bl_buf r) in
      match row_encode oc powi10 row (bl_columns r) (bl_buf r) with
      | (Ok _, buf) => write_packets script (bl_set_buf buf r)
      | (Err e, buf) => (Finished (Err e), script, bl_set_buf (take start buf) r)
      | (Panic, buf) => (Finished Panic, script, bl_set_buf buf r)
      | (OutOfFuel, buf) => (Finished OutOfFuel, script, bl_set_buf buf r)
      end
  | (e, _) => (Finished e, script, r)
  end.

(** [TokenDone::default] *)
Definition done_default : TokenDone := mkTokenDone 0 0 0.

(** [BulkLoadRequest::finalize] up to its flush; the response that
    [ExecuteResult::new] then collects is read by the token stream. *)
Definition bulk_finalize (script : list Await) (r : BulkLoadRequest) : Outcome unit * list Await * BulkLoadRequest :=
  match ensure_not_poisoned (bl_connection r) with
  | (Ok _, _) =>
      match done_encode done_default (bl_buf r) with
      | (Ok _, buf) =>
          match write_packets script (bl_set_buf buf r) with
          | (Finished (Ok _), script, r) =>
              let header := set_status PacketStatus.EndOfMessage (header_bulk_load (bl_packet_id r)) in
              let data := bl_buf r in
              let r := bl_set_buf [] r in
              match write_to_wire oc header data script (set_poisoned true (bl_connection r)) with
              | (Finished (Ok _), script, c) =>
                  match flush_sink script c with
                  | (Finished (Ok _), script, c) => (Finished (Ok tt), script, bl_set_connection (set_poisoned false c) r)
                  | (o, script, c) => (o, script, bl_set_connection c r)
                  end
              | (o, script, c) => (o, script, bl_set_connection c r)
              end
          | o => o
          end
      | (e, buf) => (Finished e, script, bl_set_buf buf r)
      end
  | (e, _) => (Finished e, script, r)
  end.
End Load.

(** ** What a load leaves alone *)

(** The inbound side and the session. *)
Definition same_inbound (c c' : Connection) : Prop := c_in c' = c_in c /\ c_buf c' = c_buf c /\ c_ctx c' = c_ctx c.
Lemma same_inbound_trans a b c : same_inbound a b -> same_inbound b c -> same_inbound a c.
Proof. unfold same_inbound. intuition congruence. Qed.

Lemma write_to_wire_side oc h data script c : same_inbound c (snd (write_to_wire oc h data script c)).
Proof.
  unfold write_to_wire. destruct (packet_encode _ _ _) as [[]]; try (repeat split; fail). destruct (next_await script) as [[] ]; repeat split.
Qed.
Lemma write_full_side oc fuel : forall size script r, same_inbound (bl_connection r) (bl_connection (snd (write_full oc fuel size script r))).
Proof.
  induction fuel as [|fuel IH]; intros size script r; cbn [write_full]; destruct (_ <=? size)%nat; try (repeat split; fail). cbn zeta.
  cbn [bl_packet_id bl_connection bl_set_buf]. pose proof (write_to_wire_side oc (header_bulk_load (bl_packet_id r)) (take size (bl_buf r)) script (bl_connection r)) as S.
  destruct (write_to_wire _ _ _ _ _) as [[[[u|e| |]|] s1] c1]; cbn [snd] in *; try exact S. eapply same_inbound_trans; [exact S|].
  exact (IH size s1 (bl_set_connection c1 (bl_set_buf (drop size (bl_buf r)) r))).
Qed.
Lemma write_packets_side oc script r : same_inbound (bl_connection r) (bl_connection (snd (write_packets oc script r))).
Proof.
  unfold write_packets. destruct (arith_u _ _ _) as [size|e| |]; try (repeat split; fail). cbn zeta. destruct (_ <=? _)%nat; [repeat split|].
  match goal with |- context [write_full ?o ?f ?n ?s ?x] => pose proof (write_full_side o f n s x) as S; destruct (write_full o f n s x) as [[[[u|e| |]|] s1] r1] end;
    cbn [snd] in *; exact S.
Qed.
Lemma bulk_send_side {ER : EncodingRs} oc powi10 row script r :
  same_inbound (bl_connection r) (bl_connection (snd (bulk_send oc powi10 row script r))).
Proof.
  unfold bulk_send. destruct (ensure_not_poisoned _) as [[u|e| |] c]; try (repeat split; fail). cbn zeta.
  destruct (row_encode _ _ _ _ _) as [[v|e| |] buf]; try (repeat split; fail). exact (write_packets_side oc script (bl_set_buf buf r)).
Qed.
Lemma bulk_finalize_side oc script r : same_inbound (bl_connection r) (bl_connection (snd (bulk_finalize oc script r))).
Proof.
  unfold bulk_finalize. destruct (ensure_not_poisoned _) as [[u|e| |] c]; try (repeat split; fail).
  destruct (done_encode _ _) as [[v|e| |] buf]; try (repeat split; fail). pose proof (write_packets_side oc script (bl_set_buf buf r)) as S.
  destruct (write_packets _ _ _) as [[[[v1|e| |]|] s1] r1]; cbn [snd] in *; try exact S. cbn zeta.
  match goal with |- context [write_to_wire ?o ?h ?d ?s ?x] => pose proof (write_to_wire_side o h d s x) as S2; destruct (write_to_wire o h d s x) as [[[[v2|e| |]|] s2] c2] end;
    cbn [snd] in *; try exact (same_inbound_trans _ _ _ S S2).
  unfold flush_sink. destruct (next_await s2) as [[] ]; exact (same_inbound_trans _ _ _ S S2).
Qed.

(** ** Encoders write behind what is there *)

(** [w] leaves the first [n] bytes of the buffer alone, also when it fails. *)
Definition past {A} (n : nat) (w : M bytes A) (Q : A -> Prop) : Prop := forall dst, (n <= length dst)%nat ->
  take n (snd (w dst)) = take n dst /\ (n <= length (snd (w dst)))%nat /\ forall a, fst (w dst) = Ok a -> Q a.

Lemma past_bind {A B} n (w : M bytes A) (k : A -> M bytes B) P Q :
  past n w P -> (forall a, P a -> past n (k a) Q) -> past n (bind w k) Q.
Proof.
  intros Hw Hk dst L. destruct (Hw dst L) as (T & L' & HP). unfold bind.
  destruct (w dst) as [[a|e| |] d]; cbn in *; try (split; [exact T|]; split; [exact L'|discriminate]).
  destruct (Hk a (HP a eq_refl) d L') as (T2 & L2 & HQ). split; [congruence|auto].
Qed.

Lemma past_lift {A} n (r : Res A) : past n (lift r) (fun _ => True).
Proof. intros dst L. cbn. auto. Qed.
Lemma past_fail {A} n e Q : past (A := A) n (fail e) Q.
Proof. intros dst L. cbn. split; [reflexivity|]. split; [exact L|discriminate]. Qed.
Lemma past_panic {A} n Q : past (A := A) n panic Q.
Proof. intros dst L. cbn. split; [reflexivity|]. split; [exact L|discriminate]. Qed.
Lemma past_ret {A} n (a : A) (Q : A -> Prop) : Q a -> past n (ret a) Q.
Proof. intros H dst L. cbn. split; [reflexivity|]. split; [exact L|]. intros ? [= <-]. exact H. Qed.
Lemma past_put_slice n l : past n (put_slice l) (fun _ => True).
Proof. intros dst L. cbn. rewrite take_app_le by exact L. rewrite length_app. split; [reflexivity|]. split; [lia|auto]. Qed.
Lemma past_buf_len n : past n buf_len (fun p => Z.of_nat n <= p).
Proof. intros dst L. cbn. split; [reflexivity|]. split; [exact L|]. intros ? [= <-]. lia. Qed.
Lemma past_patch n p l : Z.of_nat n <= p -> past n (patch p l) (fun _ => True).
Proof.
  intros Hp dst L. unfold patch. destruct (Z.leb_spec (p + len l) (len dst)); cbn [fst snd]; [|auto].
  assert (n <= length (take (Z.to_nat p) dst))%nat by (rewrite length_take; lia).
  rewrite take_app_le, take_take by assumption. rewrite !length_app. split; [f_equal; lia|]. split; [lia|auto].
Qed.
Lemma past_iter_m {A} n (f : A -> M bytes unit) xs : (forall x, past n (f x) (fun _ => True)) -> past n (iter_m f xs) (fun _ => True).
Proof. intros H. induction xs as [|x xs IH]; [apply past_ret, I|]. cbn [iter_m]. eapply past_bind; [apply H|intros _ _; exact IH]. Qed.
Lemma past_put_units n us : past n (put_units us) (fun _ => True).
Proof. apply past_iter_m. intros. apply past_put_slice. Qed.

Create HintDb tds_past discriminated.

(** Walks through an encoder: one case per branch, one lemma per write. *)
Ltac past_step :=
  match goal with
  | |- past _ (bind buf_len _) _ => eapply past_bind; [apply past_buf_len|intros ? ?]
  | |- past _ (bind _ _) _ => apply (past_bind _ _ _ (fun _ => True)); [|intros ? ?]
  | |- past _ (lift _) _ => apply past_lift
  | |- past _ (put_slice _) _ => apply past_put_slice
  | |- past _ (put_units _) _ => apply past_put_units
  | |- past _ (patch _ _) _ => apply past_patch; assumption
  | |- past _ (fail _) _ => apply past_fail
  | |- past _ panic _ => apply past_panic
  | |- past _ (ret _) _ => apply past_ret
  | |- past _ (if ?b then _ else _) _ => destruct b
  | |- past _ (match ?x with _ => _ end) _ => destruct x
  | |- past _ (let _ := _ in _) _ => cbv zeta
  | |- past _ _ _ => solve [eauto 1 with tds_past]
  | |- True => exact I
  end.
Ltac past_steps := repeat past_step.

Ltac past_start := unfold put_u8, put_u16_le, put_u32_le, put_u64_le, put_u128_le, put_i16_le, put_i32_le, put_i64_le,
  put_f32_le, put_f64_le, put_u16_le, put_u32_le, put_u64_le; past_steps.

Lemma past_datetime n d : past n (datetime_encode d) (fun _ => True).
Proof. unfold datetime_encode. past_start. Qed.
Lemma past_smalldatetime n d : past n (smalldatetime_encode d) (fun _ => True).
Proof. unfold smalldatetime_encode. past_start. Qed.
Lemma past_date n d : past n (date_encode d) (fun _ => True).
Proof. unfold date_encode. past_start. Qed.
Lemma past_time n t : past n (time_encode t) (fun _ => True).
Proof. unfold time_encode. past_start. Qed.
#[export] Hint Resolve past_datetime past_smalldatetime past_date past_time : tds_past.
Lemma past_datetime2 n d : past n (datetime2_encode d) (fun _ => True).
Proof. unfold datetime2_encode. past_start. Qed.
#[export] Hint Resolve past_datetime2 : tds_past.
Lemma past_datetimeoffset n d : past n (datetimeoffset_encode d) (fun _ => True).
Proof. unfold datetimeoffset_encode. past_start. Qed.
Lemma past_numeric n d : past n (numeric_encode d) (fun _ => True).
Proof. unfold numeric_encode. past_start. Qed.
Lemma past_scaled n m v p : past n (put_scaled m v p) (fun _ => True).
Proof. unfold put_scaled. past_start. Qed.
#[export] Hint Resolve past_datetimeoffset past_numeric past_scaled : tds_past.
Lemma past_money n m v p : past n (money_encode_inner m v p) (fun _ => True).
Proof. unfold money_encode_inner. past_start. Qed.
Lemma past_money_numeric n m v p : past n (money_encode_numeric_inner m v p) (fun _ => True).
Proof. unfold money_encode_numeric_inner. past_start. Qed.
#[export] Hint Resolve past_money past_money_numeric : tds_past.

Section Past.
Context {ER : EncodingRs} (oc : bool) (powi10 : Z -> spec_float).

Lemma past_put_opt {A} n k (w : A -> M bytes unit) o : (forall v, past n (w v) (fun _ => True)) -> past n (put_opt k w o) (fun _ => True).
Proof. intros H. unfold put_opt. past_start. Qed.

(** A variant is built apart. *)
Lemma past_variant n d : past n (sql_variant_encode d) (fun _ => True).
Proof.
  intros dst L. unfold sql_variant_encode. destruct (variant_body d []) as [[[]|e| |] body]; cbn [fst snd]; auto;
    [|apply past_put_slice, L]. assert (P : past n (put_u32_le (len body) ;; put_slice body) (fun _ => True)) by past_start.
  apply P, L.
Qed.

Lemma past_rest n d ti : past n (encode_rest d ti) (fun _ => True).
Proof. unfold encode_rest. past_start; apply past_variant. Qed.

Lemma past_scalar n d f v w (p : Z -> M bytes unit) o ti : (forall x, past n (p x) (fun _ => True)) ->
  past n (encode_scalar d f v w p o ti) (fun _ => True).
Proof.
  intros H. unfold encode_scalar, header. cbv zeta.
  destruct ti as [[]|]; past_start; try apply past_rest; try apply H; apply past_put_opt, H.
Qed.

Lemma past_xml n x : past n (xml_encode oc x) (fun _ => True).
Proof. unfold xml_encode. past_start. Qed.

Lemma past_strings n cx o : past n (encode_bigchar cx o) (fun _ => True) /\ past n (encode_nvarchar cx o) (fun _ => True) /\
  forall b, past n (encode_text oc cx b o) (fun _ => True).
Proof. unfold encode_bigchar, encode_nvarchar, encode_text, put_null. split; [|split; [|intros b]]; past_start. Qed.

Lemma past_string_param n s : past n (encode_string_param oc s) (fun _ => True).
Proof. unfold encode_string_param. past_start. Qed.

Lemma past_null n k : past n (put_null k) (fun _ => True).
Proof. unfold put_null. past_start. Qed.
End Past.

#[export] Hint Resolve past_rest past_xml past_string_param past_null : tds_past.
#[export] Hint Extern 1 (past _ (put_opt _ _ _) _) => apply past_put_opt; intros; past_start : tds_past.
#[export] Hint Extern 1 (past _ (encode_scalar _ _ _ _ _ _ _) _) => apply past_scalar; intros; past_start : tds_past.
#[export] Hint Extern 1 (past _ (encode_bigchar _ _) _) => apply (past_strings true) : tds_past.
#[export] Hint Extern 1 (past _ (encode_nvarchar _ _) _) => apply (past_strings true) : tds_past.
#[export] Hint Extern 1 (past _ (encode_text _ _ _ _) _) => apply past_strings : tds_past.

Section PastRow.
Context {ER : EncodingRs} (oc : bool) (powi10 : Z -> spec_float).

Lemma past_column n d ti : past n (column_encode oc powi10 d ti) (fun _ => True).
Proof.
  destruct d as [o|o|o|o|o|o|o|o|o|o|o|o|o|o|o|o|o|o]; cbn [column_encode];
    unfold encode_bit, encode_u8, encode_i16, encode_i32, encode_i64, encode_f32, encode_f64, encode_guid, encode_string,
      encode_binary, encode_datetime, encode_smalldatetime, encode_date, encode_time, encode_datetime2, encode_datetimeoffset,
      encode_xml, encode_numeric, header, money_encode, money_encode_fixed, money_encode_numeric, money_encode_numeric_fixed;
    cbv zeta; past_start.
Qed.

(** A row that cannot be encoded leaves what was buffered in place. *)
Lemma past_row row cols buf : take (length buf) (snd (row_encode oc powi10 row cols buf)) = buf.
Proof.
  assert (P : forall n row cols, past n (encode_values oc powi10 row cols) (fun _ => True)).
  { intros n r. induction r as [|v r IH]; intros [|c cs]; cbn [encode_values]; try (apply past_ret, I).
    eapply past_bind; [apply past_column|intros _ _; apply IH]. }
  assert (R : past (length buf) (row_encode oc powi10 row cols) (fun _ => True)).
  { unfold row_encode. past_start. }
  destruct (R buf (le_n _)) as (T & _). rewrite T. apply firstn_all.
Qed.
End PastRow.

(** ** A message in pieces *)

Lemma message_packets_fuel f1 : forall f2 h payload size, (0 < size)%nat -> (length payload <= f1)%nat -> (length payload <= f2)%nat ->
  message_packets f1 h payload size = message_packets f2 h payload size.
Proof.
  induction f1 as [|f1 IH]; intros f2 h payload size Hs H1 H2; destruct payload as [|b p]; try (destruct f2; reflexivity); [cbn in H1; lia|].
  destruct f2 as [|f2]; [cbn in H2; lia|]. rewrite !message_packets_step by discriminate. cbn zeta. f_equal.
  apply IH; [exact Hs| |]; rewrite length_drop; cbn [length] in *; lia.
Qed.

Definition bulk_packet (id : Z) (data : bytes) : bytes := packet_bytes (mkPacket (header_bulk_load id) data).

(** A message longer than one packet starts with a full one. *)
Lemma message_full id payload size : (0 < size < length payload)%nat ->
  message (header_bulk_load id) payload size =
    bulk_packet id (take size payload) ++ message (header_bulk_load id) (drop size payload) size.
Proof.
  intros H. unfold message. destruct payload as [|b p]; [cbn in H; lia|]. set (payload := b :: p) in *.
  assert (Hp : length payload = S (length p)) by reflexivity. change (length payload) with (S (length p)) at 1. rewrite message_packets_step by discriminate. cbn zeta.
  rewrite Nat.min_r by lia. cbn [map concat]. f_equal.
  - destruct (drop size payload) eqn:E; [|reflexivity]. apply (f_equal length) in E. rewrite length_drop in E. cbn [length] in E. lia.
  - do 2 f_equal. apply message_packets_fuel; [lia| |]; rewrite ?length_drop; lia.
Qed.

(** One that fits is its last packet. *)
Lemma message_last id payload size : (0 < length payload <= size)%nat ->
  message (header_bulk_load id) payload size =
    packet_bytes (mkPacket (set_status PacketStatus.EndOfMessage (header_bulk_load id)) payload).
Proof.
  intros H. unfold message. destruct payload as [|b p]; [cbn in H; lia|]. set (payload := b :: p) in *.
  assert (Hp : length payload = S (length p)) by reflexivity. change (length payload) with (S (length p)) at 1. rewrite message_packets_step by discriminate. cbn zeta.
  rewrite Nat.min_l by lia. rewrite drop_ge, take_ge by lia. cbn [map concat].
  destruct (length p); cbn [message_packets map concat]; apply app_nil_r.
Qed.

Section Pieces.
Context {ER : EncodingRs} (oc : bool) (powi10 : Z -> spec_float).

(** What a disturbed write reports. *)
Definition disturbed (o : Outcome unit) : Prop := match o with Finished (Err (Io _)) | Abandoned => True | _ => False end.

(** The loop of [write_packets]: the packets written and the buffer that is
    left make the same message as the buffer did. *)
Lemma write_full_spec fuel : forall size script r, (0 < size)%nat -> Z.of_nat size <= max_payload -> (length (bl_buf r) <= fuel)%nat ->
  exists o s' r', write_full oc fuel size script r = (o, s', r') /\
    bl_packet_id r' = bl_packet_id r /\ bl_columns r' = bl_columns r /\ same_but_out (bl_connection r) (bl_connection r') /\
    (script = [] -> o = Finished (Ok tt) /\ s' = []) /\
    exists w, c_out (bl_connection r') = c_out (bl_connection r) ++ w /\
      (o = Finished (Ok tt) /\ (length (bl_buf r') <= size)%nat /\ (bl_buf r <> [] -> bl_buf r' <> []) /\
         (forall more, message (header_bulk_load (bl_packet_id r)) (bl_buf r ++ more) size =
                       w ++ message (header_bulk_load (bl_packet_id r)) (bl_buf r' ++ more) size) \/
       disturbed o /\ forall more, prefix w (message (header_bulk_load (bl_packet_id r)) (bl_buf r ++ more) size)).
Proof.
  induction fuel as [|fuel IH]; intros size script r Hs Hm Hf; cbn [write_full].
  { rewrite (proj2 (Nat.leb_le _ _)) by lia. do 3 eexists. split; [reflexivity|]. do 2 (split; [reflexivity|]).
    split; [repeat split|]. split; [auto|]. exists []. rewrite app_nil_r. split; [reflexivity|]. left. repeat split; auto. lia. }
  destruct (Nat.leb_spec (length (bl_buf r)) size) as [Hl|Hl].
  { do 3 eexists. split; [reflexivity|]. do 2 (split; [reflexivity|]).
    split; [repeat split|]. split; [auto|]. exists []. rewrite app_nil_r. split; [reflexivity|]. left. repeat split; auto. }
  cbn zeta. cbn [bl_packet_id bl_connection bl_set_buf]. set (h := header_bulk_load (bl_packet_id r)).
  assert (Ld : len (take size (bl_buf r)) <= max_payload) by (rewrite length_take; lia).
  pose proof (write_to_wire_spec oc h (take size (bl_buf r)) script (bl_connection r) Ld) as (o & s1 & c1 & E & Sm & w & Ew & Pw & Ow).
  assert (Calm : script = [] -> o = Finished (Ok tt) /\ s1 = []).
  { intros ->. revert E. unfold write_to_wire. rewrite packet_encode_empty by exact Ld. cbn [next_await]. intros [= <- <- _]. auto. }
  assert (Full : forall more, message h (bl_buf r ++ more) size =
    packet_bytes (mkPacket h (take size (bl_buf r))) ++ message h (drop size (bl_buf r) ++ more) size).
  { intros more. unfold h. rewrite message_full by (rewrite length_app; lia). rewrite take_app_le, drop_app_le by lia. reflexivity. }
  rewrite E. destruct o as [[[]|e| |]|]; try contradiction.
  - set (r1 := bl_set_connection c1 (bl_set_buf (drop size (bl_buf r)) r)).
    destruct (IH size s1 r1 Hs Hm) as (o & s2 & r2 & E2 & I1 & I2 & I3 & I4 & w2 & I5 & I6).
    { cbn. rewrite length_drop. lia. }
    rewrite E2. do 3 eexists. split; [reflexivity|]. split; [exact I1|]. split; [exact I2|]. split; [eapply same_trans; eauto|].
    split; [intros Hn; destruct (Calm Hn) as [_ ->]; auto|]. exists (w ++ w2). rewrite I5. cbn [r1 bl_connection bl_set_connection].
    rewrite Ew, app_assoc. split; [reflexivity|]. cbn [r1 bl_buf bl_packet_id bl_set_connection bl_set_buf] in I6. fold h in I6.
    destruct I6 as [(O & L & N & M)|(O & M)]; [left|right].
    + split; [exact O|]. split; [exact L|]. split.
      * intros _. apply N. intros Hd. apply (f_equal length) in Hd. rewrite length_drop in Hd. cbn in Hd. lia.
      * intros more. rewrite Full, M, Ow, app_assoc. reflexivity.
    + split; [exact O|]. intros more. rewrite Full, Ow. apply prefix_app, M.
  - destruct e; try contradiction. do 3 eexists. split; [reflexivity|]. do 2 (split; [reflexivity|]). split; [exact Sm|].
    split; [intros Hn; destruct (Calm Hn) as [[=] _]|]. exists w. split; [exact Ew|]. right. split; [exact I|].
    intros more. rewrite Full. apply prefix_app_r, Pw.
  - do 3 eexists. split; [reflexivity|]. do 2 (split; [reflexivity|]). split; [exact Sm|].
    split; [intros Hn; destruct (Calm Hn) as [[=] _]|]. exists w. split; [exact Ew|]. right. split; [exact I|].
    intros more. rewrite Full. apply prefix_app_r, Pw.
Qed.

(** The payload of a packet of this connection. *)
Definition room (ctx : Context) : nat := Z.to_nat (packet_size ctx - HEADER_BYTES).

(** A load of which [payload] has been taken, on a connection that had
    written [out]: the packets on the wire and the buffer are the payload in
    pieces. *)
Record loading (out : bytes) (ctx : Context) (id : Z) (cols : list MetaDataColumn) (payload : bytes) (r : BulkLoadRequest) : Prop := {
  load_id : bl_packet_id r = id;
  load_cols : bl_columns r = cols;
  load_ctx : c_ctx (bl_connection r) = ctx;
  load_clean : c_poisoned (bl_connection r) = false /\ c_desync (bl_connection r) = false;
  load_wire : exists w, c_out (bl_connection r) = out ++ w /\ forall more,
    message (header_bulk_load id) (payload ++ more) (room ctx) = w ++ message (header_bulk_load id) (bl_buf r ++ more) (room ctx)
}.

(** A load that was disturbed: what is on the wire is the start of its
    message and the connection is poisoned. *)
Definition broken (out : bytes) (ctx : Context) (id : Z) (payload : bytes) (r : BulkLoadRequest) : Prop :=
  c_poisoned (bl_connection r) = true /\
  exists w, c_out (bl_connection r) = out ++ w /\ forall more, prefix w (message (header_bulk_load id) (payload ++ more) (room ctx)).

Lemma write_packets_spec out ctx id cols payload script r : wf_context ctx -> loading out ctx id cols payload r ->
  exists o s' r', write_packets oc script r = (o, s', r') /\ (script = [] -> o = Finished (Ok tt) /\ s' = []) /\
    (o = Finished (Ok tt) /\ loading out ctx id cols payload r' /\ (length (bl_buf r') <= room ctx)%nat /\ (bl_buf r <> [] -> bl_buf r' <> []) \/
     disturbed o /\ broken out ctx id payload r').
Proof.
  intros W [Hi Hc Hx [Hp Hd] (w & Ew & Mw)]. destruct (packet_room _ W) as (R1 & R2 & R3). unfold write_packets. rewrite Hx, R3.
  fold (room ctx) in *. cbn zeta. destruct (Nat.leb_spec (length (bl_buf r)) (room ctx)) as [Hl|Hl].
  { do 3 eexists. split; [reflexivity|]. split; [auto|]. left. split; [reflexivity|]. split; [|auto]. split; eauto. }
  set (r0 := bl_set_connection _ r).
  destruct (write_full_spec (length (bl_buf r)) (room ctx) script r0 R1 R2 (le_n _))
    as (o & s' & r' & E & I1 & I2 & (J1 & J2 & J3 & J4 & J5) & I4 & w' & I5 & I6).
  change (bl_buf r0) with (bl_buf r) in *. change (c_out (bl_connection r0)) with (c_out (bl_connection r)) in I5.
  change (bl_packet_id r0) with (bl_packet_id r) in *. rewrite E. rewrite Hi in *.
  destruct I6 as [(-> & L & N & M)|(O & M)].
  - do 3 eexists. split; [reflexivity|]. split; [intros Hn; split; [reflexivity|apply (I4 Hn)]|]. left. split; [reflexivity|].
    split; [|auto]. split; cbn.
    + exact I1.
    + rewrite I2. exact Hc.
    + rewrite J2. exact Hx.
    + split; [reflexivity|]. rewrite J5. exact Hd.
    + exists (w ++ w'). rewrite I5, Ew, app_assoc. split; [reflexivity|]. intros more. rewrite Mw, M, app_assoc. reflexivity.
  - assert (B : broken out ctx id payload r').
    { split; [exact J4|]. exists (w ++ w'). rewrite I5, Ew, app_assoc. split; [reflexivity|]. intros more. rewrite Mw. apply prefix_app, M. }
    destruct o as [[[]|[]| |]|]; try contradiction; do 3 eexists; (split; [reflexivity|]; split; [intros Hn; destruct (I4 Hn) as [[=] _]|]; right; auto).
Qed.

(** What a row adds, and a row that cannot be encoded. *)
Definition row_adds (cols : list MetaDataColumn) (row : TokenRow) (o : option bytes) : Prop :=
  match o with
  | Some out => appends (row_encode oc powi10 row cols) out
  | None => forall dst, exists e, fst (row_encode oc powi10 row cols dst) = Err e
  end.

Lemma poisoned_refuses c : c_poisoned c = true -> exists m, ensure_not_poisoned c = (Err (Protocol m), c).
Proof. intros H. unfold ensure_not_poisoned. rewrite H. eauto. Qed.

Lemma bulk_send_spec out ctx id cols payload row o script r : wf_context ctx -> row_adds cols row o ->
  loading out ctx id cols payload r ->
  exists oc' s' r', bulk_send oc powi10 row script r = (oc', s', r') /\
    (script = [] -> s' = [] /\ loading out ctx id cols (payload ++ default [] o) r') /\
    (loading out ctx id cols (payload ++ default [] o) r' /\ oc' = Finished (Ok tt) /\ o <> None \/
     loading out ctx id cols (payload ++ default [] o) r' /\ (exists e, oc' = Finished (Err e)) /\ o = None \/
     disturbed oc' /\ broken out ctx id (payload ++ default [] o) r').
Proof.
  intros W Ha H. pose proof H as [Hi Hc Hx [Hp Hd] (w & Ew & Mw)]. unfold bulk_send, ensure_not_poisoned. rewrite Hp, Hd, Hc.
  cbn zeta. destruct o as [o|]; cbn [row_adds default] in *.
  - rewrite (Ha (bl_buf r)). assert (L : loading out ctx id cols (payload ++ o) (bl_set_buf (bl_buf r ++ o) r)).
    { split; cbn; auto. exists w. split; [exact Ew|]. intros more.
      rewrite <- !app_assoc. apply Mw. }
    destruct (write_packets_spec out ctx id cols (payload ++ o) script _ W L) as (o' & s' & r' & E & C & D).
    rewrite E. do 3 eexists. split; [reflexivity|]. destruct D as [(-> & D & _)|(D & B)].
    + split; [intros Hn; split; [apply (C Hn)|exact D]|]. left. split; [exact D|]. split; [reflexivity|discriminate].
    + split; [intros Hn; destruct (C Hn) as [-> _]; contradiction|]. auto.
  - destruct (Ha (bl_buf r)) as [e He]. pose proof (past_row oc powi10 row cols (bl_buf r)) as P.
    destruct (row_encode oc powi10 row cols (bl_buf r)) as [res buf]. cbn [fst snd] in *. subst res. rewrite P, app_nil_r.
    replace (bl_set_buf (bl_buf r) r) with r by (destruct r; reflexivity).
    do 3 eexists. split; [reflexivity|]. split; [auto|]. right. left. eauto.
Qed.

Lemma bulk_send_broken row script r : c_poisoned (bl_connection r) = true ->
  exists m, bulk_send oc powi10 row script r = (Finished (Err (Protocol m)), script, r) /\
            bulk_finalize oc script r = (Finished (Err (Protocol m)), script, r).
Proof. intros H. destruct (poisoned_refuses _ H) as (m & E). exists m. unfold bulk_send, bulk_finalize. rewrite E. auto. Qed.

(** Any row, one whose encoding panics in the middle included: the load goes
    on as a load of some payload, or it is broken. *)
Lemma bulk_send_any out ctx id cols payload row script r : wf_context ctx -> loading out ctx id cols payload r ->
  let r' := snd (bulk_send oc powi10 row script r) in
  exists payload', loading out ctx id cols payload' r' \/ broken out ctx id payload' r'.
Proof.
  intros W H. pose proof H as [Hi Hc Hx [Hp Hd] (w & Ew & Mw)]. unfold bulk_send, ensure_not_poisoned. rewrite Hp, Hd. cbv zeta.
  pose proof (past_row oc powi10 row (bl_columns r) (bl_buf r)) as P. destruct (row_encode oc powi10 row (bl_columns r) (bl_buf r)) as [res buf].
  cbn [snd] in P. assert (E : buf = bl_buf r ++ drop (length (bl_buf r)) buf) by (rewrite <- P at 1; symmetry; apply take_drop).
  assert (L : loading out ctx id cols (payload ++ drop (length (bl_buf r)) buf) (bl_set_buf buf r)).
  { split; [exact Hi|exact Hc|exact Hx|auto|]. exists w. split; [exact Ew|]. intros more. change (bl_buf (bl_set_buf buf r)) with buf.
    replace (buf ++ more) with (bl_buf r ++ drop (length (bl_buf r)) buf ++ more) by (rewrite app_assoc, <- E; reflexivity). rewrite <- app_assoc. apply Mw. }
  destruct res as [u|e| |]; cbn [snd]; eauto.
  - destruct (write_packets_spec out ctx id cols _ script _ W L) as (o & s' & r' & -> & _ & [(_ & D & _)|(_ & D)]); cbn [snd]; eauto.
  - exists payload. left. rewrite P. replace (bl_set_buf (bl_buf r) r) with r by (destruct r; reflexivity). exact H.
Qed.

(** The rows of a load, each with its script. *)
Fixpoint bulk_rows (rows : list (TokenRow * list Await)) (r : BulkLoadRequest) : list (Outcome unit) * BulkLoadRequest :=
  match rows with
  | [] => ([], r)
  | (row, script) :: rows =>
      let '(o, _, r) := bulk_send oc powi10 row script r in
      let (os, r) := bulk_rows rows r in
      (o :: os, r)
  end.

(** What the rows of a load add to its message. *)
Definition added (outs : list (option bytes)) : bytes := concat (map (default []) outs).

Lemma bulk_rows_broken rows : forall r, c_poisoned (bl_connection r) = true -> snd (bulk_rows rows r) = r.
Proof.
  induction rows as [|[row s] rows IH]; intros r H; [reflexivity|]. cbn [bulk_rows].
  destruct (bulk_send_broken row s r H) as (m & -> & _). specialize (IH r H). destruct (bulk_rows rows r). exact IH.
Qed.

Lemma bulk_rows_spec out ctx id cols rows : wf_context ctx -> forall outs payload r,
  Forall2 (fun rs o => row_adds cols (fst rs) o) rows outs -> loading out ctx id cols payload r ->
  let r' := snd (bulk_rows rows r) in
  (Forall (fun rs => snd rs = []) rows -> loading out ctx id cols (payload ++ added outs) r') /\
  (loading out ctx id cols (payload ++ added outs) r' \/
   exists n, (n < length outs)%nat /\ broken out ctx id (payload ++ added (take (S n) outs)) r').
Proof.
  intros W. induction rows as [|[row script] rows IH]; intros outs payload r Ha H; inversion Ha as [|? o ? outs' Ho Hs]; subst; cbn zeta.
  { unfold added. cbn. rewrite app_nil_r. auto. }
  cbn [bulk_rows]. destruct (bulk_send_spec out ctx id cols payload row o script r W Ho H) as (oc' & s' & r1 & E & C & D). rewrite E.
  specialize (IH outs' (payload ++ default [] o) r1 Hs). destruct (bulk_rows rows r1) as [os r2] eqn:E2. cbn [snd] in *.
  assert (Ea : payload ++ added (o :: outs') = (payload ++ default [] o) ++ added outs') by (unfold added; cbn; rewrite app_assoc; reflexivity).
  rewrite Ea. split.
  - intros Hall. inversion_clear Hall as [|? ? H1 H2]. apply IH; [apply C, H1|exact H2].
  - assert (Go : loading out ctx id cols (payload ++ default [] o) r1 -> loading out ctx id cols ((payload ++ default [] o) ++ added outs') r2 \/
      exists n, (n < length (o :: outs'))%nat /\ broken out ctx id (payload ++ added (take (S n) (o :: outs'))) r2).
    { intros L. destruct (IH L) as [_ [L2|(n & Hn & B)]]; [auto|]. right. exists (S n). split; [cbn; lia|].
      rewrite <- app_assoc in B. exact B. }
    destruct D as [(L & _)|[(L & _)|(_ & B)]]; auto. right. exists 0%nat. split; [cbn; lia|].
    pose proof (bulk_rows_broken rows r1 (proj1 B)) as X. rewrite E2 in X. cbn in X. subst r2. unfold added. cbn. rewrite app_nil_r. exact B.
Qed.

Definition done_bytes : bytes := snd (done_encode done_default []).

Lemma bulk_finalize_spec out ctx id cols payload script r : wf_context ctx -> loading out ctx id cols payload r ->
  exists o s' r', bulk_finalize oc script r = (o, s', r') /\ (script = [] -> o = Finished (Ok tt)) /\
    exists w, c_out (bl_connection r') = out ++ w /\ prefix w (message (header_bulk_load id) (payload ++ done_bytes) (room ctx)) /\
      (o = Finished (Ok tt) /\ c_poisoned (bl_connection r') = false /\ w = message (header_bulk_load id) (payload ++ done_bytes) (room ctx) \/
       disturbed o /\ c_poisoned (bl_connection r') = true).
Proof.
  intros W H. pose proof H as [Hi Hc Hx [Hp Hd] (w & Ew & Mw)]. unfold bulk_finalize, ensure_not_poisoned. rewrite Hp, Hd.
  assert (Hdone : done_encode done_default (bl_buf r) = (Ok tt, bl_buf r ++ done_bytes)).
  { change (done_encode done_default (bl_buf r)) with (Ok tt, (((bl_buf r ++ [0xFD]) ++ [0; 0]) ++ [0; 0]) ++ repeat 0 8).
    rewrite <- !app_assoc. reflexivity. }
  rewrite Hdone. assert (L : loading out ctx id cols (payload ++ done_bytes) (bl_set_buf (bl_buf r ++ done_bytes) r)).
  { split; cbn; auto. exists w. split; [exact Ew|]. intros more. rewrite <- !app_assoc. apply Mw. }
  destruct (write_packets_spec out ctx id cols (payload ++ done_bytes) script _ W L) as (o & s1 & r1 & -> & C & [(-> & L1 & Hl & Hne)|(D & B)]).
  2:{ destruct B as (Bp & w1 & B1 & B2). specialize (B2 []). rewrite app_nil_r in B2.
      destruct o as [[[]|[]| |]|]; try contradiction; do 3 eexists; (split; [reflexivity|]; split; [intros Hn; destruct (C Hn) as [[=] _]|]; exists w1; auto). }
  assert (Gb : bl_buf r1 <> []) by (apply Hne; cbn; intros E; apply app_eq_nil in E; destruct E; discriminate).
  pose proof L1 as [Gi Gc Gx [Gp Gd] (w1 & Ew1 & Mw1)]. specialize (Mw1 []). rewrite !app_nil_r in Mw1. cbn zeta.
  destruct (packet_room _ W) as (_ & R2 & _). fold (room ctx) in R2.
  assert (Hb1 : (0 < length (bl_buf r1) <= room ctx)%nat) by (split; [destruct (bl_buf r1); [congruence|cbn; lia]|exact Hl]).
  rewrite (message_last id (bl_buf r1)) in Mw1 by exact Hb1. rewrite Mw1. cbn [bl_set_buf bl_connection]. rewrite Gi.
  set (h := set_status _ _) in *. set (c1 := set_poisoned true (bl_connection r1)).
  destruct (write_to_wire_spec oc h (bl_buf r1) s1 c1) as (o & s2 & c2 & E & (_ & _ & _ & S4 & _) & w2 & Ew2 & Pw2 & Ow2); [lia|].
  change (c_poisoned c1) with true in S4. change (c_out c1) with (c_out (bl_connection r1)) in Ew2. rewrite Ew1, <- app_assoc in Ew2.
  assert (C2 : script = [] -> o = Finished (Ok tt) /\ s2 = []).
  { intros Hn. destruct (C Hn) as [_ ->]. revert E. unfold write_to_wire. rewrite packet_encode_empty by (cbn; lia). intros [= <- <- _]. auto. }
  assert (Pre : prefix (w1 ++ w2) (w1 ++ packet_bytes (mkPacket h (bl_buf r1)))) by (apply prefix_app, Pw2).
  rewrite E. destruct o as [[[]|[]| |]|]; try contradiction.
  - destruct (flush_sink_cases s2 c2) as [(s3 & ->)|(o2 & s3 & E3 & Ho)].
    + do 3 eexists. split; [reflexivity|]. split; [auto|]. exists (w1 ++ w2). split; [exact Ew2|]. split; [exact Pre|]. left.
      rewrite Ow2. auto.
    + assert (Hsn : script <> []) by (intros Hn; destruct (C2 Hn) as [_ ->]; cbn in E3; injection E3 as <- _; exact Ho).
      rewrite E3. destruct o2 as [[[]|[]| |]|]; try contradiction; do 3 eexists; (split; [reflexivity|]; split; [intros Hn; elim (Hsn Hn)|]; exists (w1 ++ w2); auto).
  - do 3 eexists. split; [reflexivity|]. split; [intros Hn; destruct (C2 Hn) as [[=] _]|]. exists (w1 ++ w2). auto.
  - do 3 eexists. split; [reflexivity|]. split; [intros Hn; destruct (C2 Hn) as [[=] _]|]. exists (w1 ++ w2). auto.
Qed.
End Pieces.

Lemma added_omap outs : added outs = concat (omap id outs).
Proof. unfold added. induction outs as [|[o|] outs IH]; cbn; [reflexivity| |exact IH]. f_equal. exact IH. Qed.

(** The state right after [new]. *)
Lemma bulk_new_loading cols cm c : c_poisoned c = false -> c_desync c = false ->
  appends (col_metadata_encode (mkTokenColMetaData cols)) cm ->
  exists r, bulk_new cols c = (Ok r, set_ctx (snd (next_packet_id (c_ctx c))) c) /\
    loading (c_out c) (snd (next_packet_id (c_ctx c))) (packet_id (c_ctx c)) cols cm r.
Proof.
  intros P D A. unfold bulk_new. cbn [next_packet_id snd fst]. rewrite (A []). eexists. split; [reflexivity|].
  split; cbn; auto. exists []. rewrite app_nil_r. auto.
Qed.

(** C8: a bulk load is one message.  The metadata of the columns, the rows
    one by one, full packets leaving while more rows come, and the final DONE
    put on the wire, byte for byte, what a single send of all of it would
    have put there: cut at the same places, only the last packet marked as the
    end.  A row that cannot be encoded is reported and leaves no trace in the
    message, wherever in the row it fails. *)
Theorem bulk_load_one_message {ER : EncodingRs} (oc : bool) (powi10 : Z -> spec_float) (cols : list MetaDataColumn) (cm : bytes)
  (c : Connection) (rows : list TokenRow) (outs : list (option bytes))
  (W : wf_context (c_ctx c)) (Hp : c_poisoned c = false) (Hd : c_desync c = false)
  (Hm : appends (col_metadata_encode (mkTokenColMetaData cols)) cm)
  (Hr : Forall2 (row_adds oc powi10 cols) rows outs) :
  exists r0 c0 os r1 s r2 c2, bulk_new cols c = (Ok r0, c0) /\
    bulk_rows oc powi10 (map (fun row => (row, [])) rows) r0 = (os, r1) /\
    bulk_finalize oc [] r1 = (Finished (Ok tt), s, r2) /\
    send oc (header_bulk_load (packet_id (c_ctx c))) (put_slice (cm ++ concat (omap id outs) ++ done_bytes)) [] c0 = (Finished (Ok tt), [], c2) /\
    c_out (bl_connection r2) = c_out c2 /\ c_poisoned (bl_connection r2) = false.
Proof.
  destruct (bulk_new_loading cols cm c Hp Hd Hm) as (r0 & E0 & L0). pose proof (wf_next_packet_id _ W) as W'.
  set (ctx := snd (next_packet_id (c_ctx c))) in *.
  assert (Hr' : Forall2 (fun rs o => row_adds oc powi10 cols (fst rs) o) (map (fun row => (row, [] : list Await)) rows) outs)
    by (clear - Hr; induction Hr; constructor; auto).
  destruct (bulk_rows_spec oc powi10 (c_out c) ctx _ cols _ W' outs cm r0 Hr' L0) as [L1 _]. cbn zeta in L1.
  specialize (L1 ltac:(apply List.Forall_map, Forall_true; reflexivity)).
  destruct (bulk_rows oc powi10 _ r0) as [os r1] eqn:E1. cbn [snd] in L1.
  destruct (bulk_finalize_spec oc (c_out c) ctx _ cols _ [] r1 W' L1) as (o & s & r2 & E2 & C2 & w & Ew & _ & D).
  specialize (C2 eq_refl). subst o. destruct D as [(_ & P2 & Mw)|([] & _)].
  destruct (send_undisturbed oc (header_bulk_load (packet_id (c_ctx c))) (put_slice (cm ++ concat (omap id outs) ++ done_bytes))
    _ (set_ctx ctx c) W' Hp Hd (appends_put_slice _ [])) as (c2 & E3 & _ & _ & O3).
  exists r0, (set_ctx ctx c), os, r1, s, r2, c2. do 4 (split; [assumption|]). split; [|exact P2].
  rewrite Ew, O3, Mw. rewrite added_omap, <- app_assoc. reflexivity.
Qed.

(** C9: a bulk load that is disturbed cannot be mistaken for a whole one:
    with writes that fail or are abandoned anywhere, what is on the wire is
    the start of one message, made of the metadata, some of the rows in
    order and the DONE; and unless the final write completed the connection
    is poisoned, so no other request goes out behind that start. *)
Theorem bulk_load_interrupted {ER : EncodingRs} (oc : bool) (powi10 : Z -> spec_float) (cols : list MetaDataColumn) (cm : bytes)
  (c c0 : Connection) (r0 r1 r2 : BulkLoadRequest) (rows : list (TokenRow * list Await)) (outs : list (option bytes))
  (os : list (Outcome unit)) (o : Outcome unit) (script s : list Await)
  (W : wf_context (c_ctx c)) (Hp : c_poisoned c = false) (Hd : c_desync c = false)
  (Hm : appends (col_metadata_encode (mkTokenColMetaData cols)) cm)
  (Hr : Forall2 (fun rs o => row_adds oc powi10 cols (fst rs) o) rows outs)
  (E0 : bulk_new cols c = (Ok r0, c0)) (E1 : bulk_rows oc powi10 rows r0 = (os, r1))
  (E2 : bulk_finalize oc script r1 = (o, s, r2)) :
  exists n c2, send oc (header_bulk_load (packet_id (c_ctx c))) (put_slice (cm ++ added (take n outs) ++ done_bytes)) [] c0 = (Finished (Ok tt), [], c2) /\
    prefix (c_out c) (c_out (bl_connection r2)) /\ prefix (c_out (bl_connection r2)) (c_out c2) /\
    (o = Finished (Ok tt) /\ n = length rows /\ c_out (bl_connection r2) = c_out c2 \/
     o <> Finished (Ok tt) /\ forall h item sc, exists e,
       send oc h item sc (bl_connection r2) = (Finished (Err (Protocol e)), sc, bl_connection r2)).
Proof.
  destruct (bulk_new_loading cols cm c Hp Hd Hm) as (r0' & E0' & L0). rewrite E0 in E0'. injection E0' as -> ->.
  pose proof (wf_next_packet_id _ W) as W'. set (ctx := snd (next_packet_id (c_ctx c))) in *. set (id := packet_id (c_ctx c)) in *.
  assert (Send : forall p, exists c2, send oc (header_bulk_load id) (put_slice p) [] (set_ctx ctx c) = (Finished (Ok tt), [], c2) /\
    c_out c2 = c_out c ++ message (header_bulk_load id) p (room ctx)).
  { intros p. destruct (send_undisturbed oc (header_bulk_load id) (put_slice p) p (set_ctx ctx c) W' Hp Hd (appends_put_slice p []))
      as (c2 & X1 & _ & _ & X2). eauto. }
  assert (Dead : forall r, c_poisoned (bl_connection r) = true -> forall h item sc, exists e,
    send oc h item sc (bl_connection r) = (Finished (Err (Protocol e)), sc, bl_connection r)).
  { intros r H h item sc. destruct (dead_send oc h item sc (bl_connection r)) as (m & X & _); [rewrite H; reflexivity|eauto]. }
  destruct (bulk_rows_spec oc powi10 (c_out c) ctx id cols rows W' outs cm r0' Hr L0) as [_ D]. rewrite E1 in D. cbn [snd] in D.
  destruct D as [L1|(n & Hn & B)].
  - destruct (bulk_finalize_spec oc (c_out c) ctx id cols _ script r1 W' L1) as (o' & s' & r2' & E2' & _ & w & Ew & Pw & D).
    rewrite E2 in E2'. injection E2' as <- <- <-. exists (length rows). rewrite take_ge by (rewrite (Forall2_length _ _ _ Hr); lia).
    destruct (Send (cm ++ added outs ++ done_bytes)) as (c2 & X1 & X2). exists c2. split; [exact X1|]. rewrite Ew, X2.
    rewrite <- app_assoc in Pw, D. split; [apply prefix_app_r; reflexivity|]. split; [apply prefix_app, Pw|].
    destruct D as [(-> & _ & ->)|(D & P)]; [left; auto|]. right. split; [intros ->; contradiction|]. apply Dead, P.
  - destruct B as (P & w & Ew & Pw). exists (S n). destruct (Send (cm ++ added (take (S n) outs) ++ done_bytes)) as (c2 & X1 & X2).
    exists c2. split; [exact X1|]. destruct (poisoned_refuses _ P) as (m & Em). revert E2. unfold bulk_finalize. rewrite Em.
    intros [= <- <- <-]. rewrite Ew, X2. specialize (Pw done_bytes). rewrite <- app_assoc in Pw.
    split; [apply prefix_app_r; reflexivity|]. split; [apply prefix_app, Pw|]. right. split; [discriminate|]. apply Dead, P.
Qed.

(** ** Witnesses *)

#[local] Existing Instance ascii_encoding_rs.
Definition load_columns : list MetaDataColumn := [int_column "a"].
Definition load_metadata : bytes := snd (col_metadata_encode (mkTokenColMetaData load_columns) []).
Definition int_row (v : Z) : bytes := le_bytes 1 TOKEN_ROW ++ le_bytes 1 4 ++ le_bytes 4 v.
Definition no_powi : Z -> spec_float := fun _ => S754_nan.

(** Two rows of an integer and, between them, one of a bit. *)
Definition load_rows : list TokenRow := [[ColumnData.I32 (Some 7)]; [ColumnData.Bit (Some true)]; [ColumnData.I32 (Some 8)]].
Definition load_outs : list (option bytes) := [Some (int_row 7); None; Some (int_row 8)].

Lemma load_metadata_appends : appends (col_metadata_encode (mkTokenColMetaData load_columns)) load_metadata.
Proof.
  assert (E : load_metadata = le_bytes 1 TOKEN_COL_METADATA ++ le_bytes 2 1 ++ column_meta_bytes (int_column "a") ++ []) by (vm_compute; reflexivity).
  rewrite E. unfold col_metadata_encode.
  eapply appends_bind; [apply appends_put_u8|]. eapply appends_bind; [apply appends_put_u16_le|].
  eapply appends_bind; [apply appends_column_meta|apply appends_ret].
  repeat constructor; vm_compute; congruence.
Qed.

Lemma int_row_appends v : appends (row_encode true no_powi [ColumnData.I32 (Some v)] load_columns) (int_row v).
Proof.
  unfold int_row. eapply appends_bind; [apply appends_put_u8|]. rewrite <- (app_nil_r (le_bytes 1 4 ++ le_bytes 4 v)).
  change (appends (bind (bind (put_u8 4) (fun _ => put_u32_le v)) (fun _ => ret tt)) ((le_bytes 1 4 ++ le_bytes 4 v) ++ [])).
  eapply appends_bind; [eapply appends_bind; [apply appends_put_u8|apply appends_put_u32_le]|apply appends_ret].
Qed.

Lemma load_rows_add : Forall2 (row_adds true no_powi load_columns) load_rows load_outs.
Proof.
  constructor; [apply int_row_appends|]. constructor; [intros dst; eexists; reflexivity|].
  constructor; [apply int_row_appends|constructor].
Qed.

Lemma bulk_load_one_message_witness :
  exists r0 c0 os r1 s r2 c2, bulk_new load_columns conn0 = (Ok r0, c0) /\
    bulk_rows true no_powi (map (fun row => (row, [])) load_rows) r0 = (os, r1) /\
    bulk_finalize true [] r1 = (Finished (Ok tt), s, r2) /\
    send true (header_bulk_load 0) (put_slice (load_metadata ++ (int_row 7 ++ int_row 8 ++ []) ++ done_bytes)) [] c0 = (Finished (Ok tt), [], c2) /\
    c_out (bl_connection r2) = c_out c2 /\ c_poisoned (bl_connection r2) = false.
Proof.
  apply (bulk_load_one_message true no_powi load_columns load_metadata conn0 load_rows load_outs wf_context_new eq_refl eq_refl
    load_metadata_appends load_rows_add).
Defined.

(** The same load, its last write abandoned after three bytes. *)
Definition load_start : BulkLoadRequest :=
  match fst (bulk_new load_columns conn0) with Ok r => r | _ => mkBulkLoadRequest conn0 0 [] [] end.
Definition load_run := bulk_rows true no_powi (map (fun row => (row, [])) load_rows) load_start.
Definition load_end := bulk_finalize true [Dropped 3] (snd load_run).

Lemma bulk_load_interrupted_witness : fst (fst load_end) = Abandoned /\ len (c_out (bl_connection (snd load_end))) = 3 /\
  exists n c2, send true (header_bulk_load 0) (put_slice (load_metadata ++ added (take n load_outs) ++ done_bytes)) []
      (snd (bulk_new load_columns conn0)) = (Finished (Ok tt), [], c2) /\
    prefix (c_out (bl_connection (snd load_end))) (c_out c2) /\
    forall h item sc, exists e, send true h item sc (bl_connection (snd load_end)) =
      (Finished (Err (Protocol e)), sc, bl_connection (snd load_end)).
Proof.
  split; [reflexivity|]. split; [reflexivity|].
  destruct (bulk_load_interrupted true no_powi load_columns load_metadata conn0 (snd (bulk_new load_columns conn0)) load_start
    (snd load_run) (snd load_end) (map (fun row => (row, [])) load_rows) load_outs (fst load_run) (fst (fst load_end)) [Dropped 3]
    (snd (fst load_end)) wf_context_new eq_refl eq_refl load_metadata_appends) as (n & c2 & E & _ & P & D).
  - constructor; [apply int_row_appends|]. constructor; [intros dst; eexists; reflexivity|].
    constructor; [apply int_row_appends|constructor].
  - reflexivity.
  - reflexivity.
  - reflexivity.
  - exists n, c2. split; [exact E|]. split; [exact P|]. destruct D as [(D & _)|(_ & D)]; [discriminate D|exact D].
Defined.

(** Between two sends that wrote packets the poison is clear although the
    message has no end: a request dropped there (not a future of it) leaves
    the start of a bulk message on a connection that accepts the next
    request. *)
Lemma bulk_dropped_between_sends :
  let blob := [mkMetaDataColumn (mkBaseMetaDataColumn Nullable (vls VarLenType.BigVarBin 8000 None) None) (ascii_str "b")] in
  match bulk_new blob conn0 with
  | (Ok r, _) =>
      match bulk_send true no_powi [ColumnData.Binary (Some (repeat 7 5000))] [] r with
      | (Finished (Ok _), _, r) =>
          (* one packet of the load is out, none of them its last *)
          len (c_out (bl_connection r)) = 4096 /\ c_poisoned (bl_connection r) = false /\
          fst (fst (send true (header_batch 1) (put_slice [1; 2]) [] (bl_connection r))) = Finished (Ok tt)
      | _ => False
      end
  | _ => False
  end.
Proof. vm_compute. auto. Qed.
