(* ===== verification/Session.v ===== *)
(** * Session: the operations of a client as a dialogue with the server

    The handlers of [client.rs], [query.rs] and [command.rs] whole: the
    request, the answer and what is read of it.  The server answers a message
    when it has it whole: [w_answers] are its answers in order, and one is put
    on the inbound side when a send completes.  Requests are those of
    [Client.v], reading is that of [Reader.v]. *)

From S2P Require Import Prelude Unicode Collation SqlRead SqlWrite Types TypeInfoCodec NumericCodec Temporal Money Context ColumnDecode ColumnEncode ColumnRoundtrip ParamRoundtrip Metadata Rows Identifiers Requests Tokens TokenStream Results Packet Connection Reader Client BulkLoad.
From Stdlib Require Import Floats.SpecFloat.

(** ** Dialogues *)

Record World := mkWorld { w_script : list Await; w_conn : Connection; w_answers : list bytes }.

(** An operation: a future that runs to its end or is dropped. *)
Definition Io (A : Type) : Type := World -> Outcome A * World.

Definition io_res {A} (r : Res A) : Io A := fun w => (Finished r, w).
Definition io_bind {A B} (m : Io A) (k : A -> Io B) : Io B := fun w =>
  match m w with
  | (Finished (Ok a), w) => k a w
  | (Finished (Err e), w) => (Finished (Err e), w)
  | (Finished Panic, w) => (Finished Panic, w)
  | (Finished OutOfFuel, w) => (Finished OutOfFuel, w)
  | (Abandoned, w) => (Abandoned, w)
  end.

Declare Scope io_scope.
Delimit Scope io_scope with io.
Notation "x <~ m ;; k" := (io_bind m (fun x => k)) (at level 100, m at next level, right associativity) : io_scope.
Notation "m ;;; k" := (io_bind m (fun _ => k)) (at level 100, right associativity) : io_scope.
#[local] Open Scope io_scope.

(** A step on the connection that waits for nothing the server has not sent. *)
Definition io_conn {A} (m : M Connection A) : Io A := fun w =>
  let (r, c) := m (w_conn w) in (Finished r, mkWorld (w_script w) c (w_answers w)).

(** The answer arrives. *)
Definition deliver (w : World) : World :=
  match w_answers w with
  | [] => w
  | a :: rest => mkWorld (w_script w) (set_in (c_in (w_conn w) ++ a) (w_conn w)) rest
  end.

(** A write of a whole message, and the answer when it is complete. *)
Definition exchange (op : list Await -> Connection -> Outcome unit * list Await * Connection) : Io unit := fun w =>
  match op (w_script w) (w_conn w) with
  | (Finished (Ok _), script, c) => (Finished (Ok tt), deliver (mkWorld script c (w_answers w)))
  | (o, script, c) => (o, mkWorld script c (w_answers w))
  end.

(** Reading with a new token stream; a round takes a byte, so the bytes there
    are bound the rounds. *)
Definition io_tokens {A} (m : nat -> Reader -> Res A * Reader) : Io A := fun w =>
  let (r, t) := m (S (length (available (w_conn w)))) (reader_new (w_conn w)) in
  (Finished r, mkWorld (w_script w) (rd_conn t) (w_answers w)).

Section Handlers.
Context {ER : EncodingRs} (oc : bool) (powi10 : Z -> spec_float) (alnum : Z -> bool) (to_lowercase : str -> str).

(** Every token of the answer: [try_fold] on the stream. *)
Definition all_tokens : Io tokens := io_tokens (fun n t => let (ts, t) := pull stream_next n t in (Ok ts, t)).
Definition wait_done : Io TokenDone := io_tokens (fun n => flush_done stream_next n None None).

(** *** Transactions *)

(** [Client::send_transaction_manager_request] *)
Definition send_transaction_manager_request (body : TransactionRequestBody) : Io unit :=
  exchange (transaction_request oc body) ;;; wait_done ;;; io_res (Ok tt).

Definition begin_transaction_with_isolation (level : IsolationLevel) : Io unit := send_transaction_manager_request (BodyBegin level []).
Definition begin_transaction : Io unit := begin_transaction_with_isolation IsolationLevel.Unspecified.
Definition commit_transaction : Io unit := send_transaction_manager_request (BodyCommit []).
Definition rollback_transaction : Io unit := send_transaction_manager_request (BodyRollback []).
Definition save_transaction (name : str) : Io unit := send_transaction_manager_request (BodySave name).

(** *** Queries *)

(** A result stream: what it peeked at and the error its token stream
    remembers; the connection is the one it borrows. *)
Record OpenStream := mkOpenStream { os_peeked : option ReceivedToken; os_error : option Error }.

(** [QueryStream::new] and [forward_to_metadata] *)
Definition open_query : Io OpenStream :=
  io_tokens (fun n t => let (r, t) := forward stream_next n t in (res_map (fun p => mkOpenStream p (rd_error t)) r, t)).

(** [Client::query] and [Query::query] *)
Definition client_query (query : str) (params : list ColumnData) : Io OpenStream :=
  exchange (execute_request oc powi10 query params) ;;; open_query.

(** [Client::simple_query] *)
Definition client_simple_query (query : str) : Io OpenStream := exchange (simple_query_request oc query) ;;; open_query.

(** [Client::execute] and [Query::execute] *)
Definition client_execute (query : str) (params : list ColumnData) : Io (list Z) :=
  exchange (execute_request oc powi10 query params) ;;; ts <~ all_tokens ;; io_res (execute_result ts).

(** [k] more tokens of an open stream; one that peeked at its end is over. *)
Definition stream_pull (os : OpenStream) (k : nat) : Io tokens := fun w =>
  match os_peeked os with
  | None => (Finished (Ok []), w)
  | Some p =>
      let (ts, t) := pull stream_next k (mkReader (w_conn w) (os_error os)) in
      (Finished (Ok (Ok p :: ts)), mkWorld (w_script w) (rd_conn t) (w_answers w))
  end.

(** [QueryStream::into_results] *)
Definition stream_into_results (os : OpenStream) : Io (list (list Row)) := fun w =>
  (ts <~ stream_pull os (S (length (available (w_conn w)))) ;; io_res (into_results (query_stream_new ts))) w.

(** *** Bulk inserts *)

(** [Client::fetch_column_metadata] *)
Definition fetch_column_metadata (table : str) (columns : list str) (collations : bool)
    : Io (list MetaDataColumn * list (str * option str)) :=
  exchange (request oc header_batch (fun ctx =>
    batch_encode (mkBatchRequest (fetch_query table columns collations (version ctx)) (transaction_desc ctx)))) ;;;
  ts <~ all_tokens ;; io_res (fetch_result ts).

(** [Client::column_metadata] *)
Definition column_metadata (table : str) (columns : list str) : Io (list MetaDataColumn) :=
  io_res (validate_bulk oc alnum table columns []) ;;;
  r <~ fetch_column_metadata table columns false ;; io_res (Ok (fst r)).

(** [Client::bulk_insert_with_options] *)
Definition bulk_insert_with_options (table : str) (columns : list str) (options : Z) (order_hints : list (str * SortOrder))
    : Io BulkLoadRequest :=
  io_res (validate_bulk oc alnum table columns order_hints) ;;;
  r <~ fetch_column_metadata table columns true ;;
  io_conn flush_stream ;;;
  sql <~ io_res (bulk_statement to_lowercase table options order_hints (fst r) (snd r)) ;;
  exchange (post oc header_batch (fun ctx => batch_encode (mkBatchRequest sql (transaction_desc ctx)))) ;;;
  wait_done ;;;
  io_conn (bulk_new (bulk_targets table options (fst r))).

(** [Client::bulk_insert_columns] and [Client::bulk_insert] *)
Definition bulk_insert_columns (table : str) (columns : list str) : Io BulkLoadRequest := bulk_insert_with_options table columns 0 [].
Definition bulk_insert (table : str) : Io BulkLoadRequest := bulk_insert_columns table [ascii_str "*"].

(** [BulkLoadRequest::finalize], its answer included; the request's own
    connection is the one of the world. *)
Definition bulk_insert_finalize (r : BulkLoadRequest) : Io (list Z) :=
  exchange (fun script c => let '(o, script, r) := bulk_finalize oc script (bl_set_connection c r) in (o, script, bl_connection r)) ;;;
  ts <~ all_tokens ;; io_res (execute_result ts).

(** *** Commands *)

(** [Client::query_run_for_metadata] *)
Definition query_run_for_metadata (query : str) : Io (option (list MetaDataColumn)) :=
  exchange (simple_query_request oc query) ;;; ts <~ all_tokens ;; io_res (metadata_fold ts None).

(** [Command::build_rpc_params] *)
Fixpoint command_rpc_params (ps : list CommandParam) : Io (list RpcParam) :=
  match ps with
  | [] => io_res (Ok [])
  | p :: ps =>
      v <~ match cp_data p with
           | CpScalar d => io_res (Ok (Scalar d))
           | CpTable rows db_type =>
               io_res (validate_sql_identifier oc alnum db_type) ;;;
               cm <~ query_run_for_metadata (tvp_metadata_query db_type) ;;
               io_res (Ok (Table (match cm with Some cm => with_metadata cm (tvp_new db_type rows) | None => tvp_new db_type rows end)))
           end ;;
      rest <~ command_rpc_params ps ;;
      io_res (Ok (mkRpcParam (cp_name p) (if cp_out p then ByRefValue else 0) v :: rest))
  end.

(** [Command::exec]; the [CommandStream] it returns is the token stream of
    the answer. *)
Definition command_exec (name : str) (ps : list CommandParam) : Io unit :=
  rpc_params <~ command_rpc_params ps ;; exchange (command_request oc powi10 name rpc_params).

(** *** Cancelling *)

(** [Connection::cancel_request] and [Client::cancel_query] *)
Definition cancel_request : Io TokenDone := exchange (send_attention oc) ;;; io_tokens (fun n => flush_done_attention stream_next n).
Definition cancel_query : Io unit := cancel_request ;;; io_res (Ok tt).
End Handlers.

(** ** The session machine

    A dialogue of queries, batches and transaction requests, with the caller
    reading as much of each answer as it likes before it drops the stream. *)

Section Machine.
Context {ER : EncodingRs} (oc : bool) (powi10 : Z -> spec_float).

Inductive Op :=
| OpQuery (query : str) (params : list ColumnData) (k : nat)
| OpBatch (text : str) (k : nat)
| OpTransaction (body : TransactionRequestBody).

Definition run_op (op : Op) : Io tokens :=
  match op with
  | OpQuery query params k => os <~ client_query oc powi10 query params ;; stream_pull os k
  | OpBatch text k => os <~ client_simple_query oc text ;; stream_pull os k
  | OpTransaction body => send_transaction_manager_request oc body ;;; io_res (Ok [])
  end.
Fixpoint run_ops (ops : list Op) (w : World) : list (Outcome tokens) * World :=
  match ops with
  | [] => ([], w)
  | op :: ops => let (o, w) := run_op op w in let (os, w) := run_ops ops w in (o :: os, w)
  end.

(** *** What it refines: a session context and the bytes of the answers *)

Definition op_item (op : Op) (ctx : Context) : M bytes unit :=
  match op with
  | OpQuery query params _ =>
      rpc_encode oc powi10 (rpc_new (ProcId ExecuteSQL) (perform_params (rpc_params_of query) params) (transaction_desc ctx))
  | OpBatch text _ => batch_encode (mkBatchRequest text (transaction_desc ctx))
  | OpTransaction body => transaction_encode (mkTransactionManagerRequest (transaction_desc ctx) body)
  end.
Definition read_op (op : Op) : M Stream tokens := fun s =>
  let n := S (length (st_buf s)) in
  match op with
  | OpQuery _ _ k | OpBatch _ k =>
      (p <- forward next_token n ;;
       match p with
       | None => ret []
       | Some p => fun s => let (ts, s) := pull next_token k s in (Ok (Ok p :: ts), s)
       end) s
  | OpTransaction _ => (flush_done next_token n None None ;; ret []) s
  end.
(** The message of an operation, its result and the session behind it. *)
Definition machine_op (op : Op) (answer : bytes) (ctx : Context) : bytes * Res tokens * Context :=
  let (r, s) := read_op op (mkStream answer (snd (next_packet_id ctx)) None) in (snd (op_item op ctx []), r, st_ctx s).
Fixpoint machine_run (ops : list (Op * bytes)) (ctx : Context) : list bytes * list (Res tokens) * Context :=
  match ops with
  | [] => ([], [], ctx)
  | (op, answer) :: ops =>
      let '(message, r, ctx) := machine_op op answer ctx in
      let '(messages, rs, ctx) := machine_run ops ctx in (message :: messages, r :: rs, ctx)
  end.

(** ** Lemmas *)

(** An operation the driver can encode. *)
Definition op_fits (op : Op) : Prop :=
  match op with
  | OpQuery q ps _ => wf_str q /\ 2 * len (encode_utf16 q) <= MAX_PLP_SIZE /\ Forall sent_param ps /\ (length ps <= 2100)%nat
  | OpBatch text _ => wf_str text
  | OpTransaction body => match body with BodyBegin _ s | BodyCommit s | BodyRollback s | BodySave s => short_name s end
  end.

(** The packets of an answer. *)
Definition is_answer (ps : list Packet) : Prop :=
  Forall wire_packet ps /\ wf_bytes (concat (map p_payload ps)) /\
  exists init last, ps = init ++ [last] /\ Forall (fun p => is_last p = false) init /\ is_last last = true /\ p_payload last <> [].

(** A connection somewhere in an answer, or behind one. *)
Definition ready (c : Connection) : Prop :=
  wf_context (c_ctx c) /\ c_poisoned c = false /\ c_desync c = false /\
  exists ps, framed ps c /\ ends_well ps c /\ wf_bytes (stream_of ps c).

Lemma ready_unread c : ready c -> unread [] c.
Proof.
  intros (_ & _ & _ & ps & [F E] & W & _). destruct ps as [|p ps]; [left; split; [exact W|exact E]|].
  destruct W as (Fl & init & last & E' & Fn & L & _). right. split; [exact Fl|]. exists init, last. rewrite E' in F, E.
  apply Forall_app in F as [F1 F2]. apply Forall_cons in F2 as [F2 _]. rewrite app_nil_r. auto 10.
Qed.

Lemma answer_ends_well ps c : is_answer ps -> c_flushed c = false -> ends_well ps c.
Proof.
  intros (_ & _ & init & last & E & Fn & L & N) Fl. unfold ends_well. destruct ps as [|p ps]; [destruct init; discriminate|].
  split; [exact Fl|]. exists init, last. auto.
Qed.

Lemma op_encodes op ctx : wf_context ctx -> op_fits op ->
  exists payload rest, op_item op ctx [] = (Ok tt, payload) /\ read_tx_headers payload = (Ok (transaction_desc ctx), rest).
Proof.
  intros W H. pose proof (proj2 (wf_transaction_desc _ W)) as Hd. destruct op as [q ps k|text k|body]; cbn [op_item op_fits] in *.
  - destruct H as (Hq & Lq & Hp & Lp).
    destruct (rpc_roundtrip oc powi10 ctx (rpc_new (ProcId ExecuteSQL) (perform_params (rpc_params_of q) ps) (transaction_desc ctx)) _ Hd
      ltac:(split; vm_compute; congruence) I (perform_params_fit q ps Hq Lq Hp Lp)) as (out & A & R).
    specialize (R []). rewrite app_nil_r in R. apply bind_ok_inv in R as (d & s1 & E & R).
    repeat (apply bind_ok_inv in R as (? & ? & _ & R)). injection R as -> _ _ _ _. exists out, s1. split; [exact (A [])|exact E].
  - destruct (batch_body text _ Hd H) as (out & A & R). apply bind_ok_inv in R as (d & s1 & E & R).
    repeat (apply bind_ok_inv in R as (? & ? & _ & R)). injection R as -> _ _. exists out, s1. split; [exact (A [])|exact E].
  - destruct (transaction_body (mkTransactionManagerRequest (transaction_desc ctx) body) H Hd) as (out & A & R).
    specialize (R []). rewrite app_nil_r in R. apply bind_ok_inv in R as (d & s1 & E & R). apply bind_ok_inv in R as (ty & s2 & _ & R).
    exists out, s1. split; [exact (A [])|]. rewrite E. do 2 f_equal.
    repeat match type of R with context [if ?b then _ else _] => destruct b end; try discriminate;
      repeat (apply bind_ok_inv in R as (? & ? & _ & R)); injection R; auto.
Qed.

Definition op_header (op : Op) : Z -> PacketHeader :=
  match op with OpQuery _ _ _ => header_rpc | OpBatch _ _ => header_batch | OpTransaction _ => header_transaction_manager end.

(** The request of an operation; the descriptor of a transaction request is
    taken before the flush, which does not change it. *)
Definition op_request (op : Op) : list Await -> Connection -> Outcome unit * list Await * Connection :=
  match op with
  | OpQuery q ps _ => execute_request oc powi10 q ps
  | OpBatch text _ => simple_query_request oc text
  | OpTransaction body => transaction_request oc body
  end.

Lemma op_request_delivers op c : ready c -> op_fits op ->
  exists c' qs payload rest, op_request op [] c = (Finished (Ok tt), [], c') /\ op_item op (c_ctx c) [] = (Ok tt, payload) /\
    read_tx_headers payload = (Ok (transaction_desc (c_ctx c)), rest) /\
    c_out c' = c_out c ++ raws qs /\ Forall wire_packet qs /\ collect_payloads qs = payload /\ c_in c' = [] /\ c_buf c' = [] /\
    c_ctx c' = snd (next_packet_id (c_ctx c)) /\ c_flushed c' = false /\ c_poisoned c' = false /\ c_desync c' = false.
Proof.
  intros R Hf. pose proof (ready_unread c R) as U. destruct R as (W & P & D & _).
  destruct (op_encodes op (c_ctx c) W Hf) as (payload & rest & Ei & Eh).
  assert (X : exists item, op_request op [] c = request oc (op_header op) item [] c /\ item (c_ctx c) = op_item op (c_ctx c)).
  { destruct op; eexists; (split; [reflexivity|reflexivity]). }
  destruct X as (item & -> & Xi). rewrite <- Xi in Ei.
  destruct (request_delivers oc (op_header op) item [] payload c W P D U Ei) as (c' & qs & E & Rest).
  { destruct op; apply wf_header_of, W. }
  exists c', qs, payload, rest. rewrite <- Xi. tauto.
Qed.

(** Reading an answer in the handlers is [read_op] on its bytes. *)
Lemma op_reads op w ps : ready (w_conn w) -> framed ps (w_conn w) -> ends_well ps (w_conn w) ->
  exists r s' c', read_op op (mkStream (stream_of ps (w_conn w)) (c_ctx (w_conn w)) None) = (r, s') /\
    match op with
    | OpQuery _ _ k | OpBatch _ k => (os <~ open_query ;; stream_pull os k)
    | OpTransaction _ => (wait_done ;;; io_res (Ok [])) end w = (Finished r, mkWorld (w_script w) c' (w_answers w)) /\
    ready c' /\ c_ctx c' = st_ctx s' /\ c_out c' = c_out (w_conn w).
Proof.
  intros (Wc & P & D & ps0 & [F0 E0] & _ & Wb0) F We. set (s := mkStream (stream_of ps (w_conn w)) (c_ctx (w_conn w)) None).
  assert (Wb : wf_bytes (stream_of ps (w_conn w))).
  { destruct F as [F E]. rewrite <- (available_framed ps _ (conj F E)), (available_framed ps0 _ (conj F0 E0)). exact Wb0. }
  assert (Ws : wf_stream s) by (split; [exact Wb|split; [exact Wc|exact I]]).
  assert (Rd : reading s (reader_new (w_conn w))) by (exists ps; auto).
  assert (Back : forall s' t', reading s' t' -> wf_stream s' -> c_poisoned (rd_conn t') = c_poisoned (w_conn w) ->
    c_desync (rd_conn t') = c_desync (w_conn w) -> ready (rd_conn t')).
  { intros s' t' (ps' & F' & W' & S' & C' & _) (Wb' & Wc' & _) P' D'. unfold ready. rewrite C', P', D'. split; [exact Wc'|]. split; [exact P|].
    split; [exact D|]. exists ps'. rewrite S'. auto. }
  assert (Ctx : forall s' t', reading s' t' -> c_ctx (rd_conn t') = st_ctx s') by (intros s' t' (ps' & _ & _ & _ & C' & _); exact C').
  unfold read_op. cbn [st_buf s].
  assert (Q : forall k, exists r s' c', (p <- forward next_token (S (length (stream_of ps (w_conn w)))) ;;
       match p with None => ret [] | Some p => fun s => let (ts, s) := pull next_token k s in (Ok (Ok p :: ts), s) end) s = (r, s') /\
    (os <~ open_query ;; stream_pull os k) w = (Finished r, mkWorld (w_script w) c' (w_answers w)) /\
    ready c' /\ c_ctx c' = st_ctx s' /\ c_out c' = c_out (w_conn w)).
  { intros k. rewrite bind_run. unfold io_bind, open_query, io_tokens. rewrite (available_framed ps _ F).
    destruct (sim_forward _ _ sim_next (S (length (stream_of ps (w_conn w)))) s _ Rd Ws) as (r & s1 & t1 & -> & -> & R1 & W1 & O1 & P1 & D1).
    unfold reader_new in O1, P1, D1. cbn [rd_conn] in O1, P1, D1. destruct r as [[p|]|e| |]; cbn [res_map]; try (eexists _, s1, (rd_conn t1); split; [reflexivity|]; split; [reflexivity|]; eauto).
    unfold stream_pull. cbn [os_peeked os_error w_conn w_script w_answers]. replace (mkReader (rd_conn t1) (rd_error t1)) with t1 by (destruct t1; reflexivity).
    destruct (pull_sim k s1 t1 R1 W1) as (ts & s2 & t2 & -> & -> & R2 & W2 & O2 & P2 & D2).
    eexists _, s2, (rd_conn t2). split; [reflexivity|]. split; [reflexivity|]. split; [apply (Back s2); auto; congruence|].
    split; [auto|congruence]. }
  destruct op as [q vs k|text k|body]; [apply Q|apply Q|]. rewrite bind_run. unfold io_bind, wait_done, io_tokens. rewrite (available_framed ps _ F).
  destruct (sim_flush_done _ _ sim_next (S (length (stream_of ps (w_conn w)))) None None s _ Rd Ws) as (r & s1 & t1 & -> & -> & R1 & W1 & O1 & P1 & D1).
  destruct r as [d|e| |]; eexists _, s1, (rd_conn t1); (split; [reflexivity|]; split; [reflexivity|]; eauto).
Qed.

(** One operation of the client is one step of the machine. *)
Lemma op_step op ps c more : ready c -> op_fits op -> is_answer ps ->
  exists c' qs payload r rest, run_op op (mkWorld [] c (raws ps :: more)) = (Finished r, mkWorld [] c' more) /\
    machine_op op (concat (map p_payload ps)) (c_ctx c) = (payload, r, c_ctx c') /\ ready c' /\
    c_out c' = c_out c ++ raws qs /\ Forall wire_packet qs /\ collect_payloads qs = payload /\
    read_tx_headers payload = (Ok (transaction_desc (c_ctx c)), rest).
Proof.
  intros R Hf Ha. destruct (op_request_delivers op c R Hf) as (c1 & qs & payload & rest & E & Ei & Eh & O & Fq & Cq & I1 & B1 & C1 & F1 & P1 & D1).
  destruct R as (W & _). set (w1 := mkWorld [] (set_in (raws ps) c1) more).
  assert (Ex : exchange (op_request op) (mkWorld [] c (raws ps :: more)) = (Finished (Ok tt), w1)).
  { unfold exchange. cbn [w_script w_conn w_answers]. rewrite E. unfold deliver. cbn [w_answers w_conn w_script]. rewrite I1. reflexivity. }
  assert (F : framed ps (w_conn w1)) by (split; [apply Ha|reflexivity]).
  assert (We : ends_well ps (w_conn w1)) by (apply answer_ends_well; [exact Ha|exact F1]).
  assert (Sp : stream_of ps (w_conn w1) = concat (map p_payload ps)) by (unfold stream_of; cbn; rewrite B1; reflexivity).
  assert (R1 : ready (w_conn w1)).
  { split; [cbn; rewrite C1; apply wf_next_packet_id, W|]. split; [exact P1|]. split; [exact D1|]. exists ps. rewrite Sp. split; [exact F|]. split; [exact We|apply Ha]. }
  destruct (op_reads op w1 ps R1 F We) as (r & s' & c' & Er & Ew & R' & C' & O'). rewrite Sp in Er. cbn [w_conn w1 set_in c_ctx] in Er. rewrite C1 in Er.
  exists c', qs, payload, r, rest. split.
  { change (Finished r, mkWorld [] c' more) with (Finished r, mkWorld (w_script w1) c' (w_answers w1)). rewrite <- Ew. destruct op; cbn [run_op]; unfold client_query, client_simple_query, send_transaction_manager_request;
      change (execute_request oc powi10 query params) with (op_request (OpQuery query params k)) || change (simple_query_request oc text) with (op_request (OpBatch text k))
      || change (transaction_request oc body) with (op_request (OpTransaction body));
      unfold io_bind; rewrite Ex; try reflexivity. destruct (wait_done w1) as [[[]|]]; reflexivity. }
  split; [unfold machine_op; rewrite Er, Ei, C'; reflexivity|]. split; [exact R'|]. split; [rewrite O'; exact O|]. auto.
Qed.

(** *** The session as a replay of the tokens read *)

(** A round that gives no token leaves the session alone. *)
Lemma get_token_fails ty s r s' : get_token ty s = (r, s') -> (forall t, r <> Ok t) -> st_ctx s' = st_ctx s.
Proof.
  assert (Conn : forall A (c : Decoder A) s r s', on_conn c s = (r, s') -> st_ctx s' = st_ctx s).
  { intros A c s0 r0 s0'. rewrite on_bytes. destruct (c _ _ _ _). intros [= _ <-]. reflexivity. }
  assert (Simple : forall A (c : Decoder A) (k : A -> M Stream ReceivedToken) s r s', (a <- on_conn c ;; k a) s = (r, s') ->
    (forall t, r <> Ok t) -> (forall a s r s', k a s = (r, s') -> (forall t, r <> Ok t) -> st_ctx s' = st_ctx s) -> st_ctx s' = st_ctx s).
  { intros A c k s0 r0 s0' H N Hk. rewrite bind_run in H. destruct (on_conn c s0) as [[a|e| |] s1] eqn:E; apply Conn in E; try (injection H as _ <-; exact E).
    apply Hk in H; congruence. }
  intros H N. destruct ty; cbn [get_token] in H; eapply Simple; try exact H; try exact N; clear - Simple; intros a s r s' H N;
    try (injection H as <- _; edestruct N; reflexivity).
  - eapply Simple with (c := fun R SR ctx b => (ok_or (alt_meta a ctx) (Protocol "ALTROW for unknown compute id"), b)) (k := fun m =>
      r <- on_conn (fun R SR ctx => alt_row_decode ctx a m) ;; ret (ReceivedToken.AltRow r)); [|exact N|].
    + rewrite <- H, !bind_run. rewrite on_bytes. cbn [st_ctx st_buf last_error]. destruct s; reflexivity.
    + intros m s0 r0 s0' H' N'. eapply Simple; [exact H'|exact N'|]. intros x s1 r1 s1' X N1. injection X as <- _. edestruct N1; reflexivity.
  - unfold bind in H. destruct a; cbn in H; try (injection H as <- _; edestruct N; reflexivity).
    destruct (_ && _); cbn in H; injection H as <- <-; [edestruct N; reflexivity|reflexivity].
Qed.

Lemma next_token_fails s r s' : next_token s = (r, s') -> (forall t, r <> Ok (Some t)) -> st_ctx s' = st_ctx s.
Proof.
  unfold next_token, read_token. destruct (st_buf s) as [|b l] eqn:B; [destruct (last_error s); intros [= _ <-]; reflexivity|].
  rewrite bind_run, on_bytes, B. destruct (read_u8 (b :: l)) as [[x|e| |] rest]; try (intros [= _ <-]; reflexivity).
  destruct (token_try_from x) as [ty|]; [|intros [= _ <-]; reflexivity]. rewrite bind_run.
  destruct (get_token ty _) as [[t|e| |] s1] eqn:E; intros [= <- <-] N; try (apply get_token_fails in E; [exact E|congruence]).
  edestruct N. reflexivity.
Qed.

(** The tokens among what a stream handed out. *)
Definition handed (ts : tokens) : list ReceivedToken := omap (fun r => match r with Ok t => Some t | _ => None end) ts.
Definition replay (ts : list ReceivedToken) (ctx : Context) : Context := fold_left (fun c t => apply_token t c) ts ctx.

(** Up to the first token that satisfies [p], with it. *)
Fixpoint upto (p : ReceivedToken -> bool) (ts : list ReceivedToken) : list ReceivedToken :=
  match ts with [] => [] | t :: ts => t :: if p t then [] else upto p ts end.
Definition is_metadata (t : ReceivedToken) : bool := match t with ReceivedToken.NewResultset _ => true | _ => false end.

(** What an operation takes of an answer: a transaction request goes to the
    first DONE, a query to the first metadata and the [k] tokens behind it. *)
Definition taken (op : Op) (ts : list ReceivedToken) : list ReceivedToken :=
  match op with
  | OpQuery _ _ k | OpBatch _ k => let head := upto is_metadata ts in head ++ take k (drop (length head) ts)
  | OpTransaction _ => upto is_done ts
  end.

(** A stream that has nothing more to give. *)
Definition spent (s : Stream) : Prop := forall t s', next_token s <> (Ok (Some t), s').

Lemma yields_app s ts s1 us s2 : yields s ts s1 -> yields s1 us s2 -> yields s (ts ++ us) s2.
Proof. induction 1; intros H2; [exact H2|]. econstructor; eauto. Qed.

Lemma response_fuel n : forall m s, wf_stream s -> (length (st_buf s) < n)%nat -> (length (st_buf s) < m)%nat -> response n s = response m s.
Proof.
  induction n as [|n IH]; intros [|m] s W Hn Hm; try lia. cbn [response]. destruct (next_token_safe s W) as (r & s1 & -> & _ & W1 & _ & P).
  destruct r as [[t|]|e| |]; try reflexivity. specialize (P t eq_refl). f_equal. apply IH; [exact W1|lia|lia].
Qed.

(** What was taken is a prefix of what there is. *)
Lemma yields_handed s ts s1 : yields s ts s1 -> wf_stream s ->
  wf_stream s1 /\ handed (tokens_of s) = ts ++ handed (tokens_of s1).
Proof.
  induction 1 as [s|s t s1 ts s2 E Y IH]; intros W; [auto|]. destruct (next_token_safe s W) as (r & s' & E' & _ & W1 & _ & P).
  rewrite E in E'. injection E' as <- <-. destruct (IH W1) as [W2 H2]. split; [exact W2|]. specialize (P t eq_refl).
  unfold tokens_of in *. cbn [response]. rewrite E. cbn [handed omap list_omap app]. fold (handed (response (length (st_buf s)) s1)).
  rewrite (response_fuel _ (S (length (st_buf s1)))) by (auto; lia). rewrite H2. reflexivity.
Qed.

Lemma spent_handed s : spent s -> handed (tokens_of s) = [].
Proof. intros N. unfold tokens_of. cbn [response]. destruct (next_token s) as [[[t|]|e| |] s1] eqn:E; try reflexivity. destruct (N t s1 E). Qed.

Lemma not_token_spent s r s' : next_token s = (r, s') -> (forall t, r <> Ok (Some t)) -> spent s.
Proof. intros E N t s1 H. rewrite E in H. injection H as -> _. exact (N t eq_refl). Qed.

Lemma pull_takes k : forall s ts s', pull next_token k s = (ts, s') ->
  exists us s1, yields s us s1 /\ st_ctx s' = st_ctx s1 /\ (length us <= k)%nat /\ (length us = k \/ spent s1).
Proof.
  induction k as [|k IH]; intros s ts s'; cbn [pull]; [intros [= _ <-]; exists [], s; repeat split; auto; constructor|].
  destruct (next_token s) as [r s1] eqn:E.
  assert (Stop : (forall t, r <> Ok (Some t)) -> exists us s2, yields s us s2 /\ st_ctx s1 = st_ctx s2 /\ (length us <= S k)%nat /\ (length us = S k \/ spent s2)).
  { intros N. exists [], s. split; [constructor|]. split; [exact (next_token_fails _ _ _ E N)|]. split; [cbn; lia|]. right. exact (not_token_spent _ _ _ E N). }
  destruct r as [[t|]|e| |]; try (intros [= _ <-]; apply Stop; discriminate).
  destruct (pull next_token k s1) as [ts1 s2] eqn:Ep. intros [= _ <-]. destruct (IH s1 ts1 s2 Ep) as (us & s3 & Y & C & L & O).
  exists (t :: us), s3. split; [econstructor; eauto|]. split; [exact C|]. cbn. split; [lia|]. destruct O; [left; lia|auto].
Qed.

(** A loop that goes on until a token satisfies [p]. *)
Lemma forward_takes n : forall s r s', wf_stream s -> (length (st_buf s) < n)%nat -> forward next_token n s = (r, s') ->
  exists us s1, yields s us s1 /\ st_ctx s' = st_ctx s1 /\ wf_stream s' /\
    ((exists p, r = Ok (Some p) /\ s' = s1 /\ upto is_metadata us = us /\ exists init, us = init ++ [p] /\ is_metadata p = true) \/
     (forall p, r <> Ok (Some p)) /\ spent s1 /\ existsb is_metadata us = false).
Proof.
  induction n as [|n IH]; intros s r s' W Hn; [lia|]. cbn [forward]. rewrite bind_run.
  destruct (next_token_safe s W) as (x & s1 & E & Hr & W1 & _ & P). rewrite E.
  assert (Stop : (forall t, x <> Ok (Some t)) -> (forall p, r <> Ok (Some p)) -> s1 = s' -> exists us s2, yields s us s2 /\ st_ctx s' = st_ctx s2 /\ wf_stream s' /\
    ((exists p, r = Ok (Some p) /\ s' = s2 /\ upto is_metadata us = us /\ exists init, us = init ++ [p] /\ is_metadata p = true) \/
     (forall p, r <> Ok (Some p)) /\ spent s2 /\ existsb is_metadata us = false)).
  { intros N N' <-. exists [], s. split; [constructor|]. split; [exact (next_token_fails _ _ _ E N)|]. split; [exact W1|]. right. split; [exact N'|].
    split; [exact (not_token_spent _ _ _ E N)|reflexivity]. }
  destruct x as [[t|]|e| |]; try contradiction; try (intros [= <- <-]; apply Stop; congruence).
  specialize (P t eq_refl). destruct (is_metadata t) eqn:Hm.
  - destruct t; try discriminate Hm. intros [= <- <-]. eexists [_], s1. split; [econstructor; [exact E|constructor]|]. split; [reflexivity|]. split; [exact W1|].
    left. eexists. split; [reflexivity|]. split; [reflexivity|]. split; [reflexivity|]. exists []. auto.
  - intros H. assert (H' : forward next_token n s1 = (r, s')) by (destruct t; try discriminate Hm; exact H). clear H.
    destruct (IH s1 r s' W1 ltac:(lia) H') as (us & s2 & Y & C & W' & O). exists (t :: us), s2. split; [econstructor; eauto|]. split; [exact C|]. split; [exact W'|].
    destruct O as [(p & -> & -> & U & init & -> & Mp)|O]; [left|right; cbn [existsb]; rewrite Hm; exact O]. exists p. split; [reflexivity|]. split; [reflexivity|].
    split; [cbn [upto]; rewrite Hm, U; reflexivity|]. exists (t :: init). auto.
Qed.

Lemma upto_app p us ts : existsb p us = false -> upto p (us ++ ts) = us ++ upto p ts.
Proof. induction us as [|u us IH]; [reflexivity|]. cbn. destruct (p u); [discriminate|]. cbn. intros H. rewrite IH; auto. Qed.
Lemma upto_stop p us x ts : existsb p us = false -> p x = true -> upto p (us ++ x :: ts) = us ++ [x].
Proof. intros N P. rewrite upto_app by exact N. cbn. rewrite P. reflexivity. Qed.
Lemma upto_init p init x : upto p (init ++ [x]) = init ++ [x] -> existsb p init = false.
Proof.
  induction init as [|u us IH]; [reflexivity|]. cbn. destruct (p u); [destruct us; discriminate|]. intros [= H]. exact (IH H).
Qed.

Lemma yields_replay s ts s' : yields s ts s' -> st_ctx s' = replay ts (st_ctx s).
Proof. intros H. apply (yields_effect s ts s' H). Qed.

(** An operation changes the session by the tokens it takes, in order, and by
    nothing else. *)
Lemma read_op_replay op s r s' : wf_stream s -> read_op op s = (r, s') -> st_ctx s' = replay (taken op (handed (tokens_of s))) (st_ctx s).
Proof.
  intros W. assert (Q : forall k, (p <- forward next_token (S (length (st_buf s))) ;;
       match p with None => ret [] | Some p => fun s => let (ts, s) := pull next_token k s in (Ok (Ok p :: ts), s) end) s = (r, s') ->
    st_ctx s' = replay (let head := upto is_metadata (handed (tokens_of s)) in head ++ take k (drop (length head) (handed (tokens_of s)))) (st_ctx s)).
  { intros k. rewrite bind_run. destruct (forward next_token _ s) as [x s1] eqn:E.
    destruct (forward_takes (S (length (st_buf s))) s x s1 W ltac:(lia) E) as (us & s2 & Y & C & W1 & O). destruct (yields_handed s us s2 Y W) as [W2 Hh]. rewrite Hh. cbn zeta.
    destruct O as [(p & -> & -> & U & init & -> & Mp)|(N & Sp & Nm)].
    - pose proof (upto_init _ _ _ U) as Ni. rewrite <- app_assoc. cbn [app]. rewrite (upto_stop _ init p _ Ni Mp).
      destruct (pull next_token k s2) as [ts s3] eqn:Ep. intros [= _ <-]. destruct (pull_takes k s2 ts s3 Ep) as (vs & s4 & Y4 & C4 & L & O4). rewrite C4.
      destruct (yields_handed s2 vs s4 Y4 W2) as [_ Hv].
      change (p :: handed (tokens_of s2)) with ([p] ++ handed (tokens_of s2)). rewrite (app_assoc init), drop_app_length, Hv.
      assert (T : take k (vs ++ handed (tokens_of s4)) = vs).
      { destruct O4 as [O4|O4]; [rewrite <- O4; apply take_app_length|]. rewrite spent_handed by exact O4. rewrite app_nil_r. apply take_ge. exact L. }
      rewrite T. apply yields_replay. eapply yields_app; eauto.
    - intros H. assert (X : s1 = s') by (destruct x as [[p|]|e| |]; [edestruct N; reflexivity|injection H; auto..]). subst s'. rewrite C.
      rewrite spent_handed, app_nil_r by exact Sp. pose proof (upto_app is_metadata us [] Nm) as U. rewrite !app_nil_r in U. rewrite U.
      rewrite drop_ge by lia. rewrite take_nil, app_nil_r. apply yields_replay, Y. }
  unfold read_op. destruct op as [q vs k|text k|body]; [apply Q|apply Q|]. cbn [taken]. rewrite bind_run. clear Q.
  destruct (flush_done_runs (S (length (st_buf s))) s None None W ltac:(lia)) as (ts & s1 & x & s2 & Y & F & E & Dn & _ & ->).
  assert (Nd : existsb is_done ts = false).
  { clear - F. induction ts as [|t ts IH]; [reflexivity|]. cbn in *. destruct (is_done t); [discriminate|]. auto. }
  intros H. assert (X : s2 = s') by (destruct (done_verdict ts None None x); injection H; auto). subst s'.
  destruct (yields_handed s ts s1 Y W) as [W1 Hh]. rewrite Hh.
  assert (T : (exists t, x = Ok (Some t)) \/ forall t, x <> Ok (Some t)) by (destruct x as [[t|]|e| |]; eauto; right; discriminate).
  destruct T as [(t & ->)|N].
  - assert (Y2 : yields s1 [t] s2) by (econstructor; [exact E|constructor]). destruct (yields_handed s1 [t] s2 Y2 W1) as [_ ->]. cbn [app].
    rewrite (upto_stop _ ts t _ Nd (Dn t eq_refl)). apply yields_replay. eapply yields_app; eauto.
  - rewrite (next_token_fails _ _ _ E N), spent_handed by exact (not_token_spent _ _ _ E N). rewrite upto_app by exact Nd. cbn [upto].
    rewrite app_nil_r. apply yields_replay, Y.
Qed.

(** The transaction a session is in behind a list of tokens. *)
Definition tx_after (ts : list ReceivedToken) (d : bytes) : bytes :=
  fold_left (fun d t =>
    match t with
    | ReceivedToken.EnvChange (TokenEnvChange.BeginTransaction d') => d'
    | ReceivedToken.EnvChange
        (TokenEnvChange.CommitTransaction | TokenEnvChange.RollbackTransaction | TokenEnvChange.DefectTransaction) => repeat 0 8
    | _ => d
    end) ts d.

Lemma replay_tx ts : forall ctx, transaction_desc (replay ts ctx) = tx_after ts (transaction_desc ctx).
Proof.
  induction ts as [|t ts IH]; intros ctx; [reflexivity|]. unfold replay, tx_after in *. cbn [fold_left]. rewrite IH. f_equal.
  destruct t as [| | | | | | | | | | | |[]| | | | | | |]; reflexivity.
Qed.

(** The tokens the operations of a session take, one list per answer. *)
Fixpoint session_logs (ops : list (Op * bytes)) (ctx : Context) : list (list ReceivedToken) :=
  match ops with
  | [] => []
  | (op, answer) :: ops =>
      taken op (handed (tokens_of (mkStream answer (snd (next_packet_id ctx)) None))) :: session_logs ops (snd (machine_op op answer ctx))
  end.

Lemma machine_op_tx op answer ctx : wf_context ctx -> wf_bytes answer ->
  transaction_desc (snd (machine_op op answer ctx)) =
  tx_after (taken op (handed (tokens_of (mkStream answer (snd (next_packet_id ctx)) None)))) (transaction_desc ctx).
Proof.
  intros W Wb. unfold machine_op. set (s := mkStream answer _ None). destruct (read_op op s) as [r s'] eqn:E. cbn [snd].
  apply read_op_replay in E; [|split; [exact Wb|split; [apply wf_next_packet_id, W|exact I]]]. rewrite E, replay_tx. reflexivity.
Qed.

Definition payload_of (ps : list Packet) : bytes := concat (map p_payload ps).
Definition as_bytes (x : Op * list Packet) : Op * bytes := (fst x, payload_of (snd x)).
Definition well_posed (x : Op * list Packet) : Prop := op_fits (fst x) /\ is_answer (snd x).

Lemma session_run ops : forall c, ready c -> Forall well_posed ops ->
  exists c' qss, run_ops (map fst ops) (mkWorld [] c (map (fun x => raws (snd x)) ops)) =
      (map Finished (snd (fst (machine_run (map as_bytes ops) (c_ctx c)))), mkWorld [] c' []) /\
    c_ctx c' = snd (machine_run (map as_bytes ops) (c_ctx c)) /\ ready c' /\
    c_out c' = c_out c ++ concat (map raws qss) /\ Forall (Forall wire_packet) qss /\
    map collect_payloads qss = fst (fst (machine_run (map as_bytes ops) (c_ctx c))) /\
    transaction_desc (c_ctx c') = tx_after (concat (session_logs (map as_bytes ops) (c_ctx c))) (transaction_desc (c_ctx c)) /\
    forall i qs, qss !! i = Some qs -> exists rest, read_tx_headers (collect_payloads qs) =
      (Ok (tx_after (concat (take i (session_logs (map as_bytes ops) (c_ctx c)))) (transaction_desc (c_ctx c))), rest).
Proof.
  induction ops as [|[op ps] ops IH]; intros c R F.
  { exists c, []. cbn. rewrite app_nil_r. repeat split; auto; try apply R; try constructor. intros i qs H. rewrite lookup_nil in H. discriminate. }
  inversion_clear F as [|? ? [Hf Ha] F']. cbn [fst snd] in Hf, Ha.
  destruct (op_step op ps c (map (fun x => raws (snd x)) ops) R Hf Ha) as (c1 & qs & payload & r & rest & E & Em & R1 & O1 & F1 & C1 & Hd).
  destruct (IH c1 R1 F') as (c2 & qss & E2 & Cx & R2 & O2 & F2 & C2 & T2 & D2).
  pose proof (machine_op_tx op (payload_of ps) (c_ctx c) (proj1 R) (proj1 (proj2 Ha))) as Tx.
  change (map as_bytes ((op, ps) :: ops)) with ((op, payload_of ps) :: map as_bytes ops). cbn [map fst snd run_ops machine_run session_logs].
  unfold payload_of in *. rewrite Em in *. cbn [snd] in *. rewrite E, E2. destruct (machine_run (map as_bytes ops) (c_ctx c1)) as [[ms rs] ctx] eqn:Er.
  cbn [fst snd] in *. exists c2, (qs :: qss). split; [reflexivity|]. split; [exact Cx|]. split; [exact R2|].
  assert (App : forall us vs d, tx_after (us ++ vs) d = tx_after vs (tx_after us d)) by (intros; apply fold_left_app).
  split; [rewrite O2, O1; cbn [map concat]; rewrite app_assoc; reflexivity|]. split; [constructor; assumption|]. split; [cbn [map]; rewrite C1, C2; reflexivity|].
  split; [cbn [concat]; rewrite App, <- Tx; exact T2|].
  intros [|i] qs' H; cbn in H.
  - injection H as <-. cbn. rewrite C1. eauto.
  - cbn [take concat]. rewrite App, <- Tx. apply (D2 i qs' H).
Qed.

(** ** Properties *)

(** C1: a client on a connection is a session machine: a dialogue of queries,
    batches and transaction requests, each answered by any bytes cut into any
    packets, each answer read as far as the caller likes, gives the results
    and the session of the machine that knows only the session context and
    the bytes of the answers, and the wire carries one message for every
    operation, the one the machine sends; what was left unread of an answer
    never reaches the next one. *)
Theorem session_refines (ops : list (Op * list Packet)) (c : Connection) (R : ready c) (F : Forall well_posed ops) :
  let '(messages, results, ctx) := machine_run (map as_bytes ops) (c_ctx c) in
  exists c' qss, run_ops (map fst ops) (mkWorld [] c (map (fun x => raws (snd x)) ops)) = (map Finished results, mkWorld [] c' []) /\
    c_ctx c' = ctx /\ c_out c' = c_out c ++ concat (map raws qss) /\ Forall (Forall wire_packet) qss /\ map collect_payloads qss = messages.
Proof.
  destruct (session_run ops c R F) as (c' & qss & E & C & _ & O & Fq & M & _). destruct (machine_run _ _) as [[ms rs] ctx].
  exists c', qss. auto 10.
Qed.

(** C4: every request is made in the transaction the server last told the
    client about: in a dialogue as above, the message of the [i]th operation
    carries in its headers the descriptor of the last BEGIN among the tokens
    taken from the answers before it, or no transaction when a COMMIT, a
    ROLLBACK or a defection came after it; and the session ends in the
    transaction of the last token taken. *)
Theorem session_transactions (ops : list (Op * list Packet)) (c : Connection) (R : ready c) (F : Forall well_posed ops) :
  let logs := session_logs (map as_bytes ops) (c_ctx c) in
  exists os c' qss, run_ops (map fst ops) (mkWorld [] c (map (fun x => raws (snd x)) ops)) = (os, mkWorld [] c' []) /\
    length qss = length ops /\ c_out c' = c_out c ++ concat (map raws qss) /\ Forall (Forall wire_packet) qss /\
    (forall i qs, qss !! i = Some qs -> exists rest,
       read_tx_headers (collect_payloads qs) = (Ok (tx_after (concat (take i logs)) (transaction_desc (c_ctx c))), rest)) /\
    transaction_desc (c_ctx c') = tx_after (concat logs) (transaction_desc (c_ctx c)).
Proof.
  destruct (session_run ops c R F) as (c' & qss & E & _ & _ & O & Fq & M & T & D). eexists _, c', qss. split; [exact E|].
  split; [|auto 10]. rewrite <- (length_map collect_payloads), M. clear. generalize (c_ctx c).
  induction ops as [|[op ps] ops IH]; intros ctx; [reflexivity|].
  change (map as_bytes ((op, ps) :: ops)) with ((op, payload_of ps) :: map as_bytes ops). cbn [machine_run].
  destruct (machine_op op (payload_of ps) ctx) as [[m r] ctx1].
  specialize (IH ctx1). destruct (machine_run (map as_bytes ops) ctx1) as [[ms rs] ctx2]. cbn in *. f_equal. exact IH.
Qed.
End Machine.

(** ** Witnesses *)

Definition one_packet (payload : bytes) : list Packet := [sent (mkPacket (set_status PacketStatus.EndOfMessage (header_batch 1)) payload)].
Definition done_token : bytes := 0xFD :: repeat 0 12.
Definition desc0 : bytes := [1; 2; 3; 4; 5; 6; 7; 8].
Definition begun : bytes := [0xE3; 11; 0; 8; 8] ++ desc0 ++ [0] ++ done_token.
Definition committed : bytes := [0xE3; 11; 0; 9; 0; 8] ++ desc0 ++ done_token.

(** A session behind a login. *)
Definition conn_idle : Connection := set_flushed true (connection_new context_new []).
(** Begin a transaction, run a batch in it, commit, run another batch. *)
Definition dialogue : list (Op * list Packet) :=
  [(OpTransaction (BodyBegin IsolationLevel.Unspecified []), one_packet begun);
   (OpBatch (ascii_str "SELECT 1") 5, one_packet done_token);
   (OpTransaction (BodyCommit []), one_packet committed);
   (OpBatch (ascii_str "SELECT 2") 5, one_packet done_token)].

Lemma conn_idle_ready : ready conn_idle.
Proof.
  split; [exact wf_context_new|]. split; [reflexivity|]. split; [reflexivity|]. exists []. split; [split; [constructor|reflexivity]|].
  split; [reflexivity|constructor].
Qed.

Lemma one_packet_answer payload : Forall is_byte payload -> payload <> [] -> len payload <= 100 -> is_answer (one_packet payload).
Proof.
  intros Hb Hn Hl. split; [|split; [cbn; rewrite app_nil_r; exact Hb|]].
  - constructor; [|constructor]. apply sent_wire; [repeat split; vm_compute; congruence|].
    assert (100 <= max_payload) by (vm_compute; congruence). cbn [p_payload]. lia.
  - exists [], (sent (mkPacket (set_status PacketStatus.EndOfMessage (header_batch 1)) payload)). auto 10.
Qed.

Lemma dialogue_well_posed : Forall well_posed dialogue.
Proof.
  repeat constructor; cbn [op_fits fst snd]; try apply ascii_str_wf; try (apply one_packet_answer; [repeat constructor; lia|discriminate|vm_compute; congruence]);
    vm_compute; congruence.
Qed.

Lemma session_refines_witness :
  exists c' qss, run_ops (ER := ascii_encoding_rs) true (fun _ => S754_nan) (map fst dialogue) (mkWorld [] conn_idle (map (fun x => raws (snd x)) dialogue)) =
    (map Finished [Ok []; Ok []; Ok []; Ok []], mkWorld [] c' []) /\ c_out c' = concat (map raws qss) /\ length qss = 4%nat.
Proof.
  pose proof (session_refines (ER := ascii_encoding_rs) true (fun _ => S754_nan) dialogue conn_idle conn_idle_ready dialogue_well_posed) as H.
  destruct (machine_run _ _ _ _) as [[ms rs] ctx] eqn:E. destruct H as (c' & qss & H1 & _ & H2 & _ & H3). vm_compute in E. injection E as <- <- <-.
  exists c', qss. split; [exact H1|]. split; [exact H2|]. apply (f_equal (@length _)) in H3. rewrite length_map in H3. exact H3.
Defined.

Lemma session_transactions_witness :
  exists os c' qss, run_ops (ER := ascii_encoding_rs) true (fun _ => S754_nan) (map fst dialogue) (mkWorld [] conn_idle (map (fun x => raws (snd x)) dialogue)) =
    (os, mkWorld [] c' []) /\ c_out c' = concat (map raws qss) /\
    map (fun qs => fst (read_tx_headers (collect_payloads qs))) qss = [Ok (repeat 0 8); Ok desc0; Ok desc0; Ok (repeat 0 8)].
Proof.
  destruct (session_transactions (ER := ascii_encoding_rs) true (fun _ => S754_nan) dialogue conn_idle conn_idle_ready dialogue_well_posed)
    as (os & c' & qss & E & L & O & _ & D & _).
  exists os, c', qss. split; [exact E|]. split; [exact O|]. destruct qss as [|q0 [|q1 [|q2 [|q3 [|]]]]]; try discriminate L. cbn [map].
  destruct (D 0%nat q0 eq_refl) as (r0 & ->), (D 1%nat q1 eq_refl) as (r1 & ->), (D 2%nat q2 eq_refl) as (r2 & ->), (D 3%nat q3 eq_refl) as (r3 & ->).
  vm_compute. reflexivity.
Defined.
