(* ===== verification/Establish.v ===== *)
(** * Establish: [Client::connect] as a dialogue with the server

    [Connection::establish], [prelogin] and [login] of [client/connection.rs]
    on a connection that writes packets and reads answers, and
    [Connection::connect] around them.  Which messages are due is said by
    [Handshake.v]; here they are framed, sent and answered.  The bytes are
    those inside the transport of the moment; the TLS backend and the security
    package are parameters, as they are there. *)

From S2P Require Import Prelude Unicode Collation SqlRead SqlWrite Types TypeInfoCodec Context ColumnDecode ColumnRoundtrip PreLogin Identifiers Config Tokens Login Handshake TokenStream Packet Connection Reader Client Session.
#[local] Open Scope io_scope.

(** [codec::collect_from], up to the decoding: packets up to the last of the
    message; a packet takes bytes, so they bound the rounds. *)
Fixpoint collect (fuel : nat) (buf : bytes) : M Connection bytes := fun c =>
  match fuel with
  | O => (OutOfFuel, c)
  | S fuel =>
      match next_packet c with
      | (Ok (Some p), c) => let buf := buf ++ p_payload p in if is_last p then (Ok buf, c) else collect fuel buf c
      | (Ok None, c) => (Ok buf, c)
      | (Err e, c) => (Err e, c)
      | (Panic, c) => (Panic, c)
      | (OutOfFuel, c) => (OutOfFuel, c)
      end
  end.
Definition collect_from : M Connection bytes := fun c => collect (S (length (c_in c))) [] c.

(** [next_packet_id] and [send_sensitive_login], as the arms of [login] call
    them. *)
Definition post_sensitive (oc : bool) (payload : bytes) (script : list Await) (c : Connection) : Outcome unit * list Await * Connection :=
  let (id, ctx) := next_packet_id (c_ctx c) in send_sensitive_login oc (header_login id) payload script (set_ctx ctx c).

(** The connection [tls_handshake] makes over the new transport: the session
    and the flag of the command timeout stay.  What is unread of the old
    transport does not: the buffer of its [Framed] is dropped, and anything
    behind it goes to the TLS library as part of the handshake.  (When
    [post_login_encryption] makes another [Framed], nothing has been read
    through this one.) *)
Definition over_tls (tls : bool) (encryption : EncryptionLevel) (c : Connection) : Connection :=
  match tls, encryption with
  | true, (EncryptionLevel.Off | EncryptionLevel.On | EncryptionLevel.Required) =>
      mkConnection [] (c_out c) false (c_ctx c) [] false (c_desync c)
  | _, _ => c
  end.

Section Establish.
Context {ER : EncodingRs} (debug oc tls : bool) (handshake : Res unit) (sspi : option bytes -> Res (option bytes)) (none_fails : bool)
  (winauth : bool) (host : str).

(** [Connection::prelogin] *)
Definition prelogin (c : Config) : Io PreloginMessage :=
  exchange (post oc header_pre_login (fun _ => prelogin_encode oc (prelogin_request c))) ;;;
  response <~ io_conn collect_from ;;
  io_res (prelogin_response debug c response).

(** [Connection::flush_sspi] *)
Definition wait_sspi : Io bytes := io_tokens (fun n => flush_sspi stream_next n None).

(** The header of the answer to a challenge: that of an SSPI message on
    Windows with the session's own account, that of a login otherwise. *)
Definition answer_header (c : Config) : Z -> PacketHeader :=
  match cf_auth c with Integrated => if winauth then header_sspi else header_login | _ => header_login end.

(** [Connection::login]; the result is the transport of the session. *)
Definition login (c : Config) (encryption : EncryptionLevel) (server : PreloginMessage) (t : MaybeTlsStream) : Io MaybeTlsStream :=
  let session := post_login_encryption tls encryption t in
  match cf_auth c with
  | SqlServer _ _ | AADToken _ =>
      payload <~ io_res (login_first sspi host c server) ;;
      exchange (post_sensitive oc payload) ;;; io_res (Ok session)
  | NoAuth =>
      exchange (post oc header_login (fun _ => bind (lift (encode_to_boxed_slice (login_message host c))) put_slice)) ;;; io_res (Ok session)
  | Windows _ _ _ | Integrated =>
      token <~ io_res (sspi None) ;;
      exchange (post oc header_login (fun _ =>
        bind (lift (encode_to_boxed_slice (set_integrated_security token (login_message host c)))) put_slice)) ;;;
      challenge <~ wait_sspi ;;
      answer <~ io_res (sspi (Some challenge)) ;;
      answer <~ io_res (match answer with
                        | Some answer => Ok answer
                        | None => if none_fails then Err (Protocol "NTLM handshake produced no response to the server challenge") else Ok []
                        end) ;;
      exchange (post oc (answer_header c) (fun _ => put_slice answer)) ;;; io_res (Ok session)
  end.

(** [Connection::establish]: the transports of the PRELOGIN, of the LOGIN7 and
    of the session. *)
Definition establish (c : Config) : Io (MaybeTlsStream * MaybeTlsStream * MaybeTlsStream) :=
  t0 <~ io_res (initial_transport tls (cf_encryption c) handshake) ;;
  io_conn (fun tcp => (Ok tt, connection_new (establish_context c) (c_in tcp))) ;;;
  server <~ prelogin c ;;
  encryption <~ io_res (negotiated_encryption tls server (cf_encryption c)) ;;
  t1 <~ io_res (tls_handshake tls (cf_encryption c) encryption handshake t0) ;;
  io_conn (fun conn => (Ok tt, over_tls tls encryption conn)) ;;;
  session <~ login c encryption server t1 ;;
  wait_done ;;;
  io_conn (fun conn => (Ok tt, set_ctx (set_command_timeout (cf_command_timeout c) (c_ctx conn)) conn)) ;;;
  io_res (Ok (t0, t1, session)).

(** [with_optional_timeout]: [fired] when the timer ends before the future,
    which is then dropped with its connection. *)
Definition with_optional_timeout {A} (timeout : option Z) (fired : bool) (o : Outcome A) : Outcome A :=
  match timeout with
  | Some _ => if fired then Finished (Err (Prelude.Io TimedOut)) else o
  | None => o
  end.
(** [Connection::connect] and [Client::connect] *)
Definition connect (fired : bool) (c : Config) : Io (MaybeTlsStream * MaybeTlsStream * MaybeTlsStream) := fun w =>
  let (o, w) := establish c w in (with_optional_timeout (cf_handshake_timeout c) fired o, w).
End Establish.

(** ** Lemmas *)

Lemma write_frames_side frames : forall script c o s' c', write_frames frames script c = (o, s', c') ->
  exists out, c' = set_out out c.
Proof.
  induction frames as [|f fs IH]; intros script c o s' c'; cbn [write_frames]; [intros [= _ _ <-]; exists (c_out c); destruct c; reflexivity|].
  destruct (next_await script) as [[] s1]; try (intros [= _ _ <-]; eexists; reflexivity). intros H. destruct (IH _ _ _ _ _ H) as [out ->]. eexists. reflexivity.
Qed.

(** An undisturbed login is delivered as a message is. *)
Lemma sensitive_delivers oc payload c : wf_context (c_ctx c) -> c_poisoned c = false -> c_desync c = false ->
  exists c' qs, post_sensitive oc payload [] c = (Finished (Ok tt), [], c') /\ c_out c' = c_out c ++ raws qs /\ Forall wire_packet qs /\
    collect_payloads qs = payload /\ c_in c' = c_in c /\ c_buf c' = c_buf c /\ c_ctx c' = snd (next_packet_id (c_ctx c)) /\
    c_flushed c' = false /\ c_poisoned c' = false /\ c_desync c' = false.
Proof.
  intros W P D. unfold post_sensitive. cbn [next_packet_id]. set (ctx := mkContext _ _ _ _ _ _ _ _ _ _). pose proof (wf_next_packet_id _ W) as W'. fold ctx in W'.
  assert (Hh : wf_header (header_login (packet_id (c_ctx c)))) by (apply wf_header_of, W).
  destruct (login_undisturbed oc (header_login (packet_id (c_ctx c))) payload (set_ctx ctx c) W' P D) as (c2 & E2 & P2 & O2).
  destruct (packet_room _ W') as (R1 & R2 & R3). cbn [c_ctx set_ctx] in *.
  destruct (message_packets_spec (length payload) (header_login (packet_id (c_ctx c))) payload _ R1 (le_n _)) as (_ & M2 & M3 & _).
  pose proof (message_packets_wf (length payload) _ payload (Z.to_nat (packet_size ctx - HEADER_BYTES)) Hh) as M5.
  assert (S2 : c_in c2 = c_in c /\ c_buf c2 = c_buf c /\ c_ctx c2 = ctx /\ c_flushed c2 = false /\ c_desync c2 = c_desync c).
  { revert E2. unfold send_sensitive_login, ensure_not_poisoned. cbn [c_poisoned c_desync set_ctx]. rewrite P, D. cbn [c_ctx set_flushed set_ctx]. rewrite R3.
    destruct (frame_sensitive_login _ _ _ _ _) as [frames| | |]; try discriminate. destruct (write_frames frames [] _) as [[o s1] c3] eqn:X.
    destruct (write_frames_side _ _ _ _ _ _ X) as [out ->]. destruct o as [[[]| | |]|]; try discriminate. unfold flush_sink.
    destruct (next_await s1) as [[] ?]; try discriminate. intros [= _ <-]. cbn. auto. }
  destruct S2 as (I2 & B2 & C2 & F2 & D2).
  exists c2, (map sent (message_packets (length payload) (header_login (packet_id (c_ctx c))) payload (Z.to_nat (packet_size ctx - HEADER_BYTES)))).
  split; [exact E2|]. split; [rewrite O2, <- raws_sent; reflexivity|]. split.
  { rewrite List.Forall_map. rewrite !Forall_forall in *. intros p Hp. apply sent_wire; [auto|]. destruct (M3 p Hp) as [B _]. lia. }
  rewrite collect_sent. split; [exact M2|]. rewrite I2, B2, C2, D2. auto 10.
Qed.

Lemma exchange_answered op c c1 ps more : op [] c = (Finished (Ok tt), [], c1) -> c_in c1 = [] ->
  exchange op (mkWorld [] c (raws ps :: more)) = (Finished (Ok tt), mkWorld [] (set_in (raws ps) c1) more).
Proof. intros E I. unfold exchange. cbn [w_script w_conn w_answers]. rewrite E. unfold deliver. cbn. rewrite I. reflexivity. Qed.

Lemma collect_spec fuel : forall init last buf c, Forall wire_packet (init ++ [last]) -> Forall (fun p => is_last p = false) init -> is_last last = true ->
  c_in c = raws (init ++ [last]) -> (length init < fuel)%nat ->
  collect fuel buf c = (Ok (buf ++ concat (map p_payload (init ++ [last]))), set_flushed true (set_in [] c)).
Proof.
  induction fuel as [|fuel IH]; intros init last buf c Fw Fn L E Hf; [lia|]. cbn [collect]. destruct init as [|p init]; cbn [app] in *.
  - apply Forall_cons in Fw as [Hp _]. rewrite (next_packet_cons last [] [] c Hp) by (rewrite app_nil_r; exact E). rewrite L. cbn. rewrite app_nil_r. reflexivity.
  - apply Forall_cons in Fw as [Hp Fw]. apply Forall_cons in Fn as [Hn Fn].
    rewrite (next_packet_cons p (init ++ [last]) [] c Hp) by (rewrite app_nil_r; exact E). rewrite Hn, app_nil_r.
    etransitivity; [apply (IH init last _ _ Fw Fn L); [reflexivity|cbn in Hf; lia]|]. cbn [map concat]. rewrite <- app_assoc. reflexivity.
Qed.

Lemma collect_answer ps c : is_answer ps -> c_in c = raws ps -> collect_from c = (Ok (payload_of ps), set_flushed true (set_in [] c)).
Proof.
  intros (Fw & _ & init & last & -> & Fn & L & _) E. unfold collect_from. rewrite (collect_spec _ init last [] c Fw Fn L E); [reflexivity|].
  rewrite E. pose proof (length_raws (init ++ [last])) as X. rewrite length_app in X. cbn in X. lia.
Qed.

(** A connection between messages, and one whose answer has arrived. *)
Definition between (c : Connection) : Prop :=
  wf_context (c_ctx c) /\ c_poisoned c = false /\ c_desync c = false /\ c_in c = [] /\ c_buf c = [].
Definition answering (ps : list Packet) (c : Connection) : Prop :=
  wf_context (c_ctx c) /\ c_poisoned c = false /\ c_desync c = false /\ c_in c = raws ps /\ c_buf c = [] /\ c_flushed c = false.

(** What an operation that delivers [payload] does in a dialogue. *)
Definition delivers (op : list Await -> Connection -> Outcome unit * list Await * Connection) (payload : bytes) (c : Connection) : Prop :=
  exists c' qs, op [] c = (Finished (Ok tt), [], c') /\ c_out c' = c_out c ++ raws qs /\ Forall wire_packet qs /\
    collect_payloads qs = payload /\ c_in c' = c_in c /\ c_buf c' = c_buf c /\ c_ctx c' = snd (next_packet_id (c_ctx c)) /\
    c_flushed c' = false /\ c_poisoned c' = false /\ c_desync c' = false.

Lemma delivers_answered op payload c ps more : delivers op payload c -> between c ->
  exists c1 qs, exchange op (mkWorld [] c (raws ps :: more)) = (Finished (Ok tt), mkWorld [] c1 more) /\ answering ps c1 /\
    c_out c1 = c_out c ++ raws qs /\ Forall wire_packet qs /\ collect_payloads qs = payload /\ c_ctx c1 = snd (next_packet_id (c_ctx c)).
Proof.
  intros (c' & qs & E & O & Fq & Cq & I' & B' & C' & F' & P' & D') (W & _ & _ & I & B). exists (set_in (raws ps) c'), qs.
  split; [apply exchange_answered; [exact E|congruence]|]. split; [|auto].
  split; [cbn; rewrite C'; apply wf_next_packet_id, W|]. cbn. rewrite B', B. auto.
Qed.

Section Answers.
Context {ER : EncodingRs}.

(** Reading an answer with a loop over its tokens. *)
Lemma tokens_answered {A} (m : nat -> M Stream A) (m' : nat -> M Reader A) ps c sc an : (forall n, simulates (m n) (m' n)) ->
  is_answer ps -> answering ps c ->
  exists r s' c', m (S (length (payload_of ps))) (mkStream (payload_of ps) (c_ctx c) None) = (r, s') /\
    io_tokens m' (mkWorld sc c an) = (Finished r, mkWorld sc c' an) /\ ready c' /\ c_ctx c' = st_ctx s' /\ c_out c' = c_out c /\
    (st_buf s' = [] -> between c').
Proof.
  intros Hs Ha (W & P & D & I & B & F). assert (Fr : framed ps c) by (split; [apply Ha|exact I]). pose proof (answer_ends_well ps c Ha F) as We.
  assert (Sp : stream_of ps c = payload_of ps) by (unfold stream_of; rewrite B; reflexivity).
  assert (Rd : reading (mkStream (payload_of ps) (c_ctx c) None) (reader_new c)) by (exists ps; cbn [rd_conn reader_new st_buf st_ctx last_error rd_error]; auto 10).
  assert (Ws : wf_stream (mkStream (payload_of ps) (c_ctx c) None)) by (split; [apply Ha|split; [exact W|exact Logic.I]]).
  destruct (Hs (S (length (payload_of ps))) _ _ Rd Ws) as (r & s' & t' & E & E' & R' & W' & O' & P' & D').
  cbn [rd_conn reader_new] in O', P', D'. exists r, s', (rd_conn t'). split; [exact E|]. unfold io_tokens. cbn [w_conn w_script w_answers].
  rewrite (available_framed ps c Fr), Sp, E'. split; [reflexivity|]. destruct R' as (ps' & F' & We' & S' & C' & L'). destruct W' as (Wb' & Wc' & _).
  assert (R : ready (rd_conn t')) by (unfold ready; rewrite C', P', D'; split; [exact Wc'|]; split; [exact P|]; split; [exact D|]; exists ps'; rewrite S'; auto).
  split; [exact R|]. split; [exact C'|]. split; [exact O'|]. intros Eb. rewrite Eb in S'. apply app_eq_nil in S' as [Sb Sp'].
  split; [rewrite C'; exact Wc'|]. rewrite P', D'. split; [exact P|]. split; [exact D|]. split; [|exact Sb].
  destruct ps' as [|p ps']; [apply F'|]. destruct We' as (_ & init & last & E2 & _ & _ & N). rewrite E2, map_app, concat_app in Sp'.
  apply app_eq_nil in Sp' as [_ Sp']. cbn in Sp'. rewrite app_nil_r in Sp'. contradiction.
Qed.
End Answers.

Lemma wf_establish_context c : wf_context (establish_context c).
Proof. destruct wf_context_new. split; cbn; auto. Qed.

(** What [collect_from] leaves behind. *)
Lemma collected ps c : is_answer ps -> answering ps c ->
  exists c', collect_from c = (Ok (payload_of ps), c') /\ between c' /\ c_ctx c' = c_ctx c /\ c_out c' = c_out c.
Proof.
  intros A (W & P & D & I & B & F). eexists. split; [apply collect_answer; [exact A|exact I]|]. cbn. unfold between. cbn. auto 10.
Qed.

Lemma over_tls_between tls e c : between c -> between (over_tls tls e c) /\ c_ctx (over_tls tls e c) = c_ctx c /\ c_out (over_tls tls e c) = c_out c.
Proof. intros (W & P & D & I & B). destruct tls, e; unfold between; cbn; auto 10. Qed.

(** ** Properties *)

Section Properties.
Context {ER : EncodingRs} (debug oc tls : bool) (handshake : Res unit) (sspi : option bytes -> Res (option bytes)) (none_fails : bool)
  (winauth : bool) (host : str).

Definition is_sspi (c : Config) : bool := match cf_auth c with Windows _ _ _ | Integrated => true | _ => false end.

(** Up to the login: the PRELOGIN is out, the answer is taken in whole, and
    the connection is over the transport the negotiation gave. *)
Lemma establish_up_to_login c ps0 more tcp t0 t1 request server encryption (k : PreloginMessage -> EncryptionLevel -> MaybeTlsStream -> MaybeTlsStream -> Io (MaybeTlsStream * MaybeTlsStream * MaybeTlsStream)) :
  c_in tcp = [] -> is_answer ps0 -> initial_transport tls (cf_encryption c) handshake = Ok t0 ->
  prelogin_encode oc (prelogin_request c) [] = (Ok tt, request) -> prelogin_response debug c (payload_of ps0) = Ok server ->
  negotiated_encryption tls server (cf_encryption c) = Ok encryption -> tls_handshake tls (cf_encryption c) encryption handshake t0 = Ok t1 ->
  exists c1 qs0, between c1 /\ c_out c1 = raws qs0 /\ Forall wire_packet qs0 /\ collect_payloads qs0 = request /\
    c_ctx c1 = snd (next_packet_id (establish_context c)) /\
    (t0 <~ io_res (initial_transport tls (cf_encryption c) handshake) ;;
     io_conn (fun tcp => (Ok tt, connection_new (establish_context c) (c_in tcp))) ;;;
     server <~ prelogin debug oc c ;;
     encryption <~ io_res (negotiated_encryption tls server (cf_encryption c)) ;;
     t1 <~ io_res (tls_handshake tls (cf_encryption c) encryption handshake t0) ;;
     io_conn (fun conn => (Ok tt, over_tls tls encryption conn)) ;;;
     k server encryption t0 t1) (mkWorld [] tcp (raws ps0 :: more)) = k server encryption t0 t1 (mkWorld [] c1 more).
Proof.
  intros Hi Ha E0 Er Es Ee E1. set (c0 := connection_new (establish_context c) []).
  assert (B0 : between c0) by (split; [apply wf_establish_context|repeat split]).
  assert (Dv : delivers (post oc header_pre_login (fun _ => prelogin_encode oc (prelogin_request c))) request c0)
    by (apply post_delivers; [apply B0|reflexivity|reflexivity|exact Er|apply wf_header_of, B0]).
  destruct (delivers_answered _ _ c0 ps0 more Dv B0) as (c1 & qs0 & Ex & An & O & Fq & Cq & C1).
  destruct (collected ps0 c1 Ha An) as (c2 & Ec & B2 & C2 & O2).
  destruct (over_tls_between tls encryption c2 B2) as (B3 & C3 & O3).
  exists (over_tls tls encryption c2), qs0. split; [exact B3|]. split; [rewrite O3, O2, O; reflexivity|]. split; [exact Fq|]. split; [exact Cq|].
  split; [rewrite C3, C2, C1; reflexivity|]. unfold io_bind at 1, io_res at 1. rewrite E0. unfold io_bind at 1, io_conn at 1. cbn [w_conn w_script w_answers].
  rewrite Hi. fold c0. unfold prelogin, io_bind. rewrite Ex. unfold io_conn. cbn [w_conn w_script w_answers]. rewrite Ec. unfold io_res. rewrite Es, Ee, E1. reflexivity.
Qed.

(** The end of [establish]: the answer to the last message is read up to its
    DONE, and the command timeout is armed. *)
Lemma establish_done c ps c1 (x : MaybeTlsStream * MaybeTlsStream * MaybeTlsStream) : is_answer ps -> answering ps c1 ->
  exists r s' c', flush_done next_token (S (length (payload_of ps))) None None (mkStream (payload_of ps) (c_ctx c1) None) = (r, s') /\
    (wait_done ;;; io_conn (fun conn => (Ok tt, set_ctx (set_command_timeout (cf_command_timeout c) (c_ctx conn)) conn)) ;;; io_res (Ok x))
      (mkWorld [] c1 []) = (Finished (res_map (fun _ => x) r), mkWorld [] c' []) /\
    ready c' /\ c_out c' = c_out c1 /\ c_ctx c' = match r with Ok _ => set_command_timeout (cf_command_timeout c) (st_ctx s') | _ => st_ctx s' end.
Proof.
  intros Ha An. destruct (tokens_answered _ _ ps c1 [] [] (fun n => sim_flush_done _ _ sim_next n None None) Ha An) as (r & s' & c2 & E & Ei & R & C & O & _).
  unfold io_bind, wait_done. rewrite Ei. destruct r as [d|e| |]; (eexists _, s', _; split; [exact E|]; split; [reflexivity|]; auto).
  split; [|split; [exact O|cbn; rewrite C; reflexivity]]. destruct R as (W & P & D & ps' & F' & W' & B'). unfold ready. cbn.
  split; [destruct W; split; cbn; auto|]. split; [exact P|]. split; [exact D|]. exists ps'. auto.
Qed.

(** [establish_messages], taken apart. *)
Lemma establish_stages c response challenge msgs session :
  establish_messages debug oc tls handshake sspi none_fails host c response challenge = Ok (msgs, session) ->
  exists t0 t1 request server encryption first answers, initial_transport tls (cf_encryption c) handshake = Ok t0 /\
    prelogin_encode oc (prelogin_request c) [] = (Ok tt, request) /\ prelogin_response debug c response = Ok server /\
    negotiated_encryption tls server (cf_encryption c) = Ok encryption /\ tls_handshake tls (cf_encryption c) encryption handshake t0 = Ok t1 /\
    login_first sspi host c server = Ok first /\ login_second sspi none_fails c challenge = Ok answers /\
    session = post_login_encryption tls encryption t1 /\ msgs = (t0, request) :: (t1, first) :: map (fun m => (session, m)) answers.
Proof.
  intros H. unfold establish_messages in H. apply res_bind_ok in H as (t0 & E0 & H). destruct (prelogin_encode oc (prelogin_request c) []) as [sent request].
  apply res_bind_ok in H as ([] & -> & H). apply res_bind_ok in H as (server & Es & H). apply res_bind_ok in H as (e & Ee & H).
  apply res_bind_ok in H as (t1 & E1 & H). apply res_bind_ok in H as (first & El & H). apply res_map_ok in H as (answers & Ea & H). injection H as <- <-.
  exists t0, t1, request, server, e, first, answers. auto 10.
Qed.

(** The messages of a login without a security package. *)
Lemma login_delivers c encryption server t payload conn ps more : is_sspi c = false -> login_first sspi host c server = Ok payload -> between conn ->
  exists c1 qs, login oc tls sspi none_fails winauth host c encryption server t (mkWorld [] conn (raws ps :: more)) =
      (Finished (Ok (post_login_encryption tls encryption t)), mkWorld [] c1 more) /\ answering ps c1 /\
    c_out c1 = c_out conn ++ raws qs /\ Forall wire_packet qs /\ collect_payloads qs = payload /\ c_ctx c1 = snd (next_packet_id (c_ctx conn)).
Proof.
  intros Hs Hl B. pose proof B as (W & P & D & _). unfold login, is_sspi in *. unfold login_first in *. destruct (cf_auth c) as [u pw|u pw d| |t'|] eqn:Ec; try discriminate Hs.
  - destruct (delivers_answered _ _ conn ps more (sensitive_delivers oc payload conn W P D) B) as (c1 & qs & Ex & Rest).
    exists c1, qs. unfold io_bind, io_res. rewrite Hl, Ex. split; [reflexivity|exact Rest].
  - destruct (delivers_answered _ _ conn ps more (sensitive_delivers oc payload conn W P D) B) as (c1 & qs & Ex & Rest).
    exists c1, qs. unfold io_bind, io_res. rewrite Hl, Ex. split; [reflexivity|exact Rest].
  - assert (Dv : delivers (post oc header_login (fun _ => bind (lift (encode_to_boxed_slice (login_message host c))) put_slice)) payload conn).
    { apply post_delivers; auto; [|apply wf_header_of, W]. rewrite Hl. reflexivity. }
    destruct (delivers_answered _ _ conn ps more Dv B) as (c1 & qs & Ex & Rest).
    exists c1, qs. unfold io_bind, io_res. rewrite Ex. split; [reflexivity|exact Rest].
Qed.

(** C2: [Client::connect] with an account, a token or no credentials, end to
    end: when [establish_messages] says which messages are due for the answer
    of the server to the PRELOGIN, the client frames exactly these, each in
    the transport it is due in; reading the answer to the login, however it is
    cut into packets, is [flush_done] over its bytes, whose verdict is that of
    the connect; and the connection is then ready for requests, with the
    session the answer set up and the command timeout armed only now. *)
Theorem connect_refines (c : Config) (ps0 ps1 : list Packet) (tcp : Connection) (challenge : Res bytes) (msgs : list (MaybeTlsStream * bytes))
  (session : MaybeTlsStream) (I : c_in tcp = []) (A0 : is_answer ps0) (A1 : is_answer ps1) (Hs : is_sspi c = false)
  (Hm : establish_messages debug oc tls handshake sspi none_fails host c (payload_of ps0) challenge = Ok (msgs, session)) :
  exists t0 t1 qs0 qs1 r s' conn',
    connect debug oc tls handshake sspi none_fails winauth host false c (mkWorld [] tcp [raws ps0; raws ps1]) =
      (Finished (res_map (fun _ => (t0, t1, session)) r), mkWorld [] conn' []) /\
    msgs = [(t0, collect_payloads qs0); (t1, collect_payloads qs1)] /\ c_out conn' = raws qs0 ++ raws qs1 /\ Forall wire_packet (qs0 ++ qs1) /\
    flush_done next_token (S (length (payload_of ps1))) None None
      (mkStream (payload_of ps1) (snd (next_packet_id (snd (next_packet_id (establish_context c))))) None) = (r, s') /\
    ready conn' /\ c_ctx conn' = match r with Ok _ => set_command_timeout (cf_command_timeout c) (st_ctx s') | _ => st_ctx s' end.
Proof using.
  destruct (establish_stages _ _ _ _ _ Hm) as (t0 & t1 & request & server & e & first & answers & E0 & Er & Es & Ee & E1 & El & Ea & Eq & Emsgs).
  assert (answers = []) as -> by (revert Ea; unfold login_second, is_sspi in *; destruct (cf_auth c); try discriminate; intros [= <-]; reflexivity).
  destruct (establish_up_to_login c ps0 [raws ps1] tcp t0 t1 request server e (fun server encryption t0 t1 =>
    session <~ login oc tls sspi none_fails winauth host c encryption server t1 ;; wait_done ;;;
    io_conn (fun conn => (Ok tt, set_ctx (set_command_timeout (cf_command_timeout c) (c_ctx conn)) conn)) ;;; io_res (Ok (t0, t1, session)))
    I A0 E0 Er Es Ee E1) as (c1 & qs0 & B1 & O1 & F1 & P1 & C1 & Run).
  destruct (login_delivers c e server t1 first c1 ps1 [] Hs El B1) as (c2 & qs1 & Lg & An & O2 & F2 & P2 & C2).
  destruct (establish_done c ps1 c2 (t0, t1, session) A1 An) as (r & s' & c3 & Ed & Run2 & R3 & O3 & C3).
  exists t0, t1, qs0, qs1, r, s', c3. unfold connect, establish. rewrite Run. unfold io_bind at 1. rewrite Lg. rewrite <- Eq, Run2.
  split; [destruct (cf_handshake_timeout c); reflexivity|]. split; [rewrite Emsgs, P1, P2; reflexivity|]. split; [rewrite O3, O2, O1; reflexivity|].
  split; [apply Forall_app; auto|]. split; [rewrite <- C1, <- C2; exact Ed|]. auto.
Qed.

(** [Client::connect] through a security package (NTLM), end to end: the
    client answers the challenge that [flush_sspi] finds in the answer to the
    login, whatever tokens surround it, with the message [establish_messages]
    has for that challenge, in the transport of the session; the verdict is
    that of [flush_done] over the answer to it, and the connection is then
    ready for requests. *)
Theorem connect_sspi_refines (c : Config) (ps0 ps1 ps2 : list Packet) (tcp : Connection) (challenge : bytes) (s1 : Stream)
  (msgs : list (MaybeTlsStream * bytes)) (session : MaybeTlsStream)
  (I : c_in tcp = []) (A0 : is_answer ps0) (A1 : is_answer ps1) (A2 : is_answer ps2) (Hs : is_sspi c = true)
  (Hc : flush_sspi next_token (S (length (payload_of ps1))) None
      (mkStream (payload_of ps1) (snd (next_packet_id (snd (next_packet_id (establish_context c))))) None) = (Ok challenge, s1))
  (He : st_buf s1 = [])
  (Hm : establish_messages debug oc tls handshake sspi none_fails host c (payload_of ps0) (Ok challenge) = Ok (msgs, session)) :
  exists t0 t1 qs0 qs1 qs2 r s' conn',
    connect debug oc tls handshake sspi none_fails winauth host false c (mkWorld [] tcp [raws ps0; raws ps1; raws ps2]) =
      (Finished (res_map (fun _ => (t0, t1, session)) r), mkWorld [] conn' []) /\
    msgs = [(t0, collect_payloads qs0); (t1, collect_payloads qs1); (session, collect_payloads qs2)] /\
    c_out conn' = raws qs0 ++ raws qs1 ++ raws qs2 /\
    flush_done next_token (S (length (payload_of ps2))) None None (mkStream (payload_of ps2) (snd (next_packet_id (st_ctx s1))) None) = (r, s') /\
    ready conn' /\ c_ctx conn' = match r with Ok _ => set_command_timeout (cf_command_timeout c) (st_ctx s') | _ => st_ctx s' end.
Proof using.
  destruct (establish_stages _ _ _ _ _ Hm) as (t0 & t1 & request & server & e & first & answers & E0 & Er & Es & Ee & E1 & El & Ea & Eq & Emsgs).
  destruct (establish_up_to_login c ps0 [raws ps1; raws ps2] tcp t0 t1 request server e (fun server encryption t0 t1 =>
    session <~ login oc tls sspi none_fails winauth host c encryption server t1 ;; wait_done ;;;
    io_conn (fun conn => (Ok tt, set_ctx (set_command_timeout (cf_command_timeout c) (c_ctx conn)) conn)) ;;; io_res (Ok (t0, t1, session)))
    I A0 E0 Er Es Ee E1) as (c1 & qs0 & B1 & O1 & F1 & P1 & C1 & Run).
  assert (X : exists token answer, sspi None = Ok token /\ encode_to_boxed_slice (set_integrated_security token (login_message host c)) = Ok first /\
    sspi (Some challenge) = Ok answer /\ answers = [default [] answer] /\ (answer = None -> none_fails = false)).
  { revert El Ea. unfold login_first, login_second, is_sspi in *. destruct (cf_auth c); try discriminate Hs; intros El Ea;
      apply res_bind_ok in El as (token & T & El); cbn [res_bind] in Ea; apply res_bind_ok in Ea as (answer & An & Ea); exists token, answer;
      destruct answer; [|destruct none_fails; [discriminate|] |  |destruct none_fails; [discriminate|]]; injection Ea as <-; repeat split; auto; discriminate. }
  destruct X as (token & answer & T & Ef & An & -> & Nf). pose proof B1 as (W1 & P1' & D1 & _).
  assert (Dv : delivers (post oc header_login (fun _ => bind (lift (encode_to_boxed_slice (set_integrated_security token (login_message host c)))) put_slice)) first c1).
  { apply post_delivers; auto; [|apply wf_header_of, W1]. rewrite Ef. reflexivity. }
  destruct (delivers_answered _ _ c1 ps1 [raws ps2] Dv B1) as (c2 & qs1 & Ex1 & An1 & O2 & F2 & P2 & C2).
  destruct (tokens_answered _ _ ps1 c2 [] [raws ps2] (fun n => sim_flush_sspi _ _ sim_next n None) A1 An1) as (r1 & s1' & c3 & Es1 & Ei1 & _ & C3 & O3 & Bt).
  rewrite C2, C1, Hc in Es1. injection Es1 as <- <-. specialize (Bt He). pose proof Bt as (W3 & P3 & D3 & _).
  assert (Dv2 : delivers (post oc (answer_header winauth c) (fun _ => put_slice (default [] answer))) (default [] answer) c3).
  { apply post_delivers; auto. unfold answer_header. destruct (cf_auth c), winauth; apply wf_header_of, W3. }
  destruct (delivers_answered _ _ c3 ps2 [] Dv2 Bt) as (c4 & qs2 & Ex2 & An2 & O4 & F4 & P4 & C4).
  destruct (establish_done c ps2 c4 (t0, t1, session) A2 An2) as (r & s' & c5 & Ed & Run2 & R5 & O5 & C5).
  assert (Lg : login oc tls sspi none_fails winauth host c e server t1 (mkWorld [] c1 [raws ps1; raws ps2]) = (Finished (Ok session), mkWorld [] c4 [])).
  { assert (Na : match answer with Some a => Ok a | None => if none_fails then Err (Protocol "NTLM handshake produced no response to the server challenge") else Ok [] end
      = Ok (default [] answer)) by (destruct answer; [reflexivity|rewrite Nf by reflexivity; reflexivity]).
    unfold login, is_sspi in *. destruct (cf_auth c) eqn:Ec; try discriminate Hs; unfold io_bind, io_res, wait_sspi; rewrite T, Ex1, Ei1, An, Na, Ex2, Eq; reflexivity. }
  exists t0, t1, qs0, qs1, qs2, r, s', c5. unfold connect, establish. rewrite Run. unfold io_bind at 1. rewrite Lg, Run2.
  split; [destruct (cf_handshake_timeout c); reflexivity|]. split; [rewrite Emsgs, P1, P2, P4; reflexivity|].
  split; [rewrite O5, O4, O3, O2, O1, <- app_assoc; reflexivity|]. split; [rewrite <- C3, <- C4; exact Ed|]. auto.
Qed.
End Properties.

(** ** Witnesses *)

Lemma sample_answer payload : forallb (fun b => (0 <=? b) && (b <? 256)) payload = true -> payload <> [] -> len payload <= 100 ->
  is_answer (one_packet payload).
Proof.
  intros H. apply one_packet_answer. apply List.Forall_forall. intros b Hb. rewrite List.forallb_forall in H. specialize (H b Hb).
  apply andb_true_iff in H as [H1 H2]. apply Z.leb_le in H1. apply Z.ltb_lt in H2. split; assumption.
Qed.

Lemma connect_refines_witness : exists conn',
  connect (ER := ascii_encoding_rs) false true true (Ok tt) sample_sspi true false (ascii_str "box") false sample_config
    (mkWorld [] conn_idle [raws (one_packet Handshake.sample_response); raws (one_packet done_token)]) =
    (Finished (Ok (Raw, TlsStream, TlsStream)), mkWorld [] conn' []) /\ ready conn' /\ command_timeout (c_ctx conn') = Some 30000.
Proof.
  destruct sample_establish as (request & first & E).
  destruct (connect_refines (ER := ascii_encoding_rs) false true true (Ok tt) sample_sspi true false (ascii_str "box") sample_config
    (one_packet Handshake.sample_response) (one_packet done_token) conn_idle (Ok []) _ _ eq_refl
    ltac:(apply sample_answer; [vm_compute; reflexivity|discriminate|vm_compute; discriminate])
    ltac:(apply sample_answer; [vm_compute; reflexivity|discriminate|vm_compute; discriminate]) eq_refl
    ltac:(unfold payload_of; cbn [one_packet map concat sent p_payload]; rewrite app_nil_r; exact E))
    as (t0 & t1 & qs0 & qs1 & r & s' & conn' & Run & M & _ & _ & Fd & R & C).
  injection M as <- _ <- _. vm_compute in Fd. injection Fd as <- <-. exists conn'. split; [exact Run|]. split; [exact R|]. rewrite C. reflexivity.
Defined.

Definition ntlm_config : Config := with_auth (Windows (ascii_str "u") (ascii_str "p") None) sample_config.
Definition ntlm (challenge : option bytes) : Res (option bytes) := Ok (Some (match challenge with None => [1] | Some c => 2 :: c end)).
Definition ntlm_challenge : bytes := [0xED; 2; 0; 7; 8].

Lemma connect_sspi_refines_witness : exists conn' qs0 qs1 qs2,
  connect (ER := ascii_encoding_rs) false true true (Ok tt) ntlm true false (ascii_str "box") false ntlm_config
    (mkWorld [] conn_idle [raws (one_packet Handshake.sample_response); raws (one_packet ntlm_challenge); raws (one_packet done_token)]) =
    (Finished (Ok (Raw, TlsStream, TlsStream)), mkWorld [] conn' []) /\ c_out conn' = raws qs0 ++ raws qs1 ++ raws qs2 /\ collect_payloads qs2 = [2; 7; 8].
Proof.
  assert (X : exists request first, establish_messages false true true (Ok tt) ntlm true (ascii_str "box") ntlm_config Handshake.sample_response (Ok [7; 8]) =
    Ok ([(Raw, request); (TlsStream, first); (TlsStream, [2; 7; 8])], TlsStream)) by (eexists _, _; vm_compute; reflexivity).
  destruct X as (request & first & E).
  assert (Y : exists s1, flush_sspi (next_token (ER := ascii_encoding_rs)) (S (length (payload_of (one_packet ntlm_challenge)))) None
      (mkStream (payload_of (one_packet ntlm_challenge)) (snd (next_packet_id (snd (next_packet_id (establish_context ntlm_config))))) None) = (Ok [7; 8], s1) /\
      st_buf s1 = []) by (eexists; split; vm_compute; reflexivity).
  destruct Y as (s1 & Hc & He).
  destruct (connect_sspi_refines (ER := ascii_encoding_rs) false true true (Ok tt) ntlm true false (ascii_str "box") ntlm_config
    (one_packet Handshake.sample_response) (one_packet ntlm_challenge) (one_packet done_token) conn_idle [7; 8] s1 _ _ eq_refl
    ltac:(apply sample_answer; [vm_compute; reflexivity|discriminate|vm_compute; discriminate])
    ltac:(apply sample_answer; [vm_compute; reflexivity|discriminate|vm_compute; discriminate])
    ltac:(apply sample_answer; [vm_compute; reflexivity|discriminate|vm_compute; discriminate]) eq_refl Hc He
    ltac:(unfold payload_of; cbn [one_packet map concat sent p_payload]; rewrite app_nil_r; exact E))
    as (t0 & t1 & qs0 & qs1 & qs2 & r & s' & conn' & Run & M & O & Fd & _).
  injection M as <- _ <- _ P2. exists conn', qs0, qs1, qs2. split; [|split; [exact O|symmetry; exact P2]].
  assert (Z1 : exists d, r = Ok d); [|destruct Z1 as (d & ->); exact Run].
  vm_compute in Hc. injection Hc as <-. vm_compute in Fd. injection Fd as <- _. eauto.
Defined.
