(* ===== verification/Convert.v ===== *)
(** * Convert: Rust values as SQL values, [to_sql.rs], [from_sql.rs],
    [macros.rs], [into_row.rs], [query.rs] and [command.rs]

    The traits [ToSql], [IntoSql] and [FromSql] over a universe of the Rust
    types the crate implements them for; the tuples a bulk insert takes; the
    builders [Query] and [Command], whose parameters are such values.  The
    borrowed, owned and [Cow] forms of a type are one carrier. *)

From S2P Require Import Prelude Unicode Collation SqlRead SqlWrite Types TypeInfoCodec NumericCodec Context ColumnDecode ColumnEncode ColumnRoundtrip ParamRoundtrip Metadata Rows Identifiers Requests Results Access Connection Client Session.
From Stdlib Require Import Floats.SpecFloat.

(** ** The types *)

Inductive RustType := RBool | RU8 | RI16 | RI32 | RI64 | RF32 | RF64 | RString | RBytes | RUuid | RNumeric | RXml.

#[export] Instance RustType_eq_dec : EqDecision RustType.
Proof. solve_decision. Defined.

(** The values of a type; a float is its bits. *)
Definition carrier (t : RustType) : Type :=
  match t with
  | RBool => bool
  | RU8 | RI16 | RI32 | RI64 | RF32 | RF64 => Z
  | RString => str
  | RBytes | RUuid => bytes
  | RNumeric => Numeric
  | RXml => XmlData
  end.

(** The table of [to_sql!] and [into_sql!]: the variant of a type. *)
Definition variant (t : RustType) : option (carrier t) -> ColumnData :=
  match t with
  | RBool => ColumnData.Bit
  | RU8 => ColumnData.U8
  | RI16 => ColumnData.I16
  | RI32 => ColumnData.I32
  | RI64 => ColumnData.I64
  | RF32 => ColumnData.F32
  | RF64 => ColumnData.F64
  | RString => ColumnData.String
  | RBytes => ColumnData.Binary
  | RUuid => ColumnData.Guid
  | RNumeric => ColumnData.Numeric
  | RXml => ColumnData.Xml
  end.

(** ** [to_sql!] and [into_sql!], of a type and of its [Option] *)

Definition to_sql (t : RustType) (v : carrier t) : ColumnData := variant t (Some v).
Definition to_sql_option (t : RustType) (o : option (carrier t)) : ColumnData :=
  match o with Some v => variant t (Some v) | None => variant t None end.

(** What a caller can bind: a value, an optional value, or a [ColumnData]. *)
Inductive Value :=
  | Plain (t : RustType) (v : carrier t)
  | Maybe (t : RustType) (o : option (carrier t))
  | Raw (d : ColumnData).
Definition into_sql (x : Value) : ColumnData :=
  match x with
  | Plain t v => variant t (Some v)
  | Maybe t (Some v) => variant t (Some v)
  | Maybe t None => variant t None
  | Raw d => d
  end.

(** ** [from_sql!] *)

Definition from_sql (t : RustType) : ColumnData -> Res (option (carrier t)) :=
  match t with
  | RBool => from_sql_bool
  | RU8 => from_sql_u8
  | RI16 => from_sql_i16
  | RI32 => from_sql_i32
  | RI64 => from_sql_i64
  | RF32 => from_sql_f32
  | RF64 => from_sql_f64
  | RString => from_sql_str
  | RBytes => from_sql_binary
  | RUuid => from_sql_uuid
  | RNumeric => from_sql_numeric
  | RXml => from_sql_xml
  end.
(** [impl FromSql for ColumnData] *)
Definition from_sql_column (d : ColumnData) : Res (option ColumnData) := Ok (Some d).

(** ** [IntoRow]: a value or a tuple of two to ten *)

Definition into_row1 (a : Value) : TokenRow :=
  let row := token_row_with_capacity 1 in
  let row := token_row_push (into_sql a) row in
  row.
Definition into_row2 (a b : Value) : TokenRow :=
  let row := token_row_with_capacity 2 in
  let row := token_row_push (into_sql a) row in
  let row := token_row_push (into_sql b) row in
  row.
Definition into_row3 (a b c : Value) : TokenRow :=
  let row := token_row_with_capacity 3 in
  let row := token_row_push (into_sql a) row in
  let row := token_row_push (into_sql b) row in
  let row := token_row_push (into_sql c) row in
  row.
Definition into_row4 (a b c d : Value) : TokenRow :=
  let row := token_row_with_capacity 4 in
  let row := token_row_push (into_sql a) row in
  let row := token_row_push (into_sql b) row in
  let row := token_row_push (into_sql c) row in
  let row := token_row_push (into_sql d) row in
  row.
Definition into_row5 (a b c d e : Value) : TokenRow :=
  let row := token_row_with_capacity 5 in
  let row := token_row_push (into_sql a) row in
  let row := token_row_push (into_sql b) row in
  let row := token_row_push (into_sql c) row in
  let row := token_row_push (into_sql d) row in
  let row := token_row_push (into_sql e) row in
  row.
Definition into_row6 (a b c d e f : Value) : TokenRow :=
  let row := token_row_with_capacity 6 in
  let row := token_row_push (into_sql a) row in
  let row := token_row_push (into_sql b) row in
  let row := token_row_push (into_sql c) row in
  let row := token_row_push (into_sql d) row in
  let row := token_row_push (into_sql e) row in
  let row := token_row_push (into_sql f) row in
  row.
Definition into_row7 (a b c d e f g : Value) : TokenRow :=
  let row := token_row_with_capacity 7 in
  let row := token_row_push (into_sql a) row in
  let row := token_row_push (into_sql b) row in
  let row := token_row_push (into_sql c) row in
  let row := token_row_push (into_sql d) row in
  let row := token_row_push (into_sql e) row in
  let row := token_row_push (into_sql f) row in
  let row := token_row_push (into_sql g) row in
  row.
Definition into_row8 (a b c d e f g h : Value) : TokenRow :=
  let row := token_row_with_capacity 8 in
  let row := token_row_push (into_sql a) row in
  let row := token_row_push (into_sql b) row in
  let row := token_row_push (into_sql c) row in
  let row := token_row_push (into_sql d) row in
  let row := token_row_push (into_sql e) row in
  let row := token_row_push (into_sql f) row in
  let row := token_row_push (into_sql g) row in
  let row := token_row_push (into_sql h) row in
  row.
Definition into_row9 (a b c d e f g h i : Value) : TokenRow :=
  let row := token_row_with_capacity 9 in
  let row := token_row_push (into_sql a) row in
  let row := token_row_push (into_sql b) row in
  let row := token_row_push (into_sql c) row in
  let row := token_row_push (into_sql d) row in
  let row := token_row_push (into_sql e) row in
  let row := token_row_push (into_sql f) row in
  let row := token_row_push (into_sql g) row in
  let row := token_row_push (into_sql h) row in
  let row := token_row_push (into_sql i) row in
  row.
Definition into_row10 (a b c d e f g h i j : Value) : TokenRow :=
  let row := token_row_with_capacity 10 in
  let row := token_row_push (into_sql a) row in
  let row := token_row_push (into_sql b) row in
  let row := token_row_push (into_sql c) row in
  let row := token_row_push (into_sql d) row in
  let row := token_row_push (into_sql e) row in
  let row := token_row_push (into_sql f) row in
  let row := token_row_push (into_sql g) row in
  let row := token_row_push (into_sql h) row in
  let row := token_row_push (into_sql i) row in
  let row := token_row_push (into_sql j) row in
  row.

(** What implements [IntoRow]. *)
Inductive Tuple :=
  | Tuple1 (a : Value)
  | Tuple2 (a b : Value)
  | Tuple3 (a b c : Value)
  | Tuple4 (a b c d : Value)
  | Tuple5 (a b c d e : Value)
  | Tuple6 (a b c d e f : Value)
  | Tuple7 (a b c d e f g : Value)
  | Tuple8 (a b c d e f g h : Value)
  | Tuple9 (a b c d e f g h i : Value)
  | Tuple10 (a b c d e f g h i j : Value).
Definition tuple_into_row (x : Tuple) : TokenRow :=
  match x with
  | Tuple1 a => into_row1 a
  | Tuple2 a b => into_row2 a b
  | Tuple3 a b c => into_row3 a b c
  | Tuple4 a b c d => into_row4 a b c d
  | Tuple5 a b c d e => into_row5 a b c d e
  | Tuple6 a b c d e f => into_row6 a b c d e f
  | Tuple7 a b c d e f g => into_row7 a b c d e f g
  | Tuple8 a b c d e f g h => into_row8 a b c d e f g h
  | Tuple9 a b c d e f g h i => into_row9 a b c d e f g h i
  | Tuple10 a b c d e f g h i j => into_row10 a b c d e f g h i j
  end.
(** The members of a tuple, in its order. *)
Definition members (x : Tuple) : list Value :=
  match x with
  | Tuple1 a => [a]
  | Tuple2 a b => [a; b]
  | Tuple3 a b c => [a; b; c]
  | Tuple4 a b c d => [a; b; c; d]
  | Tuple5 a b c d e => [a; b; c; d; e]
  | Tuple6 a b c d e f => [a; b; c; d; e; f]
  | Tuple7 a b c d e f g => [a; b; c; d; e; f; g]
  | Tuple8 a b c d e f g h => [a; b; c; d; e; f; g; h]
  | Tuple9 a b c d e f g h i => [a; b; c; d; e; f; g; h; i]
  | Tuple10 a b c d e f g h i j => [a; b; c; d; e; f; g; h; i; j]
  end.

(** ** [Query] *)

Record Query := mkQuery { q_sql : str; q_params : list ColumnData }.
Definition query_new (sql : str) : Query := mkQuery sql [].
Definition query_bind (param : Value) (q : Query) : Query := mkQuery (q_sql q) (q_params q ++ [into_sql param]).
Fixpoint bind_iter (params : list Value) (q : Query) : Query :=
  match params with [] => q | param :: params => bind_iter params (query_bind param q) end.
Definition param_count (q : Query) : Z := len (q_params q).
Definition MAX_PARAMETERS : Z := 2100.

Section Run.
Context {ER : EncodingRs} (oc : bool) (powi10 : Z -> spec_float) (alnum : Z -> bool).
Definition query_execute (q : Query) : Io (list Z) := client_execute oc powi10 (q_sql q) (q_params q).
Definition query_query (q : Query) : Io OpenStream := client_query oc powi10 (q_sql q) (q_params q).
End Run.

(** What the server is sent for a query: [rpc_params] and then
    [rpc_perform_query]. *)
Definition query_params (q : Query) : list RpcParam := perform_params (rpc_params_of (q_sql q)) (q_params q).

(** ** [Command] and table values *)

(** [SqlTableDataRow] and [SqlTableData] *)
Definition SqlTableDataRow := list ColumnData.
Definition table_row_new : SqlTableDataRow := [].
Definition add_field (data : Value) (r : SqlTableDataRow) : SqlTableDataRow := r ++ [into_sql data].
Record SqlTableData := mkSqlTableData { td_rows : list SqlTableDataRow; td_db_type : str }.

(** [trait TableValueRow] *)
Class TableValueRow (R : Type) := {
  bind_fields : R -> SqlTableDataRow -> SqlTableDataRow;
  get_db_type : str;
}.
Arguments get_db_type R {_}.

(** [TableValue::into_sql] *)
Fixpoint table_rows {R} `{TableValueRow R} (rows : list R) (data : list SqlTableDataRow) : list SqlTableDataRow :=
  match rows with [] => data | row :: rows => table_rows rows (data ++ [bind_fields row table_row_new]) end.
Definition table_into_sql {R} `{TableValueRow R} (rows : list R) : SqlTableData := mkSqlTableData (table_rows rows []) (get_db_type R).

Record Command := mkCommand { cmd_name : str; cmd_params : list CommandParam }.
Definition command_new (proc_name : str) : Command := mkCommand proc_name [].
Definition command_bind_param (name : str) (data : Value) (c : Command) : Command :=
  mkCommand (cmd_name c) (bind_param name (into_sql data) (cmd_params c)).
Definition command_bind_out_param (name : str) (data : Value) (c : Command) : Command :=
  mkCommand (cmd_name c) (bind_out_param name (into_sql data) (cmd_params c)).
Definition command_bind_table {R} `{TableValueRow R} (name : str) (rows : list R) (c : Command) : Command :=
  let t := table_into_sql rows in mkCommand (cmd_name c) (bind_table name (td_rows t) (td_db_type t) (cmd_params c)).
Definition command_bind_table_with_dbtype {R} `{TableValueRow R} (name db_type : str) (rows : list R) (c : Command) : Command :=
  let t := mkSqlTableData (td_rows (table_into_sql rows)) db_type in
  mkCommand (cmd_name c) (bind_table name (td_rows t) (td_db_type t) (cmd_params c)).
Definition exec {ER : EncodingRs} (oc : bool) (powi10 : Z -> spec_float) (alnum : Z -> bool) (c : Command) : Io unit :=
  command_exec oc powi10 alnum (cmd_name c) (cmd_params c).

(** ** Lemmas *)

Lemma from_into t o : from_sql t (into_sql (Maybe t o)) = Ok o.
Proof. destruct t, o; reflexivity. Qed.

Lemma into_option t o : into_sql (Maybe t o) = to_sql_option t o.
Proof. destruct o; reflexivity. Qed.

(** A conversion that gives a value gives the one that was there. *)
Lemma from_sql_faithful u d w : from_sql u d = Ok (Some w) ->
  d = variant u (Some w) \/ exists v, d = ColumnData.I16 (Some v) /\ existT u w = existT RI32 v.
Proof. destruct u, d; cbn; try discriminate; intros H; try (injection H as ->; eauto); destruct v; try discriminate; injection H as ->; eauto. Qed.

Lemma into_row_members x : tuple_into_row x = map into_sql (members x).
Proof. destruct x; reflexivity. Qed.

(** What the conversion back to the type of a value gives. *)
Definition returns (x : Value) (read : forall A, (ColumnData -> Res (option A)) -> Res (option A)) : Prop :=
  match x with
  | Plain t v => read _ (from_sql t) = Ok (Some v)
  | Maybe t o => read _ (from_sql t) = Ok o
  | Raw d => read _ from_sql_column = Ok (Some d)
  end.

Lemma into_sql_returns x : returns x (fun A conv => conv (into_sql x)).
Proof. destruct x as [t v|t o|d]; [destruct t; reflexivity|exact (from_into t o)|reflexivity]. Qed.

Lemma bind_iter_params vs : forall q, bind_iter vs q = mkQuery (q_sql q) (q_params q ++ map into_sql vs).
Proof.
  induction vs as [|v vs IH]; intros q; cbn [bind_iter map]; [rewrite app_nil_r; destruct q; reflexivity|].
  rewrite IH. unfold query_bind. cbn [q_sql q_params]. rewrite <- app_assoc. reflexivity.
Qed.

Lemma table_rows_app {R} `{TableValueRow R} rows : forall data,
  table_rows rows data = data ++ map (fun row => bind_fields row table_row_new) rows.
Proof.
  induction rows as [|r rows IH]; intros data; cbn [table_rows map]; [rewrite app_nil_r; reflexivity|]. rewrite IH, <- app_assoc. reflexivity.
Qed.

Lemma placeholders_join first count :
  placeholders first count = Identifiers.join (ascii_str ", ") (map (fun k => placeholder (first + Z.of_nat k)) (seq 0 count)).
Proof.
  unfold placeholders. induction count as [|n IH]; [reflexivity|]. rewrite seq_S, fold_left_app, map_app, IH. cbn [fold_left map Nat.add].
  rewrite join_snoc. destruct n as [|n]; [reflexivity|]. cbn [seq map Nat.ltb Nat.leb]. rewrite <- app_assoc. reflexivity.
Qed.

Lemma bound_app a : forall i b, bound i (a ++ b) = bound i a ++ bound (i + len a) b.
Proof.
  induction a as [|v a IH]; intros i b; cbn [app bound length]; [rewrite Z.add_0_r; reflexivity|]. rewrite IH. do 3 f_equal. lia.
Qed.

Lemma bound_names vs : forall i, map Requests.param_name (bound i vs) = map (fun k => placeholder (i + Z.of_nat k)) (seq 0 (length vs)).
Proof.
  induction vs as [|v vs IH]; intros i; [reflexivity|]. cbn [bound map length seq Requests.param_name]. rewrite Z.add_0_r, IH, <- seq_shift, map_map.
  f_equal. apply map_ext. intros k. f_equal. lia.
Qed.

Lemma bound_values vs : forall i, map param_value (bound i vs) = map Scalar vs.
Proof. induction vs as [|v vs IH]; intros i; [reflexivity|]. cbn. rewrite IH. reflexivity. Qed.

(** The parameters after the statement, the declarations and the [k] first. *)
Lemma query_params_drop q a b : q_params q = a ++ b -> drop (2 + length a) (query_params q) = bound (1 + len a) b.
Proof.
  intros E. unfold query_params. rewrite perform_params_spec, E, bound_app. cbn [app Nat.add drop].
  rewrite drop_app_length'; [reflexivity|symmetry; apply length_bound].
Qed.

(** ** Theorems *)

(** The placeholders of a generated list name exactly the parameters
    bound for them: for a query with [k] parameters bound, binding the items
    of an iterator adds one parameter per item, and what the server is sent
    for them carries, in order, the names of
    [Query::placeholders(k + 1, items.len())] and the items' values. *)
Theorem placeholders_name_bound (q : Query) (vs : list Value) :
  let q' := bind_iter vs q in
  let sent := drop (2 + length (q_params q)) (query_params q') in
  param_count q' = param_count q + len vs /\
  placeholders (param_count q + 1) (length vs) = Identifiers.join (ascii_str ", ") (map Requests.param_name sent) /\
  map param_value sent = map (fun v => Scalar (into_sql v)) vs.
Proof.
  cbv zeta. rewrite (query_params_drop _ (q_params q) (map into_sql vs)) by (rewrite bind_iter_params; reflexivity).
  rewrite bound_names, bound_values, length_map, placeholders_join, map_map, bind_iter_params. unfold param_count. cbn [q_params].
  rewrite length_app, length_map, Nat2Z.inj_add. split; [reflexivity|]. split; [|reflexivity]. rewrite (Z.add_comm (len _) 1). reflexivity.
Qed.

(** A bound value comes back: an optional value of any type the crate
    converts, written as an RPC parameter and read as a server reads it, is
    the value that [FromSql] of the same type returns. *)
Theorem bound_value_returns {ER : EncodingRs} (oc : bool) (powi10 : Z -> spec_float) (ctx : Context) (t : RustType) (o : option (carrier t))
  (H : fits_param (into_sql (Maybe t o))) :
  exists out, appends (column_encode oc powi10 (into_sql (Maybe t o)) None) out /\
    decodes (d <- param_decode ctx ;; lift (from_sql t d)) out o.
Proof.
  destruct (param_roundtrip oc powi10 ctx _ H) as (out & A & D). exists out. split; [exact A|].
  intros rest. unfold param_decode. rewrite (bind_ok _ _ _ _ _ (D rest)), from_into. reflexivity.
Qed.

Lemma bound_value_returns_witness :
  exists out, appends (column_encode (ER := ascii_encoding_rs) true (fun _ => S754_nan) (ColumnData.String (Some (ascii_str "it"))) None) out /\
    decodes (d <- param_decode (ER := ascii_encoding_rs) context_new ;; lift (from_sql RString d)) out (Some (ascii_str "it")).
Proof.
  apply (bound_value_returns (ER := ascii_encoding_rs) true (fun _ => S754_nan) context_new RString (Some (ascii_str "it"))).
  split; [repeat constructor; lia|vm_compute; discriminate].
Defined.

(** C15: a bulk row comes back: the members of a value or a tuple of up to
    ten that fit the columns are written as one ROW token with as many values;
    the row a decoder with these columns returns gives, at every position of
    the tuple, the member that was put there, whether it is a plain value, an
    optional one or a [ColumnData]. *)
Theorem tuple_row_returns {ER : EncodingRs} (oc : bool) (powi10 : Z -> spec_float) (ctx : Context) (cols : list MetaDataColumn) (tuple : Tuple)
  (H : Forall2 (fun v c => fits_column (into_sql v) (ty (base c))) (members tuple) cols) :
  exists out row, appends (row_encode oc powi10 (tuple_into_row tuple) cols) (le_bytes 1 TOKEN_ROW ++ out) /\
    decodes (row_decode (with_columns cols ctx)) out row /\ length row = length (members tuple) /\
    forall i,
      let get A (conv : ColumnData -> Res (option A)) := try_get conv (idx_usize i) (mkRow (columns_of (mkTokenColMetaData cols)) row 0) in
      match members tuple !! i with
      | Some (Plain t v) => get _ (from_sql t) = Ok (Some v)
      | Some (Maybe t o) => get _ (from_sql t) = Ok o
      | Some (Raw d) => get _ from_sql_column = Ok (Some d)
      | None => True
      end.
Proof.
  assert (H' : Forall2 (fun d c => fits_column d (ty (base c))) (tuple_into_row tuple) cols) by (rewrite into_row_members; apply Forall2_fmap_l; exact H).
  destruct (row_values (with_columns cols ctx) oc powi10 _ cols H') as (out & A & D). exists out, (tuple_into_row tuple). split; [|split; [exact D|split]].
  - unfold row_encode. apply appends_bind; [apply appends_put_slice|]. rewrite (Forall2_length _ _ _ H'), Z.eqb_refl. exact A.
  - rewrite into_row_members. apply length_map.
  - intros i get. destruct (members tuple !! i) as [x|] eqn:Hi; [|exact I]. pose proof (Forall2_length _ _ _ H) as L.
    assert (G : forall B (conv : ColumnData -> Res (option B)), get B conv = conv (into_sql x)).
    { intros B conv. subst get. cbv beta. unfold try_get, get_column_data, idx_usize. cbn [row_columns row_data]. unfold columns_of, TokenRow in *. cbn [columns].
      rewrite length_map, <- L, (proj2 (Nat.ltb_lt _ _)) by (eapply lookup_lt_Some, Hi). cbn [ok_or res_bind].
      rewrite into_row_members. unfold TokenRow. rewrite list_lookup_fmap, Hi. reflexivity. }
    pose proof (into_sql_returns x) as R. destruct x; rewrite G; exact R.
Qed.

Lemma tuple_row_returns_witness :
  let cols := [int_column "a"; int_column "b"; int_column "c"] in
  let tuple := Tuple3 (Plain RI32 (-7)) (Maybe RI32 None) (Raw (ColumnData.I32 (Some 5))) in
  exists out row, appends (row_encode (ER := ascii_encoding_rs) true (fun _ => S754_nan) (tuple_into_row tuple) cols) (le_bytes 1 TOKEN_ROW ++ out) /\
    decodes (row_decode (ER := ascii_encoding_rs) (with_columns cols context_new)) out row /\ length row = 3%nat /\
    let get {A} (conv : ColumnData -> Res (option A)) i := try_get conv (idx_usize i) (mkRow (columns_of (mkTokenColMetaData cols)) row 0) in
    get (from_sql RI32) 0%nat = Ok (Some (-7)) /\ get (from_sql RI32) 1%nat = Ok None /\ get from_sql_column 2%nat = Ok (Some (ColumnData.I32 (Some 5))).
Proof.
  intros cols tuple. destruct (tuple_row_returns (ER := ascii_encoding_rs) true (fun _ => S754_nan) context_new cols tuple) as (out & row & A & D & L & G).
  - repeat (constructor; [cbn; split; try reflexivity; try discriminate; try exact I; split; vm_compute; congruence|]). constructor.
  - exists out, row. split; [exact A|]. split; [exact D|]. split; [exact L|]. exact (conj (G 0%nat) (conj (G 1%nat) (G 2%nat))).
Defined.
