(* ===== verification/Derive.v ===== *)
(** * Derive: [#[derive(TableValueRow)]], the [tiberius-macros] crate

    The syntax the macro inspects, the checks it makes, and the [impl] block
    it generates, as a value that gives an instance of the trait.  The block is
    then compiled like any other code: that its header applies the struct to
    all the parameters it needs is a rule of the language, modelled by
    [header_complete].  Spans and the wording of the compile errors are not
    modelled; [syn] parses, [quote] prints. *)

From S2P Require Import Prelude Unicode Types Convert.

(** ** What the macro sees *)

Inductive AttrStyle := Outer | Inner.
Inductive AttrValue := LitStr (s : str) | OtherExpr.
Inductive Meta := MetaPath | MetaList | MetaNameValue (v : AttrValue).
Record Attribute := mkAttribute { at_style : AttrStyle; at_leading_colon : bool; at_segments : list str; at_meta : Meta }.
Record Field := mkField { f_ident : option str; f_attrs : list Attribute }.
Inductive Fields := Named (fs : list Field) | Unnamed (fs : list Field) | Unit.
(** A type or const parameter may have a default. *)
Inductive GenericParam := Lifetime (ident : str) | TypeParam (ident : str) (default : bool) | ConstParam (ident : str) (default : bool).
Inductive Data := DataStruct (fs : Fields) | DataEnum | DataUnion.
Record DeriveInput := mkDeriveInput { ast_ident : str; ast_generics : list GenericParam; ast_data : Data }.

Inductive SynError := InvalidColname | DuplicateColname | InvalidValue | ManyLifetimes (found : list str) | NamedOnly | UnnamedField | NoEnum | NoUnion.

(** ** [attr.rs] *)

Definition COLNAME : str := ascii_str "colname".
(** [syn::Path::is_ident] *)
Definition is_ident (a : Attribute) (name : str) : bool := negb (at_leading_colon a) && bool_decide (at_segments a = [name]).

Record FieldAttr := mkFieldAttr { colname : option str }.

(** The loop of [FieldAttr::parse]. *)
Fixpoint parse_attrs (attrs : list Attribute) (result : option FieldAttr) : SynError + option FieldAttr :=
  match attrs with
  | [] => inr result
  | attr :: attrs =>
      match at_style attr with
      | Outer =>
          match last (at_segments attr) with
          | None => parse_attrs attrs result
          | Some last_attr_path =>
              if negb (bool_decide (last_attr_path = COLNAME)) then parse_attrs attrs result
              else
                match at_meta attr with
                | MetaNameValue v =>
                    match result with
                    | Some _ => inl DuplicateColname
                    | None =>
                        match v with
                        | LitStr s => parse_attrs attrs (Some (mkFieldAttr (Some s)))
                        | OtherExpr => inl InvalidValue
                        end
                    end
                | _ => if is_ident attr COLNAME then inl InvalidColname else parse_attrs attrs result
                end
          end
      | Inner => parse_attrs attrs result
      end
  end.
Definition attr_parse (attrs : list Attribute) : SynError + option FieldAttr := parse_attrs attrs None.

(** ** [table_value_param.rs] *)

Record FieldExt := mkFieldExt { fx_attr : option FieldAttr; fx_ident : str }.
Definition field_ext_new (field : Field) : SynError + FieldExt :=
  match f_ident field with
  | Some ident => match attr_parse (f_attrs field) with inr a => inr (mkFieldExt a ident) | inl e => inl e end
  | None => inl UnnamedField
  end.
Definition get_col_name (f : FieldExt) : str :=
  match fx_attr f with
  | Some a => match colname a with Some n => n | None => fx_ident f end
  | None => fx_ident f
  end.

(** [collect::<Result<Vec<_>>>]: up to the first error *)
Fixpoint collect_fields (fields : list Field) : SynError + list FieldExt :=
  match fields with
  | [] => inr []
  | f :: fields =>
      match field_ext_new f with
      | inl e => inl e
      | inr x => match collect_fields fields with inl e => inl e | inr xs => inr (x :: xs) end
      end
  end.

Definition lifetimes_of (ps : list GenericParam) : list str := omap (fun p => match p with Lifetime l => Some l | _ => None end) ps.

(** The generated block: the lifetime of the [impl], that of the struct, and
    one [data_row.add_field(self.<field>.clone())] per entry of the binds. *)
Record Impl := mkImpl { im_lifetime : str; im_struct_lifetime : option str; im_name : str; im_binds : list str }.

Definition table_value_param_impl (ast : DeriveInput) (fields : list Field) : SynError + Impl :=
  let lifetimes := lifetimes_of (ast_generics ast) in
  if 1 <? len lifetimes then inl (ManyLifetimes lifetimes)
  else
    let (lt_impl, lt_struct) := match lifetimes with [] => (ascii_str "query", None) | lt :: _ => (lt, Some lt) end in
    match collect_fields fields with
    | inl e => inl e
    | inr fields => inr (mkImpl lt_impl lt_struct (ast_ident ast) (map fx_ident fields))
    end.

Definition for_struct (ast : DeriveInput) (fields : Fields) : SynError + Impl :=
  match fields with Named fields => table_value_param_impl ast fields | _ => inl NamedOnly end.

(** [table_value_param] of [lib.rs] *)
Definition derive (ast : DeriveInput) : SynError + Impl :=
  match ast_data ast with
  | DataStruct s => for_struct ast s
  | DataEnum => inl NoEnum
  | DataUnion => inl NoUnion
  end.

(** ** Compiling the generated block *)

(** In [impl<..> TableValueRow<..> for #name #lt_struct] the struct is given the
    lifetime of [lt_struct] and nothing else: it needs no other argument if it
    has no more lifetimes and every type or const parameter has a default. *)
Definition needs_argument (p : GenericParam) : bool :=
  match p with Lifetime _ => false | TypeParam _ default | ConstParam _ default => negb default end.
Definition header_complete (ast : DeriveInput) (im : Impl) : bool :=
  bool_decide (lifetimes_of (ast_generics ast) = match im_struct_lifetime im with Some lt => [lt] | None => [] end) &&
  negb (existsb needs_argument (ast_generics ast)).

(** The struct with the derive on it: the block, if the macro gives one and it
    compiles. *)
Definition derived_impl (ast : DeriveInput) : option Impl :=
  match derive ast with inr im => if header_complete ast im then Some im else None | inl _ => None end.

(** ** What the generated block does: a struct gives each field its value *)

#[export] Instance derived (im : Impl) : TableValueRow (str -> Value) := {
  bind_fields self data_row := fold_left (fun row f => add_field (self f) row) (im_binds im) data_row;
  get_db_type := im_name im;
}.

(** ** Lemmas *)

(** The attributes that count: outer ones whose path ends in [colname], less
    the qualified ones that are not [name = value]. *)
Definition counted (a : Attribute) : bool :=
  match at_style a, last (at_segments a), at_meta a with
  | Outer, Some n, MetaNameValue _ => bool_decide (n = COLNAME)
  | Outer, Some n, _ => bool_decide (n = COLNAME) && is_ident a COLNAME
  | _, _, _ => false
  end.
(** A field's attributes are accepted: at most one counts, and it names a
    column by a string literal. *)
Definition attrs_ok (attrs : list Attribute) : bool :=
  match List.filter counted attrs with
  | [] => true
  | [a] => match at_meta a with MetaNameValue (LitStr _) => true | _ => false end
  | _ => false
  end.

Definition accepted {A} (r : SynError + A) : bool := match r with inr _ => true | inl _ => false end.

Lemma parse_attrs_some attrs : forall r, accepted (parse_attrs attrs (Some r)) = match List.filter counted attrs with [] => true | _ => false end.
Proof.
  induction attrs as [|a attrs IH]; intros r; [reflexivity|]. cbn [parse_attrs List.filter]. unfold counted at 1.
  destruct (at_style a); [|apply IH]. destruct (last (at_segments a)) as [n|]; [|destruct (at_meta a); apply IH].
  destruct (bool_decide (n = COLNAME)); cbn [negb andb]; [|destruct (at_meta a); apply IH].
  destruct (at_meta a); [| |reflexivity]; destruct (is_ident a COLNAME); try reflexivity; apply IH.
Qed.

Lemma parse_attrs_accepts attrs : accepted (attr_parse attrs) = attrs_ok attrs.
Proof.
  unfold attr_parse, attrs_ok. induction attrs as [|a attrs IH]; [reflexivity|]. cbn [parse_attrs List.filter].
  destruct (counted a) eqn:C; unfold counted in C.
  - destruct (at_style a); [|discriminate]. destruct (last (at_segments a)) as [n|]; [|destruct (at_meta a); discriminate].
    destruct (bool_decide (n = COLNAME)) eqn:B; [|destruct (at_meta a); discriminate]. cbn [negb andb] in *.
    destruct (at_meta a) as [| |[s|]] eqn:M; try (rewrite C); cbn [accepted];
      try rewrite parse_attrs_some; destruct (List.filter counted attrs); try reflexivity; rewrite M; reflexivity.
  - destruct (at_style a); [|exact IH]. destruct (last (at_segments a)) as [n|]; [|destruct (at_meta a); exact IH].
    destruct (bool_decide (n = COLNAME)) eqn:B; [|destruct (at_meta a); exact IH]. cbn [negb andb] in *.
    destruct (at_meta a); try discriminate; rewrite C; exact IH.
Qed.

Lemma collect_fields_idents fields : forall xs, collect_fields fields = inr xs -> map (Some ∘ fx_ident) xs = map f_ident fields.
Proof.
  induction fields as [|f fields IH]; intros xs H; cbn [collect_fields] in H; [injection H as <-; reflexivity|].
  unfold field_ext_new in H. destruct (f_ident f) as [i|] eqn:E; [|discriminate]. destruct (attr_parse (f_attrs f)) as [|a]; [discriminate|].
  destruct (collect_fields fields) as [|ys]; [discriminate|]. injection H as <-. cbn. rewrite E, <- (IH ys eq_refl). reflexivity.
Qed.

Definition field_ok (f : Field) : bool := bool_decide (is_Some (f_ident f)) && attrs_ok (f_attrs f).
Lemma collect_fields_accepts fields : accepted (collect_fields fields) = forallb field_ok fields.
Proof.
  induction fields as [|f fields IH]; [reflexivity|]. cbn [collect_fields forallb]. rewrite <- IH. unfold field_ok, field_ext_new.
  rewrite <- parse_attrs_accepts. destruct (f_ident f); [|reflexivity]. rewrite bool_decide_true by eauto.
  destruct (attr_parse (f_attrs f)); [reflexivity|]. cbn [accepted andb]. destruct (collect_fields fields); reflexivity.
Qed.

Lemma add_fields (self : str -> Value) (binds : list str) : forall row, fold_left (fun row f => add_field (self f) row) binds row = row ++ map (fun f => into_sql (self f)) binds.
Proof.
  induction binds as [|f binds IH]; intros row; cbn [fold_left map]; [rewrite app_nil_r; reflexivity|]. rewrite IH. unfold add_field.
  rewrite <- app_assoc. reflexivity.
Qed.

Lemma some_field_refused fields : forallb field_ok fields = false -> exists f, In f fields /\ field_ok f = false.
Proof.
  induction fields as [|g fields IH]; [discriminate|]. cbn [forallb]. destruct (field_ok g) eqn:E; [|exists g; split; [left; reflexivity|exact E]].
  intros A. destruct (IH A) as (h & Hh & Fh). exists h. split; [right|]; assumption.
Qed.

Lemma idents_bound fields : forall xs, map (Some ∘ fx_ident) xs = map f_ident fields -> map fx_ident xs = omap f_ident fields.
Proof.
  induction fields as [|f fields IH]; intros [|x xs] I; try discriminate; [reflexivity|]. injection I as E I. cbn. rewrite <- E. cbn. f_equal. apply IH, I.
Qed.

(** ** Theorems *)


Definition geo_field (name col : string) : Field :=
  mkField (Some (ascii_str name)) [mkAttribute Outer false [COLNAME] (MetaNameValue (LitStr (ascii_str col)))].

Example derive_geo :
  derive (mkDeriveInput (ascii_str "SomeGeoList") [] (DataStruct (Named [geo_field "id" "SomeID"; geo_field "lat" "LastSyncIPGeoLat"]))) =
  inr (mkImpl (ascii_str "query") None (ascii_str "SomeGeoList") [ascii_str "id"; ascii_str "lat"]).
Proof. reflexivity. Qed.

(** A struct with a type parameter passes the macro and fails to compile,
    unless the parameter has a default. *)
Example derive_generic :
  let ast default := mkDeriveInput (ascii_str "Row") [TypeParam (ascii_str "T") default] (DataStruct (Named [geo_field "id" "SomeID"])) in
  accepted (derive (ast false)) = true /\ derived_impl (ast false) = None /\ derived_impl (ast true) <> None.
Proof. split; [reflexivity|]. split; [reflexivity|discriminate]. Qed.
