(* ===== verification/Views.v ===== *)
(** * Views: constructors and accessors of the public values

    The one-line constructors and accessors of the types the other files
    model, by source file.  The records of those files are the structs, so an
    accessor is a projection; what a field holds is what the file of its type
    says. *)

From S2P Require Import Prelude Unicode Collation SqlRead SqlWrite Types TypeInfoCodec Context Metadata Rows Tokens Identifiers Config Builder Requests TokenStream Results Packet Client Convert.

(** ** [tds/time.rs] *)

Definition DateTime_new (days seconds_fragments : Z) : DateTime := mkDateTime days seconds_fragments.
Definition DateTime_days (d : DateTime) : Z := dt_days d.
Definition DateTime_seconds_fragments (d : DateTime) : Z := dt_seconds_fragments d.
Definition SmallDateTime_new (days seconds_fragments : Z) : SmallDateTime := mkSmallDateTime days seconds_fragments.
Definition SmallDateTime_days (d : SmallDateTime) : Z := sdt_days d.
Definition SmallDateTime_seconds_fragments (d : SmallDateTime) : Z := sdt_seconds_fragments d.
Definition Date_new_unchecked (days : Z) : Date := mkDate days.
Definition Date_days (d : Date) : Z := days d.
Definition Time_new (increments scale : Z) : Time := mkTime increments scale.
Definition Time_increments (t : Time) : Z := increments t.
Definition Time_scale (t : Time) : Z := time_scale t.
Definition DateTime2_new (date : Date) (time : Time) : DateTime2 := mkDateTime2 date time.
Definition DateTime2_date (d : DateTime2) : Date := dt2_date d.
Definition DateTime2_time (d : DateTime2) : Time := dt2_time d.
Definition DateTimeOffset_new (d : DateTime2) (offset : Z) : DateTimeOffset := mkDateTimeOffset d offset.
Definition DateTimeOffset_datetime2 (d : DateTimeOffset) : DateTime2 := datetime2 d.
Definition DateTimeOffset_offset (d : DateTimeOffset) : Z := offset d.

(** ** [tds/numeric.rs], [tds/xml.rs], [tds/collation.rs] *)

Definition Numeric_scale (n : Numeric) : Z := scale n.
Definition Numeric_value (n : Numeric) : Z := value n.

Definition XmlSchema_new (db_name owner collection : str) : XmlSchema := mkXmlSchema db_name owner collection.
Definition XmlSchema_db_name (s : XmlSchema) : str := xs_db_name s.
Definition XmlSchema_owner (s : XmlSchema) : str := xs_owner s.
Definition XmlSchema_collection (s : XmlSchema) : str := xs_collection s.
Definition XmlData_schema (x : XmlData) : option XmlSchema := xml_schema x.
Definition XmlData_display (x : XmlData) : str := xml_data x.
Definition XmlData_as_ref (x : XmlData) : str := xml_data x.

Definition Collation_new (info sort_id : Z) : Collation := mkCollation info sort_id.
Definition Collation_sort_id (c : Collation) : Z := sort_id c.
Definition Collation_info (c : Collation) : Z := info c.

(** ** [tds/context.rs] *)

Definition Context_last_meta (c : Context) : option TokenColMetaData := last_meta c.
Definition Context_packet_size (c : Context) : Z := packet_size c.
Definition Context_command_timeout (c : Context) : option Z := command_timeout c.
Definition Context_lossy_utf16 (c : Context) : bool := lossy_utf16 c.
Definition Context_lossy_codepage (c : Context) : bool := lossy_codepage c.
Definition Context_transaction_descriptor (c : Context) : bytes := transaction_desc c.
Definition Context_version (c : Context) : FeatureLevel := version c.
Definition Context_spn (c : Context) : str := default [] (spn c).

(** ** [tds/codec/type_info.rs] *)

Definition VarLenContext_new (t : VarLenType) (len : Z) (co : option Collation) : VarLenContext := mkVarLenContext t len co.
Definition VarLenContext_type (c : VarLenContext) : VarLenType := vlc_type c.
Definition VarLenContext_len (c : VarLenContext) : Z := vlc_len c.
Definition VarLenContext_is_empty (c : VarLenContext) : bool := vlc_len c =? 0.
Definition VarLenContext_collation (c : VarLenContext) : option Collation := vlc_collation c.

(** ** [column_data/bytes_mut_with_type_info.rs], [token_row/bytes_mut_with_data_columns.rs]

    A buffer together with what its writers need to know; reading, writing
    and borrowing go to the buffer. *)

Record BytesMutWithTypeInfo := mkBytesMutWithTypeInfo { bt_bytes : bytes; bt_type_info : option TypeInfo }.
Definition bytes_mut_new (b : bytes) : BytesMutWithTypeInfo := mkBytesMutWithTypeInfo b None.
Definition with_type_info (t : TypeInfo) (b : BytesMutWithTypeInfo) : BytesMutWithTypeInfo := mkBytesMutWithTypeInfo (bt_bytes b) (Some t).
Definition bytes_mut_type_info (b : BytesMutWithTypeInfo) : option TypeInfo := bt_type_info b.
Definition bytes_mut_deref (b : BytesMutWithTypeInfo) : bytes := bt_bytes b.
Record BytesMutWithDataColumns := mkBytesMutWithDataColumns { bd_bytes : bytes; bd_columns : list MetaDataColumn }.
Definition data_columns_new (b : bytes) (columns : list MetaDataColumn) : BytesMutWithDataColumns := mkBytesMutWithDataColumns b columns.
Definition data_columns (b : BytesMutWithDataColumns) : list MetaDataColumn := bd_columns b.
Definition data_columns_deref (b : BytesMutWithDataColumns) : bytes := bd_bytes b.

(** ** [tds/codec/packet.rs], [header.rs] *)

Definition Packet_new (h : PacketHeader) (payload : bytes) : Packet := mkPacket h payload.
Definition Packet_into_parts (p : Packet) : PacketHeader * bytes := (p_header p, p_payload p).
Definition Packet_extend (b : bytes) (p : Packet) : Packet := mkPacket (p_header p) (p_payload p ++ b).
Definition set_type (t : PacketType) (h : PacketHeader) : PacketHeader := mkPacketHeader t (h_status h) (h_length h) (h_spid h) (h_id h) (h_window h).
Definition PacketHeader_status (h : PacketHeader) : PacketStatus := h_status h.
Definition PacketHeader_type (h : PacketHeader) : PacketType := h_type h.
Definition PacketHeader_length (h : PacketHeader) : Z := h_length h.

(** ** [tds/codec/token/*.rs] *)

Definition AltRow_id (r : TokenAltRow) : Z := ar_id r.
Definition AltRow_len (r : TokenAltRow) : Z := len (ar_data r).
Definition AltRow_is_empty (r : TokenAltRow) : bool := match ar_data r with [] => true | _ => false end.
Definition AltRow_iter (r : TokenAltRow) : list ColumnData := ar_data r.
Definition AltRow_get (i : nat) (r : TokenAltRow) : option ColumnData := ar_data r !! i.
Definition MetaDataColumn_col_name (c : MetaDataColumn) : str := col_name c.
Definition MetaDataColumn_base (c : MetaDataColumn) : BaseMetaDataColumn := base c.
Definition BaseMetaDataColumn_ty (c : BaseMetaDataColumn) : TypeInfo := ty c.
Definition BaseMetaDataColumn_flags (c : BaseMetaDataColumn) : Z := flags c.
Definition TokenError_code (e : TokenError) : Z := te_code e.
Definition TokenError_state (e : TokenError) : Z := te_state e.
Definition TokenError_class (e : TokenError) : Z := te_class e.
Definition TokenError_message (e : TokenError) : str := te_message e.
Definition TokenError_server (e : TokenError) : str := te_server e.
Definition TokenError_procedure (e : TokenError) : str := te_procedure e.
Definition TokenError_line (e : TokenError) : Z := te_line e.
(** [TokenInfo] has the body of an ERROR token. *)
Record TokenInfo := mkTokenInfo { ti_number : Z; ti_state : Z; ti_class : Z; ti_message : str; ti_server : str; ti_procedure : str; ti_line : Z }.
Definition token_info_decode (ctx : Context) : M bytes TokenInfo :=
  body <- error_info_decode ctx ;;
  ret (mkTokenInfo (te_code body) (te_state body) (te_class body) (te_message body) (te_server body) (te_procedure body) (te_line body)).
(** [TokenSspi] is its bytes. *)
Definition TokenSspi_encode (t : bytes) : M bytes unit := put_slice t.

(** ** [transaction_manager.rs], [rpc_request.rs] *)

Definition tm_begin (desc : bytes) (l : IsolationLevel) (name : str) : TransactionManagerRequest := mkTransactionManagerRequest desc (BodyBegin l name).
Definition tm_commit (desc : bytes) (name : str) : TransactionManagerRequest := mkTransactionManagerRequest desc (BodyCommit name).
Definition tm_rollback (desc : bytes) (name : str) : TransactionManagerRequest := mkTransactionManagerRequest desc (BodyRollback name).
Definition tm_save (desc : bytes) (name : str) : TransactionManagerRequest := mkTransactionManagerRequest desc (BodySave name).
Definition proc_from_name (s : str) : RpcProcIdValue := ProcName s.
Definition proc_from_id (id : RpcProcId) : RpcProcIdValue := ProcId id.
(** [RpcOption] *)
Definition WithRecomp : Z := 2 ^ 0.
Definition NoMeta : Z := 2 ^ 1.
Definition ReuseMeta : Z := 2 ^ 2.

(** ** [row.rs], [result.rs], [stream/*.rs] *)

Definition Column_new (name : str) (t : ColumnType) : Column := mkColumn name t.
Definition Column_name (c : Column) : str := cl_name c.
Definition Column_column_type (c : Column) : ColumnType := cl_type c.
Definition Row_columns (r : Row) : list Column := row_columns r.
Definition Row_result_index (r : Row) : Z := row_result_index r.
Definition Row_into_iter (r : Row) : list ColumnData := row_data r.
Definition ResultMetadata_columns (m : ResultMetadata) : list Column := rm_columns m.
Definition ResultMetadata_result_index (m : ResultMetadata) : Z := rm_result_index m.
Definition QueryItem_metadata (columns : list Column) (i : Z) : QueryItem := QueryItem.Metadata (mkResultMetadata columns i).
Definition query_into_metadata (i : QueryItem) : option ResultMetadata := match i with QueryItem.Row _ => None | QueryItem.Metadata m => Some m end.
Definition query_into_row (i : QueryItem) : option Row := match i with QueryItem.Row r => Some r | QueryItem.Metadata _ => None end.
(** [CommandStream] has the state of a [QueryStream]. *)
Definition CommandStream_new (ts : tokens) : QueryStream := mkQueryStream ts None None.
Definition CommandItem_metadata (columns : list Column) (i : Z) : CommandItem := CommandItem.Metadata (mkResultMetadata columns i).
Definition command_into_metadata (i : CommandItem) : option ResultMetadata := match i with CommandItem.Metadata m => Some m | _ => None end.
Definition command_into_row (i : CommandItem) : option Row := match i with CommandItem.Row r => Some r | _ => None end.
Definition into_return_value (i : CommandItem) : option CommandReturnValue := match i with CommandItem.ReturnValue v => Some v | _ => None end.
Definition CommandReturnValue_name (v : CommandReturnValue) : str := crv_name v.
Definition CommandReturnValue_ordinal (v : CommandReturnValue) : Z := crv_ord v.
Definition CommandReturnValue_data (v : CommandReturnValue) : ColumnData := crv_data v.
Definition CommandResult_rows_affected (r : CommandResult) : list Z := rows_affected r.
Definition CommandResult_return_code (r : CommandResult) : Z := return_code r.

(** ** [command.rs], [client.rs], [client/*.rs] *)

Definition SqlTableData_rows (t : SqlTableData) : list SqlTableDataRow := td_rows t.
Definition SqlTableData_db_type (t : SqlTableData) : str := td_db_type t.
(** The guards by what they guard: the kind of name is in the message only. *)
Definition validate_db_type_identifier (oc : bool) (alnum : Z -> bool) (db_type : str) : Res unit := validate_sql_identifier oc alnum db_type.
Definition validate_bulk_table_identifier (oc : bool) (alnum : Z -> bool) (table : str) : Res unit := validate_sql_identifier oc alnum table.
Definition validate_bulk_column_identifier (oc : bool) (alnum : Z -> bool) (column : str) : Res unit := validate_sql_identifier oc alnum column.

(** [SqlServerAuth], [WindowsAuth]; a secret is its text, wiped when it is dropped. *)
Record SqlServerAuth := mkSqlServerAuth { sa_user : str; sa_password : str }.
Record WindowsAuth := mkWindowsAuth { wa_user : str; wa_password : str; wa_domain : option str }.
Definition into_credentials (a : SqlServerAuth) : str * str := (sa_user a, sa_password a).

Definition Config_from_builder (b : ConfigBuilder) : Config := inner b.
