(* ===== verification/Api.v ===== *)
(** * Api: what holds however a client is used

    The calls of the public interface over a dialogue whose answers are any
    bytes and whose writes complete, fail or are dropped at any await point;
    cancelling a request; a request that cannot be encoded. *)

From S2P Require Import Prelude Unicode Collation SqlRead SqlWrite Types TypeInfoCodec NumericCodec Temporal Money Context ColumnDecode ColumnEncode ColumnRoundtrip ParamRoundtrip Metadata Rows Identifiers Requests Tokens TokenStream Results Packet Connection Sources Reader Client BulkLoad Session.
From Stdlib Require Import Floats.SpecFloat.
#[local] Open Scope io_scope.

(** ** Calls *)

Section Calls.
Context {ER : EncodingRs} (oc : bool) (powi10 : Z -> spec_float) (alnum : Z -> bool) (to_lowercase : str -> str).

(** The rows of a bulk request, one [BulkLoadRequest::send] after the other;
    the caller keeps the request whatever became of a row. *)
Fixpoint bulk_insert_rows (rows : list TokenRow) (r : BulkLoadRequest) : Io BulkLoadRequest := fun w =>
  match rows with
  | [] => (Finished (Ok r), w)
  | row :: rows =>
      let '(_, script, r) := bulk_send oc powi10 row (w_script w) (bl_set_connection (w_conn w) r) in
      bulk_insert_rows rows r (mkWorld script (bl_connection r) (w_answers w))
  end.

(** A call, how much of its result stream the caller takes, and the rows of
    a bulk request and whether it is finalized or dropped. *)
Inductive Call :=
| CallQuery (query : str) (params : list ColumnData) (k : nat)
| CallSimpleQuery (query : str) (k : nat)
| CallExecute (query : str) (params : list ColumnData)
| CallTransaction (body : TransactionRequestBody)
| CallCommand (name : str) (params : list CommandParam) (k : nat)
| CallColumnMetadata (table : str) (columns : list str)
| CallBulkInsert (table : str) (columns : list str) (options : Z) (order_hints : list (str * SortOrder)) (rows : list TokenRow) (finalize : bool)
| CallCancel.

Definition run_call (call : Call) : Io unit :=
  match call with
  | CallQuery q ps k => os <~ client_query oc powi10 q ps ;; stream_pull os k ;;; io_res (Ok tt)
  | CallSimpleQuery q k => os <~ client_simple_query oc q ;; stream_pull os k ;;; io_res (Ok tt)
  | CallExecute q ps => client_execute oc powi10 q ps ;;; io_res (Ok tt)
  | CallTransaction body => send_transaction_manager_request oc body
  | CallCommand name ps k =>
      command_exec oc powi10 alnum name ps ;;; io_tokens (fun _ t => let (ts, t) := pull stream_next k t in (Ok ts, t)) ;;; io_res (Ok tt)
  | CallColumnMetadata table columns => column_metadata oc alnum table columns ;;; io_res (Ok tt)
  | CallBulkInsert table columns options hints rows finalize =>
      r <~ bulk_insert_with_options oc alnum to_lowercase table columns options hints ;;
      r <~ bulk_insert_rows rows r ;;
      if finalize then bulk_insert_finalize oc r ;;; io_res (Ok tt) else io_res (Ok tt)
  | CallCancel => cancel_query oc
  end.

(** A bulk request that was given rows is finalized. *)
Definition completed (call : Call) : Prop :=
  match call with CallBulkInsert _ _ _ _ rows finalize => rows = [] \/ finalize = true | _ => True end.

(** Calls one after the other, each with what becomes of its writes. *)
Fixpoint run_calls (calls : list (Call * list Await)) (w : World) : World :=
  match calls with
  | [] => w
  | (call, script) :: calls => run_calls calls (snd (run_call call (mkWorld script (w_conn w) (w_answers w))))
  end.
End Calls.

(** ** Lemmas: bytes stay bytes *)

(** A decoder that only takes bytes off the front. *)
Definition drops {A} (m : M bytes A) : Prop := forall s, suffix (snd (m s)) s.

Lemma drops_bind {A B} (m : M bytes A) (k : A -> M bytes B) : drops m -> (forall a, drops (k a)) -> drops (bind m k).
Proof.
  intros Hm Hk s. specialize (Hm s). unfold bind. destruct (m s) as [[a|e| |] s1]; try exact Hm.
  etransitivity; [apply Hk|exact Hm].
Qed.
Lemma drops_lift {A} (r : Res A) : drops (lift r).
Proof. intros s. reflexivity. Qed.
Lemma drops_get_be n : drops (get_be n).
Proof. intros s. unfold get_be. destruct (n <=? length s)%nat; [apply read_n_suffix|reflexivity]. Qed.
Lemma drops_split_to n : drops (split_to n).
Proof. intros s. unfold split_to. destruct (n <=? length s)%nat; [apply read_n_suffix|reflexivity]. Qed.

Lemma codec_decode_drops : drops codec_decode_eof.
Proof.
  assert (H : drops codec_decode_packet).
  { intros s. unfold codec_decode_packet. destruct (_ <? _); [reflexivity|]. destruct (_ <? _); [reflexivity|].
    destruct (_ <? _); [reflexivity|]. eapply (drops_bind header_decode); [|intros h; apply drops_bind; [apply drops_split_to|intros p; apply (drops_lift (Ok _))]].
    unfold header_decode. repeat (apply drops_bind; [apply drops_get_be || apply drops_lift|intros ?]). apply (drops_lift (Ok _)). }
  intros s. specialize (H s). unfold codec_decode_eof. destruct (codec_decode_packet s) as [[[p|]|e| |] r]; try exact H.
  destruct (len r =? 0); exact H.
Qed.

Lemma codec_packet_wf b p rest : wf_bytes b -> codec_decode_eof b = (Ok (Some p), rest) -> wf_bytes (p_payload p).
Proof.
  intros W. unfold codec_decode_eof. pose proof (codec_decode_cases b) as C. cbn zeta in C.
  destruct (codec_decode_packet b) as [[[q|]|e| |] r]; try discriminate; [|destruct (len r =? 0); discriminate].
  intros [= -> _]. destruct C as (_ & -> & _). apply Forall_take, Forall_drop, W.
Qed.

Definition bytes_in (c : Connection) : Prop := wf_bytes (c_buf c) /\ wf_bytes (c_in c).

Lemma next_packet_bytes c r c' : next_packet c = (r, c') -> bytes_in c ->
  bytes_in c' /\ forall p, r = Ok (Some p) -> wf_bytes (p_payload p).
Proof.
  intros E [Wb Wi]. unfold next_packet in E. pose proof (codec_decode_drops (c_in c)) as S.
  destruct (codec_decode_eof (c_in c)) as [x rest] eqn:D. cbn [snd] in S. apply (suffix_wf _ _ S) in Wi as Wr.
  destruct x as [[p|]|e| |]; injection E as <- <-; (split; [split; assumption|]); intros q [= <-]. exact (codec_packet_wf _ _ _ Wi D).
Qed.

Lemma fill_bytes fuel : forall n c r c', fill fuel n c = (r, c') -> bytes_in c -> bytes_in c'.
Proof.
  induction fuel as [|fuel IH]; intros n c r c' E W; cbn [fill] in E; [injection E as _ <-; exact W|].
  destruct (next_packet c) as [x c1] eqn:N. destruct (next_packet_bytes c x c1 N W) as [W1 P].
  destruct x as [[p|]|e| |]; try (injection E as _ <-; exact W1).
  assert (W2 : bytes_in (set_buf (c_buf c1 ++ p_payload p) c1)).
  { split; [|apply W1]. apply Forall_app. split; [apply W1|apply P, eq_refl]. }
  destruct (n <=? _)%nat; [injection E as _ <-; exact W2|]. exact (IH _ _ _ _ E W2).
Qed.

Lemma poll_read_bytes n c r c' : poll_read n c = (r, c') -> bytes_in c -> bytes_in c'.
Proof.
  intros E W. rewrite poll_read_top_up in E.
  destruct (top_up n c) as [x c1] eqn:T.
  assert (W1 : bytes_in c1).
  { unfold top_up in T. destruct (_ <? n)%nat; [exact (fill_bytes _ _ _ _ _ T W)|injection T as _ <-; exact W]. }
  destruct x; try (injection E as _ <-; exact W1). destruct (_ <? n)%nat; injection E as _ <-; [exact W1|].
  split; [apply Forall_drop|]; apply W1.
Qed.

Lemma drain_bytes fuel : forall c r c', drain fuel c = (r, c') -> bytes_in c -> bytes_in c'.
Proof.
  induction fuel as [|fuel IH]; intros c r c' E W; cbn [drain] in E; [injection E as _ <-; exact W|].
  destruct (next_packet c) as [x c1] eqn:N. destruct (next_packet_bytes c x c1 N W) as [W1 _].
  destruct x as [[p|]|e| |]; try (injection E as _ <-; exact W1).
  destruct (is_last p); [injection E as _ <-; exact W1|]. exact (IH _ _ _ E W1).
Qed.

Lemma flush_stream_bytes c r c' : flush_stream c = (r, c') -> bytes_in c -> bytes_in c'.
Proof.
  intros E W. unfold flush_stream in E. rewrite bind_run in E.
  destruct (ensure_cases c) as [(X & _)|(m & X)]; rewrite X in E; [|injection E as _ <-; exact W].
  assert (W1 : bytes_in (set_buf [] c)) by (split; [constructor|apply W]).
  destruct (c_flushed _); [injection E as _ <-; exact W1|exact (drain_bytes _ _ _ _ E W1)].
Qed.

Lemma packets_in_bytes fuel : forall b, wf_bytes b -> wf_bytes (concat (map p_payload (packets_in fuel b))).
Proof.
  induction fuel as [|fuel IH]; intros b W; [constructor|]. cbn [packets_in].
  pose proof (codec_decode_drops b) as S. destruct (codec_decode_eof b) as [[[p|]|e| |] rest] eqn:D; try constructor.
  cbn [map concat]. apply Forall_app. split; [exact (codec_packet_wf _ _ _ W D)|]. apply IH. exact (suffix_wf _ _ S W).
Qed.

Lemma available_bytes c : bytes_in c -> wf_bytes (available c).
Proof. intros [Wb Wi]. apply Forall_app. split; [exact Wb|apply packets_in_bytes, Wi]. Qed.

(** *** What a connection can deliver, it delivers

    On any inbound bytes, packets or not: a read gives the next bytes of
    [available], or fails when there are not so many. *)

Lemma decode_eof_shrinks b p rest : codec_decode_eof b = (Ok (Some p), rest) -> (length rest < length b)%nat.
Proof.
  unfold codec_decode_eof. pose proof (codec_decode_cases b) as C. cbn zeta in C.
  destruct (codec_decode_packet b) as [[[q|]|e| |] r]; try discriminate; [|destruct (len r =? 0); discriminate].
  destruct C as (B & _ & ->). intros [= _ <-]. rewrite length_drop. unfold HEADER_BYTES in B. lia.
Qed.

Lemma packets_in_fuel f : forall g b, (length b <= f)%nat -> (length b <= g)%nat -> packets_in f b = packets_in g b.
Proof.
  induction f as [|f IH]; intros g b Hf Hg.
  - destruct b; [|cbn in Hf; lia]. destruct g; reflexivity.
  - destruct g as [|g]; [destruct b; [reflexivity|cbn in Hg; lia]|]. cbn [packets_in].
    destruct (codec_decode_eof b) as [[[p|]|e| |] rest] eqn:E; try reflexivity. apply decode_eof_shrinks in E. f_equal. apply IH; lia.
Qed.

Lemma available_packet c p rest : codec_decode_eof (c_in c) = (Ok (Some p), rest) ->
  available c = available (set_buf (c_buf c ++ p_payload p) (set_flushed (is_last p) (set_in rest c))).
Proof.
  intros E. unfold available. cbn [c_buf c_in set_buf set_flushed set_in]. rewrite <- app_assoc. f_equal. apply decode_eof_shrinks in E as L.
  destruct (length (c_in c)) as [|n] eqn:Ln; [lia|]. cbn [packets_in]. rewrite E. cbn [map concat].
  rewrite (packets_in_fuel n (length rest) rest) by lia. reflexivity.
Qed.
Lemma available_end c : (forall p rest, codec_decode_eof (c_in c) <> (Ok (Some p), rest)) -> available c = c_buf c.
Proof.
  intros N. unfold available. destruct (length (c_in c)); cbn [packets_in]; [apply app_nil_r|].
  destruct (codec_decode_eof (c_in c)) as [[[p|]|e| |] rest] eqn:E; [destruct (N p rest eq_refl)|cbn; apply app_nil_r..].
Qed.

Lemma fill_available n f : forall c, (length (c_in c) < f)%nat -> (length (c_buf c) < n)%nat ->
  (exists c', fill f n c = (Ok tt, c') /\ available c' = available c /\ (n <= length (c_buf c'))%nat) \/
  ((length (available c) < n)%nat /\ (failed (fst (fill f n c)) \/ exists c', fill f n c = (Ok tt, c') /\ (length (c_buf c') < n)%nat)).
Proof.
  induction f as [|f IH]; intros c Hf Hn; [lia|]. cbn [fill]. unfold next_packet.
  destruct (codec_decode_eof (c_in c)) as [[[p|]|e| |] rest] eqn:E;
    [|right; rewrite available_end by (rewrite E; discriminate); split; [exact Hn|];
      first [right; eexists; split; [reflexivity|exact Hn]|left; discriminate]..].
  rewrite (available_packet c p rest E). cbn zeta. set (c1 := set_buf _ _) in *. destruct (Nat.leb_spec n (length (c_buf c1))).
  - left. exists c1. auto.
  - apply decode_eof_shrinks in E. apply (IH c1); [cbn; lia|lia].
Qed.

Lemma poll_read_available n c :
  match read_n n (available c) with
  | (Ok x, b) => exists c', poll_read n c = (Ok x, c') /\ available c' = b
  | _ => failed (fst (poll_read n c))
  end.
Proof.
  assert (Out : forall c1, available c1 = available c -> (n <= length (c_buf c1))%nat ->
    match read_n n (available c) with
    | (Ok x, b) => exists c', (Ok (take n (c_buf c1)), set_buf (drop n (c_buf c1)) c1) = (Ok x, c') /\ available c' = b
    | _ => failed (Ok (take n (c_buf c1)))
    end).
  { intros c1 <- L. rewrite read_n_bytes. unfold available at 1 2 3. rewrite length_app, (proj2 (Nat.leb_le _ _)) by lia.
    rewrite take_app_le, drop_app_le by lia. eexists. split; reflexivity. }
  rewrite poll_read_top_up. unfold top_up. destruct (Nat.ltb_spec (length (c_buf c)) n) as [L|L].
  - destruct (fill_available n (S (length (c_in c))) c ltac:(lia) L) as [(c1 & E & A & L1)|(A & F)].
    + rewrite E, (proj2 (Nat.ltb_ge _ _)) by exact L1. exact (Out c1 A L1).
    + rewrite read_n_bytes, (proj2 (Nat.leb_gt _ _)) by exact A. destruct F as [F|(c1 & E & L1)].
      * destruct (fill _ n c) as [[[]|e| |] c1]; [destruct (F tt eq_refl)|intros ? X; discriminate X..].
      * rewrite E, (proj2 (Nat.ltb_lt _ _)) by exact L1. intros ? X. discriminate X.
  - rewrite (proj2 (Nat.ltb_ge _ _)) by exact L. exact (Out c eq_refl L).
Qed.

(** ** The invariant *)

Definition conn_ok (c : Connection) : Prop := wf_context (c_ctx c) /\ wire_inv c /\ bytes_in c.
Definition world_ok (w : World) : Prop := conn_ok (w_conn w) /\ Forall wf_bytes (w_answers w).

(** A use of the connection that keeps the inbound bytes keeps the rest. *)
Lemma conn_ok_step oc c c' : conn_step oc c c' -> bytes_in c' -> conn_ok c -> conn_ok c'.
Proof. intros H B (W & I & _). destruct (conn_step_inv oc c c' H (conj W I)). split; [|split]; assumption. Qed.

Lemma conn_ok_flush c : conn_ok c -> conn_ok (snd (flush_stream c)).
Proof.
  intros H. destruct (flush_stream c) as [r c'] eqn:E. apply (conn_ok_step true c c' (step_flush true r c c' E)); [|exact H].
  exact (flush_stream_bytes _ _ _ E (proj2 (proj2 H))).
Qed.
Lemma conn_ok_context ctx c : wf_context ctx -> conn_ok c -> conn_ok (set_ctx ctx c).
Proof. intros W H. apply (conn_ok_step true c _ (step_context true ctx c W)); [apply H|exact H]. Qed.

(** *** Reading keeps it *)

Definition reader_ok (t : Reader) : Prop :=
  conn_ok (rd_conn t) /\ match rd_error t with None => True | Some (Server _) => True | Some _ => False end.
Definition reads {A} (m : M Reader A) : Prop := forall t, reader_ok t -> reader_ok (snd (m t)).

Lemma reads_ret {A} (a : A) : reads (ret a).
Proof. intros t H. exact H. Qed.
Lemma reads_fail {A} e : reads (A := A) (fail e).
Proof. intros t H. exact H. Qed.
Lemma reads_out_of_fuel {A} : reads (A := A) out_of_fuel.
Proof. intros t H. exact H. Qed.
Lemma reads_bind {A B} (m : M Reader A) (k : A -> M Reader B) : reads m -> (forall a, reads (k a)) -> reads (bind m k).
Proof. intros Hm Hk t H. specialize (Hm t H). unfold bind. destruct (m t) as [[a|e| |] t1]; try exact Hm. apply Hk, Hm. Qed.

(** A round on the connection and the round on what it can deliver: the same
    as long as the reads succeed; the connection stays well when one fails. *)
Definition well_apart (ctx : Context) (c : Connection) : Prop := c_ctx c = ctx /\ wire_inv c /\ bytes_in c.
Definition offers (ctx : Context) (b : bytes) (c : Connection) : Prop := available c = b /\ well_apart ctx c.
Definition same_session (s : Stream) (t : Reader) : Prop := well_apart (st_ctx s) (rd_conn t) /\ rd_error t = last_error s.
Definition offered (s : Stream) (t : Reader) : Prop := available (rd_conn t) = st_buf s /\ same_session s t.

Lemma offers_read ctx n : alike (offers ctx) (fun _ => well_apart ctx) (read_n n) (read_n n).
Proof.
  intros b c (<- & C & I & B). cbn [read_n connection_source]. change (read_n n) with (take_n n). pose proof (poll_read_available n c) as P.
  change (read_n n (available c)) with (take_n n (available c)) in P.
  assert (K : well_apart ctx (snd (poll_read n c))).
  { destruct (poll_read n c) as [r c'] eqn:E. pose proof (poll_read_keeps _ _ _ _ E) as K. cbn [snd]. split; [destruct K as (_ & -> & _); exact C|].
    split; [exact (wire_inv_keeps _ _ K I)|exact (poll_read_bytes _ _ _ _ E B)]. }
  destruct (take_n n (available c)) as [[x|e| |] b'] eqn:E; [|right; cbn [fst snd]; (split; [intros ? X; discriminate X|split; [exact P|exact K]])..].
  left. destruct P as (c' & E' & A). rewrite E' in *. split; [reflexivity|]. split; [exact A|exact K].
Qed.

Section Rounds.
Context {ER : EncodingRs}.

Lemma offered_conn A (c : Decoder A) : parametric c -> alike offered same_session (on_conn c) (on_conn c).
Proof.
  intros P s t (Sb & (C & W) & E). cbn [on_conn bytes_stream connection_stream]. rewrite C.
  destruct (P bytes Connection _ _ (offers (st_ctx s)) (fun _ => well_apart (st_ctx s)) (offers_read (st_ctx s))
    (fun b c H => eq_sym (f_equal length (proj1 H))) (st_ctx s) _ _ (conj Sb (conj C W))) as [[Er (Sb' & W')]|(F1 & F2 & W')];
    destruct (c bytes _ _ _) as [r b], (c Connection _ _ _) as [r' conn]; cbn [fst snd] in *.
  - left. subst r'. split; [reflexivity|]. split; [exact Sb'|]. split; [exact W'|exact E].
  - right. split; [exact F1|]. split; [exact F2|]. split; [exact W'|exact E].
Qed.
Lemma offered_context s t : offered s t -> conn_context s = conn_context t.
Proof. intros (_ & (C & _) & _). symmetry. exact C. Qed.
Lemma offered_update f : alike offered same_session (update_ctx f) (update_ctx f).
Proof.
  intros s t (Sb & (C & I & B) & E). left. split; [reflexivity|]. split; [exact Sb|]. split; [|exact E]. split; [cbn; rewrite C; reflexivity|].
  split; [apply (wire_inv_same (rd_conn t)); auto|exact B].
Qed.
Lemma offered_remember e : alike offered same_session (remember_error e) (remember_error e).
Proof. intros s t (Sb & W & E). left. split; [reflexivity|]. split; [exact Sb|]. split; [exact W|]. cbn. rewrite E. reflexivity. Qed.

Lemma reads_next : reads stream_next.
Proof.
  intros t H. unfold stream_next. destruct (is_eof _); [destruct (rd_error t); exact H|]. destruct H as [(Wc & I & B) E].
  set (s := mkStream (available (rd_conn t)) (c_ctx (rd_conn t)) (rd_error t)).
  assert (Ws : wf_stream s) by (split; [apply available_bytes, B|split; [exact Wc|exact E]]).
  destruct (st_safe_read_token s Ws) as (r & s' & Es & _ & (_ & Wc' & We') & _).
  assert (K : same_session s' (snd (read_token t))).
  { destruct (alike_read_token offered same_session offered_conn offered_context offered_update offered_remember s t
      (conj eq_refl (conj (conj eq_refl (conj I B)) eq_refl))) as [[_ [_ K]]|(_ & _ & K)]; rewrite Es in K; exact K. }
  destruct K as ((C & I' & B') & L). split; [|rewrite L; exact We']. split; [rewrite C; exact Wc'|auto].
Qed.

Lemma reads_pull k : forall t, reader_ok t -> reader_ok (snd (pull stream_next k t)).
Proof.
  induction k as [|k IH]; intros t H; [exact H|]. cbn [pull]. pose proof (reads_next t H) as N.
  destruct (stream_next t) as [[[x|]|e| |] t1]; try exact N. specialize (IH t1 N). destruct (pull stream_next k t1). exact IH.
Qed.
Lemma reads_forward fuel : reads (forward stream_next fuel).
Proof.
  induction fuel as [|fuel IH]; cbn [forward]; [apply reads_out_of_fuel|]. apply reads_bind; [exact reads_next|].
  intros [[]|]; auto using reads_ret.
Qed.
Lemma reads_flush_done fuel : forall err routing, reads (flush_done stream_next fuel err routing).
Proof.
  induction fuel as [|fuel IH]; intros err routing; cbn [flush_done]; [apply reads_out_of_fuel|]. apply reads_bind; [exact reads_next|].
  intros [[]|]; auto using reads_fail; [destruct err, routing as [[h p]|]; auto using reads_fail, reads_ret|destruct e; auto].
Qed.
Lemma reads_flush_attention fuel : reads (flush_done_attention stream_next fuel).
Proof.
  induction fuel as [|fuel IH]; cbn [flush_done_attention]; [apply reads_out_of_fuel|]. apply reads_bind; [exact reads_next|].
  intros [[]|]; auto using reads_fail; destruct (done_is_attention d); auto using reads_ret.
Qed.
End Rounds.

(** *** The operations keep it *)

(** From a world that is well to one that is, with a result in [Q]. *)
Definition keeps {A} (m : Io A) (Q : A -> Prop) : Prop :=
  forall w, world_ok w -> world_ok (snd (m w)) /\ forall a, fst (m w) = Finished (Ok a) -> Q a.
Abbreviation keeps' m := (keeps m (fun _ => True)).

Lemma keeps_bind {A B} (m : Io A) (k : A -> Io B) Q R : keeps m Q -> (forall a, Q a -> keeps (k a) R) -> keeps (io_bind m k) R.
Proof.
  intros Hm Hk w H. destruct (Hm w H) as [H1 H2]. unfold io_bind. destruct (m w) as [[[a|e| |]|] w1]; try (split; [exact H1|discriminate]).
  apply (Hk a (H2 a eq_refl) w1 H1).
Qed.
Lemma keeps_res {A} (r : Res A) (Q : A -> Prop) : (forall a, r = Ok a -> Q a) -> keeps (io_res r) Q.
Proof. intros H w W. split; [exact W|]. intros a [= ->]. auto. Qed.
Lemma keeps_true {A} (r : Res A) : keeps' (io_res r).
Proof. apply keeps_res. auto. Qed.

Lemma deliver_ok w : world_ok w -> world_ok (deliver w).
Proof.
  intros [(W & I & B1 & B2) F]. unfold deliver. destruct w as [script c answers]. cbn in *. destruct answers as [|a rest]; [exact (conj (conj W (conj I (conj B1 B2))) F)|].
  inversion_clear F as [|? ? Fa Fr]. split; [|exact Fr]. split; [exact W|]. split; [|split; [exact B1|apply Forall_app; split; assumption]].
  apply (wire_inv_same c); auto.
Qed.

Lemma exchange_ok op w : Forall wf_bytes (w_answers w) -> conn_ok (snd (op (w_script w) (w_conn w))) -> world_ok (snd (exchange op w)).
Proof.
  intros F H. unfold exchange. destruct (op (w_script w) (w_conn w)) as [[o script] c]. cbn [snd] in H.
  destruct o as [[u|e| |]|]; [apply deliver_ok|..]; (split; [exact H|exact F]).
Qed.
Lemma keeps_exchange op : (forall script c, conn_ok c -> conn_ok (snd (op script c))) -> keeps' (exchange op).
Proof. intros H w [C F]. split; [|auto]. apply exchange_ok; auto. Qed.

Lemma keeps_tokens {A} (m : nat -> Reader -> Res A * Reader) (Q : A -> Prop) :
  (forall n t, reader_ok t -> reader_ok (snd (m n t)) /\ forall a, fst (m n t) = Ok a -> Q a) -> keeps (io_tokens m) Q.
Proof.
  intros H w [C F]. unfold io_tokens. specialize (H (S (length (available (w_conn w)))) (reader_new (w_conn w)) (conj C I)).
  destruct (m _ _) as [r t]. destruct H as [[H _] HQ]. split; [split; [exact H|exact F]|]. intros a [= ->]. auto.
Qed.
Lemma keeps_reads {A} (m : nat -> M Reader A) : (forall n, reads (m n)) -> keeps' (io_tokens m).
Proof. intros H. apply keeps_tokens. intros n t Ht. split; [apply H, Ht|auto]. Qed.

Lemma post_ok oc h item script c : conn_ok c -> conn_ok (snd (post oc h item script c)).
Proof.
  intros H. unfold post. destruct (next_packet_id (c_ctx c)) as [id ctx] eqn:N.
  assert (H1 : conn_ok (set_ctx ctx c)).
  { apply conn_ok_context; [|exact H]. change ctx with (snd (id, ctx)). rewrite <- N. apply wf_next_packet_id, H. }
  destruct (send _ _ _ _ _) as [[o s'] c'] eqn:E. apply (conn_ok_step oc _ c' (step_send oc _ _ _ _ _ _ _ E)); [|exact H1].
  apply send_in in E as [Ei Eb]. unfold bytes_in. rewrite Ei, Eb. apply H1.
Qed.
Lemma request_ok oc h item script c : conn_ok c -> conn_ok (snd (request oc h item script c)).
Proof.
  intros H. unfold request. apply conn_ok_flush in H. destruct (flush_stream c) as [[u|e| |] c1]; try exact H. apply post_ok, H.
Qed.
Lemma attention_ok oc script c : conn_ok c -> conn_ok (snd (send_attention oc script c)).
Proof.
  intros H. destruct (send_attention oc script c) as [[o s'] c'] eqn:E.
  apply (conn_ok_step oc _ c' (step_attention oc _ _ _ _ _ E)); [|exact H]. apply send_attention_in in E as [Ei Eb]. unfold bytes_in. rewrite Ei, Eb. apply H.
Qed.

(** One after the other. *)
Lemma continues {A B} (m : Io A) (k : A -> Io B) w : world_ok (snd (m w)) -> (forall a, keeps' (k a)) -> world_ok (snd (io_bind m k w)).
Proof. intros H Hk. unfold io_bind. destruct (m w) as [[[a|e| |]|] w1]; try exact H. apply (Hk a w1 H). Qed.
Lemma keeps_seq {A B} (m : Io A) (k : A -> Io B) R : keeps' m -> (forall a, keeps (k a) R) -> keeps (io_bind m k) R.
Proof. intros Hm Hk. apply (keeps_bind m k (fun _ => True)); auto. Qed.

Section Operations.
Context {ER : EncodingRs} (oc : bool) (powi10 : Z -> spec_float) (alnum : Z -> bool) (to_lowercase : str -> str).

Lemma keeps_pull k : keeps' (io_tokens (fun _ t => let (ts, t) := pull stream_next k t in (Ok ts, t))).
Proof.
  apply keeps_tokens. intros _ t H. split; [|auto]. apply (reads_pull k) in H. destruct (pull stream_next k t). exact H.
Qed.
Lemma keeps_all_tokens : keeps' all_tokens.
Proof.
  apply keeps_tokens. intros n t H. split; [|auto]. apply (reads_pull n) in H. destruct (pull stream_next n t). exact H.
Qed.
Lemma keeps_wait_done : keeps' wait_done.
Proof. apply keeps_reads. intros n. apply reads_flush_done. Qed.

Lemma keeps_transaction body : keeps' (send_transaction_manager_request oc body).
Proof.
  apply keeps_seq; [apply keeps_exchange; intros; apply request_ok; assumption|intros _]. apply keeps_seq; [apply keeps_wait_done|intros _; apply keeps_true].
Qed.

(** A stream remembers only errors of the server. *)
Definition stream_ok (os : OpenStream) : Prop := match os_error os with None => True | Some (Server _) => True | Some _ => False end.

Lemma keeps_open_query : keeps open_query stream_ok.
Proof.
  apply keeps_tokens. intros n t H. pose proof (reads_forward n t H) as [H1 H2]. destruct (forward stream_next n t) as [r t1].
  split; [split; assumption|]. intros a E. destruct r as [p|e| |]; try discriminate. injection E as <-. exact H2.
Qed.
Lemma keeps_stream_pull os k : stream_ok os -> keeps' (stream_pull os k).
Proof.
  intros H w [C F]. split; [|auto]. unfold stream_pull. destruct (os_peeked os) as [p|]; [|split; assumption].
  pose proof (reads_pull k (mkReader (w_conn w) (os_error os)) (conj C H)) as R. destruct (pull stream_next k _) as [ts t].
  split; [apply R|exact F].
Qed.
Lemma keeps_opened (op : list Await -> Connection -> Outcome unit * list Await * Connection) k :
  (forall script c, conn_ok c -> conn_ok (snd (op script c))) ->
  keeps' (os <~ (exchange op ;;; open_query) ;; stream_pull os k ;;; io_res (Ok tt)).
Proof.
  intros H. apply (keeps_bind _ _ stream_ok).
  - apply keeps_seq; [apply keeps_exchange, H|intros _; apply keeps_open_query].
  - intros os Ho. apply keeps_seq; [apply keeps_stream_pull, Ho|intros _; apply keeps_true].
Qed.

Lemma keeps_asked {A} (op : list Await -> Connection -> Outcome unit * list Await * Connection) (f : tokens -> Res A) :
  (forall script c, conn_ok c -> conn_ok (snd (op script c))) ->
  keeps' (exchange op ;;; ts <~ all_tokens ;; io_res (f ts)).
Proof.
  intros H. apply keeps_seq; [apply keeps_exchange, H|intros _]. apply keeps_seq; [apply keeps_all_tokens|intros ts; apply keeps_true].
Qed.

Lemma keeps_fetch table columns collations : keeps' (fetch_column_metadata oc table columns collations).
Proof. apply keeps_asked. intros. apply request_ok. assumption. Qed.

Lemma keeps_conn_flush : keeps' (io_conn flush_stream).
Proof.
  intros w [C F]. split; [|auto]. unfold io_conn. apply conn_ok_flush in C. destruct (flush_stream (w_conn w)). split; [exact C|exact F].
Qed.
Lemma keeps_bulk_new columns : keeps' (io_conn (bulk_new columns)).
Proof.
  intros w [C F]. split; [|auto]. unfold io_conn, bulk_new. destruct (next_packet_id (c_ctx (w_conn w))) as [id ctx] eqn:N.
  assert (C1 : conn_ok (set_ctx ctx (w_conn w))).
  { apply conn_ok_context; [|exact C]. change ctx with (snd (id, ctx)). rewrite <- N. apply wf_next_packet_id, C. }
  destruct (col_metadata_encode _ []) as [[u|e| |] b]; (split; [exact C1|exact F]).
Qed.

Lemma keeps_bulk table columns options hints : keeps' (bulk_insert_with_options oc alnum to_lowercase table columns options hints).
Proof.
  apply keeps_seq; [apply keeps_true|intros _]. apply keeps_seq; [apply keeps_fetch|intros r]. apply keeps_seq; [apply keeps_conn_flush|intros _].
  apply keeps_seq; [apply keeps_true|intros sql]. apply keeps_seq; [apply keeps_exchange; intros; apply post_ok; assumption|intros _].
  apply keeps_seq; [apply keeps_wait_done|intros _; apply keeps_bulk_new].
Qed.

(** *** A bulk load between its opening and its end

    Between two sends the connection is clean although its message is not
    complete: the whole load keeps the invariant, not each of its steps. *)
Definition in_load (c0 : Connection) (id : Z) (c : Connection) (r : BulkLoadRequest) : Prop :=
  same_inbound c0 c /\ exists cols payload,
    loading (c_out c0) (c_ctx c0) id cols payload (bl_set_connection c r) \/ broken (c_out c0) (c_ctx c0) id payload (bl_set_connection c r).

Lemma bulk_rows_load c0 id rows : wf_context (c_ctx c0) -> forall w r, in_load c0 id (w_conn w) r ->
  exists r' w', bulk_insert_rows oc powi10 rows r w = (Finished (Ok r'), w') /\ w_answers w' = w_answers w /\ in_load c0 id (w_conn w') r'.
Proof.
  intros W. induction rows as [|row rows IH]; intros w r H; cbn [bulk_insert_rows]; [exists r, w; auto|].
  destruct H as (S & cols & payload & H).
  assert (N : in_load c0 id (bl_connection (snd (bulk_send oc powi10 row (w_script w) (bl_set_connection (w_conn w) r))))
                (snd (bulk_send oc powi10 row (w_script w) (bl_set_connection (w_conn w) r)))).
  { split; [eapply same_inbound_trans; [exact S|exact (bulk_send_side oc powi10 row (w_script w) (bl_set_connection (w_conn w) r))]|]. exists cols.
    assert (Same : forall r, bl_set_connection (bl_connection r) r = r) by (intros []; reflexivity). rewrite Same. destruct H as [L|B].
    - exact (bulk_send_any oc powi10 _ _ _ _ _ row (w_script w) _ W L).
    - destruct (bulk_send_broken oc powi10 row (w_script w) _ (proj1 B)) as (m & -> & _). eauto. }
  destruct (bulk_send _ _ _ _ _) as [[o script] r1]. cbn [snd] in N.
  destruct (IH (mkWorld script (bl_connection r1) (w_answers w)) r1 N) as (r' & w' & E & A & N'). eauto.
Qed.

(** On a connection that is not clean nothing happens. *)
Lemma dead_ensure c : c_poisoned c || c_desync c = true -> exists m, ensure_not_poisoned c = (Err (Protocol m), c).
Proof. intros H. unfold ensure_not_poisoned. destruct (c_poisoned c); [eauto|]. destruct (c_desync c); [eauto|discriminate]. Qed.
Lemma bulk_rows_dead rows : forall w r, c_poisoned (w_conn w) || c_desync (w_conn w) = true ->
  exists r', bulk_insert_rows oc powi10 rows r w = (Finished (Ok r'), w).
Proof.
  induction rows as [|row rows IH]; intros w r H; cbn [bulk_insert_rows]; [eauto|]. unfold bulk_send. cbn [bl_connection bl_set_connection].
  destruct (dead_ensure (w_conn w) H) as (m & ->). cbn [bl_connection bl_set_connection]. destruct w as [s c a]. apply IH, H.
Qed.
Lemma bulk_finalize_dead script c r : c_poisoned c || c_desync c = true ->
  exists m, bulk_finalize oc script (bl_set_connection c r) = (Finished (Err (Protocol m)), script, bl_set_connection c r).
Proof. intros H. unfold bulk_finalize. cbn [bl_connection bl_set_connection]. destruct (dead_ensure c H) as (m & ->). eauto. Qed.

Lemma bulk_end_ok c0 id c r script : conn_ok c0 -> c_poisoned c0 = false -> in_load c0 id c r ->
  conn_ok (bl_connection (snd (bulk_finalize oc script (bl_set_connection c r)))).
Proof.
  intros (W & I & B) P (S & cols & payload & H). destruct (packet_room _ W) as (R1 & R2 & _).
  pose proof (same_inbound_trans _ _ _ S (bulk_finalize_side oc script (bl_set_connection c r))) as (S1 & S2 & S3).
  split; [rewrite S3; exact W|]. split; [|unfold bytes_in; rewrite S1, S2; exact B]. destruct H as [L|Bk].
  - destruct (bulk_finalize_spec oc _ _ id cols payload script _ W L) as (o & s' & r' & -> & _ & w & Ew & Pw & D). cbn [snd].
    apply (wire_inv_write c0 _ _ w I P (whole_message _ (payload ++ done_bytes) _ R1 R2) Pw Ew).
    destruct D as [(_ & _ & ->)|(_ & ->)]; [reflexivity|discriminate].
  - destruct Bk as (Bp & w & Ew & Pw). cbn [bl_connection bl_set_connection] in *. destruct (bulk_finalize_dead script c r (proj2 (orb_true_iff _ _) (or_introl Bp))) as (m & ->).
    cbn [snd].
    apply (wire_inv_write c0 _ _ w I P (whole_message _ (payload ++ []) _ R1 R2) (Pw [])); [exact Ew|].
    cbn [bl_connection bl_set_connection]. intros X. rewrite X in Bp. discriminate.
Qed.

Lemma keeps_load rows r : keeps' (r <~ bulk_insert_rows oc powi10 rows r ;; bulk_insert_finalize oc r ;;; io_res (Ok tt)).
Proof.
  intros w [C F]. split; [|auto]. unfold io_bind at 1.
  assert (X : exists r' w', bulk_insert_rows oc powi10 rows r w = (Finished (Ok r'), w') /\ w_answers w' = w_answers w /\
    conn_ok (bl_connection (snd (bulk_finalize oc (w_script w') (bl_set_connection (w_conn w') r'))))).
  { destruct (c_poisoned (w_conn w) || c_desync (w_conn w)) eqn:D.
    - destruct (bulk_rows_dead rows w r D) as (r' & E). exists r', w. split; [exact E|]. split; [reflexivity|].
      destruct (bulk_finalize_dead (w_script w) (w_conn w) r' D) as (m & ->). exact C.
    - apply orb_false_iff in D as [P D].
      assert (N : in_load (w_conn w) (bl_packet_id r) (w_conn w) r).
      { split; [repeat split|]. exists (bl_columns r), (bl_buf r). left. split; cbn; auto. exists []. rewrite app_nil_r. auto. }
      destruct (bulk_rows_load _ _ rows (proj1 C) w r N) as (r' & w' & E & A & N'). exists r', w'. split; [exact E|]. split; [exact A|].
      exact (bulk_end_ok _ _ _ _ _ C P N'). }
  destruct X as (r' & w' & -> & A & K). apply continues; [|intros _; apply keeps_true]. apply continues.
  - apply exchange_ok; [rewrite A; exact F|]. destruct (bulk_finalize _ _ _) as [[o s1] r1]. exact K.
  - intros _. apply keeps_seq; [apply keeps_all_tokens|intros ts; apply keeps_true].
Qed.

Lemma keeps_rpc_params ps : keeps' (command_rpc_params oc alnum ps).
Proof.
  induction ps as [|p ps IH]; cbn [command_rpc_params]; [apply keeps_true|]. apply keeps_seq.
  - destruct (cp_data p) as [d|rows db]; [apply keeps_true|]. apply keeps_seq; [apply keeps_true|intros _].
    apply keeps_seq; [|intros cm; apply keeps_true]. apply keeps_asked. intros. apply request_ok. assumption.
  - intros v. apply keeps_seq; [exact IH|intros rest; apply keeps_true].
Qed.

Lemma keeps_call call : completed call -> keeps' (run_call oc powi10 alnum to_lowercase call).
Proof.
  destruct call as [q ps k|q k|q ps|body|name ps k|table columns|table columns options hints rows finalize|]; cbn [run_call completed]; intros Done.
  - apply keeps_opened. intros. apply request_ok. assumption.
  - apply keeps_opened. intros. apply request_ok. assumption.
  - apply keeps_seq; [|intros r; apply keeps_true]. apply keeps_asked. intros. apply request_ok. assumption.
  - apply keeps_transaction.
  - apply keeps_seq; [|intros _; apply keeps_seq; [apply keeps_pull|intros ts; apply keeps_true]].
    apply keeps_seq; [apply keeps_rpc_params|intros rpc]. apply keeps_exchange. intros. apply request_ok. assumption.
  - apply keeps_seq; [|intros r; apply keeps_true]. apply keeps_seq; [apply keeps_true|intros _].
    apply keeps_seq; [apply keeps_fetch|intros r; apply keeps_true].
  - apply keeps_seq; [apply keeps_bulk|intros r]. destruct finalize; [apply keeps_load|]. destruct Done as [->|[=]]. intros w H. split; [exact H|auto].
  - apply keeps_seq; [|intros r; apply keeps_true]. apply keeps_seq; [apply keeps_exchange; intros; apply attention_ok; assumption|intros _].
    apply keeps_reads. intros n. apply reads_flush_attention.
Qed.

Lemma keeps_calls calls : Forall completed (map fst calls) -> forall w, world_ok w -> world_ok (run_calls oc powi10 alnum to_lowercase calls w).
Proof.
  induction calls as [|[call script] calls IH]; intros D w [C F]; [split; assumption|]. inversion_clear D as [|? ? Dc Ds]. cbn [run_calls]. apply (IH Ds).
  apply (keeps_call call Dc (mkWorld script (w_conn w) (w_answers w))). split; assumption.
Qed.

(** *** A connection that is not clean refuses every call *)

(** Nothing is done and no value is given. *)
Definition refused {A} (m : Io A) (w : World) : Prop := exists o, m w = (o, w) /\ forall a, o <> Finished (Ok a).

Lemma refused_first {A B} (m : Io A) (k : A -> Io B) w : refused m w -> refused (io_bind m k) w.
Proof.
  intros (o & E & N). unfold refused, io_bind. rewrite E. destruct o as [[a|e| |]|]; [destruct (N a eq_refl)|eexists; split; [reflexivity|discriminate]..].
Qed.
Lemma refused_assoc {A B C} (m : Io A) (f : A -> Io B) (k : B -> Io C) w :
  refused (io_bind m (fun a => io_bind (f a) k)) w -> refused (io_bind (io_bind m f) k) w.
Proof. unfold refused, io_bind. destruct (m w) as [[[a|e| |]|] w1]; auto. Qed.
(** A check that touches nothing may come first. *)
Lemma refused_behind {A B} (r : Res A) (k : A -> Io B) w : (forall a, refused (k a) w) -> refused (io_bind (io_res r) k) w.
Proof. intros H. destruct r; [apply H|eexists; (split; [reflexivity|discriminate])..]. Qed.

(** The parameters of a command ask nothing, or what they ask is refused. *)
Lemma refused_params ps w : (forall h item, refused (exchange (request oc h item)) w) -> forall (k : list RpcParam -> Io unit),
  (forall rpc, refused (k rpc) w) -> refused (io_bind (command_rpc_params oc alnum ps) k) w.
Proof.
  intros X. induction ps as [|p ps IH]; intros k Hk; cbn [command_rpc_params]; [apply Hk|]. destruct (cp_data p) as [d|rows db].
  - apply refused_assoc. apply (refused_behind (Ok _)). intros v. apply refused_assoc. apply IH. intros rpc. apply Hk.
  - apply refused_first, refused_first, refused_behind. intros _. apply refused_first, refused_first, X.
Qed.

Lemma refused_call call w : c_poisoned (w_conn w) || c_desync (w_conn w) = true -> refused (run_call oc powi10 alnum to_lowercase call) w.
Proof.
  intros Dead. assert (X : forall h item, refused (exchange (request oc h item)) w).
  { intros h item. unfold refused, exchange. destruct (request_dead oc h item (w_script w) (w_conn w) Dead) as (m & ->).
    destruct w. eexists. split; [reflexivity|discriminate]. }
  assert (Y : refused (exchange (send_attention oc)) w).
  { unfold refused, exchange. destruct (dead_send oc (header_batch 0) (ret tt) (w_script w) (w_conn w) Dead) as (m & _ & _ & -> & _).
    destruct w. eexists. split; [reflexivity|discriminate]. }
  destruct call as [q ps k|q k|q ps|body|name ps k|table columns|table columns options hints rows finalize|]; cbn [run_call];
    try (repeat first [apply X|exact Y|apply refused_first]; fail); try (repeat first [apply X|apply refused_behind; intros ?|apply refused_first]; fail).
  apply refused_first. apply refused_params; [apply X|intros rpc; apply X].
Qed.

(** ** Properties *)

(** C3: a client never sends anything behind a torn message, however it is
    used: take any calls of the public interface (queries, batches,
    executions, transaction requests, stored procedures with table-valued
    parameters and the queries for their types, column metadata, bulk inserts
    with any rows, encodable or not, cancellations), read any part of each
    answer, let the server answer with any bytes and let every write complete,
    fail or be dropped at any await point, between two rows of a bulk load
    too; the wire carries whole messages, with at most a part of one more at
    its end, and when there is such a part every further call of any kind
    gives no value and writes nothing.  A bulk request that was given rows
    must be finalized, whatever becomes of that: one that is dropped instead
    leaves its message open on a connection that stays usable. *)
Theorem api_never_torn (calls : list (Call * list Await)) (ctx : Context) (inbound : bytes) (answers : list bytes)
  (W : wf_context ctx) (Wi : wf_bytes inbound) (Wa : Forall wf_bytes answers) (Done : Forall completed (map fst calls)) :
  let c := w_conn (run_calls oc powi10 alnum to_lowercase calls (mkWorld [] (connection_new ctx inbound) answers)) in
  exists msgs m part, Forall whole msgs /\ whole m /\ prefix part m /\ c_out c = concat msgs ++ part /\
    (part <> [] -> forall call more rest, exists o,
       run_call oc powi10 alnum to_lowercase call (mkWorld more c rest) = (o, mkWorld more c rest) /\ forall u, o <> Finished (Ok u)).
Proof.
  intros c. assert (H : conn_ok c).
  { apply (keeps_calls _ Done). split; [|exact Wa]. split; [exact W|]. split; [|split; [constructor|exact Wi]].
    exists [], (packet_bytes (mkPacket (header_attention 0) [])), []. split; [constructor|]. split; [apply whole_attention|].
    split; [apply prefix_nil|]. split; reflexivity. }
  destruct H as (_ & (msgs & m & part & H1 & H2 & H3 & H4 & H5) & _). exists msgs, m, part. repeat split; auto.
  intros Hn call more rest. apply (refused_call call (mkWorld more c rest)). cbn [w_conn]. destruct (c_poisoned c) eqn:P; [reflexivity|elim Hn; auto].
Qed.

(** ** Cancelling *)

(** What the drain after an Attention makes of the round it stops at. *)
Definition attention_verdict (r : Res (option ReceivedToken)) : Res TokenDone :=
  match r with
  | Ok (Some t) => match attention_done t with Some d => Ok d | None => Panic end
  | Ok None => Err (Protocol "Never got a DONE token acknowledging the Attention signal.")
  | Err e => Err e
  | Panic | OutOfFuel => Panic
  end.

(** An undisturbed Attention. *)
Lemma attention_calm c : c_poisoned c = false -> c_desync c = false ->
  send_attention oc [] c = (Finished (Ok tt), [],
    mkConnection (c_in c) (c_out c ++ packet_bytes (mkPacket (header_attention (packet_id (c_ctx c))) [])) false
      (snd (next_packet_id (c_ctx c))) (c_buf c) false (c_desync c)).
Proof.
  intros P D. unfold send_attention, ensure_not_poisoned. rewrite P, D. cbn [next_packet_id]. unfold write_to_wire.
  rewrite packet_encode_empty by (vm_compute; discriminate). cbn. rewrite D. reflexivity.
Qed.

End Operations.

(** ** Witnesses *)

#[local] Instance api_encodings : EncodingRs := ascii_encoding_rs.

(** A server that is still answering: a DONE with more to come, cut by a
    packet boundary, and the DONE that acknowledges the Attention. *)
Definition more_packets : list Packet :=
  [sent (mkPacket (set_status PacketStatus.NormalMessage (header_batch 1)) ([0xFD; 1] ++ repeat 0 11 ++ [0xFD]))].
Definition ack : bytes := [0xFD; 0x20] ++ repeat 0 11.
Definition ack_packets : list Packet := [sent (mkPacket (set_status PacketStatus.EndOfMessage (header_batch 2)) (drop 1 ack))].
Definition conn_answering : Connection := connection_new context_new (raws more_packets).


(** A bulk load of three rows, one of which does not fit its column, whose
    end is dropped three bytes into its packet; a cancellation, a batch and
    another bulk insert behind it. *)
Definition loaded_rows (script : list Await) : Call * list Await :=
  (CallBulkInsert (ascii_str "t") [ascii_str "*"] 0 [] load_rows true, script).
Definition torn_calls : list (Call * list Await) :=
  [loaded_rows (repeat Completes 4 ++ [Dropped 3]); (CallCancel, []); (CallSimpleQuery (ascii_str "SELECT 1") 1, []); loaded_rows []].
Definition load_answers : list bytes := [raws (one_packet (load_metadata ++ done_token)); raws (one_packet done_token); raws (one_packet done_token)].
Definition after_calls (calls : list (Call * list Await)) : Connection :=
  w_conn (run_calls true no_powi (fun _ => true) id calls (mkWorld [] (connection_new context_new []) load_answers)).

(** Undisturbed the load is three messages of 273 bytes; torn it ends three
    bytes into the third, and nothing follows. *)
Lemma api_never_torn_witness : Forall completed (map fst torn_calls) /\
  len (c_out (after_calls [loaded_rows []])) = 273 /\ len (c_out (after_calls torn_calls)) = 229 /\
  exists msgs m part, Forall whole msgs /\ whole m /\ prefix part m /\ c_out (after_calls torn_calls) = concat msgs ++ part /\
    (part <> [] -> forall script, exists o,
       run_call true no_powi (fun _ => true) id (fst (loaded_rows [])) (mkWorld script (after_calls torn_calls) load_answers) =
         (o, mkWorld script (after_calls torn_calls) load_answers)).
Proof.
  assert (Done : Forall completed (map fst torn_calls)) by (repeat constructor; vm_compute; tauto).
  split; [exact Done|]. split; [vm_compute; reflexivity|]. split; [vm_compute; reflexivity|].
  destruct (api_never_torn true no_powi (fun _ => true) id torn_calls context_new [] load_answers wf_context_new ltac:(constructor)
    ltac:(repeat constructor; vm_compute; congruence) Done) as (msgs & m & part & H1 & H2 & H3 & H4 & H5).
  exists msgs, m, part. split; [exact H1|]. split; [exact H2|]. split; [exact H3|]. split; [exact H4|].
  intros N script. destruct (H5 N (fst (loaded_rows [])) script load_answers) as (o & E & _). exists o. exact E.
Defined.

(** ** Out of step *)

(** A cancellation that comes too late: the answer was complete, though unread,
    when the Attention arrived, and the server acknowledges it in a message
    of its own.  The cancellation fails at the end of the first message and
    leaves the acknowledgement on a connection that stays usable: the next
    request takes it for its answer, so that a transaction that was begun is
    reported while the session is in none, and the request after that gets
    the answer of the one before. *)
Definition acknowledged : bytes := raws (one_packet ack).
Definition late_world : World := mkWorld [] (connection_new context_new (raws (one_packet done_token))) [acknowledged; raws (one_packet begun)].

Lemma late_cancel_out_of_step :
  exists w, cancel_query true late_world = (Finished (Err (Protocol "Never got a DONE token acknowledging the Attention signal.")), w) /\
    c_poisoned (w_conn w) = false /\ c_in (w_conn w) = acknowledged /\
    exists w', begin_transaction true w = (Finished (Ok tt), w') /\ transaction_desc (c_ctx (w_conn w')) = repeat 0 8 /\
      c_in (w_conn w') = raws (one_packet begun) /\ is_eof (w_conn w') = true.
Proof.
  exists (snd (cancel_query true late_world)). do 3 (split; [vm_compute; reflexivity|]).
  exists (snd (begin_transaction true (snd (cancel_query true late_world)))). do 3 (split; [vm_compute; reflexivity|]). vm_compute. reflexivity.
Qed.

(** A request that cannot be encoded leaves an idle connection waiting: [send]
    has cleared the flag of the end of the response before it encodes, so the
    flush of the next request waits for a message nobody was asked for, here
    the end of the transport. *)
Lemma unencodable_leaves_waiting :
  let name := repeat 65 256 in
  is_eof conn_idle = true /\
  exists e w, save_transaction true name (mkWorld [] conn_idle []) = (Finished (Err e), w) /\
    c_out (w_conn w) = [] /\ c_poisoned (w_conn w) = false /\ c_flushed (w_conn w) = false.
Proof.
  split; [reflexivity|]. eexists _, (snd (save_transaction true (repeat 65 256) (mkWorld [] conn_idle []))).
  do 3 (split; [vm_compute; reflexivity|]). vm_compute. reflexivity.
Qed.
